(* ===== verification/_CoqProject ===== *)
-Q . S2P
Prelude.v
Sha256.v
Json.v
JsonRoundTrip.v
JsonDump.v
JsonParser.v
JsonDestroy.v
Signature.v
Transaction.v
Block.v
Message.v
Database.v
Comms.v
Node.v
Validator.v
System.v
Network.v
Bracha.v
Delivery.v
Wallet.v
Programs.v
Payment.v
Demo.v
Wrapper.v
