(* ===== verification/Prelude.v ===== *)
(** * COSICoin: a verification of the cryptocurrency's core

    The repository (src/) is a C++ program.  Wallets send transactions to the leader of a group of
    validators; the validators agree on blocks of transactions with Bracha's reliable broadcast and keep, for
    each wallet, the list of its unspent coins (UTXOs).  Every transaction and every block is signed with
    a one-time (Lamport) key; a signer announces the key of its next signature with the current one.

    This library translates that program into Rocq definitions and proves what they do, including the places
    where the program does not do what it means to.

    ** The files, in dependency order

    - [Prelude]: the [outcome] monad (a result, an exception, undefined behaviour, or code outside the
      fragment), loops that may leave early, C++ integers with their wrap-around ([u16], [u32], [u64], [i32]),
      strings as bytes.
    - [Sha256] (src/lib/signature/sha256.cc): the streaming hasher, as it is, and FIPS 180-4 as a reference
      definition; [hasher_refines_fips] relates them for every way of cutting the input into chunks.
      The class [Hash] is the interface through which the other files use [signature::hash].
    - [Json], [JsonRoundTrip] (src/include/json/json.hpp): the value type and the accessors of the vendored
      JSON library for values without floating-point numbers, and what its serializer and parser compute,
      as recursive functions; the reader takes fuel, and [parse_terminates] shows that twice the length of
      the text plus one is enough.
    - [JsonDump], [JsonParser]: the serializer and the parser as the library has them: the number and string
      buffers, the table of digit pairs, the UTF-8 automaton, the indentation string; the tokens, the stack of
      open containers, the consumer that builds the value through references into it.
      [serializer_refines] and [basic_json_parse_refines] show that they compute those functions.  The
      parser's loop runs at most once per character and once more; an integer of 64 bits takes at most
      five rounds of [count_digits] and ten of [write_digits].
    - [JsonDestroy]: how the library destroys a value: with a stack, so that the depth of the calls does not depend
      on the nesting ([destroy_releases]); the loop takes one turn per value.
    - [Signature] (src/lib/signature/hash.cc): key generation from /dev/urandom (a parameter that may fail at
      any read), signing, verifying, text forms of keys and signatures.
    - [Transaction] (input, output, utxo, transaction under src/include/blockchain and src/lib/blockchain):
      the checks, the digest, the protocol-buffer and JSON forms.  Module [chat] holds the messages of
      chat.proto as the generated accessors show them.
    - [Block] (header, block): Merkle roots, the life of a block from mutable to finalized and signed, its
      verification, its forms.
    - [Message] (message): the messages of the broadcast.
    - [Database] (src/lib/database/database.cc; module [Settings]: src/lib/config/settings.cc): the chain of
      blocks and the settings, on a file system of contents and writable names.
    - [Comms] (src/lib/comms): the queues and sending threads of a validator's client, and the call objects and
      queues of the server.  The class [Client] states what a node needs of its client; the instance
      [validator_client] shows that the client provides it.  The gRPC transport and the completion queue are
      the environment: which call arrives when is free.
    - [Node] (src/lib/bracha/node.cc): a node of the broadcast, against [Client]: its key chain, counting of
      messages, the three kinds of broadcast, delivery, the leader and the faulty node.  Parameters: the
      random device, the order in which a hash table is walked, and what reading an erased key gives.
    - [Validator] (src/lib/cryptowallet/validator.cc): the event handler, receiving transactions, creating
      blocks, and what an agreed block does to the coins.
    - [System] (the threads of validator.cc and validator.h): a whole validator process as a step
      relation on server, node, validator, event handler and the local variables that tasks refer to.
    - [Network]: several of these processes, with the sending threads of their clients (src/lib/comms), and the
      connections between them: a message that was handed to a stub arrives at the other server, in order, or
      is lost.  Invariants over all interleavings of all threads.
    - [Bracha], [Delivery]: the broadcast of one block as an abstract protocol of parties that count
      messages, and the proof that the network can follow each of its runs; a schedule in which every
      party that goes on working delivers, for any number of parties, while the others have stopped.
    - [Wallet] (src/lib/cryptowallet/wallet.cc, src/lib/json/jsonparser.cc): from the file that describes a
      transaction to the message that goes to the leader.
    - [Programs] (src/src/wallet_interactive.cc; module [Logger]: src/include/bracha/logging.h): the interactive wallet,
      with what it uses of [std::cin] (module [istream]).
    - [Payment]: the composition of all of this: the run of a network from the request of a wallet to the
      lists of coins.
    - [Demo] (src/src/demo.cc): the demonstration, which sets up four validators and their wallets from
      settings_demo.json and makes the payments of tx1.json and tx2.json.
    - [Wrapper] (src/lib/interf): the driver of the SHA-256 circuit; the circuit is the class [Circuit].  Module
      [HandTest] (src/verilog_code/main.c): the test of the circuit by hand.

    ** What the theorems show

    - Broadcast: a node sends READY at most once for a block, and sends and delivers only on the counts
      the code asks for ([broadcast_rules]); one validator alone can make it deliver
      ([one_validator_delivers]); f silent validators keep it from delivering
      ([silent_nodes_block_delivery]); the chain of keys of a correct signer never breaks ([keys_chain]).
    - Networks: whatever is delivered was proposed by a leader, and more than [2 f + 1] processes have sent
      READY to all ([delivery_has_quorum], [messages_have_origin]); the network implements the abstract protocol
      ([protocol_followed]); and from the memory pool of the leader there is a run at whose end all
      processes that go on working have delivered its block ([pool_block_delivered]).  In the network no
      process lies and a connection keeps the order; the abstract protocol leaves out the runs in which a process
      goes on reading from a sender after a message between two that arrived was lost, because the key for
      the later one is then unknown.
    - Payments: a payment from the wallet to the coins of all validators that go on working
      ([payment_settles]): the coin of the sender is taken away, and nobody gets what it was worth; the
      witness is the demonstration, with the files of the repository.  What the interactive wallet pays
      ([interactive_payment]), and why no validator accepts it ([interactive_transactions_mismatched]).
    - Processes: over all interleavings of the threads no coin is ever created ([coins_never_appear]), only first
      coins can be spent ([only_first_coins_spendable]), there is at most one agreement
      ([first_agreement_is_last]), and the second transaction event is fatal ([second_request_undefined]).
    - Transactions and blocks: exactly when they are valid; what their digests and roots bind; the pool
      and the created blocks ([OnRecvTx_spec], [created_block_verifies]); agreed blocks against a
      reference definition of spending ([agreed_block_erases]); what a wallet makes of a description ([CreateTx_spec]).
    - Signatures: generation, signing and verification fit together; a forgery inverts the hash; reuse of a key
      and the crop to 32 characters make forgeries.
    - Forms: values survive JSON and protocol buffers; the library's serializer and parser against recursive
      functions; the queues of client and server lose, repeat and
      reorder nothing ([client_fifo], [server_accepts]).
    - The circuit: the test by hand and the driver write the same registers for the same block
      ([hand_test_drives]), and the block of the test is a padded message; but what the driver sends
      is not, for any message that does not begin with a zero byte ([driver_misses_first_word]); how long the driver's padding is ([padding_length]).

    ** Conventions

    Members and functions keep the names of the source; a name that Rocq or another class already uses has a
    prefix or suffix ([Input_txID], [Wallet_UpdateKeys]).  An object is a record and a method a function
    on it.  Members that a constructor leaves without a value take it from a parameter called [memory].
    Loops over containers are structural; fuel occurs in the JSON files (see above) and in the wait for the
    circuit, where running out of it means that the circuit has not answered yet.  A step of a thread
    is what happens between two operations on shared state under its mutex.  Two kinds of undefined behaviour
    would end every run at once, and runs continue past them with what compiled code does: the second unlock
    of a mutex ([stray_unlocks] counts them) and the missing [return] of functions whose value nobody
    uses ([OnTxReply], [OnSyncReply] show it in their result).

    ** Not modelled

    In json.hpp: floating-point values, comments, [ensure_ascii], the error handlers other than the strict one
      and the callbacks of the parser, which the program does not use; binary formats, iterators, pointers and
      patches.  Faulty processes in a network, other than those that stop.  Output to [std::cout], and which lines
      the nodes log; the gRPC and protocol-buffer libraries and generated code; clocks and sleeping; data races on
      members that two threads use without a common mutex.  The other programs of src/src: validator_ex.cc,
      node_ex.cc and client_ex.cc do not compile against the classes as they are; node_test_ex.cc, server_ex.cc,
      server_client_test.cc, hash_test_ex.cc, database_test_ex.cc and log_test.cc call what is modelled here and
      print; hash_timings.cc measures times.  Headers that nothing uses (common.h, include/database.h), and
      options-pinned.h, which configures a library. *)
From Stdlib Require Export Ascii ZArith Lia Bool.
From stdpp Require Export base gmap strings list pretty.

(** * Outcomes of C++ code *)

(** The exceptions the modelled code throws. *)
Inductive exn :=
| runtime_error (what : string)
| invalid_argument (what : string)
| json_parse_error
| json_type_error (id : Z)
| json_out_of_range (id : Z)
| assertion_failed.

(** The sources of undefined behaviour the modelled code can reach. *)
Inductive ub :=
| out_of_bounds
| null_deref
| dangling_read
| missing_return
| uninitialised_read
| foreign_unlock
| signed_overflow.

(** [Ok a]: the call returned [a].  [Throw e]: it threw [e].  [Undef u]: the C++ standard gives
    the call no meaning.  [Unmodelled]: it left the fragment this development covers (only
    JSON floating-point numbers do). *)
Inductive outcome (A : Type) :=
| Ok (a : A)
| Throw (e : exn)
| Undef (u : ub)
| Unmodelled.
Arguments Ok {A} a.
Arguments Throw {A} e.
Arguments Undef {A} u.
Arguments Unmodelled {A}.

#[export] Instance exn_eq_dec : EqDecision exn.
Proof. solve_decision. Defined.
#[export] Instance ub_eq_dec : EqDecision ub.
Proof. solve_decision. Defined.
#[export] Instance outcome_eq_dec `{EqDecision A} : EqDecision (outcome A).
Proof. solve_decision. Defined.

#[export] Instance outcome_ret : MRet outcome := fun A a => Ok a.
#[export] Instance outcome_bind : MBind outcome := fun A B f m =>
  match m with
  | Ok a => f a
  | Throw e => Throw e
  | Undef u => Undef u
  | Unmodelled => Unmodelled
  end.
#[export] Instance outcome_fmap : FMap outcome := fun A B f m =>
  match m with
  | Ok a => Ok (f a)
  | Throw e => Throw e
  | Undef u => Undef u
  | Unmodelled => Unmodelled
  end.

(** Reads of a C++ array or vector: [operator[]] past the end is undefined behaviour. *)
Definition read {A} (l : list A) (i : nat) : outcome A :=
  match l !! i with Some x => Ok x | None => Undef out_of_bounds end.

(** A loop over a list whose body may leave early. *)
Fixpoint foldM {A S} (f : S -> A -> outcome S) (s : S) (l : list A) : outcome S :=
  match l with
  | [] => Ok s
  | x :: l' => s' ← f s x; foldM f s' l'
  end.

Fixpoint outcome_mapM {A B} (f : A -> outcome B) (l : list A) : outcome (list B) :=
  match l with
  | [] => Ok []
  | x :: l' => y ← f x; ys ← outcome_mapM f l'; Ok (y :: ys)
  end.

Lemma foldM_app {A S} (f : S -> A -> outcome S) s l1 l2 :
  foldM f s (l1 ++ l2) = (s' ← foldM f s l1; foldM f s' l2).
Proof.
  revert s. induction l1 as [|x l1 IH]; intros s; [done|]. cbn.
  destruct (f s x); cbn; [apply IH|done..].
Qed.

Lemma foldM_snoc {A S} (f : S -> A -> outcome S) s l x :
  foldM f s (l ++ [x]) = (s' ← foldM f s l; f s' x).
Proof. rewrite foldM_app. destruct (foldM f s l); cbn; [by destruct (f _ x)|done..]. Qed.

Lemma bind_Ok {A B} (m : outcome A) (f : A -> outcome B) b :
  (m ≫= f) = Ok b -> exists a, m = Ok a /\ f a = Ok b.
Proof. destruct m as [a| | |]; cbn; [by exists a|done..]. Qed.

(** A loop that keeps an invariant, if it ends. *)
Lemma foldM_inv {A S} (P : S -> Prop) (f : S -> A -> outcome S) l :
  (forall s x s', P s -> f s x = Ok s' -> P s') ->
  forall s s', P s -> foldM f s l = Ok s' -> P s'.
Proof.
  intros Hf. induction l as [|x l IH]; intros s s' Hs; cbn; [by intros [= <-]|].
  intros (s1 & E & Hl)%bind_Ok. eapply IH, Hl. by eapply Hf.
Qed.

(** A loop over [0 .. n - 1] that keeps an invariant. *)
Lemma foldM_seq_inv {X} (P : nat -> X -> Prop) (f : X -> nat -> outcome X) n s :
  P 0%nat s -> (forall k s, (k < n)%nat -> P k s -> exists s', f s k = Ok s' /\ P (k + 1)%nat s') ->
  exists s', foldM f s (seq 0 n) = Ok s' /\ P n s'.
Proof.
  intros H0 Hs. induction n as [|n IH]; [by exists s|].
  destruct IH as (s' & E & Hn); [intros k s' Hk; apply Hs; lia|].
  rewrite seq_S, foldM_snoc, E. cbn. replace (S n) with (n + 1)%nat by lia. apply Hs; [lia|done].
Qed.

Lemma list_lookup_map {A B} (f : A -> B) l i : map f l !! i = option_map f (l !! i).
Proof. revert i. induction l as [|x l IH]; intros [|i]; cbn; auto. Qed.

Lemma lookup_nth {A} (l : list A) i d : (i < length l)%nat -> l !! i = Some (nth i l d).
Proof. revert i. induction l as [|x l IH]; intros [|i] Hi; cbn in *; [lia..|done|]. apply IH. lia. Qed.

Lemma forallb_seq (p : nat -> bool) n :
  forallb p (seq 0 n) = true -> forall i, (i < n)%nat -> p i = true.
Proof. rewrite forallb_forall. intros Hp i Hi. apply Hp, in_seq. lia. Qed.

(** A decision over the numbers below a bound. *)
Lemma forallb_N (p : N -> bool) n :
  forallb (fun k => p (N.of_nat k)) (seq 0 n) = true -> forall i, (i < N.of_nat n)%N -> p i = true.
Proof.
  intros Hp i Hi. rewrite <- (N2Nat.id i).
  apply (forallb_seq (fun k => p (N.of_nat k)) n Hp). lia.
Qed.

Lemma foldl_snoc_map {A B} (f : A -> B) l : forall acc,
  foldl (fun l x => l ++ [f x]) acc l = acc ++ map f l.
Proof.
  induction l as [|x l IH]; intros acc; cbn; [by rewrite app_nil_r|].
  by rewrite IH, <- app_assoc.
Qed.

Lemma map_self {A} (f : A -> A) l : (forall x, f x = x) -> map f l = l.
Proof. intros Hf. rewrite (map_ext _ id) by done. apply map_id. Qed.

Lemma foldM_ext {A S} (f g : S -> A -> outcome S) s l :
  (forall s x, f s x = g s x) -> foldM f s l = foldM g s l.
Proof.
  intros E. revert s. induction l as [|x l IH]; intros s; [done|]. cbn. rewrite E.
  destruct (g s x); cbn; [apply IH|done..].
Qed.

Lemma foldM_map {A B S} (f : S -> B -> outcome S) (h : A -> B) s l :
  foldM f s (map h l) = foldM (fun s x => f s (h x)) s l.
Proof.
  revert s. induction l as [|x l IH]; intros s; [done|]. cbn.
  destruct (f s (h x)); cbn; [apply IH|done..].
Qed.

Lemma outcome_mapM_ok {A B} (f : A -> outcome B) (g : A -> B) l :
  Forall (fun x => f x = Ok (g x)) l -> outcome_mapM f l = Ok (map g l).
Proof. induction 1 as [|x l Hx _ IH]; [done|]. cbn. by rewrite Hx, IH. Qed.

(** What a loop over a list yields, when each turn succeeds. *)
Lemma outcome_mapM_total {A B} (g : A -> outcome B) (P : nat -> A -> B -> Prop) l :
  (forall i x, l !! i = Some x -> exists y, g x = Ok y /\ P i x y) ->
  exists ys, outcome_mapM g l = Ok ys /\ length ys = length l /\
    forall i x y, l !! i = Some x -> ys !! i = Some y -> P i x y.
Proof.
  revert P. induction l as [|x l IH]; intros P Hg; [by exists []|].
  destruct (Hg 0%nat x eq_refl) as (y & Ey & Hy). destruct (IH (fun i => P (S i))) as (ys & E & Hl & Hys).
  { intros i z Hz. by apply (Hg (S i)). }
  exists (y :: ys). cbn. rewrite Ey, E. cbn. split_and!; [done|by f_equal|].
  intros [|i] z u; cbn; [by intros [= <-] [= <-]|apply Hys].
Qed.

Lemma outcome_mapM_map {A B C} (f : B -> outcome C) (h : A -> B) l :
  outcome_mapM f (map h l) = outcome_mapM (fun x => f (h x)) l.
Proof. induction l as [|x l IH]; [done|]. cbn. by rewrite IH. Qed.

Lemma read_ok {A} (l : list A) i x : l !! i = Some x -> read l i = Ok x.
Proof. unfold read. by intros ->. Qed.

(** Reading every position of a list in order. *)
Lemma outcome_mapM_read {A} (l : list A) n :
  length l = n -> outcome_mapM (read l) (seq 0 n) = Ok l.
Proof.
  intros <-. rewrite <- (Nat.add_0_l 0).
  cut (forall pre, outcome_mapM (read (pre ++ l)) (seq (length pre) (length l)) = Ok l);
    [intros Hc; exact (Hc [])|].
  induction l as [|x l IH]; intros pre; [done|]. cbn [length seq outcome_mapM].
  rewrite (read_ok _ _ x) by (by apply list_lookup_middle). cbn.
  specialize (IH (pre ++ [x])). rewrite length_app, <- app_assoc, Nat.add_1_r in IH. cbn in IH.
  by rewrite IH.
Qed.

(** * Machine integers

    A [w]-bit unsigned value is a [Z] in [[0, 2^w)]; the conversions below are the C++
    integral conversions, so wrap-around is visible wherever the code converts or overflows. *)

Definition u8 (x : Z) : Z := x mod 2 ^ 8.
Definition u16 (x : Z) : Z := x mod 2 ^ 16.
Definition u32 (x : Z) : Z := x mod 2 ^ 32.
Definition u64 (x : Z) : Z := x mod 2 ^ 64.
(** Conversion to [int]: modulo [2^32], into the signed range. *)
Definition i32 (x : Z) : Z := (x + 2 ^ 31) mod 2 ^ 32 - 2 ^ 31.

#[global] Arguments u8 : simpl never.
#[global] Arguments u16 : simpl never.
#[global] Arguments u32 : simpl never.
#[global] Arguments u64 : simpl never.
#[global] Arguments i32 : simpl never.

Definition is_u8 (x : Z) : Prop := (0 <= x < 2 ^ 8)%Z.
Definition is_u16 (x : Z) : Prop := (0 <= x < 2 ^ 16)%Z.
Definition is_u32 (x : Z) : Prop := (0 <= x < 2 ^ 32)%Z.
Definition is_u64 (x : Z) : Prop := (0 <= x < 2 ^ 64)%Z.

Lemma u32_small x : is_u32 x -> u32 x = x.
Proof. intros H. by apply Z.mod_small. Qed.
Lemma u64_small x : is_u64 x -> u64 x = x.
Proof. intros H. by apply Z.mod_small. Qed.
Lemma u16_small x : is_u16 x -> u16 x = x.
Proof. intros H. by apply Z.mod_small. Qed.

(** The unsigned bytes of a [std::string], and back. *)
Definition bytes_of (s : string) : list Z :=
  map (fun c => Z.of_N (Ascii.N_of_ascii c)) (String.list_ascii_of_string s).
Definition string_of_bytes (l : list Z) : string :=
  String.string_of_list_ascii (map (fun b => Ascii.ascii_of_N (Z.to_N b)) l).

(** ** Bits of bounded integers *)

Lemma testbit_small a n i :
  (0 <= a < 2 ^ n)%Z -> (0 <= n <= i)%Z -> Z.testbit a i = false.
Proof.
  intros Ha Hi. rewrite <- (Z.mod_small a (2 ^ n)) by done. apply Z.mod_pow2_bits_high; lia.
Qed.

(** Disjoint bit fields add up. *)
Lemma lor_shiftl_add a b n :
  (0 <= n)%Z -> (0 <= a < 2 ^ n)%Z -> Z.lor a (Z.shiftl b n) = (a + b * 2 ^ n)%Z.
Proof.
  intros Hn Ha.
  assert (H0 : Z.land a (Z.shiftl b n) = 0%Z).
  { apply Z.bits_inj'. intros i Hi. rewrite Z.land_spec, Z.bits_0.
    destruct (Z.ltb_spec i n).
    - rewrite (Z.shiftl_spec_low b n i) by lia. apply andb_false_r.
    - by rewrite (testbit_small a n) by lia. }
  rewrite <- Z.lxor_lor, <- Z.add_nocarry_lxor, Z.shiftl_mul_pow2 by done. done.
Qed.

(** * Strings *)

Lemma string_app_nil (s : string) : "" +:+ s = s.
Proof. reflexivity. Qed.
Lemma string_app_cons c (s t : string) : String c s +:+ t = String c (s +:+ t).
Proof. reflexivity. Qed.
Lemma string_app_nil_r (s : string) : s +:+ "" = s.
Proof. induction s as [|c s IH]; [done|]. by rewrite string_app_cons, IH. Qed.
Lemma string_app_assoc (a b c : string) : (a +:+ b) +:+ c = a +:+ (b +:+ c).
Proof. induction a as [|x a IH]; [done|]. by rewrite !string_app_cons, IH. Qed.
Lemma string_length_app (s t : string) :
  String.length (s +:+ t) = (String.length s + String.length t)%nat.
Proof. induction s as [|c s IH]; [done|]. rewrite string_app_cons. cbn. by rewrite IH. Qed.
Lemma list_ascii_app s t :
  String.list_ascii_of_string (s +:+ t)
  = String.list_ascii_of_string s ++ String.list_ascii_of_string t.
Proof. induction s as [|c s IH]; [done|]. rewrite string_app_cons. cbn. by rewrite IH. Qed.

Create Rewrite HintDb str.
#[export] Hint Rewrite string_app_nil string_app_cons string_app_nil_r string_app_assoc
  string_length_app : str.
