(* ===== verification/Sha256.v ===== *)
(** SHA-256 (src/lib/signature/sha256.cc): the streaming hasher of the repository, word by word
    and array write by array write, with its refinement to the FIPS 180-4 function. *)
From S2P Require Import Prelude.
Local Open Scope Z_scope.

(** * 32-bit words *)

(** Addition of [uint32_t] values. *)
Definition wadd (x y : Z) : Z := u32 (x + y).
Notation "x ⊞ y" := (wadd x y) (at level 50, left associativity).
(** [~x] on [uint32_t]. *)
Definition wnot (x : Z) : Z := u32 (Z.lnot x).

Definition rotate (a c : Z) : Z := Z.lor (Z.shiftr a c) (u32 (Z.shiftl a (32 - c))).

Definition swap (x : Z) : Z :=
  Z.lor (Z.lor (Z.lor (Z.shiftr x 24)
                      (Z.land (Z.shiftr x 8) 0x0000FF00))
               (Z.land (u32 (Z.shiftl x 8)) 0x00FF0000))
        (u32 (Z.shiftl x 24)).

Definition f1 (e f g : Z) : Z :=
  let term1 := Z.lxor (Z.lxor (rotate e 6) (rotate e 11)) (rotate e 25) in
  let term2 := Z.lxor (Z.land e f) (Z.land (wnot e) g) in
  term1 ⊞ term2.

Definition f2 (a b c : Z) : Z :=
  let term1 := Z.lxor (Z.lxor (rotate a 2) (rotate a 13)) (rotate a 22) in
  let term2 := Z.lor (Z.land (Z.lor a b) c) (Z.land a b) in
  term1 ⊞ term2.

(** * The hasher object *)

(** Eight 32-bit registers: the chaining value [m_hash] and the working variables [a..h]. *)
Record regs := Regs { ra : Z; rb : Z; rc : Z; rd : Z; re : Z; rf : Z; rg : Z; rh : Z }.

Record SHA256 := mkSHA256 {
  m_numBytes : Z;      (** [uint64_t] *)
  m_bufferSize : nat;
  m_buffer : list Z;   (** [uint8_t [64]] *)
  m_hash : regs
}.

Definition BlockSize : nat := 64.

Definition initial_hash : regs :=
  Regs 0x6a09e667 0xbb67ae85 0x3c6ef372 0xa54ff53a 0x510e527f 0x9b05688c 0x1f83d9ab 0x5be0cd19.

(** [reset] leaves the bytes of [m_buffer] as they are. *)
Definition reset (s : SHA256) : SHA256 :=
  mkSHA256 0 0 (m_buffer s) initial_hash.

(** The constructor: the array [m_buffer] holds whatever the memory held. *)
Definition SHA256_new (memory : list Z) : SHA256 :=
  reset (mkSHA256 0 0 memory initial_hash).

(** ** processBlock *)

(** [((uint32_t* )data)[i]] on a little-endian machine. *)
Definition load32 (data : list Z) (i : nat) : Z :=
  let b k := nth (4 * i + k) data 0 in
  Z.lor (Z.lor (Z.lor (b 0%nat) (Z.shiftl (b 1%nat) 8)) (Z.shiftl (b 2%nat) 16))
        (Z.shiftl (b 3%nat) 24).

Definition input_words (data : list Z) : list Z :=
  map (fun i => swap (load32 data i)) (seq 0 16).

(** [words[i]]. *)
Definition word (words : list Z) (i : nat) : Z := nth i words 0.

(** The body of the extension loops at [i = length words]. *)
Definition next_word (words : list Z) : Z :=
  let i := length words in
  let w15 := word words (i - 15) in
  let w2 := word words (i - 2) in
  word words (i - 16)
  ⊞ Z.lxor (Z.lxor (rotate w15 7) (rotate w15 18)) (Z.shiftr w15 3)
  ⊞ word words (i - 7)
  ⊞ Z.lxor (Z.lxor (rotate w2 17) (rotate w2 19)) (Z.shiftr w2 10).

(** [for (; i < i + n; i++) words[i] = ...]. *)
Fixpoint extend (n : nat) (words : list Z) : list Z :=
  match n with
  | O => words
  | S n' => extend n' (words ++ [next_word words])
  end.

(** Eight unrolled steps, with the working variables rotating by name as in the code; [k0..k7]
    are the literals of a round and [w0..w7] the words it reads. *)
Definition mix8 (k0 k1 k2 k3 k4 k5 k6 k7 w0 w1 w2 w3 w4 w5 w6 w7 : Z) (s : regs) : regs :=
  let '(Regs a b c d e f g h) := s in
  let x := h ⊞ f1 e f g ⊞ k0 ⊞ w0 in let y := f2 a b c in let d := d ⊞ x in let h := x ⊞ y in
  let x := g ⊞ f1 d e f ⊞ k1 ⊞ w1 in let y := f2 h a b in let c := c ⊞ x in let g := x ⊞ y in
  let x := f ⊞ f1 c d e ⊞ k2 ⊞ w2 in let y := f2 g h a in let b := b ⊞ x in let f := x ⊞ y in
  let x := e ⊞ f1 b c d ⊞ k3 ⊞ w3 in let y := f2 f g h in let a := a ⊞ x in let e := x ⊞ y in
  let x := d ⊞ f1 a b c ⊞ k4 ⊞ w4 in let y := f2 e f g in let h := h ⊞ x in let d := x ⊞ y in
  let x := c ⊞ f1 h a b ⊞ k5 ⊞ w5 in let y := f2 d e f in let g := g ⊞ x in let c := x ⊞ y in
  let x := b ⊞ f1 g h a ⊞ k6 ⊞ w6 in let y := f2 c d e in let f := f ⊞ x in let b := x ⊞ y in
  let x := a ⊞ f1 f g h ⊞ k7 ⊞ w7 in let y := f2 b c d in let e := e ⊞ x in let a := x ⊞ y in
  Regs a b c d e f g h.

(** A round applied to eight consecutive words starting at [i]. *)
Definition mix8_at (k0 k1 k2 k3 k4 k5 k6 k7 : Z) (i : nat) (words : list Z) : regs -> regs :=
  mix8 k0 k1 k2 k3 k4 k5 k6 k7
    (word words i) (word words (i + 1)) (word words (i + 2)) (word words (i + 3))
    (word words (i + 4)) (word words (i + 5)) (word words (i + 6)) (word words (i + 7)).

Definition round1 := mix8_at 0x428a2f98 0x71374491 0xb5c0fbcf 0xe9b5dba5
                             0x3956c25b 0x59f111f1 0x923f82a4 0xab1c5ed5 0.
Definition round2 := mix8_at 0xd807aa98 0x12835b01 0x243185be 0x550c7dc3
                             0x72be5d74 0x80deb1fe 0x9bdc06a7 0xc19bf174 8.
Definition round3 := mix8_at 0xe49b69c1 0xefbe4786 0x0fc19dc6 0x240ca1cc
                             0x2de92c6f 0x4a7484aa 0x5cb0a9dc 0x76f988da 16.
Definition round4 := mix8_at 0x983e5152 0xa831c66d 0xb00327c8 0xbf597fc7
                             0xc6e00bf3 0xd5a79147 0x06ca6351 0x14292967 24.
Definition round5 := mix8_at 0x27b70a85 0x2e1b2138 0x4d2c6dfc 0x53380d13
                             0x650a7354 0x766a0abb 0x81c2c92e 0x92722c85 32.
Definition round6 := mix8_at 0xa2bfe8a1 0xa81a664b 0xc24b8b70 0xc76c51a3
                             0xd192e819 0xd6990624 0xf40e3585 0x106aa070 40.
Definition round7 := mix8_at 0x19a4c116 0x1e376c08 0x2748774c 0x34b0bcb5
                             0x391c0cb3 0x4ed8aa4a 0x5b9cca4f 0x682e6ff3 48.
Definition round8 := mix8_at 0x748f82ee 0x78a5636f 0x84c87814 0x8cc70208
                             0x90befffa 0xa4506ceb 0xbef9a3f7 0xc67178f2 56.

(** [m_hash[i] += ...]. *)
Definition add_regs (p q : regs) : regs :=
  Regs (ra p ⊞ ra q) (rb p ⊞ rb q) (rc p ⊞ rc q) (rd p ⊞ rd q)
       (re p ⊞ re q) (rf p ⊞ rf q) (rg p ⊞ rg q) (rh p ⊞ rh q).

(** The whole block function, the message schedule interleaved with the rounds. *)
Definition processBlock (m_hash : regs) (data : list Z) : regs :=
  let words := input_words data in
  let s := round1 words m_hash in
  let s := round2 words s in
  let words := extend 8 words in
  let s := round3 words s in
  let words := extend 8 words in
  let s := round4 words s in
  let words := extend 8 words in
  let s := round5 words s in
  let words := extend 8 words in
  let s := round6 words s in
  let words := extend 8 words in
  let s := round7 words s in
  let words := extend 8 words in
  let s := round8 words s in
  add_regs m_hash s.

(** ** add *)

(** [while (numBytes > 0 && m_bufferSize < BlockSize) m_buffer[m_bufferSize++] = *current++;]
    The result carries the bytes not yet consumed. *)
Fixpoint fill_buffer (buffer : list Z) (size : nat) (data : list Z) : list Z * nat * list Z :=
  match data with
  | [] => (buffer, size, [])
  | b :: data' =>
      if (size <? BlockSize)%nat then fill_buffer (<[size := b]> buffer) (S size) data'
      else (buffer, size, data)
  end.

(** [while (numBytes >= BlockSize) { processBlock(current); ... }]; [fuel] bounds the number of
    iterations, and the length of the data is enough. *)
Fixpoint process_full (fuel : nat) (h : regs) (n : Z) (data : list Z) : regs * Z * list Z :=
  match fuel with
  | O => (h, n, data)
  | S fuel' =>
      if (BlockSize <=? length data)%nat
      then process_full fuel' (processBlock h (take BlockSize data))
             (u64 (n + Z.of_nat BlockSize)) (drop BlockSize data)
      else (h, n, data)
  end.

(** [while (numBytes > 0) m_buffer[m_bufferSize++] = *current++;]. *)
Fixpoint keep_rest (buffer : list Z) (size : nat) (data : list Z) : list Z * nat :=
  match data with
  | [] => (buffer, size)
  | b :: data' => keep_rest (<[size := b]> buffer) (S size) data'
  end.

Definition add (s : SHA256) (data : list Z) : SHA256 :=
  let '(buffer, size, data) :=
    if (0 <? m_bufferSize s)%nat then fill_buffer (m_buffer s) (m_bufferSize s) data
    else (m_buffer s, m_bufferSize s, data) in
  let s :=
    if (size =? BlockSize)%nat
    then mkSHA256 (u64 (m_numBytes s + Z.of_nat BlockSize)) 0 buffer
                  (processBlock (m_hash s) buffer)
    else mkSHA256 (m_numBytes s) size buffer (m_hash s) in
  match data with
  | [] => s
  | _ =>
      let '(h, n, data) := process_full (length data) (m_hash s) (m_numBytes s) data in
      let '(buffer, size) := keep_rest (m_buffer s) (m_bufferSize s) data in
      mkSHA256 n size buffer h
  end.

(** ** processBuffer and getHash *)

(** Length in bytes of the padded message, without the 64-bit length field. *)
Definition padded_length (bufferSize : nat) : nat :=
  let paddedLength := (bufferSize * 8 + 1)%nat in
  let lower11Bits := Nat.land paddedLength 511 in
  let paddedLength :=
    if (lower11Bits <=? 448)%nat then (paddedLength + (448 - lower11Bits))%nat
    else (paddedLength + (512 + 448 - lower11Bits))%nat in
  (paddedLength / 8)%nat.

(** [for (; lo < hi; lo++) buf[lo - off] = 0;]. *)
Definition zero_range (buf : list Z) (lo hi off : nat) : list Z :=
  foldl (fun l i => <[(i - off)%nat := 0]> l) buf (seq lo (hi - lo)).

(** The eight writes through [addLength]. *)
Definition length_bytes (msgBits : Z) : list Z :=
  map (fun k => u8 (Z.land (Z.shiftr msgBits k) 0xFF)) [56; 48; 40; 32; 24; 16; 8; 0].

(** [extra] is the uninitialised local array the function may spill into. *)
Definition processBuffer (extra : list Z) (s : SHA256) : SHA256 :=
  let paddedLength := padded_length (m_bufferSize s) in
  let '(buffer, extra) :=
    if (m_bufferSize s <? BlockSize)%nat then (<[m_bufferSize s := 128]> (m_buffer s), extra)
    else (m_buffer s, <[0%nat := 128]> extra) in
  let buffer := zero_range buffer (S (m_bufferSize s)) BlockSize 0 in
  let extra := zero_range extra (Nat.max (S (m_bufferSize s)) BlockSize) paddedLength BlockSize in
  let msgBits := u64 (8 * u64 (m_numBytes s + Z.of_nat (m_bufferSize s))) in
  let '(buffer, extra) :=
    if (paddedLength <? BlockSize)%nat
    then (list_inserts paddedLength (length_bytes msgBits) buffer, extra)
    else (buffer, list_inserts (paddedLength - BlockSize) (length_bytes msgBits) extra) in
  let h := processBlock (m_hash s) buffer in
  let h := if (BlockSize <? paddedLength)%nat then processBlock h extra else h in
  mkSHA256 (m_numBytes s) (m_bufferSize s) buffer h.

(** The four bytes [*current++ = (m_hash[i] >> 24) & 0xFF; ...]. *)
Definition be_bytes (w : Z) : list Z :=
  [Z.land (Z.shiftr w 24) 0xFF; Z.land (Z.shiftr w 16) 0xFF;
   Z.land (Z.shiftr w 8) 0xFF; Z.land w 0xFF].

Definition regs_bytes (h : regs) : list Z :=
  be_bytes (ra h) ++ be_bytes (rb h) ++ be_bytes (rc h) ++ be_bytes (rd h)
  ++ be_bytes (re h) ++ be_bytes (rf h) ++ be_bytes (rg h) ++ be_bytes (rh h).

(** [getHash(unsigned char buffer[HashBytes])]: the raw hash, and the object with [m_hash]
    restored. *)
Definition getHash_raw (extra : list Z) (s : SHA256) : list Z * SHA256 :=
  let oldHash := m_hash s in
  let s := processBuffer extra s in
  (regs_bytes (m_hash s),
   mkSHA256 (m_numBytes s) (m_bufferSize s) (m_buffer s) oldHash).

Definition dec2hex : string := "0123456789abcdef".

Definition hex_digit (n : Z) : ascii :=
  default "0"%char (String.get (Z.to_nat (Z.land n 15)) dec2hex).

Fixpoint hex_string (raw : list Z) : string :=
  match raw with
  | [] => ""
  | b :: raw' => String (hex_digit (Z.shiftr b 4)) (String (hex_digit b) (hex_string raw'))
  end.

(** [getHash()]: 64 hexadecimal characters. *)
Definition getHash (extra : list Z) (s : SHA256) : string * SHA256 :=
  let '(raw, s) := getHash_raw extra s in (hex_string raw, s).

(** [operator()(text)]. *)
Definition sha256_call (extra : list Z) (s : SHA256) (text : string) : string * SHA256 :=
  getHash extra (add (reset s) (bytes_of text)).

(** * The FIPS 180-4 function *)

Module Fips.

(** The cube root of [x], rounded down, bit by bit from [2 ^ (n - 1)]. *)
Fixpoint cube_root (n : nat) (r x : Z) : Z :=
  match n with
  | O => r
  | S n' =>
      let r' := r + 2 ^ Z.of_nat n' in
      cube_root n' (if r' * r' * r' <=? x then r' else r) x
  end.

Definition is_prime (n : nat) : bool :=
  (2 <=? n)%nat && forallb (fun d => negb (n mod d =? 0)%nat) (seq 2 (n - 2)).

(** The first 32 bits of the fractional parts of the cube roots of the first 64 primes. *)
Definition K : list Z :=
  map (fun p => u32 (cube_root 35 0 (Z.of_nat p * 2 ^ 96))) (List.filter is_prime (seq 0 312)).

(** A word rotated right: the bits shifted out on the right come back on the left. *)
Definition ROTR (n x : Z) : Z := Z.lor (Z.shiftr x n) (u32 (Z.shiftl x (32 - n))).
Definition Ch (x y z : Z) : Z := Z.lxor (Z.land x y) (Z.land (u32 (Z.lnot x)) z).
Definition Maj (x y z : Z) : Z :=
  Z.lxor (Z.lxor (Z.land x y) (Z.land x z)) (Z.land y z).
Definition Sigma0 (x : Z) : Z := Z.lxor (Z.lxor (ROTR 2 x) (ROTR 13 x)) (ROTR 22 x).
Definition Sigma1 (x : Z) : Z := Z.lxor (Z.lxor (ROTR 6 x) (ROTR 11 x)) (ROTR 25 x).
Definition sigma0 (x : Z) : Z := Z.lxor (Z.lxor (ROTR 7 x) (ROTR 18 x)) (Z.shiftr x 3).
Definition sigma1 (x : Z) : Z := Z.lxor (Z.lxor (ROTR 17 x) (ROTR 19 x)) (Z.shiftr x 10).

(** Message schedule: the sixteen big-endian words of the block, then the recurrence. *)
Definition be_word (data : list Z) (i : nat) : Z :=
  nth (4 * i) data 0 * 2 ^ 24 + nth (4 * i + 1) data 0 * 2 ^ 16
  + nth (4 * i + 2) data 0 * 2 ^ 8 + nth (4 * i + 3) data 0.

Fixpoint schedule (n : nat) (W : list Z) : list Z :=
  match n with
  | O => W
  | S n' =>
      let t := length W in
      schedule n' (W ++ [u32 (sigma1 (nth (t - 2) W 0) + nth (t - 7) W 0
                              + sigma0 (nth (t - 15) W 0) + nth (t - 16) W 0)])
  end.

Definition step (s : regs) (kw : Z * Z) : regs :=
  let '(Regs a b c d e f g h) := s in
  let T1 := u32 (h + Sigma1 e + Ch e f g + kw.1 + kw.2) in
  let T2 := u32 (Sigma0 a + Maj a b c) in
  Regs (u32 (T1 + T2)) a b c (u32 (d + T1)) e f g.

Definition compress (H : regs) (block : list Z) : regs :=
  let W := schedule 48 (map (be_word block) (seq 0 16)) in
  add_regs H (foldl step H (zip K W)).

(** The first [n] blocks of [m] folded into the chaining value. *)
Fixpoint compress_all (n : nat) (H : regs) (m : list Z) : regs :=
  match n with
  | O => H
  | S n' => compress_all n' (compress H (take 64 m)) (drop 64 m)
  end.

(** Padding to a multiple of 64 bytes: [0x80], zeros, the bit length on 64 bits. *)
Definition pad (m : list Z) : list Z :=
  m ++ [128] ++ repeat 0 ((119 - length m mod 64) mod 64)%nat
    ++ length_bytes (8 * Z.of_nat (length m)).

Definition digest (m : list Z) : regs :=
  compress_all (length (pad m) / 64) initial_hash (pad m).

Definition sha256 (m : list Z) : list Z := regs_bytes (digest m).

End Fips.

(** * Refinement of the block function *)

(** Congruence modulo [2^32]: the equivalence under which inner wrap-arounds are invisible. *)
Definition eq32 (x y : Z) : Prop := u32 x = u32 y.

#[export] Instance eq32_equivalence : Equivalence eq32.
Proof. unfold eq32. split; [intros x|intros x y|intros x y z]; congruence. Qed.

#[export] Instance eq32_add : Proper (eq32 ==> eq32 ==> eq32) Z.add.
Proof.
  unfold eq32, u32. intros x x' Hx y y' Hy. by rewrite Zplus_mod, Hx, Hy, <- Zplus_mod.
Qed.

Lemma u32_eq32 x : eq32 (u32 x) x.
Proof. unfold eq32, u32. apply Zmod_mod. Qed.

(** Proves that two wrapped sums are equal when they have the same terms. *)
Ltac wsum :=
  unfold wadd;
  lazymatch goal with |- u32 ?x = u32 ?y => change (eq32 x y) end;
  rewrite !u32_eq32; unfold eq32; f_equal; lia.

Lemma maj_eq a b c : Z.lor (Z.land (Z.lor a b) c) (Z.land a b) = Fips.Maj a b c.
Proof.
  unfold Fips.Maj. apply Z.bits_inj'. intros i _.
  rewrite !Z.lxor_spec, !Z.lor_spec, !Z.land_spec, !Z.lor_spec.
  destruct (Z.testbit a i), (Z.testbit b i), (Z.testbit c i); reflexivity.
Qed.

Lemma step_eq a b c d e f g h k w :
  Fips.step (Regs a b c d e f g h) (k, w) =
  let x := h ⊞ f1 e f g ⊞ k ⊞ w in
  let y := f2 a b c in Regs (x ⊞ y) a b c (d ⊞ x) e f g.
Proof.
  unfold Fips.step, f1, f2. cbn [fst snd]. rewrite maj_eq.
  fold (Fips.Sigma0 a) (Fips.Sigma1 e) (Fips.Ch e f g).
  change (Z.lxor (Z.lxor (rotate e 6) (rotate e 11)) (rotate e 25)) with (Fips.Sigma1 e).
  change (Z.lxor (Z.lxor (rotate a 2) (rotate a 13)) (rotate a 22)) with (Fips.Sigma0 a).
  change (Z.lxor (Z.land e f) (Z.land (wnot e) g)) with (Fips.Ch e f g).
  f_equal; wsum.
Qed.

Lemma mix8_steps k0 k1 k2 k3 k4 k5 k6 k7 w0 w1 w2 w3 w4 w5 w6 w7 s :
  mix8 k0 k1 k2 k3 k4 k5 k6 k7 w0 w1 w2 w3 w4 w5 w6 w7 s =
  foldl Fips.step s
    [(k0, w0); (k1, w1); (k2, w2); (k3, w3); (k4, w4); (k5, w5); (k6, w6); (k7, w7)].
Proof.
  destruct s as [a b c d e f g h]. cbn [foldl]. rewrite !step_eq.
  unfold mix8. reflexivity.
Qed.

Lemma rounds_foldl W s :
  round8 W (round7 W (round6 W (round5 W (round4 W (round3 W (round2 W (round1 W s))))))) =
  foldl Fips.step s (zip Fips.K (map (word W) (seq 0 64))).
Proof.
  unfold round1, round2, round3, round4, round5, round6, round7, round8, mix8_at.
  rewrite !mix8_steps, <- !foldl_app.
  let k := eval vm_compute in Fips.K in replace Fips.K with k by (vm_compute; reflexivity).
  reflexivity.
Qed.

#[global] Opaque Fips.K.

(** ** The message schedule *)

Lemma next_word_schedule W :
  next_word W =
  let t := length W in
  u32 (Fips.sigma1 (nth (t - 2) W 0) + nth (t - 7) W 0
       + Fips.sigma0 (nth (t - 15) W 0) + nth (t - 16) W 0).
Proof.
  unfold next_word, word. cbn zeta.
  change (Z.lxor (Z.lxor (rotate ?w 7) (rotate ?w 18)) (Z.shiftr ?w 3)) with (Fips.sigma0 w).
  change (Z.lxor (Z.lxor (rotate ?w 17) (rotate ?w 19)) (Z.shiftr ?w 10)) with (Fips.sigma1 w).
  wsum.
Qed.

Lemma extend_schedule n W : extend n W = Fips.schedule n W.
Proof.
  revert W. induction n as [|n IH]; intros W; [done|].
  cbn [extend Fips.schedule]. by rewrite next_word_schedule, IH.
Qed.

Lemma extend_add n m W : extend (n + m) W = extend m (extend n W).
Proof. revert W. induction n as [|n IH]; intros W; [done|]. cbn. apply IH. Qed.

Lemma extend_length n W : length (extend n W) = (n + length W)%nat.
Proof.
  revert W. induction n as [|n IH]; intros W; [done|].
  cbn. rewrite IH, length_app. cbn. lia.
Qed.

(** Words already computed are never rewritten. *)
Lemma word_extend n W i : (i < length W)%nat -> word (extend n W) i = word W i.
Proof.
  revert W. induction n as [|n IH]; intros W Hi; [done|].
  cbn [extend]. rewrite IH by (rewrite length_app; cbn; lia). unfold word. by rewrite app_nth1.
Qed.

Lemma words_seq (W : list Z) n : length W = n -> map (word W) (seq 0 n) = W.
Proof.
  intros <-. induction W as [|w W IH]; [done|].
  cbn [length seq map]. change (word (w :: W) 0) with w. f_equal.
  rewrite <- seq_shift, map_map. etransitivity; [|exact IH]. reflexivity.
Qed.

(** A round reads eight words, so it does not see later extensions of the schedule. *)
Lemma mix8_at_extend k0 k1 k2 k3 k4 k5 k6 k7 i j W s :
  (i + 8 <= j + length W)%nat -> (j <= 48)%nat ->
  mix8_at k0 k1 k2 k3 k4 k5 k6 k7 i (extend j W) s =
  mix8_at k0 k1 k2 k3 k4 k5 k6 k7 i (extend 48 W) s.
Proof.
  intros Hi Hj. replace 48%nat with (j + (48 - j))%nat by lia.
  rewrite extend_add. unfold mix8_at.
  by rewrite !(word_extend (48 - j)) by (rewrite extend_length; lia).
Qed.

Lemma interleave W s :
  length W = 16%nat ->
  round8 (extend 48 W) (round7 (extend 40 W) (round6 (extend 32 W) (round5 (extend 24 W)
    (round4 (extend 16 W) (round3 (extend 8 W) (round2 (extend 0 W)
      (round1 (extend 0 W) s))))))) =
  foldl Fips.step s (zip Fips.K (extend 48 W)).
Proof.
  intros HW.
  replace (zip Fips.K (extend 48 W)) with
    (zip Fips.K (map (word (extend 48 W)) (seq 0 64)))
    by (by rewrite words_seq by (rewrite extend_length; lia)).
  rewrite <- rounds_foldl.
  unfold round1, round2, round3, round4, round5, round6, round7, round8.
  rewrite !(mix8_at_extend _ _ _ _ _ _ _ _ _ 0 W), !(mix8_at_extend _ _ _ _ _ _ _ _ _ 8 W),
    !(mix8_at_extend _ _ _ _ _ _ _ _ _ 16 W), !(mix8_at_extend _ _ _ _ _ _ _ _ _ 24 W),
    !(mix8_at_extend _ _ _ _ _ _ _ _ _ 32 W), !(mix8_at_extend _ _ _ _ _ _ _ _ _ 40 W) by lia.
  reflexivity.
Qed.

(** ** Byte order *)

Section Bytes.
Variables b0 b1 b2 b3 : Z.
Hypothesis (H0 : is_u8 b0) (H1 : is_u8 b1) (H2 : is_u8 b2) (H3 : is_u8 b3).

Lemma be_lor :
  Z.lor (Z.lor (Z.lor b3 (Z.shiftl b2 8)) (Z.shiftl b1 16)) (Z.shiftl b0 24) =
  b0 * 2 ^ 24 + b1 * 2 ^ 16 + b2 * 2 ^ 8 + b3.
Proof using H0 H1 H2 H3.
  unfold is_u8 in *.
  rewrite (lor_shiftl_add b3), (lor_shiftl_add _ b1), (lor_shiftl_add _ b0) by lia. lia.
Qed.

(** A byte occurring at bit [k] of a word, read at bit [i]. *)
Lemma testbit_byte b i : is_u8 b -> 8 <= i -> Z.testbit b i = false.
Proof using. intros Hb Hi. apply (testbit_small b 8); unfold is_u8 in *; lia. Qed.

(** Evaluates the bits of shifted bytes position by position. *)
Ltac byte_bits :=
  repeat (rewrite Z.lor_spec || rewrite Z.land_spec);
  repeat match goal with
  | |- context [Z.testbit (Z.lor _ _) _] => rewrite Z.lor_spec
  | |- context [Z.testbit (Z.land _ _) _] => rewrite Z.land_spec
  | |- context [Z.testbit ?b ?k] => rewrite (Z.testbit_neg_r b k) by lia
  | |- context [Z.testbit (_ mod 2 ^ _) _] =>
      first [rewrite Z.mod_pow2_bits_low by lia | rewrite Z.mod_pow2_bits_high by lia]
  | |- context [Z.testbit (Z.shiftl _ _) _] => rewrite Z.shiftl_spec by lia
  | |- context [Z.testbit (Z.shiftr _ _) _] => rewrite Z.shiftr_spec by lia
  | |- context [Z.testbit (Z.ones _) _] =>
      first [rewrite Z.ones_spec_low by lia | rewrite Z.ones_spec_high by lia]
  | |- context [Z.testbit ?b ?k] => rewrite (testbit_byte b k) by (done || lia)
  end.

(** [swap] turns the little-endian load into the big-endian one. *)
Lemma swap_le :
  swap (Z.lor (Z.lor (Z.lor b0 (Z.shiftl b1 8)) (Z.shiftl b2 16)) (Z.shiftl b3 24)) =
  Z.lor (Z.lor (Z.lor b3 (Z.shiftl b2 8)) (Z.shiftl b1 16)) (Z.shiftl b0 24).
Proof using H0 H1 H2 H3.
  unfold swap, u32. apply Z.bits_inj'. intros i Hi.
  change 0x0000FF00 with (Z.shiftl (Z.ones 8) 8).
  change 0x00FF0000 with (Z.shiftl (Z.ones 8) 16).
  assert (i < 8 \/ 8 <= i < 16 \/ 16 <= i < 24 \/ 24 <= i < 32 \/ 32 <= i) as Hc by lia.
  destruct Hc as [Hc|[Hc|[Hc|[Hc|Hc]]]].
  all: byte_bits;
    repeat (rewrite andb_true_r || rewrite andb_false_r || rewrite orb_false_r
            || rewrite orb_false_l); try done.
  all: f_equal; lia.
Qed.

End Bytes.

Lemma nth_u8 (data : list Z) i : Forall is_u8 data -> is_u8 (nth i data 0).
Proof.
  intros Hd. destruct (nth_in_or_default i data 0) as [Hin | ->]; [|split; lia].
  rewrite Forall_forall in Hd. apply Hd. by apply list_elem_of_In.
Qed.

Lemma input_words_be data :
  Forall is_u8 data -> input_words data = map (Fips.be_word data) (seq 0 16).
Proof.
  intros Hd. unfold input_words. apply map_ext. intros i.
  unfold load32, Fips.be_word. cbn zeta.
  rewrite swap_le, be_lor by auto using nth_u8. by rewrite Nat.add_0_r.
Qed.

(** The unrolled, interleaved block function computes the FIPS compression function. *)
Lemma processBlock_compress H data :
  Forall is_u8 data -> processBlock H data = Fips.compress H data.
Proof.
  intros Hd. unfold processBlock, Fips.compress. cbn zeta.
  rewrite <- !extend_add, <- extend_schedule, <- input_words_be by done. cbn [Nat.add].
  rewrite <- (interleave (input_words data)); [done|].
  unfold input_words. by rewrite length_map, length_seq.
Qed.

(** * Refinement of the streaming interface *)

Lemma compress_all_app n k H a b :
  length a = (64 * n)%nat ->
  Fips.compress_all (n + k) H (a ++ b) = Fips.compress_all k (Fips.compress_all n H a) b.
Proof.
  revert H a. induction n as [|n IH]; intros H a Ha.
  { by destruct a; [|cbn in Ha; lia]. }
  cbn [Fips.compress_all Nat.add].
  rewrite take_app_le, drop_app_le by lia. apply IH. rewrite length_drop. lia.
Qed.

(** [s] is a hasher that was fed the bytes [m]: [n] whole blocks are folded into [m_hash], and
    the remaining bytes sit at the front of [m_buffer]. *)
Record fed (s : SHA256) (m : list Z) (n : nat) (rest : list Z) : Prop := {
  fed_split : length m = (64 * n + length rest)%nat;
  fed_rest : drop (64 * n) m = rest;
  fed_short : (length rest < 64)%nat;
  fed_room : length (m_buffer s) = 64%nat;
  fed_buffer : take (length rest) (m_buffer s) = rest;
  fed_size : m_bufferSize s = length rest;
  fed_count : m_numBytes s = u64 (64 * Z.of_nat n);
  fed_hash : m_hash s = Fips.compress_all n initial_hash (take (64 * n) m)
}.

Definition absorbed (s : SHA256) (m : list Z) : Prop := exists n rest, fed s m n rest.

Lemma take_insert_snoc (l : list Z) n x :
  (n < length l)%nat -> take (S n) (<[n := x]> l) = take n l ++ [x].
Proof.
  intros Hn. rewrite (take_S_r _ _ x) by (by apply list_lookup_insert_eq).
  by rewrite take_insert_ge by lia.
Qed.

Lemma fill_buffer_spec data buffer size :
  length buffer = 64%nat -> (size <= 64)%nat ->
  let k := Nat.min (64 - size) (length data) in
  exists buffer', fill_buffer buffer size data = (buffer', (size + k)%nat, drop k data) /\
    length buffer' = 64%nat /\ take (size + k) buffer' = take size buffer ++ take k data.
Proof.
  revert buffer size. induction data as [|b data IH]; intros buffer size Hl Hs; cbn zeta.
  { exists buffer. rewrite Nat.min_0_r. cbn. by rewrite Nat.add_0_r, app_nil_r. }
  cbn [fill_buffer]. unfold BlockSize. destruct (Nat.ltb_spec size 64).
  - destruct (IH (<[size := b]> buffer) (S size)) as (buffer' & Hf & Hl' & Ht);
      [by rewrite length_insert|lia|].
    exists buffer'. cbn [length]. replace (Nat.min (64 - size) (S (length data)))
      with (S (Nat.min (64 - S size) (length data))) by lia.
    rewrite Hf. split; [f_equal; f_equal; lia|]. split; [done|].
    rewrite Nat.add_succ_r, <- Nat.add_succ_l, Ht, take_insert_snoc by lia.
    by rewrite <- app_assoc.
  - exists buffer. replace size with 64%nat by lia. rewrite Nat.sub_diag. cbn.
    by rewrite app_nil_r.
Qed.

Lemma keep_rest_spec data buffer size :
  (size + length data <= length buffer)%nat ->
  exists buffer', keep_rest buffer size data = (buffer', (size + length data)%nat) /\
    length buffer' = length buffer /\
    take (size + length data) buffer' = take size buffer ++ data.
Proof.
  revert buffer size. induction data as [|b data IH]; intros buffer size Hl; cbn [length] in *.
  { exists buffer. cbn. by rewrite Nat.add_0_r, app_nil_r. }
  destruct (IH (<[size := b]> buffer) (S size)) as (buffer' & Hf & Hl' & Ht);
    [rewrite length_insert; lia|].
  exists buffer'. cbn [keep_rest]. rewrite Hf, Hl', length_insert.
  split; [f_equal; lia|]. split; [done|].
  rewrite Nat.add_succ_r, <- Nat.add_succ_l, Ht, take_insert_snoc by lia.
  by rewrite <- app_assoc.
Qed.

Lemma u64_add_l a b : u64 (u64 a + b) = u64 (a + b).
Proof. unfold u64. apply Zplus_mod_idemp_l. Qed.

(** Any fuel at least the length of the data drains every whole block. *)
Lemma process_full_spec q fuel h n data :
  Forall is_u8 data -> (q <= fuel)%nat -> (64 * q <= length data < 64 * q + 64)%nat ->
  u64 n = n ->
  process_full fuel h n data =
  (Fips.compress_all q h data, u64 (n + 64 * Z.of_nat q), drop (64 * q) data).
Proof.
  revert fuel h n data. induction q as [|q IH]; intros fuel h n data Hd Hf Hq Hn.
  - cbn [Fips.compress_all]. rewrite Nat.mul_0_r, drop_0, Z.mul_0_r, Z.add_0_r, Hn.
    destruct fuel; [done|]. cbn [process_full]. unfold BlockSize.
    by destruct (Nat.leb_spec 64 (length data)); [lia|].
  - destruct fuel as [|fuel]; [lia|]. cbn [process_full]. unfold BlockSize.
    destruct (Nat.leb_spec 64 (length data)); [|lia].
    rewrite (IH fuel); [|by apply Forall_drop|lia|rewrite length_drop; lia
      |unfold u64; apply Zmod_mod].
    cbn [Fips.compress_all]. rewrite processBlock_compress by (by apply Forall_take).
    rewrite drop_drop. f_equal; [|f_equal; lia]. f_equal. rewrite u64_add_l. f_equal. lia.
Qed.

(** The tail of [add]: the buffer is empty, whole blocks are processed in place, the rest kept. *)
Definition add_tail (s : SHA256) (data : list Z) : SHA256 :=
  let '(h, n, data) := process_full (length data) (m_hash s) (m_numBytes s) data in
  let '(buffer, size) := keep_rest (m_buffer s) (m_bufferSize s) data in
  mkSHA256 n size buffer h.

Lemma u64_idem x : u64 (u64 x) = u64 x.
Proof. unfold u64. apply Zmod_mod. Qed.

Lemma add_tail_fed s m n data :
  fed s m n [] -> Forall is_u8 data ->
  fed (add_tail s data) (m ++ data) (n + length data / 64) (drop (64 * (length data / 64)) data).
Proof.
  intros Hs Hd. unfold add_tail. set (q := (length data / 64)%nat).
  pose proof (Nat.div_mod_eq (length data) 64) as Hq. fold q in Hq.
  pose proof (Nat.mod_upper_bound (length data) 64) as Hr.
  destruct Hs as [Hsplit _ _ Hroom _ Hsize Hcount Hhash]. cbn [length] in *.
  rewrite (process_full_spec q) by (done || lia || (rewrite Hcount; apply u64_idem)).
  destruct (keep_rest_spec (drop (64 * q) data) (m_buffer s) (m_bufferSize s))
    as (buffer' & -> & Hl & Ht); [rewrite length_drop; lia|].
  rewrite Hsize in *. cbn [Nat.add] in *. rewrite take_0 in Ht.
  assert (Hrest : length (drop (64 * q) data) = (length data - 64 * q)%nat)
    by apply length_drop.
  split; cbn [m_buffer m_bufferSize m_numBytes m_hash]; try done; try lia.
  - rewrite length_app. lia.
  - rewrite drop_app_ge by lia. f_equal. lia.
  - rewrite Hcount, u64_add_l. f_equal. lia.
  - rewrite Hhash, <- compress_all_app by (rewrite length_take; lia).
    rewrite take_app_ge, (take_ge m (64 * n)) by lia.
    rewrite <- (take_drop (64 * q) data) at 1.
    replace (64 * (n + q) - length m)%nat with (64 * q)%nat by lia.
    rewrite (app_assoc m).
    replace (n + q)%nat with (n + q + 0)%nat at 1 by lia.
    rewrite (compress_all_app (n + q) 0) by (rewrite length_app, length_take; lia). done.
Qed.

(** [add] is the fill of a partial buffer followed by [add_tail]. *)
Lemma add_unfold s data :
  add s data =
  let '(buffer, size, data') :=
    if (0 <? m_bufferSize s)%nat then fill_buffer (m_buffer s) (m_bufferSize s) data
    else (m_buffer s, m_bufferSize s, data) in
  add_tail (if (size =? BlockSize)%nat
            then mkSHA256 (u64 (m_numBytes s + Z.of_nat BlockSize)) 0 buffer
                          (processBlock (m_hash s) buffer)
            else mkSHA256 (m_numBytes s) size buffer (m_hash s)) data'.
Proof.
  unfold add. destruct (if (0 <? m_bufferSize s)%nat then _ else _) as [[buf size] [|b d]];
    [|done]. unfold add_tail. cbn [process_full length keep_rest]. by destruct (_ =? _)%nat.
Qed.

(** The buffer fills up with [filler] and its block is processed. *)
Lemma fill_full_fed s m n rest buffer filler :
  fed s m n rest -> Forall is_u8 m -> Forall is_u8 filler ->
  buffer = rest ++ filler -> length buffer = 64%nat ->
  fed (mkSHA256 (u64 (m_numBytes s + Z.of_nat BlockSize)) 0 buffer
                (processBlock (m_hash s) buffer)) (m ++ filler) (S n) [].
Proof.
  intros [Hsplit Hrest _ _ _ _ Hcount Hhash] Hm Hd Hb Hl.
  assert (Hu : Forall is_u8 buffer).
  { rewrite Hb, <- Hrest. apply Forall_app; auto using Forall_drop. }
  assert (Hm' : m ++ filler = take (64 * n) m ++ buffer).
  { by rewrite Hb, app_assoc, <- Hrest, take_drop. }
  assert (length (m ++ filler) = (64 * n + 64)%nat) as Hlen.
  { rewrite Hm', length_app, length_take. lia. }
  split; cbn [m_buffer m_bufferSize m_numBytes m_hash length]; try done; try lia.
  - apply drop_ge. lia.
  - rewrite Hcount, u64_add_l. unfold BlockSize. f_equal. lia.
  - rewrite take_ge by lia. rewrite Hm'. replace (S n) with (n + 1)%nat by lia.
    rewrite compress_all_app by (rewrite length_take; lia).
    rewrite processBlock_compress, Hhash by done. cbn [Fips.compress_all].
    by rewrite (take_ge buffer) by lia.
Qed.

(** The data fits in the buffer. *)
Lemma fill_part_fed s m n rest buffer data :
  fed s m n rest -> (length rest + length data < 64)%nat -> length buffer = 64%nat ->
  take (length rest + length data) buffer = rest ++ data ->
  fed (mkSHA256 (m_numBytes s) (length rest + length data) buffer (m_hash s))
      (m ++ data) n (rest ++ data).
Proof.
  intros [Hsplit Hrest _ _ _ _ Hcount Hhash] Hpart Hl Ht.
  split; cbn [m_buffer m_bufferSize m_numBytes m_hash]; rewrite ?length_app; try done; try lia.
  - rewrite drop_app_le by lia. by rewrite Hrest.
  - by rewrite take_app_le by lia.
Qed.

Lemma add_absorbed s m data :
  absorbed s m -> Forall is_u8 m -> Forall is_u8 data -> absorbed (add s data) (m ++ data).
Proof.
  intros (n & rest & Hs) Hm Hd. rewrite add_unfold.
  pose proof Hs as [_ _ Hshort Hroom Hbuf Hsize _ _].
  rewrite Hsize. destruct (Nat.ltb_spec 0 (length rest)) as [Hpos|Hzero].
  - destruct (fill_buffer_spec data (m_buffer s) (length rest)) as (buffer & -> & Hl & Ht);
      [done|lia|]. rewrite Hbuf in Ht.
    remember (Nat.min (64 - length rest) (length data)) as k eqn:Hk.
    destruct (Nat.eqb_spec (length rest + k) BlockSize) as [Hfull|Hpart]; unfold BlockSize in *.
    + rewrite take_ge in Ht by lia.
      replace (m ++ data) with ((m ++ take k data) ++ drop k data)
        by (by rewrite <- app_assoc, take_drop).
      pose proof (fill_full_fed s m n rest buffer (take k data) Hs Hm
                    ltac:(by apply Forall_take) Ht Hl) as Hfed.
      eexists _, _. apply (add_tail_fed _ _ _ _ Hfed). by apply Forall_drop.
    + replace k with (length data) in * by lia. rewrite drop_all. rewrite (take_ge data) in Ht by lia.
      exists n, (rest ++ data). apply (fill_part_fed s m n rest); [done|lia|done|done].
  - assert (rest = []) as -> by (destruct rest; [done|cbn in *; lia]).
    destruct (Nat.eqb_spec (length (@nil Z)) BlockSize) as [Hbad|_]; [done|].
    eexists _, _. apply (add_tail_fed _ m n); [|done].
    destruct s as [num sz buf h]. cbn in *. by subst sz.
Qed.

Lemma reset_absorbed s : length (m_buffer s) = 64%nat -> absorbed (reset s) [].
Proof. intros Hl. exists 0%nat, []. by split; cbn; try done; lia. Qed.

(** ** Padding *)

Lemma padded_length_spec r :
  (r < 64)%nat -> padded_length r = if (r <? 56)%nat then 56%nat else 120%nat.
Proof.
  intros Hr.
  assert (Hall : forallb (fun r => padded_length r =? if r <? 56 then 56 else 120)%nat
                   (seq 0 64) = true) by (vm_compute; reflexivity).
  rewrite forallb_forall in Hall. apply Nat.eqb_eq, Hall, in_seq. lia.
Qed.

Lemma zero_range_spec buf lo hi off :
  (off <= lo <= hi)%nat -> (hi - off <= length buf)%nat ->
  zero_range buf lo hi off =
  take (lo - off) buf ++ repeat 0 (hi - lo) ++ drop (hi - off) buf.
Proof.
  intros Hlo Hhi. unfold zero_range.
  remember (hi - lo)%nat as k eqn:Hk. revert buf lo Hlo Hhi Hk.
  induction k as [|k IH]; intros buf lo Hlo Hhi Hk.
  { cbn. replace hi with lo by lia. by rewrite take_drop. }
  cbn [seq foldl]. rewrite IH by (rewrite ?length_insert; lia).
  replace (S lo - off)%nat with (S (lo - off)) by lia.
  rewrite take_insert_snoc, drop_insert_lt, <- app_assoc by lia. done.
Qed.

(** Overwriting the end of an array. *)
Lemma inserts_end p (l1 k l2 : list Z) :
  length l1 = p -> length k = length l2 -> list_inserts p k (l1 ++ l2) = l1 ++ k.
Proof.
  intros <- Hk. rewrite <- (Nat.add_0_r (length l1)), list_inserts_app_r. f_equal.
  rewrite <- (app_nil_r l2), list_inserts_0_r by done. apply app_nil_r.
Qed.

(** The buffer after the [128] byte and the zeros have been written. *)
Lemma padded_buffer (l rest : list Z) :
  length l = 64%nat -> take (length rest) l = rest -> (length rest < 64)%nat ->
  zero_range (<[length rest := 128]> l) (S (length rest)) 64 0 =
  rest ++ [128] ++ repeat 0 (63 - length rest).
Proof.
  intros Hl Ht Hr. rewrite zero_range_spec by (rewrite ?length_insert; lia).
  rewrite Nat.sub_0_r, take_insert_snoc, Ht by lia.
  rewrite (drop_ge (<[_ := _]> l)) by (rewrite length_insert; lia).
  by rewrite app_nil_r, <- app_assoc.
Qed.

(** The padding of a message whose last partial block is [rest]. *)
Definition tail_pad (bits : Z) (rest : list Z) : list Z :=
  rest ++ [128] ++ repeat 0 (if (length rest <? 56)%nat then 55 - length rest else 119 - length rest)
       ++ length_bytes bits.

Lemma pad_fed s m n rest :
  fed s m n rest -> Fips.pad m = take (64 * n) m ++ tail_pad (8 * Z.of_nat (length m)) rest.
Proof.
  intros [Hsplit Hrest Hshort _ _ _ _ _]. unfold Fips.pad, tail_pad.
  rewrite <- (take_drop (64 * n) m) at 1. rewrite Hrest, <- app_assoc.
  replace (length m mod 64)%nat with (length rest).
  2: { rewrite Hsplit, Nat.add_comm, Nat.mul_comm, Nat.Div0.mod_add.
       by rewrite Nat.mod_small by lia. }
  do 4 f_equal. destruct (Nat.ltb_spec (length rest) 56).
  - replace (119 - length rest)%nat with (55 - length rest + 1 * 64)%nat by lia.
    by rewrite Nat.Div0.mod_add, Nat.mod_small by lia.
  - by rewrite Nat.mod_small by lia.
Qed.

Lemma tail_pad_length bits rest :
  (length rest < 64)%nat ->
  length (tail_pad bits rest) = if (length rest <? 56)%nat then 64%nat else 128%nat.
Proof.
  intros Hr. unfold tail_pad. rewrite !length_app, repeat_length.
  destruct (Nat.ltb_spec (length rest) 56); cbn [length length_bytes map]; lia.
Qed.

Lemma length_bytes_u8 b : Forall is_u8 (length_bytes b).
Proof.
  unfold length_bytes. repeat constructor; unfold is_u8, u8; apply Z.mod_pos_bound; lia.
Qed.

Lemma tail_pad_u8 bits rest : Forall is_u8 rest -> Forall is_u8 (tail_pad bits rest).
Proof.
  intros Hr. unfold tail_pad. rewrite !Forall_app. split_and!; try done.
  - by repeat constructor.
  - apply Forall_forall. intros x Hx%list_elem_of_In%repeat_spec. by subst.
  - apply length_bytes_u8.
Qed.

Lemma msgBits_exact s m n rest :
  fed s m n rest -> Z.of_nat (length m) < 2 ^ 61 ->
  u64 (8 * u64 (m_numBytes s + Z.of_nat (m_bufferSize s))) = 8 * Z.of_nat (length m).
Proof.
  intros [Hsplit _ _ _ _ Hsize Hcount _] Hm. rewrite Hsize, Hcount, u64_add_l.
  unfold u64. rewrite (Z.mod_small (64 * _ + _)), Z.mod_small; lia.
Qed.

(** The last block of a short tail, as [processBuffer] assembles it in [m_buffer]. *)
Lemma one_block_tail bits rest :
  (length rest < 56)%nat ->
  list_inserts 56 (length_bytes bits)
    (rest ++ [128] ++ repeat 0 (63 - length rest)) = tail_pad bits rest.
Proof.
  intros Hr. unfold tail_pad. destruct (Nat.ltb_spec (length rest) 56) as [_|?]; [|lia].
  replace (63 - length rest)%nat with ((55 - length rest) + 8)%nat by lia.
  rewrite repeat_app, !app_assoc, inserts_end; [by rewrite <- ?app_assoc| |reflexivity].
  rewrite !length_app, repeat_length. cbn. lia.
Qed.

(** The two blocks of a long tail: [m_buffer], then [extra]. *)
Lemma two_block_tail bits rest extra :
  (56 <= length rest < 64)%nat -> length extra = 64%nat ->
  (rest ++ [128] ++ repeat 0 (63 - length rest)) ++
  list_inserts 56 (length_bytes bits) (zero_range extra 64 120 64)
  = tail_pad bits rest.
Proof.
  intros Hr He. unfold tail_pad. destruct (Nat.ltb_spec (length rest) 56) as [?|_]; [lia|].
  rewrite zero_range_spec, Nat.sub_diag, take_0, app_nil_l by lia.
  rewrite inserts_end by (rewrite ?length_drop, ?He; reflexivity).
  replace (119 - length rest)%nat with ((63 - length rest) + 56)%nat by lia.
  by rewrite repeat_app, <- !app_assoc.
Qed.

(** The chaining value after the last block(s) is the FIPS digest. *)
Lemma processBuffer_digest extra s m n rest :
  fed s m n rest -> length extra = 64%nat -> Forall is_u8 m -> Z.of_nat (length m) < 2 ^ 61 ->
  m_hash (processBuffer extra s) = Fips.digest m.
Proof.
  intros Hs He Hu Hm. unfold processBuffer, Fips.digest.
  rewrite (msgBits_exact s m n rest), (pad_fed s m n rest Hs) by done.
  destruct Hs as [Hsplit Hrest Hshort Hroom Hbuf Hsize _ Hhash].
  set (bits := 8 * Z.of_nat (length m)).
  pose proof (tail_pad_length bits rest Hshort) as Hlen.
  assert (Htu : Forall is_u8 (tail_pad bits rest)).
  { apply tail_pad_u8. rewrite <- Hrest. by apply Forall_drop. }
  assert (Hpre : length (take (64 * n) m) = (64 * n)%nat) by (rewrite length_take; lia).
  rewrite Hsize, padded_length_spec, length_app, Hpre, Hlen, Hhash by done. unfold BlockSize.
  destruct (Nat.ltb_spec (length rest) 64) as [_|?]; [|lia].
  rewrite padded_buffer by done.
  destruct (Nat.ltb_spec (length rest) 56) as [Hlt|Hge]; cbn [Nat.ltb Nat.leb m_hash].
  - replace ((64 * n + 64) / 64)%nat with (n + 1)%nat
      by (rewrite Nat.mul_comm, Nat.div_add_l by lia; done).
    rewrite one_block_tail, processBlock_compress, compress_all_app by done.
    cbn [Fips.compress_all]. by rewrite (take_ge (tail_pad bits rest)) by lia.
  - replace ((64 * n + 128) / 64)%nat with (n + 2)%nat
      by (rewrite Nat.mul_comm, Nat.div_add_l by lia; done).
    rewrite compress_all_app by done. cbn [Fips.compress_all].
    rewrite <- (two_block_tail bits rest extra) in Htu |- * by (done || lia).
    replace (Nat.max (S (length rest)) 64) with 64%nat by lia.
    apply Forall_app in Htu as [Ht1 Ht2]. rewrite (processBlock_compress _ _ Ht1), (processBlock_compress _ _ Ht2).
    assert (length (rest ++ [128] ++ repeat 0 (63 - length rest)) = 64%nat) as Hb.
    { rewrite !length_app, repeat_length. cbn. lia. }
    rewrite (take_app_le (rest ++ _)), drop_app_ge, Hb, (take_ge (rest ++ _)), Nat.sub_diag by lia.
    rewrite drop_0, (take_ge (list_inserts _ _ _)); [done|].
    rewrite length_inserts, zero_range_spec, !length_app, length_take, length_drop, repeat_length
      by lia. lia.
Qed.

Lemma processBuffer_buffer extra s m n rest :
  fed s m n rest ->
  length (m_buffer (processBuffer extra s)) = 64%nat /\
  take (length rest) (m_buffer (processBuffer extra s)) = rest.
Proof.
  intros [_ _ Hshort Hroom Hbuf Hsize _ _]. unfold processBuffer.
  rewrite Hsize, padded_length_spec by done. unfold BlockSize.
  destruct (Nat.ltb_spec (length rest) 64) as [_|?]; [|lia]. rewrite padded_buffer by done.
  destruct (Nat.ltb_spec (length rest) 56) as [Hlt|Hge]; cbn [Nat.ltb Nat.leb m_buffer].
  - rewrite one_block_tail, tail_pad_length by lia.
    unfold tail_pad. rewrite take_app_length.
    destruct (Nat.ltb_spec (length rest) 56); [done|lia].
  - rewrite take_app_length, !length_app, repeat_length. split; [cbn; lia|done].
Qed.

Lemma getHash_absorbed extra s m :
  absorbed s m -> absorbed (getHash extra s).2 m.
Proof.
  intros (n & rest & Hs). exists n, rest.
  destruct (processBuffer_buffer extra s m n rest Hs) as [Hl Ht].
  destruct Hs as [Hsplit Hrest Hshort Hroom Hbuf Hsize Hcount Hhash].
  assert (Hsz : m_bufferSize (processBuffer extra s) = m_bufferSize s
                /\ m_numBytes (processBuffer extra s) = m_numBytes s).
  { unfold processBuffer. destruct (if (_ <? BlockSize)%nat then _ else _), (if (padded_length _ <? _)%nat then _ else _). done. }
  destruct Hsz as [Hsz Hnum]. unfold getHash, getHash_raw. cbn zeta.
  split; cbn [snd m_buffer m_bufferSize m_numBytes m_hash]; rewrite ?Hsz, ?Hnum; done.
Qed.

Lemma hex_string_length raw : String.length (hex_string raw) = (2 * length raw)%nat.
Proof. induction raw as [|b raw IH]; [done|]. cbn. rewrite IH. lia. Qed.

Lemma bytes_of_u8 s : Forall is_u8 (bytes_of s).
Proof.
  unfold bytes_of. apply Forall_forall. intros b Hb. apply list_elem_of_In, in_map_iff in Hb as (c & <- & _).
  pose proof (N_ascii_bounded c). unfold is_u8. lia.
Qed.

Lemma bytes_of_length s : length (bytes_of s) = String.length s.
Proof. unfold bytes_of. rewrite length_map. induction s; cbn; auto. Qed.

Lemma regs_bytes_length h : length (regs_bytes h) = 32%nat.
Proof. reflexivity. Qed.

(** Lower-case hexadecimal digits. *)
Definition is_hex (c : ascii) : bool := bool_decide (c ∈ String.list_ascii_of_string dec2hex).

Lemma hex_digit_is_hex n : is_hex (hex_digit n) = true.
Proof.
  unfold hex_digit. assert (Hn : 0 <= Z.land n 15 < 16).
  { change 15 with (Z.ones 4). rewrite Z.land_ones by lia. apply Z.mod_pos_bound. lia. }
  assert (Hk : exists k, Z.to_nat (Z.land n 15) = k /\ (k < 16)%nat) by (eexists; split; [done|lia]).
  destruct Hk as (k & -> & Hk). do 16 (destruct k as [|k]; [reflexivity|]). lia.
Qed.

Lemma hex_string_is_hex raw : Forall (fun c => is_hex c = true) (String.list_ascii_of_string (hex_string raw)).
Proof.
  induction raw as [|b raw IH]; cbn; [constructor|].
  repeat (constructor; [apply hex_digit_is_hex|]). exact IH.
Qed.

Lemma sha256_call_hex extra s text :
  String.length (sha256_call extra s text).1 = 64%nat /\
  Forall (fun c => is_hex c = true) (String.list_ascii_of_string (sha256_call extra s text).1).
Proof.
  unfold sha256_call, getHash, getHash_raw. cbn zeta. cbn [fst].
  split; [by rewrite hex_string_length, regs_bytes_length|apply hex_string_is_hex].
Qed.

(** * Properties *)

(** C30: A hasher object is its abstract byte string: [reset] empties it, [add] appends to it, in
    chunks of any size, and [getHash] returns the FIPS 180-4 digest of it in hexadecimal and
    leaves it unchanged, so hashing can go on. *)
Theorem hasher_refines_fips (extra : list Z) (s : SHA256) (m data : list Z) :
  length extra = 64%nat -> length (m_buffer s) = 64%nat ->
  Forall is_u8 m -> Forall is_u8 data -> Z.of_nat (length m) < 2 ^ 61 ->
  absorbed (reset s) [] /\
  (absorbed s m ->
     absorbed (add s data) (m ++ data) /\
     (getHash extra s).1 = hex_string (Fips.sha256 m) /\
     absorbed (getHash extra s).2 m).
Proof.
  intros He Hl Hm Hd Hlen. split; [by apply reset_absorbed|]. intros Hs. split_and!.
  - by apply add_absorbed.
  - destruct Hs as (n & rest & Hs). unfold getHash, getHash_raw, Fips.sha256. cbn [fst].
    by rewrite (processBuffer_digest extra s m n rest).
  - by apply getHash_absorbed.
Qed.

Lemma hasher_refines_fips_witness :
  let s := SHA256_new (repeat 7 64) in
  let abc := bytes_of "abc" in
  absorbed (reset s) [] /\
  (absorbed s [] -> absorbed (add s abc) ([] ++ abc)
     /\ (getHash (repeat 9 64) s).1 = hex_string (Fips.sha256 [])
     /\ absorbed (getHash (repeat 9 64) s).2 []).
Proof.
  apply (hasher_refines_fips (repeat 9 64) (SHA256_new (repeat 7 64)) [] (bytes_of "abc"));
    [reflexivity|reflexivity|constructor|apply bytes_of_u8|reflexivity].
Defined.

(** Hashing a string in one call gives the FIPS 180-4 digest of its bytes, whatever the
    memory of the object and of the spill array held before. *)
Theorem sha256_call_fips (extra : list Z) (s : SHA256) (text : string) :
  length extra = 64%nat -> length (m_buffer s) = 64%nat -> Z.of_nat (String.length text) < 2 ^ 61 ->
  (sha256_call extra s text).1 = hex_string (Fips.sha256 (bytes_of text)).
Proof.
  intros He Hl Hlen. unfold sha256_call.
  assert (Ha : absorbed (add (reset s) (bytes_of text)) (bytes_of text)).
  { apply (add_absorbed (reset s) [] (bytes_of text)); auto using bytes_of_u8.
    by apply reset_absorbed. }
  destruct Ha as (n & rest & Ha). unfold getHash, getHash_raw, Fips.sha256. cbn [fst].
  rewrite (processBuffer_digest extra _ (bytes_of text) n rest); rewrite ?bytes_of_length; auto using bytes_of_u8.
Qed.

Lemma sha256_call_fips_witness :
  (sha256_call (repeat 9 64) (SHA256_new (repeat 7 64)) "abc").1
  = hex_string (Fips.sha256 (bytes_of "abc")).
Proof. apply (sha256_call_fips (repeat 9 64) (SHA256_new (repeat 7 64)) "abc"); reflexivity. Defined.

(** The FIPS 180-4 test vector. *)
Example sha256_abc : hex_string (Fips.sha256 (bytes_of "abc"))
  = "ba7816bf8f01cfea414140de5dae2223b00361a396177a9cb410ff61f20015ad".
Proof. vm_compute. reflexivity. Qed.
