(* ===== verification/Json.v ===== *)
(** The JSON library the repository vendors (src/include/json/json.hpp, nlohmann::json): the value
    type, the accessors the program calls, the serializer and the parser, without floating-point
    numbers, with the round trip of the two. *)
From S2P Require Import Prelude.
Local Open Scope Z_scope.

(** * Values *)

(** [basic_json]; an object is a [std::map], kept here as its key-ordered list of entries. *)
#[warnings="-register-all"]
Inductive json :=
| JNull
| JBool (b : bool)
| JInt (z : Z)
| JStr (s : string)
| JArr (l : list json)
| JObj (l : list (string * json)).

(** Induction with hypotheses for the elements of arrays and objects. *)
Section JsonInd.
Variable P : json -> Prop.
Hypothesis HNull : P JNull.
Hypothesis HBool : forall b, P (JBool b).
Hypothesis HInt : forall z, P (JInt z).
Hypothesis HStr : forall s, P (JStr s).
Hypothesis HArr : forall l, Forall P l -> P (JArr l).
Hypothesis HObj : forall l, Forall (fun e => P e.2) l -> P (JObj l).

Fixpoint json_strong_ind (v : json) : P v :=
  match v with
  | JNull => HNull
  | JBool b => HBool b
  | JInt z => HInt z
  | JStr s => HStr s
  | JArr l => HArr l ((fix go l : Forall P l :=
      match l with [] => Forall_nil_2 _ | x :: l' => Forall_cons_2 _ x l' (json_strong_ind x) (go l') end) l)
  | JObj l => HObj l ((fix go l : Forall (fun e : string * json => P e.2) l :=
      match l with
      | [] => Forall_nil_2 _
      | e :: l' => Forall_cons_2 _ e l' (json_strong_ind e.2) (go l')
      end) l)
  end.
End JsonInd.

(** ** Ordered entries: [std::map<std::string, json>] *)

Definition key_ltb (a b : string) : bool :=
  match String.compare a b with Lt => true | _ => false end.

Fixpoint obj_insert (k : string) (v : json) (l : list (string * json)) : list (string * json) :=
  match l with
  | [] => [(k, v)]
  | (k', v') :: l' =>
      if decide (k = k') then (k, v) :: l'
      else if key_ltb k k' then (k, v) :: l
      else (k', v') :: obj_insert k v l'
  end.

Fixpoint obj_lookup (k : string) (l : list (string * json)) : option json :=
  match l with
  | [] => None
  | (k', v') :: l' => if decide (k = k') then Some v' else obj_lookup k l'
  end.

(** ** Accessors *)

(** [j[key] = v]: a null value becomes an object first. *)
Definition jset (j : json) (k : string) (v : json) : outcome json :=
  match j with
  | JNull => Ok (JObj [(k, v)])
  | JObj l => Ok (JObj (obj_insert k v l))
  | _ => Throw (json_type_error 305)
  end.

(** [j.push_back(v)]: a null value becomes an array first. *)
Definition jpush (j v : json) : outcome json :=
  match j with
  | JNull => Ok (JArr [v])
  | JArr l => Ok (JArr (l ++ [v]))
  | _ => Throw (json_type_error 308)
  end.

(** What [push_back]s onto a null value make of it. *)
Definition jarr (l : list json) : json := match l with [] => JNull | _ => JArr l end.

(** [j[key].push_back(v)]: [operator[]] first creates the entry as null. *)
Definition jset_push (j : json) (k : string) (v : json) : outcome json :=
  match j with
  | JNull => jset j k (JArr [v])
  | JObj l =>
      x ← jpush (default JNull (obj_lookup k l)) v; Ok (JObj (obj_insert k x l))
  | _ => Throw (json_type_error 305)
  end.

(** [j.at(key)]. *)
Definition jat (j : json) (k : string) : outcome json :=
  match j with
  | JObj l =>
      match obj_lookup k l with Some v => Ok v | None => Throw (json_out_of_range 403) end
  | _ => Throw (json_type_error 304)
  end.

(** [j[idx]] read on a non-const value: an array is filled up with nulls. *)
Definition jindex (j : json) (i : nat) : outcome json :=
  match j with
  | JNull => Ok JNull
  | JArr l => Ok (default JNull (l !! i))
  | _ => Throw (json_type_error 305)
  end.

Definition jcontains (j : json) (k : string) : bool :=
  match j with
  | JObj l => match obj_lookup k l with Some _ => true | None => false end
  | _ => false
  end.

Definition jsize (j : json) : nat :=
  match j with JNull => 0 | JArr l => length l | JObj l => length l | _ => 1 end%nat.

(** The values a range-based [for] visits; a primitive value is visited once. *)
Definition jelems (j : json) : list json :=
  match j with JNull => [] | JArr l => l | JObj l => l.*2 | _ => [j] end.

(** The conversions to [std::string], [bool], [uint64_t] (which refuses booleans) and to the
    other integer types (which accept them); [w] is the conversion to the target type. *)
Definition jget_string (j : json) : outcome string :=
  match j with JStr s => Ok s | _ => Throw (json_type_error 302) end.
Definition jget_bool (j : json) : outcome bool :=
  match j with JBool b => Ok b | _ => Throw (json_type_error 302) end.
Definition jget_u64 (j : json) : outcome Z :=
  match j with JInt z => Ok (u64 z) | _ => Throw (json_type_error 302) end.
Definition jget_int (w : Z -> Z) (j : json) : outcome Z :=
  match j with
  | JInt z => Ok (w z)
  | JBool b => Ok (w (Z.b2z b))
  | _ => Throw (json_type_error 302)
  end.

(** * UTF-8 *)

Definition code (c : ascii) : Z := Z.of_N (N_of_ascii c).

(** The ranges the bytes after a lead byte must fall in; [None] for an invalid lead byte. *)
Definition utf8_follow (b : Z) : option (list (Z * Z)) :=
  if b <? 0x80 then Some []
  else if b <? 0xC2 then None
  else if b <=? 0xDF then Some [(0x80, 0xBF)]
  else if b =? 0xE0 then Some [(0xA0, 0xBF); (0x80, 0xBF)]
  else if b =? 0xED then Some [(0x80, 0x9F); (0x80, 0xBF)]
  else if b <=? 0xEF then Some [(0x80, 0xBF); (0x80, 0xBF)]
  else if b =? 0xF0 then Some [(0x90, 0xBF); (0x80, 0xBF); (0x80, 0xBF)]
  else if b <=? 0xF3 then Some [(0x80, 0xBF); (0x80, 0xBF); (0x80, 0xBF)]
  else if b =? 0xF4 then Some [(0x80, 0x8F); (0x80, 0xBF); (0x80, 0xBF)]
  else None.

Definition in_range (b : Z) (r : Z * Z) : bool := (r.1 <=? b) && (b <=? r.2).

(** * The serializer *)

Definition hex_digit_lc (n : Z) : ascii :=
  default "0"%char (String.get (Z.to_nat n) "0123456789abcdef").

(** [\uXXXX] for a control character. *)
Definition u_escape (b : Z) : string :=
  String "\" (String "u" (String "0" (String "0"
    (String (hex_digit_lc (b / 16)) (String (hex_digit_lc (b mod 16)) "")))))%char.

(** What the character [c], complete in itself, is written as. *)
Definition escape_char (c : ascii) : string :=
  let b := code c in
  if b =? 0x08 then "\b"
  else if b =? 0x09 then "\t"
  else if b =? 0x0A then "\n"
  else if b =? 0x0C then "\f"
  else if b =? 0x0D then "\r"
  else if b =? 0x22 then String "\" (String c "")
  else if b =? 0x5C then "\\"
  else if b <=? 0x1F then u_escape b
  else String c "".

(** [dump_escaped] without [ensure_ascii], error handler [strict]; [pend] are the ranges still
    expected for the current multi-byte sequence. *)
Fixpoint dump_escaped (pend : list (Z * Z)) (s : string) : outcome string :=
  match s with
  | "" => match pend with [] => Ok "" | _ => Throw (json_type_error 316) end
  | String c s' =>
      match pend with
      | r :: pend' =>
          if in_range (code c) r
          then t ← dump_escaped pend' s'; Ok (String c t)
          else Throw (json_type_error 316)
      | [] =>
          match utf8_follow (code c) with
          | None => Throw (json_type_error 316)
          | Some rs => t ← dump_escaped rs s'; Ok (escape_char c +:+ t)
          end
      end
  end.

Definition quote : ascii := "034"%char.
Definition newline : ascii := "010"%char.

Fixpoint spaces (n : nat) : string :=
  match n with O => "" | S n' => String " " (spaces n') end.

(** The elements of an array or object, with a comma and [sep] between them. *)
Section Join.
Context {A : Type}.
Variables (f : A -> outcome string) (sep : string).

Fixpoint join (l : list A) : outcome string :=
  match l with
  | [] => Ok ""
  | x :: l' =>
      t ← f x;
      match l' with
      | [] => Ok t
      | _ => r ← join l'; Ok (t +:+ String "," (sep +:+ r))
      end
  end.
End Join.

Section Dump.
(** [step = None]: compact output; [Some n]: pretty-printed with indentation [n]. *)
Variable step : option nat.

(** The line break and indentation before an element or a closing bracket. *)
Definition line_break (indent : nat) : string :=
  match step with None => "" | Some _ => String newline (spaces indent) end.

Definition key_sep : string := match step with None => ":" | Some _ => ": " end.

(** An entry of an object, its value dumped by [f]. *)
Definition dump_member (f : json -> outcome string) (e : string * json) : outcome string :=
  kt ← dump_escaped [] e.1;
  t ← f e.2;
  Ok (String quote (kt +:+ String quote (key_sep +:+ t))).

Fixpoint dump (cur : nat) (v : json) : outcome string :=
  let new := (cur + default 0 step)%nat in
  match v with
  | JNull => Ok "null"
  | JBool true => Ok "true"
  | JBool false => Ok "false"
  | JInt z => Ok (pretty z)
  | JStr s => t ← dump_escaped [] s; Ok (String quote (t +:+ String quote ""))
  | JArr [] => Ok "[]"
  | JArr l =>
      body ← join (dump new) (line_break new) l;
      Ok (String "[" (line_break new +:+ (body +:+ (line_break cur +:+ "]"))))
  | JObj [] => Ok "{}"
  | JObj l =>
      body ← join (dump_member (dump new)) (line_break new) l;
      Ok (String "{" (line_break new +:+ (body +:+ (line_break cur +:+ "}"))))
  end.
End Dump.

(** [j.dump()] and [j.dump(indent)]. *)
Definition jdump (v : json) : outcome string := dump None 0 v.
Definition jdump_indent (n : nat) (v : json) : outcome string := dump (Some n) 0 v.

(** * The lexer *)

Fixpoint skip_whitespace (s : string) : string :=
  match s with
  | String (" " | "009" | "010" | "013")%char s' => skip_whitespace s'
  | _ => s
  end.

Definition hex_value (c : ascii) : option Z :=
  let b := code c in
  if (0x30 <=? b) && (b <=? 0x39) then Some (b - 0x30)
  else if (0x41 <=? b) && (b <=? 0x46) then Some (b - 0x37)
  else if (0x61 <=? b) && (b <=? 0x66) then Some (b - 0x57)
  else None.

Definition get_codepoint (c1 c2 c3 c4 : ascii) : option Z :=
  a ← hex_value c1; b ← hex_value c2; c ← hex_value c3; d ← hex_value c4;
  Some (Z.shiftl a 12 + Z.shiftl b 8 + Z.shiftl c 4 + d).

Definition char_of (b : Z) : ascii := ascii_of_N (Z.to_N b).

(** The UTF-8 bytes of a code point, as [scan_string] adds them. *)
Definition utf8_encode (cp : Z) : string :=
  if cp <? 0x80 then String (char_of cp) ""
  else if cp <=? 0x7FF then
    String (char_of (Z.lor 0xC0 (Z.shiftr cp 6)))
      (String (char_of (Z.lor 0x80 (Z.land cp 0x3F))) "")
  else if cp <=? 0xFFFF then
    String (char_of (Z.lor 0xE0 (Z.shiftr cp 12)))
      (String (char_of (Z.lor 0x80 (Z.land (Z.shiftr cp 6) 0x3F)))
        (String (char_of (Z.lor 0x80 (Z.land cp 0x3F))) ""))
  else
    String (char_of (Z.lor 0xF0 (Z.shiftr cp 18)))
      (String (char_of (Z.lor 0x80 (Z.land (Z.shiftr cp 12) 0x3F)))
        (String (char_of (Z.lor 0x80 (Z.land (Z.shiftr cp 6) 0x3F)))
          (String (char_of (Z.lor 0x80 (Z.land cp 0x3F))) ""))).

(** Single-character escapes. *)
Definition simple_escape (c : ascii) : option ascii :=
  match c with
  | "034" => Some "034" | "\" => Some "\" | "/" => Some "/" | "b" => Some "008"
  | "f" => Some "012" | "n" => Some "010" | "r" => Some "013" | "t" => Some "009"
  | _ => None
  end%char.

Definition prepend (p : string) (r : option (string * string)) : option (string * string) :=
  '(t, rest) ← r; Some (p +:+ t, rest).

(** [scan_string] after the opening quote: the content and what follows the closing quote; [None]
    is [token_type::parse_error]. *)
Fixpoint scan_string (pend : list (Z * Z)) (s : string) : option (string * string) :=
  match s with
  | "" => None
  | String c s' =>
      match pend with
      | r :: pend' =>
          if in_range (code c) r then prepend (String c "") (scan_string pend' s') else None
      | [] =>
          if (code c =? 0x22) then Some ("", s')
          else if (code c =? 0x5C) then
            match s' with
            | String "u"%char (String c1 (String c2 (String c3 (String c4 s2)))) =>
                match get_codepoint c1 c2 c3 c4 with
                | None => None
                | Some cp =>
                    if (0xD800 <=? cp) && (cp <=? 0xDBFF) then
                      match s2 with
                      | String "\"%char (String "u"%char
                          (String d1 (String d2 (String d3 (String d4 s3))))) =>
                          match get_codepoint d1 d2 d3 d4 with
                          | Some cp2 =>
                              if (0xDC00 <=? cp2) && (cp2 <=? 0xDFFF)
                              then prepend (utf8_encode (Z.shiftl cp 10 + cp2 - 0x35FDC00))
                                           (scan_string [] s3)
                              else None
                          | None => None
                          end
                      | _ => None
                      end
                    else if (0xDC00 <=? cp) && (cp <=? 0xDFFF) then None
                    else prepend (utf8_encode cp) (scan_string [] s2)
                end
            | String e s2 =>
                match simple_escape e with
                | Some x => prepend (String x "") (scan_string [] s2)
                | None => None
                end
            | "" => None
            end
          else if (code c <? 0x20) then None
          else match utf8_follow (code c) with
               | Some rs => prepend (String c "") (scan_string rs s')
               | None => None
               end
      end
  end.

Definition digit_value (c : ascii) : option Z :=
  let b := code c in if (0x30 <=? b) && (b <=? 0x39) then Some (b - 0x30) else None.

(** The digits at the head of a text, accumulated, and the rest of it: what the conversions of the
    standard library read. *)
Fixpoint scan_digits (acc : Z) (s : string) : Z * string :=
  match s with
  | "" => (acc, "")
  | String c s' =>
      match digit_value c with
      | Some d => scan_digits (10 * acc + d) s'
      | None => (acc, s)
      end
  end.

(** [std::strtoull] and [std::strtoll] on the text of an integer; [None] is [ERANGE]. *)
Definition strtoull (s : string) : option Z :=
  let n := (scan_digits 0 s).1 in if n <? 2 ^ 64 then Some n else None.
Definition strtoll (s : string) : option Z :=
  match s with
  | String "-"%char s' => let n := (scan_digits 0 s').1 in if n <=? 2 ^ 63 then Some (- n) else None
  | _ => let n := (scan_digits 0 s).1 in if n <? 2 ^ 63 then Some n else None
  end.

(** The states of the number automaton, one per label of [scan_number]. *)
Inductive num_state :=
| scan_init | scan_minus | scan_zero | scan_any1
| scan_decimal1 | scan_decimal2 | scan_exponent | scan_sign | scan_any2.

Inductive num_move := NGoto (st : num_state) | NDone | NError.

(** Zero, another digit, or none. *)
Definition digit_move (zero digit other : num_move) (c : ascii) : num_move :=
  match digit_value c with Some d => if d =? 0 then zero else digit | None => other end.

(** What the switch of a state does with the next character; [None] is the end of the input. *)
Definition num_step (st : num_state) (c : option ascii) : num_move :=
  let digits st' other := match c with
    | Some c => digit_move (NGoto st') (NGoto st') other c | None => other end in
  match st, c with
  | scan_init, Some "-"%char => NGoto scan_minus
  | scan_init, Some c | scan_minus, Some c =>
      digit_move (NGoto scan_zero) (NGoto scan_any1) NError c
  | scan_init, None | scan_minus, None => NError
  | (scan_zero | scan_any1), Some "."%char => NGoto scan_decimal1
  | (scan_zero | scan_any1 | scan_decimal2), Some ("e" | "E")%char => NGoto scan_exponent
  | scan_zero, _ => NDone
  | scan_any1, _ => digits scan_any1 NDone
  | scan_decimal1, _ => digits scan_decimal2 NError
  | scan_decimal2, _ => digits scan_decimal2 NDone
  | scan_exponent, Some ("+" | "-")%char => NGoto scan_sign
  | (scan_exponent | scan_sign), _ => digits scan_any2 NError
  | scan_any2, _ => digits scan_any2 NDone
  end.

(** [number_type], with what entering a state makes of it. *)
Inductive number_type := num_unsigned | num_integer | num_float.
Definition enter (st : num_state) (ty : number_type) : number_type :=
  match st with
  | scan_minus => num_integer
  | scan_decimal1 | scan_exponent => num_float
  | _ => ty
  end.

(** The automaton: the type, the text in [token_buffer] and the input after the number. *)
Fixpoint num_loop (st : num_state) (ty : number_type) (token_buffer s : string)
    : option (number_type * string * string) :=
  match s with
  | "" => match num_step st None with NDone => Some (ty, token_buffer, "") | _ => None end
  | String c s' =>
      match num_step st (Some c) with
      | NGoto st' => num_loop st' (enter st' ty) (token_buffer +:+ String c "") s'
      | NDone => Some (ty, token_buffer, s)
      | NError => None
      end
  end.

(** The number tokens; a floating-point number is kept as its text. *)
Inductive number :=
| value_unsigned (n : Z)
| value_integer (z : Z)
| value_float (token_buffer : string).

(** The conversion at [scan_number_done]: an integer that is out of range becomes a float. *)
Definition number_of (ty : number_type) (token_buffer : string) : number :=
  match ty with
  | num_unsigned =>
      match strtoull token_buffer with Some n => value_unsigned n | None => value_float token_buffer end
  | num_integer =>
      match strtoll token_buffer with Some z => value_integer z | None => value_float token_buffer end
  | num_float => value_float token_buffer
  end.

(** [scan_number]: [None] is [token_type::parse_error]. *)
Definition scan_number (s : string) : option (number * string) :=
  '(ty, buf, rest) ← num_loop scan_init num_unsigned "" s; Some (number_of ty buf, rest).

(** The value of a number token; floating-point values are not modelled. *)
Definition number_value (n : number) : outcome json :=
  match n with
  | value_unsigned n => Ok (JInt n)
  | value_integer z => Ok (JInt z)
  | value_float _ => Unmodelled
  end.

Definition scan_number_value (s : string) : outcome (json * string) :=
  match scan_number s with
  | Some (n, rest) => v ← number_value n; Ok (v, rest)
  | None => Throw json_parse_error
  end.

(** [scan_literal]. *)
Fixpoint scan_literal (lit s : string) : option string :=
  match lit, s with
  | "", _ => Some s
  | String a lit', String b s' => if decide (a = b) then scan_literal lit' s' else None
  | _, _ => None
  end.

(** * The parser *)

(** The rest of the input after the character [c]. *)
Definition eat (c : ascii) (s : string) : option string :=
  match s with
  | String d s' => if Ascii.eqb d c then Some s' else None
  | "" => None
  end.

Definition scan_lit_value (lit : string) (v : json) (s : string) : outcome (json * string) :=
  match scan_literal lit s with
  | Some rest => Ok (v, rest)
  | None => Throw json_parse_error
  end.

(** The string token at the head of the input. *)
Definition scan_quoted (s : string) : outcome (string * string) :=
  match eat quote s with
  | Some s1 => match scan_string [] s1 with Some r => Ok r | None => Throw json_parse_error end
  | None => Throw json_parse_error
  end.

Definition expect (c : ascii) (s : string) : outcome string :=
  match eat c (skip_whitespace s) with Some s' => Ok s' | None => Throw json_parse_error end.

(** One token of look-ahead and an explicit stack in the code; here the stack is the recursion.
    [fuel] bounds its depth and length; twice the length of the input is enough. *)
Fixpoint parse_value (fuel : nat) (s : string) : outcome (json * string) :=
  match fuel with
  | O => Unmodelled
  | S fuel' =>
      match skip_whitespace s with
      | "" => Throw json_parse_error
      | String c s1 =>
          if Ascii.eqb c "{" then
            match eat "}" (skip_whitespace s1) with
            | Some s2 => Ok (JObj [], s2)
            | None => '(l, rest) ← parse_members fuel' [] s1; Ok (JObj l, rest)
            end
          else if Ascii.eqb c "[" then
            match eat "]" (skip_whitespace s1) with
            | Some s2 => Ok (JArr [], s2)
            | None => '(l, rest) ← parse_elems fuel' s1; Ok (JArr l, rest)
            end
          else if Ascii.eqb c "t" then scan_lit_value "rue" (JBool true) s1
          else if Ascii.eqb c "f" then scan_lit_value "alse" (JBool false) s1
          else if Ascii.eqb c "n" then scan_lit_value "ull" JNull s1
          else if Ascii.eqb c quote then
            '(t, rest) ← scan_quoted (String c s1); Ok (JStr t, rest)
          else scan_number_value (String c s1)
      end
  end
with parse_elems (fuel : nat) (s : string) : outcome (list json * string) :=
  match fuel with
  | O => Unmodelled
  | S fuel' =>
      '(v, s1) ← parse_value fuel' s;
      match eat "," (skip_whitespace s1) with
      | Some s2 => '(l, rest) ← parse_elems fuel' s2; Ok (v :: l, rest)
      | None => rest ← expect "]" s1; Ok ([v], rest)
      end
  end
with parse_members (fuel : nat) (acc : list (string * json)) (s : string)
    : outcome (list (string * json) * string) :=
  match fuel with
  | O => Unmodelled
  | S fuel' =>
      '(k, s1) ← scan_quoted (skip_whitespace s);
      s2 ← expect ":" s1;
      '(v, s3) ← parse_value fuel' s2;
      match eat "," (skip_whitespace s3) with
      | Some s4 => parse_members fuel' (obj_insert k v acc) s4
      | None => rest ← expect "}" s3; Ok (obj_insert k v acc, rest)
      end
  end.

(** [skip_bom]. *)
Definition skip_bom (s : string) : option string :=
  match s with
  | String "239"%char s1 =>
      match s1 with String "187"%char (String "191"%char s2) => Some s2 | _ => None end
  | _ => Some s
  end.

(** [json::parse(s)]: the whole input must be one value; a null byte ends the input. *)
Definition jparse (s : string) : outcome json :=
  match skip_bom s with
  | None => Throw json_parse_error
  | Some s0 =>
      '(v, rest) ← parse_value (2 * String.length s0 + 1) s0;
      match skip_whitespace rest with
      | "" => Ok v
      | String "000"%char _ => Ok v
      | _ => Throw json_parse_error
      end
  end.

(** [stream >> j]: text after the value is left unread. *)
Definition jread (s : string) : outcome json :=
  match skip_bom s with
  | None => Throw json_parse_error
  | Some s0 => '(v, _) ← parse_value (2 * String.length s0 + 1) s0; Ok v
  end.

(** * Well-formed values *)

(** The integers [number_integer] and [number_unsigned] can hold. *)
Definition int_fits (z : Z) : bool := (- 2 ^ 63 <=? z) && (z <? 2 ^ 64).

(** Keys in strictly increasing order, as a [std::map] holds them. *)
Fixpoint keys_sorted (ks : list string) : bool :=
  match ks with
  | [] => true
  | k :: ks' => forallb (key_ltb k) ks' && keys_sorted ks'
  end.

(** What the library's own invariant and integer types allow of a value. *)
Fixpoint json_wf (v : json) : bool :=
  match v with
  | JNull | JBool _ | JStr _ => true
  | JInt z => int_fits z
  | JArr l => forallb json_wf l
  | JObj l => keys_sorted l.*1 && forallb (fun e => json_wf e.2) l
  end.

(** Well-formed UTF-8; [pend] are the ranges the next bytes must fall in. *)
Fixpoint utf8_valid (pend : list (Z * Z)) (s : string) : bool :=
  match s with
  | "" => match pend with [] => true | _ => false end
  | String c s' =>
      match pend with
      | r :: pend' => in_range (code c) r && utf8_valid pend' s'
      | [] => match utf8_follow (code c) with Some rs => utf8_valid rs s' | None => false end
      end
  end.

(** Every string of the value, keys included, is well-formed UTF-8. *)
Fixpoint json_utf8 (v : json) : bool :=
  match v with
  | JNull | JBool _ | JInt _ => true
  | JStr s => utf8_valid [] s
  | JArr l => forallb json_utf8 l
  | JObj l => forallb (fun e => utf8_valid [] e.1 && json_utf8 e.2) l
  end.

(** ** The order of the keys *)

Lemma key_ltb_spec a b : key_ltb a b = true <-> String.le a b /\ a <> b.
Proof.
  unfold key_ltb, String.le, String.leb. destruct (String.compare a b) eqn:E; split; try done.
  - intros [_ H]. by apply String.compare_eq_iff in E.
  - intros _. split; [done|]. intros ->.
    pose proof (String.compare_antisym b b) as Hb. by rewrite E in Hb.
  - by intros [H _].
Qed.

Lemma key_ltb_trans a b c : key_ltb a b = true -> key_ltb b c = true -> key_ltb a c = true.
Proof.
  rewrite !key_ltb_spec. intros [Hab Hn] [Hbc _]. split; [by etrans|].
  intros ->. apply Hn. by apply (anti_symm String.le).
Qed.

Lemma key_ltb_asym a b : key_ltb a b = true -> key_ltb b a = false.
Proof.
  rewrite key_ltb_spec. intros [Hab Hn]. apply not_true_iff_false. rewrite key_ltb_spec.
  intros [Hba _]. apply Hn. by apply (anti_symm String.le).
Qed.

Lemma key_ltb_total a b : a <> b -> key_ltb a b = false -> key_ltb b a = true.
Proof.
  intros Hn Hf. rewrite key_ltb_spec. split; [|done].
  destruct (total String.le a b) as [Hab|]; [|done]. exfalso.
  apply not_true_iff_false in Hf. apply Hf. by rewrite key_ltb_spec.
Qed.

(** ** The accessors on well-formed values *)

Lemma obj_insert_last acc k v :
  forallb (fun k' => key_ltb k' k) acc.*1 = true -> obj_insert k v acc = acc ++ [(k, v)].
Proof.
  induction acc as [|[k' v'] acc IH]; [done|]. cbn. intros H. apply andb_prop in H as [H1 H2].
  rewrite IH, (key_ltb_asym _ _ H1) by done. rewrite decide_False; [done|].
  apply key_ltb_spec in H1 as [_ H1]. by apply not_eq_sym.
Qed.

Lemma obj_insert_keys k v l ks :
  forallb (key_ltb ks) l.*1 = true -> key_ltb ks k = true ->
  forallb (key_ltb ks) (obj_insert k v l).*1 = true.
Proof.
  induction l as [|[k' v'] l IH]; cbn; intros H Hk; [by rewrite Hk|].
  apply andb_prop in H as [H1 H2].
  repeat case_decide; repeat case_match; cbn; rewrite ?Hk, ?H1, ?IH, ?H2 by done; done.
Qed.

Lemma obj_insert_sorted k v l : keys_sorted l.*1 = true -> keys_sorted (obj_insert k v l).*1 = true.
Proof.
  induction l as [|[k' v'] l IH]; [done|]. cbn. intros H. apply andb_prop in H as [H1 H2].
  destruct (decide (k = k')) as [->|Hn]; [cbn; by rewrite H1, H2|].
  destruct (key_ltb k k') eqn:Hk; cbn.
  - rewrite Hk, H1, H2, !andb_true_r. cbn. apply forallb_forall. intros x Hx.
    rewrite forallb_forall in H1. eauto using key_ltb_trans.
  - rewrite IH, obj_insert_keys by auto using key_ltb_total. done.
Qed.

Lemma obj_insert_values (P : json -> bool) k v l :
  P v = true -> forallb (fun e => P e.2) l = true ->
  forallb (fun e => P e.2) (obj_insert k v l) = true.
Proof.
  intros Hv. induction l as [|[k' v'] l IH]; cbn; intros H; [by rewrite Hv|].
  apply andb_prop in H as [H1 H2].
  repeat case_decide; repeat case_match; cbn; rewrite ?Hv, ?H1, ?H2, ?IH by done; done.
Qed.

Lemma obj_lookup_insert k v l : obj_lookup k (obj_insert k v l) = Some v.
Proof.
  induction l as [|[k' v'] l IH]; cbn; [by rewrite decide_True|].
  repeat case_decide; repeat case_match; cbn; rewrite ?decide_True, ?decide_False by done; done.
Qed.

Lemma obj_lookup_insert_ne k k' v l : k <> k' -> obj_lookup k (obj_insert k' v l) = obj_lookup k l.
Proof.
  intros Hn. induction l as [|[k2 v2] l IH]; cbn; [by rewrite decide_False|].
  destruct (decide (k' = k2)) as [->|]; cbn; [by rewrite !(decide_False (P := k = k2))|].
  destruct (key_ltb k' k2); cbn; [by rewrite (decide_False (P := k = k'))|].
  by rewrite IH.
Qed.

Lemma jset_wf j k v j' :
  jset j k v = Ok j' -> json_wf j = true -> json_wf v = true -> json_wf j' = true.
Proof.
  intros H Hj Hv. destruct j as [| | | | |l]; simplify_eq/=; [by rewrite Hv|].
  apply andb_prop in Hj as [H1 H2].
  rewrite obj_insert_sorted by done. by apply obj_insert_values.
Qed.

(** ** Building arrays *)

Lemma jpush_jarr l v : jpush (jarr l) v = Ok (jarr (l ++ [v])).
Proof. by destruct l. Qed.

(** A loop that pushes one value per element. *)
Lemma foldM_jpush {A} (f : A -> outcome json) xs : forall l,
  foldM (fun j x => v ← f x; jpush j v) (jarr l) xs
  = (vs ← outcome_mapM f xs; Ok (jarr (l ++ vs))).
Proof.
  induction xs as [|x xs IH]; intros l; cbn; [by rewrite app_nil_r|].
  destruct (f x) as [v| | |]; cbn; [|done..]. rewrite jpush_jarr. cbn. rewrite IH.
  destruct (outcome_mapM f xs); cbn; [by rewrite <- app_assoc|done..].
Qed.

Lemma jelems_jarr l : jelems (jarr l) = l.
Proof. by destruct l. Qed.
Lemma json_wf_jarr l : json_wf (jarr l) = forallb json_wf l.
Proof. by destruct l. Qed.
Lemma json_utf8_jarr l : json_utf8 (jarr l) = forallb json_utf8 l.
Proof. by destruct l. Qed.

(** ASCII text is well-formed UTF-8. *)
Lemma utf8_valid_ascii s :
  Forall (fun c => (code c <? 0x80) = true) (String.list_ascii_of_string s) ->
  utf8_valid [] s = true.
Proof.
  induction s as [|c s IH]; intros Hs; [done|]. cbn in *. apply Forall_cons in Hs as [Hc Hs].
  unfold utf8_follow. rewrite Hc. auto.
Qed.

Lemma obj_insert_twice k v w l : obj_insert k v (obj_insert k w l) = obj_insert k v l.
Proof.
  induction l as [|[k' v'] l IH]; cbn; [by rewrite decide_True|].
  destruct (decide (k = k')) as [->|Hn]; cbn; [by rewrite decide_True|].
  destruct (key_ltb k k') eqn:Hk; cbn; [by rewrite decide_True|].
  by rewrite decide_False, Hk, IH.
Qed.

Lemma jset_push_insert k vs v l :
  jset_push (JObj (obj_insert k (JArr vs) l)) k v = Ok (JObj (obj_insert k (JArr (vs ++ [v])) l)).
Proof. cbn. rewrite obj_lookup_insert. cbn. by rewrite obj_insert_twice. Qed.

(** A loop that pushes one string per element onto [j[k]]. *)
Lemma foldM_jset_push {A} (f : A -> outcome json) k l xs :
  obj_lookup k l = None ->
  foldM (fun j x => v ← f x; jset_push j k v) (JObj l) xs
  = (vs ← outcome_mapM f xs;
     Ok (JObj (match vs with [] => l | _ => obj_insert k (JArr vs) l end))).
Proof.
  intros Hk.
  assert (Hloop : forall ys vs,
    foldM (fun j x => v ← f x; jset_push j k v) (JObj (obj_insert k (JArr vs) l)) ys
    = (ws ← outcome_mapM f ys; Ok (JObj (obj_insert k (JArr (vs ++ ws)) l)))).
  { induction ys as [|y ys IH]; intros vs; cbn [foldM outcome_mapM].
    { cbn. by rewrite app_nil_r. }
    destruct (f y) as [v| | |]; cbn [mbind outcome_bind]; [|done..].
    rewrite jset_push_insert. cbn [mbind outcome_bind]. rewrite IH.
    destruct (outcome_mapM f ys); cbn; [by rewrite <- app_assoc|done..]. }
  destruct xs as [|x xs]; [done|]. cbn [foldM outcome_mapM].
  destruct (f x) as [v| | |]; cbn [mbind outcome_bind]; [|done..].
  cbn [jset_push]. rewrite Hk. cbn [default from_option jpush mbind outcome_bind].
  change (JArr [v]) with (JArr ([] ++ [v])). rewrite Hloop.
  by destruct (outcome_mapM f xs).
Qed.

(** Evaluates accessors on objects whose keys are literals. *)
Ltac jsimpl :=
  repeat first
    [ progress cbn [jat obj_lookup jget_int jget_u64 jget_string jget_bool jcontains jset obj_insert jelems
                    mbind outcome_bind fmap outcome_fmap foldM outcome_mapM]
    | rewrite decide_True by reflexivity
    | rewrite decide_False by discriminate ].
