(* ===== verification/JsonRoundTrip.v ===== *)
(** The text round trip of the JSON library: what [dump] writes, compact or pretty-printed,
    [parse] reads back, and the strings for which [dump] throws. *)
From S2P Require Import Prelude Json.
Local Open Scope Z_scope.

(** * Strings *)

(** Reading back what one complete character is escaped to. *)
Lemma scan_escape_char c rs u :
  utf8_follow (code c) = Some rs ->
  scan_string [] (escape_char c +:+ u) = prepend (String c "") (scan_string rs u).
Proof.
  destruct c as [[] [] [] [] [] [] [] []]; intros H; vm_compute in H; simplify_eq; reflexivity.
Qed.

Lemma scan_string_dump pend s e rest :
  dump_escaped pend s = Ok e ->
  scan_string pend (e +:+ String quote rest) = Some (s, rest).
Proof.
  revert pend e. induction s as [|c s IH]; intros pend e H; cbn in H.
  - destruct pend; [|done]. simplify_eq. reflexivity.
  - destruct pend as [|r pend].
    + destruct (utf8_follow (code c)) as [rs|] eqn:Hf; [|done].
      destruct (dump_escaped rs s) as [t| | |] eqn:Ht; simplify_eq/=.
      rewrite string_app_assoc, (scan_escape_char _ rs), (IH _ _ Ht) by done. done.
    + destruct (in_range (code c) r) eqn:Hr; [|done].
      destruct (dump_escaped pend s) as [t| | |] eqn:Ht; simplify_eq/=.
      by rewrite Hr, (IH _ _ Ht).
Qed.

(** * Integers *)

(** The text after a number must not continue it. *)
Definition ends_number (s : string) : bool :=
  match s with
  | "" => true
  | String c _ => match num_step scan_any1 (Some c) with NDone => true | _ => false end
  end.

Fixpoint digits_only (s : string) : bool :=
  match s with "" => true | String c s' => bool_decide (is_Some (digit_value c)) && digits_only s' end.

(** A decision over the ten digits. *)
Definition digits_forall (p : N -> bool) := forallb_N p 10.

Lemma digit_value_pretty n :
  (n < 10)%N -> digit_value (pretty_N_char n) = Some (Z.of_N n).
Proof.
  intros Hn. apply (proj1 (bool_decide_eq_true _)).
  exact (digits_forall (fun n => bool_decide (digit_value (pretty_N_char n) = Some (Z.of_N n)))
    eq_refl n Hn).
Qed.

Lemma scan_digits_pretty x : forall s,
  scan_digits 0 (pretty_N_go x s) = scan_digits (Z.of_N x) s.
Proof.
  induction (N.lt_wf_0 x) as [x _ IH]; intros s.
  destruct (decide (x = 0%N)) as [->|Hx]; [by rewrite pretty_N_go_0|].
  rewrite pretty_N_go_step, IH by (try apply N.div_lt; lia). cbn [scan_digits].
  rewrite digit_value_pretty by (apply N.mod_lt; lia). f_equal.
  rewrite N2Z.inj_div, N2Z.inj_mod. pose proof (Z.div_mod (Z.of_N x) 10). lia.
Qed.

Lemma pretty_N_go_app x : forall s t, pretty_N_go x s +:+ t = pretty_N_go x (s +:+ t).
Proof.
  induction (N.lt_wf_0 x) as [x _ IH]; intros s t.
  destruct (decide (x = 0%N)) as [->|Hx]; [by rewrite !pretty_N_go_0|].
  rewrite !(pretty_N_go_step x), IH by (try apply N.div_lt; lia). done.
Qed.

Lemma pretty_N_go_head x : forall s, (0 < x)%N ->
  exists d t, pretty_N_go x s = String (pretty_N_char d) t /\ (0 < d < 10)%N.
Proof.
  induction (N.lt_wf_0 x) as [x _ IH]; intros s Hx. rewrite pretty_N_go_step by done.
  destruct (decide (x < 10)%N).
  - rewrite N.div_small, pretty_N_go_0, N.mod_small by done. eauto.
  - apply IH; [apply N.div_lt; lia|]. apply N.div_str_pos. lia.
Qed.

Lemma pretty_N_go_digits x : forall s, digits_only s = true -> digits_only (pretty_N_go x s) = true.
Proof.
  induction (N.lt_wf_0 x) as [x _ IH]; intros s Hs.
  destruct (decide (x = 0%N)) as [->|Hx]; [by rewrite pretty_N_go_0|].
  rewrite pretty_N_go_step by lia. apply IH; [apply N.div_lt; lia|]. cbn.
  by rewrite digit_value_pretty, Hs by (apply N.mod_lt; lia).
Qed.

(** ** The number automaton *)

(** A property of every byte, by enumeration. *)
Ltac each_byte c := destruct c as [[] [] [] [] [] [] [] []].

Lemma num_step_init c d :
  digit_value c = Some d -> 0 < d -> forall st, st = scan_init \/ st = scan_minus ->
  num_step st (Some c) = NGoto scan_any1.
Proof.
  intros H Hd st Hst. each_byte c; vm_compute in H; simplify_eq; try done; by destruct Hst; subst.
Qed.

Lemma num_step_any1 c : is_Some (digit_value c) -> num_step scan_any1 (Some c) = NGoto scan_any1.
Proof. intros [d H]. each_byte c; vm_compute in H; simplify_eq; reflexivity. Qed.

Lemma num_step_zero c : num_step scan_any1 (Some c) = NDone -> num_step scan_zero (Some c) = NDone.
Proof. intros H. each_byte c; vm_compute in H; try discriminate H; reflexivity. Qed.

(** The automaton reads all digits, and stops after them. *)
Lemma num_loop_digits ds : forall ty buf rest,
  digits_only ds = true -> ends_number rest = true ->
  num_loop scan_any1 ty buf (ds +:+ rest) = Some (ty, buf +:+ ds, rest).
Proof.
  induction ds as [|c ds IH]; intros ty buf rest Hds Hr.
  - rewrite string_app_nil, string_app_nil_r. destruct rest as [|c rest]; [done|].
    cbn [ends_number] in Hr. cbn [num_loop]. by destruct (num_step scan_any1 (Some c)).
  - cbn in Hds. apply andb_prop in Hds as [Hc%bool_decide_eq_true Hds].
    rewrite string_app_cons. cbn [num_loop]. rewrite num_step_any1 by done. cbn [enter].
    by rewrite IH, string_app_assoc by done.
Qed.

(** Both ways into a positive number, from the start and after the sign. *)
Lemma num_loop_positive x st ty buf rest :
  st = scan_init \/ st = scan_minus -> ends_number rest = true ->
  num_loop st ty buf (pretty (Npos x) +:+ rest) = Some (ty, buf +:+ pretty (Npos x), rest).
Proof.
  intros Hst Hr. change (pretty (Npos x)) with (pretty_N_go (Npos x) "").
  pose proof (pretty_N_go_digits (Npos x) "" eq_refl) as Hds.
  destruct (pretty_N_go_head (Npos x) "") as (d & t & He & Hd); [done|].
  rewrite He in *. cbn in Hds. apply andb_prop in Hds as [_ Hds].
  rewrite string_app_cons. cbn [num_loop].
  rewrite (num_step_init _ (Z.of_N d)) by (done || lia || (apply digit_value_pretty; lia)).
  cbn [enter]. by rewrite num_loop_digits, string_app_assoc by done.
Qed.

Lemma scan_digits_value x : (scan_digits 0 (pretty (Npos x))).1 = Z.pos x.
Proof. change (pretty (Npos x)) with (pretty_N_go (Npos x) ""). by rewrite scan_digits_pretty. Qed.

Lemma scan_number_pretty z rest :
  int_fits z = true -> ends_number rest = true ->
  scan_number_value (pretty z +:+ rest) = Ok (JInt z, rest).
Proof.
  unfold int_fits. intros Hz Hr. assert (- 2 ^ 63 <= z < 2 ^ 64) as [Hl Hu] by lia.
  unfold scan_number_value, scan_number. destruct z as [|x|x].
  - change (pretty 0 +:+ rest) with (String "0" rest). destruct rest as [|c rest]; [done|].
    cbn [ends_number] in Hr. cbn -[num_step].
    change (num_step scan_init (Some "0"%char)) with (NGoto scan_zero). cbn -[num_step].
    rewrite num_step_zero; [done|]. by destruct (num_step scan_any1 (Some c)).
  - change (pretty (Zpos x)) with (pretty (Npos x)).
    rewrite num_loop_positive by auto. rewrite string_app_nil. unfold mbind, option_bind, number_of, strtoull.
    rewrite scan_digits_value.
    by destruct (Z.ltb_spec (Z.pos x) (2 ^ 64)); [|lia].
  - change (pretty (Zneg x)) with (String "-" (pretty (Npos x))). rewrite string_app_cons.
    cbn [num_loop]. change (num_step scan_init (Some "-"%char)) with (NGoto scan_minus).
    cbn [enter]. rewrite num_loop_positive by auto.
    change (("" +:+ String "-" "") +:+ pretty (Npos x)) with (String "-" (pretty (Npos x))).
    unfold mbind, option_bind, number_of, strtoll. rewrite scan_digits_value.
    by destruct (Z.leb_spec (Z.pos x) (2 ^ 63)); [|lia].
Qed.

(** * Values *)

(** ** First characters *)

(** Characters a dumped value can start with. *)
Definition value_head (c : ascii) : bool :=
  bool_decide (c ∈ [quote; "["; "{"; "t"; "f"; "n"; "-"]%char) ||
  bool_decide (is_Some (digit_value c)).

Lemma skip_value_head c t :
  value_head c = true -> skip_whitespace (String c t) = String c t.
Proof. destruct c as [[] [] [] [] [] [] [] []]; intros H; try discriminate H; reflexivity. Qed.

Lemma pretty_head (z : Z) : exists c t, pretty z = String c t /\ value_head c = true /\
  c <> quote /\ c <> "["%char /\ c <> "{"%char /\ c <> "t"%char /\ c <> "f"%char /\ c <> "n"%char.
Proof.
  assert (Hd : forall d, (d < 10)%N -> let c := pretty_N_char d in value_head c = true /\
    c <> quote /\ c <> "["%char /\ c <> "{"%char /\ c <> "t"%char /\ c <> "f"%char /\ c <> "n"%char).
  { intros d Hd c. apply (proj1 (bool_decide_eq_true _)).
    subst c. revert d Hd. apply digits_forall. reflexivity. }
  destruct z as [|x|x].
  - exists "0"%char, "". by split.
  - destruct (pretty_N_go_head (Npos x) "") as (d & t & He & Hx); [done|].
    exists (pretty_N_char d), t. split; [exact He|]. apply Hd. lia.
  - exists "-"%char, (pretty (Npos x)). by split.
Qed.

Lemma dump_head step cur v s :
  dump step cur v = Ok s -> exists c t, s = String c t /\ value_head c = true.
Proof.
  destruct v as [|[]|z|s'|[|x l]|[|e l]]; cbn -[join]; intros H.
  1-3: simplify_eq; by eexists _, _.
  - simplify_eq. destruct (pretty_head z) as (c & t & -> & Hc & _). eauto.
  - destruct (dump_escaped [] s'); simplify_eq/=. by eexists _, _.
  - simplify_eq. by eexists _, _.
  - destruct (join _ _ _); simplify_eq/=. by eexists _, _.
  - simplify_eq. by eexists _, _.
  - destruct (join _ _ _); simplify_eq/=. by eexists _, _.
Qed.

Lemma dump_member_head step f e s :
  dump_member step f e = Ok s -> exists c t, s = String c t /\ value_head c = true.
Proof.
  unfold dump_member. destruct (dump_escaped [] e.1); [|done..]. cbn.
  destruct (f e.2); [|done..]. cbn. intros ?; simplify_eq. by eexists _, _.
Qed.

(** ** White space between tokens *)

Lemma skip_line_break step n s : skip_whitespace (line_break step n +:+ s) = skip_whitespace s.
Proof.
  destruct step; [|done]. cbn [line_break]. rewrite string_app_cons. cbn [skip_whitespace].
  induction n as [|n IH]; [done|]. cbn [spaces]. rewrite string_app_cons. apply IH.
Qed.
Lemma ends_number_line_break step n s :
  ends_number s = true -> ends_number (line_break step n +:+ s) = true.
Proof. by destruct step. Qed.

Lemma eat_other c d s :
  value_head c = true -> d <> quote -> value_head d = false -> eat d (String c s) = None.
Proof.
  intros Hc _ Hd. cbn. destruct (Ascii.eqb_spec c d) as [->|]; [|done].
  by rewrite Hc in Hd.
Qed.

Lemma eat_cons c s : eat c (String c s) = Some s.
Proof. cbn. by rewrite Ascii.eqb_refl. Qed.

Lemma scan_quoted_dump s e rest :
  dump_escaped [] s = Ok e ->
  scan_quoted (String quote (e +:+ String quote rest)) = Ok (s, rest).
Proof.
  intros H. unfold scan_quoted. rewrite eat_cons. by rewrite (scan_string_dump _ _ _ _ H).
Qed.

Lemma expect_cons c s :
  skip_whitespace (String c s) = String c s -> expect c (String c s) = Ok s.
Proof. intros H. unfold expect. by rewrite H, eat_cons. Qed.

Lemma expect_line_break step n c s :
  skip_whitespace (String c s) = String c s -> expect c (line_break step n +:+ String c s) = Ok s.
Proof. intros H. unfold expect. by rewrite skip_line_break, H, eat_cons. Qed.

Lemma skip_idemp s : skip_whitespace (skip_whitespace s) = skip_whitespace s.
Proof.
  induction s as [|c s IH]; [done|].
  destruct c as [[] [] [] [] [] [] [] []]; try reflexivity; exact IH.
Qed.

(** The parser ignores white space before what it reads. *)
Lemma parse_skip fuel s t acc :
  skip_whitespace s = skip_whitespace t ->
  parse_value fuel s = parse_value fuel t /\ parse_elems fuel s = parse_elems fuel t
  /\ parse_members fuel acc s = parse_members fuel acc t.
Proof.
  intros H. assert (Hv : forall n, parse_value n s = parse_value n t).
  { intros [|n]; [done|]. cbn [parse_value]. by rewrite H. }
  destruct fuel as [|fuel]; [done|]. split; [done|]. cbn [parse_elems parse_members].
  by rewrite Hv, H.
Qed.

Definition parse_elems_skip fuel s t H := proj1 (proj2 (parse_skip fuel s t [] H)).
Definition parse_members_skip fuel s t acc H := proj2 (proj2 (parse_skip fuel s t acc H)).
Definition parse_value_skip fuel s t H := proj1 (parse_skip fuel s t [] H).

Lemma keys_sorted_app ks k ks' :
  keys_sorted (ks ++ k :: ks') = true -> forallb (fun k' => key_ltb k' k) ks = true.
Proof.
  induction ks as [|k1 ks IH]; [done|]. cbn. intros H. apply andb_prop in H as [H1 H2].
  rewrite IH, andb_true_r by done. rewrite forallb_app in H1. cbn in H1.
  by destruct (key_ltb k1 k), (forallb (key_ltb k1) ks).
Qed.

(** ** The round trip

    [reads f v]: whatever follows, the parser reads back from what [f] writes for [v]. *)
Definition reads (f : json -> outcome string) (v : json) : Prop :=
  forall s rest fuel, f v = Ok s -> ends_number rest = true ->
    (2 * String.length s + 1 <= fuel)%nat -> parse_value fuel (s +:+ rest) = Ok (v, rest).

Section RoundTrip.
Variable step : option nat.
Variables cur new : nat.
Let sep := line_break step new.
Let f := dump step new.

Lemma parse_elems_join l : forall body rest fuel,
  Forall (reads f) l -> l <> [] -> join f sep l = Ok body ->
  (2 * String.length body + 2 <= fuel)%nat ->
  parse_elems fuel (body +:+ (line_break step cur +:+ String "]" rest)) = Ok (l, rest).
Proof.
  induction l as [|x l IH]; [done|]. intros body rest fuel Hl _ Hb Hfuel.
  apply Forall_cons in Hl as [Hx Hl]. cbn [join] in Hb.
  destruct (f x) as [t| | |] eqn:Ht; [|done..]. cbn in Hb.
  destruct fuel as [|fuel]; [lia|]. cbn [parse_elems].
  destruct l as [|y l].
  - simplify_eq. rewrite (Hx body) by (auto using ends_number_line_break; lia).
    cbn -[expect eat skip_whitespace]. rewrite skip_line_break. cbn -[expect].
    by rewrite expect_line_break.
  - destruct (join f sep (y :: l)) as [r| | |] eqn:Hr; [|done..]. cbn in Hb. simplify_eq.
    rewrite string_length_app in Hfuel. cbn in Hfuel. rewrite string_length_app in Hfuel.
    rewrite !string_app_assoc, string_app_cons, !string_app_assoc.
    rewrite (Hx t) by (auto; lia). cbn -[parse_elems expect].
    rewrite (parse_elems_skip _ _ _ (skip_line_break step new _)).
    rewrite IH by (auto; lia). done.
Qed.

(** One entry: its key, the colon and its value. *)
Lemma parse_member_read k x m acc rest fuel :
  reads f x -> dump_member step f (k, x) = Ok m -> ends_number rest = true ->
  (2 * String.length m + 2 <= S fuel)%nat ->
  parse_members (S fuel) acc (m +:+ rest) =
    match eat "," (skip_whitespace rest) with
    | Some s4 => parse_members fuel (obj_insert k x acc) s4
    | None => rest ← expect "}" rest; Ok (obj_insert k x acc, rest)
    end.
Proof.
  intros Hx Hm Hr Hfuel. unfold dump_member in Hm. cbn in Hm.
  destruct (dump_escaped [] k) as [kt| | |] eqn:Hk; [|done..]. cbn in Hm.
  destruct (f x) as [t| | |] eqn:Ht; [|done..]. cbn in Hm. simplify_eq.
  cbn in Hfuel. rewrite !string_length_app in Hfuel. cbn in Hfuel.
  rewrite string_length_app in Hfuel.
  rewrite string_app_cons, string_app_assoc, string_app_cons, string_app_assoc.
  cbn [parse_members]. rewrite skip_value_head by done.
  rewrite (scan_quoted_dump _ _ _ Hk). cbn -[parse_value eat expect].
  assert (exists ws, key_sep step = String ":" ws /\
    forall u, skip_whitespace (ws +:+ u) = skip_whitespace u) as (ws & -> & Hws).
  { destruct step; by eexists. }
  rewrite string_app_cons, expect_cons by done. cbn -[parse_value eat expect].
  rewrite (parse_value_skip _ _ _ (Hws _)), (Hx t) by (auto; lia). done.
Qed.

Lemma parse_members_join l : forall acc body rest fuel,
  Forall (fun e => reads f e.2) l -> l <> [] -> join (dump_member step f) sep l = Ok body ->
  (2 * String.length body + 2 <= fuel)%nat -> keys_sorted (acc ++ l).*1 = true ->
  parse_members fuel acc (body +:+ (line_break step cur +:+ String "}" rest))
  = Ok (acc ++ l, rest).
Proof.
  induction l as [|[k x] l IH]; [done|]. intros acc body rest fuel Hl _ Hb Hfuel Hks.
  apply Forall_cons in Hl as [Hx Hl]. cbn [join] in Hb.
  destruct (dump_member step f (k, x)) as [m| | |] eqn:Hm; [|done..]. cbn in Hb.
  destruct fuel as [|fuel]; [lia|].
  assert (Hins : obj_insert k x acc = acc ++ [(k, x)]).
  { apply obj_insert_last. rewrite fmap_app in Hks. by apply keys_sorted_app in Hks. }
  destruct l as [|y l].
  - simplify_eq. rewrite (parse_member_read k x) by (auto using ends_number_line_break).
    rewrite skip_line_break. cbn -[expect]. by rewrite expect_line_break, Hins.
  - destruct (join _ sep (y :: l)) as [r| | |] eqn:Hr; [|done..]. cbn in Hb. simplify_eq.
    rewrite string_length_app in Hfuel. cbn in Hfuel. rewrite string_length_app in Hfuel.
    rewrite !string_app_assoc, string_app_cons, !string_app_assoc.
    rewrite (parse_member_read k x) by (auto; lia). cbn -[parse_members].
    rewrite (parse_members_skip _ _ _ _ (skip_line_break step new _)).
    rewrite Hins, IH; [by rewrite <- app_assoc|done..| |by rewrite <- app_assoc]. lia.
Qed.
End RoundTrip.

Lemma parse_number z rest fuel :
  int_fits z = true -> ends_number rest = true ->
  parse_value (S fuel) (pretty z +:+ rest) = Ok (JInt z, rest).
Proof.
  intros Hz Hr. pose proof (scan_number_pretty _ _ Hz Hr) as Hs.
  destruct (pretty_head z) as (c & t & He & Hc & Hne). rewrite He, string_app_cons in *.
  cbn [parse_value]. rewrite skip_value_head by done.
  destruct Hne as (? & ? & ? & ? & ? & ?).
  repeat (rewrite (proj2 (Ascii.eqb_neq _ _)) by done). done.
Qed.

Lemma join_head {A} (f : A -> outcome string) sep x l body :
  (forall s, f x = Ok s -> exists c t, s = String c t /\ value_head c = true) ->
  join f sep (x :: l) = Ok body -> exists c t, body = String c t /\ value_head c = true.
Proof.
  intros Hf. cbn [join]. destruct (f x) as [t| | |] eqn:Ht; [|done..]. cbn.
  destruct (Hf t) as (c & t' & -> & Hc); [done|].
  destruct l as [|y l]; [intros ?; simplify_eq; eauto|].
  destruct (join f sep (y :: l)); [|done..]. cbn. intros ?; simplify_eq. eauto.
Qed.

(** After an opening bracket the parser sees the elements, not the closing bracket. *)
Lemma eat_close step n c body rest :
  (exists d t, body = String d t /\ value_head d = true) -> c <> quote -> value_head c = false ->
  eat c (skip_whitespace (line_break step n +:+ body +:+ rest)) = None.
Proof.
  intros (d & t & -> & Hd) Hq Hc. rewrite skip_line_break, string_app_cons.
  rewrite skip_value_head by done. by apply eat_other.
Qed.

Lemma dump_reads step v : forall cur, json_wf v = true -> reads (dump step cur) v.
Proof.
  induction v as [|b|z|s'|l IH|l IH] using json_strong_ind; intros cur Hwf s rest fuel Hs Hr Hfuel;
    (destruct fuel as [|fuel]; [lia|]).
  - cbn in Hs. simplify_eq. reflexivity.
  - destruct b; cbn in Hs; simplify_eq; reflexivity.
  - cbn in Hs. simplify_eq. by apply parse_number.
  - cbn in Hs. destruct (dump_escaped [] s') as [t| | |] eqn:Ht; simplify_eq/=.
    cbn -[scan_quoted]. rewrite string_app_assoc, string_app_cons, string_app_nil.
    change (String "034" (t +:+ String quote rest)) with (String quote (t +:+ String quote rest)).
    by rewrite (scan_quoted_dump _ _ _ Ht).
  - destruct l as [|x l]; [cbn in Hs; simplify_eq; reflexivity|]. cbn [dump] in Hs.
    set (new := (cur + default 0 step)%nat) in *.
    destruct (join _ (line_break step new) (x :: l)) as [body| | |] eqn:Hb; [|done..].
    cbn in Hs. simplify_eq. cbn [parse_value].
    rewrite string_app_cons, !string_app_assoc, string_app_cons, string_app_nil.
    rewrite skip_value_head by done. cbn -[parse_elems eat skip_whitespace].
    rewrite eat_close by (done || eapply join_head; eauto using dump_head).
    rewrite (parse_elems_skip _ _ _ (skip_line_break step new _)).
    rewrite (parse_elems_join step cur new (x :: l)); [done| |done|done|].
    + cbn [json_wf] in Hwf. rewrite forallb_forall in Hwf. rewrite Forall_forall in IH |- *.
      intros y Hy. apply IH; [done|]. by apply Hwf, list_elem_of_In.
    + cbn in Hfuel. rewrite !string_length_app in Hfuel. lia.
  - destruct l as [|x l]; [cbn in Hs; simplify_eq; reflexivity|]. cbn [dump] in Hs.
    set (new := (cur + default 0 step)%nat) in *.
    destruct (join _ (line_break step new) (x :: l)) as [body| | |] eqn:Hb; [|done..].
    cbn in Hs. simplify_eq. cbn [parse_value].
    rewrite string_app_cons, !string_app_assoc, string_app_cons, string_app_nil.
    rewrite skip_value_head by done. cbn -[parse_members eat skip_whitespace].
    cbn [json_wf] in Hwf. apply andb_prop in Hwf as [Hks Hwf].
    rewrite eat_close by (done || eapply join_head; eauto using dump_member_head).
    rewrite (parse_members_skip _ _ _ _ (skip_line_break step new _)).
    rewrite (parse_members_join step cur new (x :: l)); [done| |done|done| |done].
    + rewrite forallb_forall in Hwf. rewrite Forall_forall in IH |- *.
      intros y Hy. apply IH; [done|]. by apply Hwf, list_elem_of_In.
    + cbn in Hfuel. rewrite !string_length_app in Hfuel. lia.
Qed.

Lemma dump_no_bom step v s : dump step 0 v = Ok s -> skip_bom s = Some s.
Proof.
  intros H. destruct (dump_head _ _ _ _ H) as (c & t & -> & Hc).
  destruct c as [[] [] [] [] [] [] [] []]; try discriminate Hc; reflexivity.
Qed.

Lemma jparse_dump step v s :
  json_wf v = true -> dump step 0 v = Ok s -> jparse s = Ok v /\ jread s = Ok v.
Proof.
  intros Hwf Hs. unfold jparse, jread. rewrite (dump_no_bom _ _ _ Hs).
  pose proof (dump_reads step v 0 Hwf s "" _ Hs eq_refl (le_n _)) as H.
  rewrite string_app_nil_r in H. by rewrite H.
Qed.

(** C37: writing a well-formed JSON value, compact or indented, and parsing the text gives the
    value back, with the string parser and with the stream reader. *)
Theorem dump_parse_roundtrip step v s :
  json_wf v = true -> dump step 0 v = Ok s -> jparse s = Ok v /\ jread s = Ok v.
Proof. apply jparse_dump. Qed.

Lemma dump_parse_roundtrip_witness :
  let v := JObj [("a", JArr [JInt 12; JStr "x\y"]); ("b", JObj []); ("c", JInt (-5))] in
  json_wf v = true /\ exists s, jdump_indent 4 v = Ok s /\ jparse s = Ok v /\ jread s = Ok v.
Proof.
  cbn zeta. split; [vm_compute; reflexivity|]. eexists. split; [vm_compute; reflexivity|].
  apply (dump_parse_roundtrip (Some 4%nat)); vm_compute; reflexivity.
Defined.

(** * When the serializer throws *)

(** A serialization succeeds if [b], and otherwise throws [type_error] 316. *)
Definition ok_or_316 (b : bool) (o : outcome string) : Prop :=
  if b then exists s, o = Ok s else o = Throw (json_type_error 316).

Lemma dump_escaped_316 s : forall pend, ok_or_316 (utf8_valid pend s) (dump_escaped pend s).
Proof.
  unfold ok_or_316. induction s as [|c s IH]; intros pend; cbn.
  - destruct pend; eauto.
  - destruct pend as [|r pend].
    + destruct (utf8_follow (code c)) as [rs|]; [|done]. specialize (IH rs).
      destruct (utf8_valid rs s); [destruct IH as [e ->]|rewrite IH]; cbn; eauto.
    + destruct (in_range (code c) r); [|done]. cbn. specialize (IH pend).
      destruct (utf8_valid pend s); [destruct IH as [e ->]|rewrite IH]; cbn; eauto.
Qed.

Lemma join_316 {A} (f : A -> outcome string) (p : A -> bool) sep l :
  Forall (fun x => ok_or_316 (p x) (f x)) l -> ok_or_316 (forallb p l) (join f sep l).
Proof.
  unfold ok_or_316. induction 1 as [|x l Hx Hl IH]; cbn -[forallb]; [by eexists|].
  cbn. destruct (p x); cbn; [|by rewrite Hx]. destruct Hx as [t ->]. cbn.
  destruct l as [|y l]; [by eexists|].
  destruct (forallb p (y :: l)); [destruct IH as [r ->]|rewrite IH]; cbn; eauto.
Qed.

Lemma dump_member_316 step f e :
  ok_or_316 (json_utf8 e.2) (f e.2) ->
  ok_or_316 (utf8_valid [] e.1 && json_utf8 e.2) (dump_member step f e).
Proof.
  unfold dump_member. pose proof (dump_escaped_316 e.1 []) as Hk. unfold ok_or_316 in *.
  destruct (utf8_valid [] e.1); [destruct Hk as [kt ->]|by rewrite Hk]. cbn.
  destruct (json_utf8 e.2); [intros [t ->]|intros ->]; cbn; eauto.
Qed.

Lemma dump_316 step v : forall cur, ok_or_316 (json_utf8 v) (dump step cur v).
Proof.
  induction v as [|b|z|s'|l IH|l IH] using json_strong_ind; intros cur.
  - by eexists.
  - destruct b; by eexists.
  - by eexists.
  - cbn. pose proof (dump_escaped_316 s' []) as Hs. unfold ok_or_316 in *.
    destruct (utf8_valid [] s'); [destruct Hs as [e ->]|rewrite Hs]; cbn; eauto.
  - cbn [json_utf8 dump]. destruct l as [|x l]; [by eexists|].
    set (new := (cur + default 0 step)%nat).
    pose proof (join_316 (dump step new) json_utf8 (line_break step new) (x :: l)) as Hj.
    unfold ok_or_316 in Hj at 2 |- *.
    destruct (forallb json_utf8 (x :: l)).
    + destruct Hj as [body ->]; [eapply Forall_impl; [exact IH|auto]|]. by eexists.
    + rewrite Hj; [done|]. eapply Forall_impl; [exact IH|auto].
  - cbn [json_utf8 dump]. destruct l as [|x l]; [by eexists|].
    set (new := (cur + default 0 step)%nat).
    pose proof (join_316 (dump_member step (dump step new))
      (fun e => utf8_valid [] e.1 && json_utf8 e.2) (line_break step new) (x :: l)) as Hj.
    unfold ok_or_316 in Hj at 2 |- *. destruct (forallb _ (x :: l)).
    + destruct Hj as [body ->]; [|by eexists].
      eapply Forall_impl; [exact IH|]. intros e He. by apply dump_member_316.
    + rewrite Hj; [done|].
      eapply Forall_impl; [exact IH|]. intros e He. by apply dump_member_316.
Qed.

(** [dump] always returns, and it throws exactly when some string or key of the value is not
    well-formed UTF-8, the exception then being [type_error] 316. *)
Theorem dump_utf8 step cur v :
  if json_utf8 v then exists s, dump step cur v = Ok s
  else dump step cur v = Throw (json_type_error 316).
Proof. apply (dump_316 step v cur). Qed.

Lemma dump_ok step v : json_utf8 v = true -> exists s, dump step 0 v = Ok s.
Proof. intros H. pose proof (dump_316 step v 0) as Hd. by rewrite H in Hd. Qed.

(** * The fuel of the parser *)

(** A parser that consumes at least [k] characters whenever it succeeds. *)
Definition consumes {A} (k : nat) (s : string) (o : outcome (A * string)) : Prop :=
  match o with Ok (_, rest) => (String.length rest + k <= String.length s)%nat | _ => True end.

Lemma skip_whitespace_length s : (String.length (skip_whitespace s) <= String.length s)%nat.
Proof.
  induction s as [|c s IH]; [done|].
  destruct c as [[] [] [] [] [] [] [] []]; cbn in *; lia.
Qed.

Lemma eat_length c s s' : eat c s = Some s' -> String.length s = S (String.length s').
Proof. destruct s as [|d s]; cbn; [done|]. destruct (Ascii.eqb d c); intros; by simplify_eq. Qed.

Lemma expect_length c s : match expect c s with
  Ok s' => (S (String.length s') <= String.length s)%nat | _ => True end.
Proof.
  unfold expect. destruct (eat c (skip_whitespace s)) as [s'|] eqn:E; [|done].
  apply eat_length in E. pose proof (skip_whitespace_length s). lia.
Qed.

Lemma prepend_inv p r t rest : prepend p r = Some (t, rest) -> exists t', r = Some (t', rest).
Proof. unfold prepend. destruct r as [[t' rest']|]; cbn; intros; simplify_eq; eauto. Qed.

Lemma scan_string_length n : forall pend s t rest,
  (String.length s <= n)%nat -> scan_string pend s = Some (t, rest) ->
  (String.length rest < String.length s)%nat.
Proof.
  induction n as [|n IH]; intros pend s t rest Hn H; (destruct s as [|c s]; [done|]);
    [cbn in Hn; lia|]. cbn [String.length] in *.
  assert (Hrec : forall p pend' s' t',
    (String.length s' <= String.length s)%nat ->
    prepend p (scan_string pend' s') = Some (t', rest) ->
    (String.length rest < S (String.length s))%nat).
  { intros p pend' s' t' Hs' Hp. apply prepend_inv in Hp as [t2 Hp].
    apply IH in Hp; lia. }
  cbn [scan_string] in H.
  repeat case_match; simplify_eq; try done; try lia;
    (eapply Hrec; [|exact H]; cbn [String.length]; lia).
Qed.

Lemma scan_quoted_consumes s : consumes 1 s (scan_quoted s).
Proof.
  unfold scan_quoted, consumes. destruct (eat quote s) as [s1|] eqn:E; [|done].
  apply eat_length in E. destruct (scan_string [] s1) as [[t rest]|] eqn:Hs; [|done].
  apply (scan_string_length _ _ _ _ _ (le_n _)) in Hs. lia.
Qed.

Lemma num_loop_length s : forall st ty buf ty' buf' rest,
  num_loop st ty buf s = Some (ty', buf', rest) -> (String.length rest <= String.length s)%nat.
Proof.
  induction s as [|c s IH]; intros st ty buf ty' buf' rest; cbn [num_loop].
  - destruct (num_step st None); intros ?; by simplify_eq.
  - destruct (num_step st (Some c)) as [st'| |]; intros H; simplify_eq; [|done].
    apply IH in H. cbn. lia.
Qed.

Lemma num_loop_init_length ty buf s ty' buf' rest :
  num_loop scan_init ty buf s = Some (ty', buf', rest) -> (String.length rest < String.length s)%nat.
Proof.
  destruct s as [|c s]; [done|]. cbn [num_loop].
  destruct (num_step scan_init (Some c)) as [st'| |] eqn:E; [|each_byte c; done|done].
  intros H%num_loop_length. cbn. lia.
Qed.

Lemma scan_number_length s n rest :
  scan_number s = Some (n, rest) -> (String.length rest < String.length s)%nat.
Proof.
  unfold scan_number. destruct (num_loop _ _ _ s) as [[[ty buf] r]|] eqn:E; [|done]. cbn.
  intros ?; simplify_eq. by apply num_loop_init_length in E.
Qed.

Lemma scan_number_consumes s : consumes 1 s (scan_number_value s).
Proof.
  unfold scan_number_value, consumes. destruct (scan_number s) as [[n rest]|] eqn:E; [|done].
  apply scan_number_length in E. destruct (number_value n); cbn; [lia|done..].
Qed.

Lemma scan_lit_consumes lit v s : consumes 0 s (scan_lit_value lit v s).
Proof.
  unfold scan_lit_value, consumes. revert s. induction lit as [|a lit IH]; intros s; [cbn; lia|].
  destruct s as [|b s]; cbn; [done|]. destruct (decide (a = b)); [|done].
  specialize (IH s). destruct (scan_literal lit s); cbn; [lia|done].
Qed.

Lemma consumes_bind {A B} k k' s (o : outcome (A * string)) (f : A * string -> outcome (B * string)) :
  consumes k s o ->
  (forall a rest, (String.length rest + k <= String.length s)%nat -> consumes k' s (f (a, rest))) ->
  consumes k' s (o ≫= f).
Proof. intros Ho Hf. destruct o as [[a rest]| | |]; cbn; [by apply Hf|done..]. Qed.

Lemma expect_bind {A} k c s s0 (f : string -> outcome (A * string)) :
  (forall s', (S (String.length s') <= String.length s)%nat -> consumes k s0 (f s')) ->
  consumes k s0 (expect c s ≫= f).
Proof. intros Hf. pose proof (expect_length c s). destruct (expect c s); cbn; [by apply Hf|done..]. Qed.

(** What every successful call of the parser consumes. *)
Lemma parse_consumes fuel : forall s,
  consumes 1 s (parse_value fuel s) /\ consumes 1 s (parse_elems fuel s) /\
  forall acc, consumes 1 s (parse_members fuel acc s).
Proof.
  induction fuel as [|fuel IH]; [done|]. intros s. split_and!.
  - cbn [parse_value]. pose proof (skip_whitespace_length s) as Hs.
    destruct (skip_whitespace s) as [|c s1]; [done|]. cbn in Hs.
    assert (Hw : forall k k' A (o : outcome (A * string)), consumes k (String c s1) o ->
      (k' <= k)%nat -> consumes k' s o).
    { intros k k' A o Ho Hk. destruct o as [[a rest]| | |]; cbn in *; [lia|done..]. }
    assert (Hn : forall A (o : outcome (A * string)), consumes 0 s1 o -> consumes 1 s o).
    { intros A o Ho. destruct o as [[a rest]| | |]; cbn in *; [lia|done..]. }
    pose proof (skip_whitespace_length s1) as Hs1.
    repeat match goal with |- consumes _ _ (if ?b then _ else _) => destruct b end;
      try (by apply Hn, scan_lit_consumes).
    + destruct (eat "}" (skip_whitespace s1)) as [s2|] eqn:E.
      { apply eat_length in E. cbn. lia. }
      pose proof (proj2 (proj2 (IH s1)) []) as Hm.
      destruct (parse_members fuel [] s1) as [[l rest]| | |]; cbn in *; [lia|done..].
    + destruct (eat "]" (skip_whitespace s1)) as [s2|] eqn:E.
      { apply eat_length in E. cbn. lia. }
      pose proof (proj1 (proj2 (IH s1))) as He.
      destruct (parse_elems fuel s1) as [[l rest]| | |]; cbn in *; [lia|done..].
    + eapply consumes_bind; [eapply Hw; [apply scan_quoted_consumes|done]|]. cbn. lia.
    + eapply Hw; [apply scan_number_consumes|done].
  - cbn [parse_elems]. eapply consumes_bind; [apply IH|]. intros v s1 Hs1.
    pose proof (skip_whitespace_length s1).
    destruct (eat "," (skip_whitespace s1)) as [s2|] eqn:E.
    + apply eat_length in E. destruct (IH s2) as (_ & He & _).
      destruct (parse_elems fuel s2) as [[l rest]| | |]; cbn in *; [lia|done..].
    + apply expect_bind. cbn. lia.
  - intros acc. cbn [parse_members]. pose proof (skip_whitespace_length s).
    pose proof (scan_quoted_consumes (skip_whitespace s)) as Hq.
    destruct (scan_quoted (skip_whitespace s)) as [[k s1]| | |]; [|done..]. cbn in Hq.
    cbn -[expect eat]. apply expect_bind. intros s2 Hs2.
    pose proof (proj1 (IH s2)) as Hv.
    destruct (parse_value fuel s2) as [[v s3]| | |]; [|done..]. cbn in Hv. cbn -[expect eat].
    pose proof (skip_whitespace_length s3).
    destruct (eat "," (skip_whitespace s3)) as [s4|] eqn:E.
    + apply eat_length in E. pose proof (proj2 (proj2 (IH s4)) (obj_insert k v acc)) as Hm.
      destruct (parse_members fuel _ s4) as [[l rest]| | |]; cbn in *; [lia|done..].
    + apply expect_bind. cbn. lia.
Qed.

Definition stable_at (n m : nat) (s : string) : Prop :=
  ((2 * String.length s + 1 <= n)%nat -> (2 * String.length s + 1 <= m)%nat ->
    parse_value n s = parse_value m s) /\
  ((2 * String.length s + 2 <= n)%nat -> (2 * String.length s + 2 <= m)%nat ->
    parse_elems n s = parse_elems m s /\
    forall acc, parse_members n acc s = parse_members m acc s).

Lemma parse_stable n : forall m s, stable_at n m s.
Proof.
  unfold stable_at. induction n as [|n IH]; intros m s; [split; intros; lia|].
  split; intros Hn Hm; (destruct m as [|m]; [lia|]).
  - cbn [parse_value]. pose proof (skip_whitespace_length s) as Hs.
    destruct (skip_whitespace s) as [|c s1]; [done|]. cbn in Hs.
    destruct (IH m s1) as (_ & Hem). destruct Hem as [He Hmm]; [lia..|].
    by rewrite He, Hmm.
  - split.
    + cbn [parse_elems]. destruct (IH m s) as (Hv & _). rewrite Hv by lia.
      pose proof (proj1 (parse_consumes m s)) as Hc.
      destruct (parse_value m s) as [[v s1]| | |]; [|done..]. cbn in Hc. cbn -[eat expect].
      pose proof (skip_whitespace_length s1).
      destruct (eat "," (skip_whitespace s1)) as [s2|] eqn:E; [|done].
      apply eat_length in E. destruct (IH m s2) as (_ & Hem).
      destruct Hem as [He _]; [lia..|]. by rewrite He.
    + intros acc. cbn [parse_members]. pose proof (skip_whitespace_length s).
      pose proof (scan_quoted_consumes (skip_whitespace s)) as Hq.
      destruct (scan_quoted (skip_whitespace s)) as [[k s1]| | |]; [|done..]. cbn in Hq.
      cbn -[expect eat]. pose proof (expect_length ":" s1) as Hx.
      destruct (expect ":" s1) as [s2| | |]; [|done..]. cbn -[expect eat].
      destruct (IH m s2) as (Hv & _). rewrite Hv by lia.
      pose proof (proj1 (parse_consumes m s2)) as Hc.
      destruct (parse_value m s2) as [[v s3]| | |]; [|done..]. cbn in Hc. cbn -[expect eat].
      pose proof (skip_whitespace_length s3).
      destruct (eat "," (skip_whitespace s3)) as [s4|] eqn:E; [|done].
      apply eat_length in E. destruct (IH m s4) as (_ & Hem).
      destruct Hem as [_ Hmm]; [lia..|]. by rewrite Hmm.
Qed.

(** The parser terminates: the fuel [json::parse] is given, twice the length of the text, is
    enough, so that its result does not depend on it. *)
Theorem parse_terminates s fuel :
  (2 * String.length s + 1 <= fuel)%nat ->
  parse_value fuel s = parse_value (2 * String.length s + 1) s.
Proof. intros H. by apply (parse_stable fuel). Qed.

Lemma parse_terminates_witness : parse_value 100 "[[1],2]" = parse_value 15 "[[1],2]".
Proof. apply (parse_terminates "[[1],2]" 100). vm_compute. lia. Defined.

(** * The text written is itself UTF-8

    Texts are nested: the JSON text of a part is a string of the whole. *)

(** A text after which a UTF-8 decoder is between two characters. *)
Definition transparent (s : string) : Prop :=
  forall rest, utf8_valid [] (s +:+ rest) = utf8_valid [] rest.

Lemma transparent_app s t : transparent s -> transparent t -> transparent (s +:+ t).
Proof. intros Hs Ht rest. by rewrite string_app_assoc, Hs, Ht. Qed.

Lemma transparent_cons c t : (code c <? 0x80) = true -> transparent t -> transparent (String c t).
Proof.
  intros Hc Ht rest. rewrite string_app_cons. cbn [utf8_valid]. unfold utf8_follow. rewrite Hc.
  apply Ht.
Qed.

Lemma transparent_nil : transparent "".
Proof. done. Qed.
Create HintDb transparent.
#[export] Hint Resolve transparent_app transparent_nil : transparent.
#[export] Hint Extern 1 (transparent (String _ _)) =>
  (apply transparent_cons; [reflexivity|]) : transparent.

Lemma utf8_escape_char c rs u :
  utf8_follow (code c) = Some rs -> utf8_valid [] (escape_char c +:+ u) = utf8_valid rs u.
Proof.
  destruct c as [[] [] [] [] [] [] [] []]; intros H; vm_compute in H; simplify_eq; reflexivity.
Qed.

Lemma dump_escaped_utf8 s : forall pend e rest,
  dump_escaped pend s = Ok e -> utf8_valid pend (e +:+ rest) = utf8_valid [] rest.
Proof.
  induction s as [|c s IH]; intros pend e rest H; cbn in H.
  - destruct pend; by simplify_eq.
  - destruct pend as [|r pend].
    + destruct (utf8_follow (code c)) as [rs|] eqn:Hf; [|done].
      destruct (dump_escaped rs s) as [t| | |] eqn:Ht; simplify_eq/=.
      rewrite string_app_assoc, (utf8_escape_char _ rs) by done. eauto.
    + destruct (in_range (code c) r) eqn:Hr; [|done].
      destruct (dump_escaped pend s) as [t| | |] eqn:Ht; simplify_eq/=.
      rewrite Hr. cbn. eauto.
Qed.

Lemma dump_escaped_transparent s e : dump_escaped [] s = Ok e -> transparent e.
Proof. intros H rest. by apply (dump_escaped_utf8 s). Qed.

Lemma pretty_N_go_transparent x : forall s, transparent s -> transparent (pretty_N_go x s).
Proof.
  induction (N.lt_wf_0 x) as [x _ IH]; intros s Hs.
  destruct (decide (x = 0%N)) as [->|Hx]; [by rewrite pretty_N_go_0|].
  rewrite pretty_N_go_step by lia. apply IH; [apply N.div_lt; lia|].
  apply transparent_cons; [|done].
  refine (digits_forall (fun n => code (pretty_N_char n) <? 0x80) eq_refl _ _).
  apply N.mod_lt. lia.
Qed.

Lemma pretty_transparent (z : Z) : transparent (pretty z).
Proof.
  destruct z as [|x|x]; [by auto with transparent|apply pretty_N_go_transparent; auto with transparent|].
  change (pretty (Zneg x)) with (String "-" (pretty_N_go (Npos x) "")).
  apply transparent_cons; [done|]. apply pretty_N_go_transparent. done.
Qed.

Lemma line_break_transparent step n : transparent (line_break step n).
Proof.
  destruct step; [|done]. cbn. apply transparent_cons; [done|].
  induction n as [|n IH]; [done|]. by apply transparent_cons.
Qed.
#[export] Hint Resolve pretty_transparent line_break_transparent : transparent.

Lemma join_transparent {A} (f : A -> outcome string) sep l : forall s,
  transparent sep -> Forall (fun x => forall t, f x = Ok t -> transparent t) l ->
  join f sep l = Ok s -> transparent s.
Proof.
  induction l as [|x l IH]; intros s Hsep Hl H; cbn [join] in H; [by simplify_eq|].
  apply Forall_cons in Hl as [Hx Hl].
  destruct (f x) as [t| | |] eqn:Ht; [|done..]. cbn in H.
  destruct l as [|y l]; [simplify_eq; by apply Hx|].
  destruct (join f sep (y :: l)) as [r| | |] eqn:Hr; [|done..]. cbn in H. simplify_eq.
  eauto 6 with transparent.
Qed.

Lemma dump_member_transparent step f e s :
  (forall t, f e.2 = Ok t -> transparent t) -> dump_member step f e = Ok s -> transparent s.
Proof.
  unfold dump_member. intros Hf H.
  destruct (dump_escaped [] e.1) as [kt| | |] eqn:Hk; [|done..]. cbn in H.
  destruct (f e.2) as [t| | |] eqn:Ht; [|done..]. cbn in H. simplify_eq.
  apply dump_escaped_transparent in Hk. unfold key_sep.
  destruct step; eauto 12 with transparent.
Qed.

Lemma dump_transparent step v : forall cur s, dump step cur v = Ok s -> transparent s.
Proof.
  induction v as [|b|z|s'|l IH|l IH] using json_strong_ind; intros cur s H.
  - cbn in H. simplify_eq. auto 12 with transparent.
  - destruct b; cbn in H; simplify_eq; auto 12 with transparent.
  - cbn in H. simplify_eq. auto with transparent.
  - cbn in H. destruct (dump_escaped [] s') as [e| | |] eqn:He; simplify_eq/=.
    apply dump_escaped_transparent in He. eauto 12 with transparent.
  - cbn [dump] in H. destruct l as [|x l]; [simplify_eq; auto 12 with transparent|].
    destruct (join _ _ _) as [body| | |] eqn:Hb; [|done..]. cbn in H. simplify_eq.
    apply join_transparent in Hb; [|auto with transparent|by eapply Forall_impl; [exact IH|eauto]].
    eauto 12 with transparent.
  - cbn [dump] in H. destruct l as [|x l]; [simplify_eq; auto 12 with transparent|].
    destruct (join _ _ _) as [body| | |] eqn:Hb; [|done..]. cbn in H. simplify_eq.
    apply join_transparent in Hb; [|auto with transparent|].
    + eauto 12 with transparent.
    + eapply Forall_impl; [exact IH|]. intros e He t Ht.
      eapply dump_member_transparent; [|exact Ht]. eauto.
Qed.

Lemma dump_text_utf8 step v s : dump step 0 v = Ok s -> utf8_valid [] s = true.
Proof.
  intros H. apply dump_transparent in H. specialize (H ""). by rewrite string_app_nil_r in H.
Qed.

(** What the components use: a well-formed UTF-8 value can be written, the text is UTF-8 again, and
    it is read back. *)
Lemma jdump_total step v :
  json_wf v = true -> json_utf8 v = true ->
  exists s, dump step 0 v = Ok s /\ jparse s = Ok v /\ jread s = Ok v /\ utf8_valid [] s = true.
Proof.
  intros Hwf Hu. destruct (dump_ok step v Hu) as [s Hs]. exists s.
  destruct (jparse_dump step v s Hwf Hs) as [Hp Hr]. eauto using dump_text_utf8.
Qed.

Lemma int_fits_u64 x : is_u64 x -> int_fits x = true.
Proof. unfold is_u64, int_fits. intros. apply andb_true_intro. split; lia. Qed.
Lemma int_fits_u32 x : is_u32 x -> int_fits x = true.
Proof. unfold is_u32, int_fits. intros. apply andb_true_intro. split; lia. Qed.
Lemma int_fits_u16 x : is_u16 x -> int_fits x = true.
Proof. unfold is_u16, int_fits. intros. apply andb_true_intro. split; lia. Qed.


(** A part that is written as UTF-8 text and read back. *)
Definition text_roundtrip {A} (to : outcome string) (from : string -> outcome A) (a : A) : Prop :=
  exists s, to = Ok s /\ from s = Ok a /\ utf8_valid [] s = true.

(** The strings of a list of parts, and what they are read back as. *)
Lemma parts_roundtrip {A} (to : A -> outcome string) (from : string -> outcome A) l :
  Forall (fun a => text_roundtrip (to a) from a) l ->
  exists ss, outcome_mapM (fun a => JStr <$> to a) l = Ok (map JStr ss) /\
    outcome_mapM (fun v => el ← jget_string v; from el) (map JStr ss) = Ok l /\
    Forall (fun s => utf8_valid [] s = true) ss /\ length ss = length l.
Proof.
  induction 1 as [|a l (s & Hto & Hfrom & Hu) _ (ss & Hm & Hr & Hus & Hlen)]; [by exists []|].
  exists (s :: ss). cbn. rewrite Hto. cbn. rewrite Hm. cbn. rewrite Hfrom. cbn. rewrite Hr. cbn.
  split_and!; [done|done|by constructor|by rewrite Hlen].
Qed.
