(* ===== verification/JsonDump.v ===== *)
(** The serializer of the JSON library as it is: integers written backwards into a buffer two digits
    at a time, strings escaped through a table-driven UTF-8 decoder into a buffer that is flushed when it
    is nearly full, and indentation cut from a string that doubles when it is too short; with the
    proof that it writes what [dump] of [Json] defines. *)
From S2P Require Import Prelude Json JsonRoundTrip.
Local Open Scope Z_scope.

Module Serializer.

(** * State *)

(** The members of the class that change: the text written so far, the two buffers, and the string
    of indentation characters. *)
Record serializer := Ser {
  o : string;
  number_buffer : list ascii;
  string_buffer : list ascii;
  indent_string : list ascii
}.

(** The constructor, with the indentation character [dump()] passes. *)
Definition serializer_new : serializer :=
  {| o := ""; number_buffer := replicate 64 "000"%char;
     string_buffer := replicate 512 "000"%char; indent_string := replicate 512 " "%char |}.

(** [o->write_characters] and [o->write_character]. *)
Definition write_characters (t : string) (s : serializer) : serializer :=
  {| o := o s +:+ t; number_buffer := number_buffer s; string_buffer := string_buffer s;
     indent_string := indent_string s |}.

(** [*p = c] for a position of a [std::array]. *)
Definition store (buf : list ascii) (p : nat) (c : ascii) : outcome (list ascii) :=
  if decide (p < length buf)%nat then Ok (<[p := c]> buf) else Undef out_of_bounds.

(** * Integers *)

(** [fuel] bounds the rounds; five are enough for 64 bits. *)
Fixpoint count_digits_loop (fuel : nat) (n_digits : nat) (x : N) : outcome nat :=
  match fuel with
  | O => Unmodelled
  | S fuel' =>
      if (x <? 10)%N then Ok n_digits
      else if (x <? 100)%N then Ok (n_digits + 1)%nat
      else if (x <? 1000)%N then Ok (n_digits + 2)%nat
      else if (x <? 10000)%N then Ok (n_digits + 3)%nat
      else count_digits_loop fuel' (n_digits + 4) (x `div` 10000)
  end.
Definition count_digits (x : N) : outcome nat := count_digits_loop 5 1 x.

(** The two characters of each number below 100, one after the other. *)
Definition digits_to_99 : string :=
  "0001020304050607080910111213141516171819"
   +:+ "2021222324252627282930313233343536373839"
   +:+ "4041424344454647484950515253545556575859"
   +:+ "6061626364656667686970717273747576777879"
   +:+ "8081828384858687888990919293949596979899".
Definition digit_of (i : N) (j : nat) : ascii :=
  default "000"%char (String.get (2 * N.to_nat i + j) digits_to_99).

(** [*(--buffer_ptr) = c]. *)
Definition store_before (buf : list ascii) (p : nat) (c : ascii) : outcome (list ascii * nat) :=
  match p with
  | O => Undef out_of_bounds
  | S p' => buf' ← store buf p' c; Ok (buf', p')
  end.

(** The loop that writes the digits backwards, with what follows it; [fuel] bounds the pairs of digits, ten
    are enough for 64 bits. *)
Fixpoint write_digits (fuel : nat) (abs_value : N) (buf : list ascii) (buffer_ptr : nat)
    : outcome (list ascii) :=
  if (100 <=? abs_value)%N then
    match fuel with
    | O => Unmodelled
    | S fuel' =>
        let digits_index := (abs_value mod 100)%N in
        '(buf, buffer_ptr) ← store_before buf buffer_ptr (digit_of digits_index 1);
        '(buf, buffer_ptr) ← store_before buf buffer_ptr (digit_of digits_index 0);
        write_digits fuel' (abs_value `div` 100) buf buffer_ptr
    end
  else if (10 <=? abs_value)%N then
    '(buf, buffer_ptr) ← store_before buf buffer_ptr (digit_of abs_value 1);
    '(buf, _) ← store_before buf buffer_ptr (digit_of abs_value 0);
    Ok buf
  else
    '(buf, _) ← store_before buf buffer_ptr (ascii_of_N (48 + abs_value));
    Ok buf.

(** [-(x + 1)], converted to unsigned, plus one. *)
Definition remove_sign (x : Z) : N := Z.to_N (u64 (u64 (- (x + 1)) + 1)).

Definition dump_integer (x : Z) (s : serializer) : outcome serializer :=
  if x =? 0 then Ok (write_characters "0" s)
  else
    '(buf, abs_value, sign) ←
      (if x <? 0
       then buf ← store (number_buffer s) 0 "-"%char; Ok (buf, remove_sign x, 1%nat)
       else Ok (number_buffer s, Z.to_N x, 0%nat));
    n ← count_digits abs_value;
    let n_chars := (sign + n)%nat in
    if decide (n_chars < length buf - 1)%nat then
      buf ← write_digits 10 abs_value buf n_chars;
      Ok (write_characters (String.string_of_list_ascii (take n_chars buf))
            {| o := o s; number_buffer := buf; string_buffer := string_buffer s;
               indent_string := indent_string s |})
    else Throw assertion_failed.

(** * Strings *)

(** The table of [decode]: the class of each byte, then the state after each state and class. *)
Definition utf8d : list Z :=
  [
   0; 0; 0; 0; 0; 0; 0; 0; 0; 0; 0; 0; 0; 0; 0; 0; 0; 0; 0; 0; 0; 0; 0; 0; 0; 0; 0; 0; 0; 0; 0; 0;
   0; 0; 0; 0; 0; 0; 0; 0; 0; 0; 0; 0; 0; 0; 0; 0; 0; 0; 0; 0; 0; 0; 0; 0; 0; 0; 0; 0; 0; 0; 0; 0;
   0; 0; 0; 0; 0; 0; 0; 0; 0; 0; 0; 0; 0; 0; 0; 0; 0; 0; 0; 0; 0; 0; 0; 0; 0; 0; 0; 0; 0; 0; 0; 0;
   0; 0; 0; 0; 0; 0; 0; 0; 0; 0; 0; 0; 0; 0; 0; 0; 0; 0; 0; 0; 0; 0; 0; 0; 0; 0; 0; 0; 0; 0; 0; 0;
   1; 1; 1; 1; 1; 1; 1; 1; 1; 1; 1; 1; 1; 1; 1; 1; 9; 9; 9; 9; 9; 9; 9; 9; 9; 9; 9; 9; 9; 9; 9; 9;
   7; 7; 7; 7; 7; 7; 7; 7; 7; 7; 7; 7; 7; 7; 7; 7; 7; 7; 7; 7; 7; 7; 7; 7; 7; 7; 7; 7; 7; 7; 7; 7;
   8; 8; 2; 2; 2; 2; 2; 2; 2; 2; 2; 2; 2; 2; 2; 2; 2; 2; 2; 2; 2; 2; 2; 2; 2; 2; 2; 2; 2; 2; 2; 2;
   10; 3; 3; 3; 3; 3; 3; 3; 3; 3; 3; 3; 3; 4; 3; 3; 11; 6; 6; 6; 5; 8; 8; 8; 8; 8; 8; 8; 8; 8; 8; 8;
   0; 1; 2; 3; 5; 8; 7; 1; 1; 1; 4; 6; 1; 1; 1; 1; 1; 1; 1; 1; 1; 1; 1; 1; 1; 1; 1; 1; 1; 1; 1; 1;
   1; 0; 1; 1; 1; 1; 1; 0; 1; 0; 1; 1; 1; 1; 1; 1; 1; 2; 1; 1; 1; 1; 1; 2; 1; 2; 1; 1; 1; 1; 1; 1;
   1; 1; 1; 1; 1; 1; 1; 2; 1; 1; 1; 1; 1; 1; 1; 1; 1; 2; 1; 1; 1; 1; 1; 1; 1; 2; 1; 1; 1; 1; 1; 1;
   1; 1; 1; 1; 1; 1; 1; 3; 1; 3; 1; 1; 1; 1; 1; 1; 1; 3; 1; 1; 1; 1; 1; 3; 1; 3; 1; 1; 1; 1; 1; 1;
   1; 3; 1; 1; 1; 1; 1; 1; 1; 1; 1; 1; 1; 1; 1; 1].
Definition UTF8_ACCEPT : Z := 0.
Definition UTF8_REJECT : Z := 1.

(** The new state and code point. *)
Definition decode (state codep byte : Z) : outcome (Z * Z) :=
  type ← read utf8d (Z.to_nat byte);
  let codep :=
    if state =? UTF8_ACCEPT then Z.land (Z.shiftr 0xFF type) byte
    else Z.lor (Z.land byte 0x3F) (u32 (Z.shiftl codep 6)) in
  state ← read utf8d (Z.to_nat (256 + state * 16 + type));
  Ok (state, codep).

(** The local variables of [dump_escaped], and the output. *)
Record esc := Esc {
  out : string;
  buffer : list ascii;
  codepoint : Z;
  state : Z;
  bytes : nat;
  bytes_after_last_accept : nat;
  undumped_chars : nat
}.

(** [string_buffer[bytes++] = c]. *)
Definition put (c : ascii) (e : esc) : outcome esc :=
  buf ← store (buffer e) (bytes e) c;
  Ok {| out := out e; buffer := buf; codepoint := codepoint e; state := state e;
        bytes := S (bytes e); bytes_after_last_accept := bytes_after_last_accept e;
        undumped_chars := undumped_chars e |}.
Definition put_all (l : list ascii) (e : esc) : outcome esc := foldM (fun e c => put c e) e l.

(** The null character [snprintf] ends its text with. *)
Definition put_null (e : esc) : outcome esc :=
  buf ← store (buffer e) (bytes e) "000"%char;
  Ok {| out := out e; buffer := buf; codepoint := codepoint e; state := state e;
        bytes := bytes e; bytes_after_last_accept := bytes_after_last_accept e;
        undumped_chars := undumped_chars e |}.

(** [\u%04x]. *)
Definition u_hex (cp : Z) : list ascii :=
  ["\"; "u"; hex_digit_lc (cp / 4096 mod 16); hex_digit_lc (cp / 256 mod 16);
   hex_digit_lc (cp / 16 mod 16); hex_digit_lc (cp mod 16)]%char.

(** The switch on the code point, without [ensure_ascii]; [c] is the byte itself. *)
Definition put_codepoint (c : ascii) (e : esc) : outcome esc :=
  let cp := codepoint e in
  if cp =? 0x08 then put_all ["\"; "b"]%char e
  else if cp =? 0x09 then put_all ["\"; "t"]%char e
  else if cp =? 0x0A then put_all ["\"; "n"]%char e
  else if cp =? 0x0C then put_all ["\"; "f"]%char e
  else if cp =? 0x0D then put_all ["\"; "r"]%char e
  else if cp =? 0x22 then put_all ["\"; "034"]%char e
  else if cp =? 0x5C then put_all ["\"; "\"]%char e
  else if cp <=? 0x1F then e ← put_all (u_hex cp) e; put_null e
  else put c e.

(** The text in the buffer. *)
Definition buffered (e : esc) : string := String.string_of_list_ascii (take (bytes e) (buffer e)).

(** Writing the buffer out when fewer than 13 bytes are left. *)
Definition flush (e : esc) : esc :=
  if decide (length (buffer e) - bytes e < 13)%nat
  then {| out := out e +:+ buffered e; buffer := buffer e; codepoint := codepoint e;
          state := state e; bytes := 0; bytes_after_last_accept := bytes_after_last_accept e;
          undumped_chars := undumped_chars e |}
  else e.

(** One byte: a complete code point, an invalid byte, or the middle of a sequence. *)
Definition dump_byte (c : ascii) (e : esc) : outcome esc :=
  '(st, cp) ← decode (state e) (codepoint e) (code c);
  let e := {| out := out e; buffer := buffer e; codepoint := cp; state := st; bytes := bytes e;
              bytes_after_last_accept := bytes_after_last_accept e;
              undumped_chars := undumped_chars e |} in
  if st =? UTF8_ACCEPT then
    e ← put_codepoint c e;
    let e := flush e in
    Ok {| out := out e; buffer := buffer e; codepoint := codepoint e; state := state e;
          bytes := bytes e; bytes_after_last_accept := bytes e; undumped_chars := 0 |}
  else if st =? UTF8_REJECT then Throw (json_type_error 316)
  else
    e ← put c e;
    Ok {| out := out e; buffer := buffer e; codepoint := codepoint e; state := state e;
          bytes := bytes e; bytes_after_last_accept := bytes_after_last_accept e;
          undumped_chars := S (undumped_chars e) |}.

(** [dump_escaped] with error handler [strict] and without [ensure_ascii], as [dump()] calls it. *)
Definition dump_escaped (t : string) (s : serializer) : outcome serializer :=
  e ← foldM (fun e c => dump_byte c e)
        {| out := o s; buffer := string_buffer s; codepoint := 0; state := UTF8_ACCEPT; bytes := 0;
           bytes_after_last_accept := 0; undumped_chars := 0 |} (String.list_ascii_of_string t);
  if state e =? UTF8_ACCEPT then
    Ok {| o := out e +:+ buffered e; number_buffer := number_buffer s; string_buffer := buffer e;
          indent_string := indent_string s |}
  else Throw (json_type_error 316).

(** * Values *)

(** [o->write_characters(indent_string.c_str(), n)]: the text ends with a null character, and nothing may
    be read behind that. *)
Definition write_indent (n : Z) (s : serializer) : outcome serializer :=
  let text := indent_string s ++ ["000"%char] in
  if n <=? Z.of_nat (length text)
  then Ok (write_characters (String.string_of_list_ascii (take (Z.to_nat n) text)) s)
  else Undef out_of_bounds.

(** The string of indentation characters is doubled, once, if it is shorter than [n]. *)
Definition grow_indent (n : Z) (s : serializer) : serializer :=
  if Z.of_nat (length (indent_string s)) <? n
  then {| o := o s; number_buffer := number_buffer s; string_buffer := string_buffer s;
          indent_string := indent_string s ++ replicate (length (indent_string s)) " "%char |}
  else s.

(** The loop over the first elements and the last one: [before] is written before each, [sep] between
    two. *)
Section Elements.
Context {A : Type}.
Variables (before : serializer -> outcome serializer) (sep : string).
Variable f : A -> serializer -> outcome serializer.

Fixpoint dump_elements (l : list A) (s : serializer) : outcome serializer :=
  match l with
  | [] => Throw assertion_failed
  | x :: l' =>
      s ← before s;
      s ← f x s;
      match l' with [] => Ok s | _ => dump_elements l' (write_characters sep s) end
  end.
End Elements.

(** One entry of an object; [f] writes its value. *)
Definition dump_entry (colon : string) (f : json -> serializer -> outcome serializer)
    (e : string * json) (s : serializer) : outcome serializer :=
  s ← dump_escaped e.1 (write_characters (String quote "") s);
  f e.2 (write_characters (String quote colon) s).

Section Dump.
Variables (pretty_print : bool) (indent_step : Z).

(** What both kinds of containers do, between their brackets; [g] gets the new indentation. *)
Definition dump_container {A} (opening closing : string) (g : Z -> A -> serializer -> outcome serializer)
    (l : list A) (current_indent : Z) (s : serializer) : outcome serializer :=
  if pretty_print then
    let s := write_characters (opening +:+ String newline "") s in
    let new_indent := u32 (current_indent + indent_step) in
    let s := grow_indent new_indent s in
    s ← dump_elements (write_indent new_indent) (String "," (String newline "")) (g new_indent) l s;
    s ← write_indent current_indent (write_characters (String newline "") s);
    Ok (write_characters closing s)
  else
    s ← dump_elements (fun s => Ok s) "," (g current_indent) l (write_characters opening s);
    Ok (write_characters closing s).

Fixpoint dump (current_indent : Z) (val : json) (s : serializer) : outcome serializer :=
  match val with
  | JObj [] => Ok (write_characters "{}" s)
  | JObj l =>
      dump_container "{" "}"
        (fun indent => dump_entry (if pretty_print then ": " else ":") (dump indent))
        l current_indent s
  | JArr [] => Ok (write_characters "[]" s)
  | JArr l => dump_container "[" "]" (fun indent => dump indent) l current_indent s
  | JStr t =>
      s ← dump_escaped t (write_characters (String quote "") s);
      Ok (write_characters (String quote "") s)
  | JBool true => Ok (write_characters "true" s)
  | JBool false => Ok (write_characters "false" s)
  | JInt z => dump_integer z s
  | JNull => Ok (write_characters "null" s)
  end.
End Dump.

(** [basic_json::dump]: [None] is the default argument, a negative indent. *)
Definition basic_json_dump (indent : option nat) (j : json) : outcome string :=
  s ← match indent with
      | Some n => dump true (u32 (Z.of_nat n)) 0 j serializer_new
      | None => dump false 0 0 j serializer_new
      end;
  Ok (o s).

(** * Integers, again *)

(** The decimal digits of a positive number, as [pretty] writes them. *)
Definition digits (x : N) : list ascii := String.list_ascii_of_string (pretty_N_go x "").

Lemma string_of_list_app l k :
  String.string_of_list_ascii (l ++ k)
  = String.string_of_list_ascii l +:+ String.string_of_list_ascii k.
Proof. induction l as [|c l IH]; [done|]. cbn [app String.string_of_list_ascii]. by rewrite IH. Qed.

Lemma digits_step x : (0 < x)%N -> digits x = digits (x `div` 10) ++ [pretty_N_char (x `mod` 10)].
Proof.
  intros Hx. unfold digits. rewrite pretty_N_go_step by done.
  by rewrite <- (string_app_nil (String _ "")), <- pretty_N_go_app, list_ascii_app.
Qed.

Lemma digits_0 : digits 0 = [].
Proof. unfold digits. by rewrite pretty_N_go_0. Qed.

Lemma digits_small x : (0 < x < 10)%N -> digits x = [pretty_N_char x].
Proof. intros Hx. rewrite digits_step, N.div_small, N.mod_small by lia. done. Qed.

(** Two digits at a time. *)
Lemma digits_two x : (10 <= x)%N ->
  digits x = digits (x `div` 100) ++ [pretty_N_char ((x `div` 10) `mod` 10); pretty_N_char (x `mod` 10)].
Proof.
  intros Hx. rewrite digits_step by lia.
  rewrite digits_step by (apply N.div_str_pos; lia).
  by rewrite N.Div0.div_div, <- app_assoc.
Qed.

Lemma digits_two_length x : (10 <= x)%N ->
  length (digits x) = (length (digits (x `div` 100)) + 2)%nat.
Proof. intros Hx. by rewrite digits_two, length_app by done. Qed.

Lemma count_digits_loop_ok fuel : forall n x,
  (0 < x < 10000 ^ N.of_nat fuel)%N ->
  count_digits_loop fuel (S n) x = Ok (n + length (digits x))%nat.
Proof.
  induction fuel as [|fuel IH]; intros n x Hx; [cbn in Hx; lia|].
  rewrite Nat2N.inj_succ, N.pow_succ_r' in Hx. cbn [count_digits_loop].
  set (p := (10000 ^ N.of_nat fuel)%N) in *. clearbody p.
  assert (Hq : forall a b, (100 * a <= x < 100 * b -> a <= x `div` 100 < b)%N).
  { intros a b Hab. split; [apply N.div_le_lower_bound|apply N.Div0.div_lt_upper_bound]; lia. }
  destruct (N.ltb_spec x 10); [rewrite digits_small by lia; cbn; f_equal; lia|].
  rewrite digits_two_length by done.
  destruct (N.ltb_spec x 100); [rewrite N.div_small, digits_0 by done; cbn; f_equal; lia|].
  destruct (N.ltb_spec x 1000).
  { rewrite digits_small by (pose proof (Hq 1%N 10%N); lia). cbn. f_equal. lia. }
  rewrite (digits_two_length (x `div` 100)) by (apply N.div_le_lower_bound; lia).
  rewrite N.Div0.div_div.
  destruct (N.ltb_spec x 10000); [rewrite N.div_small, digits_0 by lia; cbn; f_equal; lia|].
  replace (S n + 4)%nat with (S (n + 4)) by lia. change (100 * 100)%N with 10000%N.
  rewrite IH; [f_equal; lia|].
  split; [apply N.div_str_pos; lia|]. apply N.Div0.div_lt_upper_bound. lia.
Qed.

(** The table holds the digits of each number below 100. *)
Lemma digit_of_pretty i : (i < 100)%N ->
  digit_of i 0 = pretty_N_char (i `div` 10) /\ digit_of i 1 = pretty_N_char (i `mod` 10).
Proof.
  intros Hi. apply (proj1 (bool_decide_eq_true _)).
  exact (forallb_N (fun i => bool_decide (digit_of i 0 = pretty_N_char (i `div` 10) /\
    digit_of i 1 = pretty_N_char (i `mod` 10))) 100 eq_refl i Hi).
Qed.

Lemma pretty_small_char i : (i < 10)%N -> ascii_of_N (48 + i) = pretty_N_char i.
Proof.
  intros Hi. apply (proj1 (bool_decide_eq_true _)).
  exact (digits_forall (fun i => bool_decide (ascii_of_N (48 + i) = pretty_N_char i)) eq_refl i Hi).
Qed.

(** Writing backwards: the text grows to the left of the pointer. *)
Lemma store_before_ok buf p c :
  (S p <= length buf)%nat ->
  exists buf', store_before buf (S p) c = Ok (buf', p) /\
    buf' = take p buf ++ c :: drop (S p) buf /\ length buf' = length buf.
Proof.
  intros Hp. cbn. unfold store. rewrite decide_True by lia. cbn. eexists; split; [done|].
  rewrite insert_take_drop by lia. split; [done|].
  rewrite length_app, length_take. cbn. rewrite length_drop. lia.
Qed.

(** Two characters. *)
Lemma store_two_ok buf p c1 c0 :
  (S (S p) <= length buf)%nat ->
  exists buf' buf'', store_before buf (S (S p)) c1 = Ok (buf', S p) /\
    store_before buf' (S p) c0 = Ok (buf'', p) /\
    buf'' = take p buf ++ [c0; c1] ++ drop (S (S p)) buf /\ length buf'' = length buf.
Proof.
  intros Hp. destruct (store_before_ok buf (S p) c1) as (b1 & E1 & -> & L1); [lia|].
  destruct (store_before_ok (take (S p) buf ++ c1 :: drop (S (S p)) buf) p c0)
    as (b2 & E2 & -> & L2); [lia|].
  eexists _, _. split_and!; [done|done| |lia].
  rewrite take_app_le, take_take, Nat.min_l, drop_app_length' by (rewrite ?length_take; lia). done.
Qed.

(** The digits end where the pointer started, and nothing else changes. *)
Lemma write_digits_ok fuel : forall x buf base,
  (0 < x < 10 * 100 ^ N.of_nat fuel)%N -> (base + length (digits x) <= length buf)%nat ->
  write_digits fuel x buf (base + length (digits x))
  = Ok (take base buf ++ digits x ++ drop (base + length (digits x)) buf).
Proof.
  induction fuel as [|fuel IH]; intros x buf base Hx Hb; cbn [write_digits].
  - cbn in Hx. destruct (N.leb_spec 100 x); [lia|]. destruct (N.leb_spec 10 x); [lia|].
    rewrite digits_small in * by lia. cbn [length] in *. rewrite Nat.add_1_r in *.
    destruct (store_before_ok buf base (ascii_of_N (48 + x))) as (b1 & -> & -> & _); [lia|].
    cbn. by rewrite pretty_small_char by lia.
  - rewrite Nat2N.inj_succ, N.pow_succ_r' in Hx. set (p := (100 ^ N.of_nat fuel)%N) in *. clearbody p.
    destruct (N.leb_spec 100 x).
    + pose proof (digits_two_length x ltac:(lia)) as Hl.
      rewrite Hl in *. rewrite Nat.add_assoc in *. set (q := (base + length (digits (x `div` 100)))%nat) in *.
      rewrite (Nat.add_comm q 2) in *. cbn [Nat.add] in *.
      destruct (store_two_ok buf q (digit_of (x mod 100) 1) (digit_of (x mod 100) 0))
        as (b1 & b2 & -> & E2 & -> & L2); [lia|]. cbn [mbind outcome_bind]. rewrite E2.
      cbn [mbind outcome_bind]. subst q. rewrite IH; [| |lia].
      2:{ split; [apply N.div_str_pos; lia|]. apply N.Div0.div_lt_upper_bound. lia. }
      rewrite (digits_two x) by lia.
      destruct (digit_of_pretty (x mod 100)) as [-> ->]; [apply N.mod_lt; lia|].
      rewrite take_app_le, take_take, Nat.min_l, drop_app_length' by (rewrite ?length_take; lia).
      f_equal. f_equal. rewrite <- !app_assoc. f_equal.
      assert ((x mod 100) `div` 10 = (x `div` 10) `mod` 10)%N as ->.
      { change 100%N with (10 * 10)%N. rewrite N.Div0.mod_mul_r, N.mul_comm, N.div_add by done.
        by rewrite N.div_small by (apply N.mod_lt; lia). }
      assert ((x mod 100) `mod` 10 = x `mod` 10)%N as ->; [|done].
      change 100%N with (10 * 10)%N. rewrite N.Div0.mod_mul_r, N.mul_comm, N.Div0.mod_add.
      by rewrite N.mod_small by (apply N.mod_lt; lia).
    + destruct (N.leb_spec 10 x).
      * rewrite digits_two, N.div_small, digits_0 in * by lia. cbn [app length] in *.
        replace (base + 2)%nat with (S (S base)) in * by lia.
        destruct (store_two_ok buf base (digit_of x 1) (digit_of x 0))
          as (b1 & b2 & -> & E2 & -> & L2); [lia|]. cbn [mbind outcome_bind]. rewrite E2. cbn.
        destruct (digit_of_pretty x) as [-> ->]; [done|].
        assert (x `div` 10 < 10)%N by (apply N.Div0.div_lt_upper_bound; lia).
        by rewrite (N.mod_small (x `div` 10)).
      * rewrite digits_small in * by lia. cbn [length] in *. rewrite Nat.add_1_r in *.
        destruct (store_before_ok buf base (ascii_of_N (48 + x))) as (b1 & -> & -> & _); [lia|].
        cbn. by rewrite pretty_small_char by lia.
Qed.

Lemma digits_length_le k : forall x, (x < 10 ^ N.of_nat k)%N -> (length (digits x) <= k)%nat.
Proof.
  induction k as [|k IH]; intros x Hx.
  { cbn in Hx. replace x with 0%N by lia. by rewrite digits_0. }
  rewrite Nat2N.inj_succ, N.pow_succ_r' in Hx.
  destruct (N.eq_0_gt_0_cases x) as [->|Hp]; [rewrite digits_0; cbn; lia|].
  rewrite digits_step, length_app by done. cbn [length].
  specialize (IH (x `div` 10)%N (N.Div0.div_lt_upper_bound _ _ _ Hx)). lia.
Qed.

(** * What an operation writes *)

(** Between two operations: the buffers have their sizes, and the indentation is at least [n] blanks. *)
Definition ready (n : nat) (s : serializer) : Prop :=
  length (number_buffer s) = 64%nat /\ length (string_buffer s) = 512%nat /\
  (512 <= length (indent_string s))%nat /\ (n <= length (indent_string s))%nat /\
  indent_string s = replicate (length (indent_string s)) " "%char.

(** [m] appends the text [r] to the output, or fails as [r] does. *)
Definition emits (n : nat) (m : serializer -> outcome serializer) (r : outcome string) : Prop :=
  forall s, ready n s ->
    match r with
    | Ok t => exists s', m s = Ok s' /\ ready n s' /\ o s' = o s +:+ t
    | Throw e => m s = Throw e
    | Undef u => m s = Undef u
    | Unmodelled => m s = Unmodelled
    end.

Lemma emits_write n t : emits n (fun s => Ok (write_characters t s)) (Ok t).
Proof. intros s Hs. by eexists. Qed.

Lemma emits_bind n m1 m2 r1 (r2 : outcome string) :
  emits n m1 r1 -> emits n m2 r2 ->
  emits n (fun s => s ← m1 s; m2 s) (t1 ← r1; t2 ← r2; Ok (t1 +:+ t2)).
Proof.
  intros H1 H2 s Hs. specialize (H1 s Hs). destruct r1 as [t1| | |]; cbn; [|by rewrite H1..].
  destruct H1 as (s1 & -> & Hs1 & Ho1). specialize (H2 s1 Hs1).
  destruct r2 as [t2| | |]; cbn; [|by rewrite H2..].
  destruct H2 as (s2 & -> & Hs2 & Ho2). eexists. split_and!; [done|done|].
  by rewrite Ho2, Ho1, string_app_assoc.
Qed.

Lemma emits_ext n m m' r r' :
  emits n m r -> (forall s, m' s = m s) -> r' = r -> emits n m' r'.
Proof. intros H Hm -> s Hs. rewrite Hm. by apply H. Qed.

(** The same with a text written directly first, or last. *)
Lemma emits_before n t m r :
  emits n m r -> emits n (fun s => m (write_characters t s)) (u ← r; Ok (t +:+ u)).
Proof.
  intros H s Hs. specialize (H (write_characters t s) Hs).
  destruct r as [u| | |]; cbn; [|by rewrite H..].
  destruct H as (s' & -> & Hs' & Ho). eexists. split_and!; [done|done|].
  rewrite Ho. cbn. by rewrite string_app_assoc.
Qed.

Lemma emits_after n t m r :
  emits n m r -> emits n (fun s => s ← m s; Ok (write_characters t s)) (u ← r; Ok (u +:+ t)).
Proof. intros H. exact (emits_bind _ _ _ _ _ H (emits_write n t)). Qed.

Lemma string_of_digits x : String.string_of_list_ascii (digits x) = pretty_N_go x "".
Proof. apply String.string_of_list_ascii_of_string. Qed.

(** The loop of [dump_integer], from its start behind the place for the sign. *)
Lemma write_number_ok x buf sign :
  (0 < x < 2 ^ 64)%N -> (sign <= 1)%nat -> length buf = 64%nat ->
  exists n buf', count_digits x = Ok n /\ (sign + n < length buf - 1)%nat /\
    write_digits 10 x buf (sign + n) = Ok buf' /\ length buf' = 64%nat /\
    take (sign + n) buf' = take sign buf ++ digits x.
Proof.
  intros Hx Hs Hl. pose proof (digits_length_le 20 x) as Hd. cbn in Hd.
  assert (length (digits x) <= 20)%nat by (apply Hd; lia).
  unfold count_digits. rewrite count_digits_loop_ok by (cbn; lia). cbn [Nat.add].
  eexists _, _. split; [done|]. split; [lia|]. rewrite write_digits_ok by (cbn; lia).
  split; [done|]. split; [rewrite !length_app, length_take, length_drop; lia|].
  rewrite app_assoc, take_app_le, take_ge; [done|rewrite length_app, length_take; lia..].
Qed.

Lemma dump_integer_ok n z : int_fits z = true -> emits n (dump_integer z) (Ok (pretty z)).
Proof.
  unfold int_fits. intros Hz s (Hn & Hb & H5 & Hi & Hr).
  assert (- 2 ^ 63 <= z < 2 ^ 64) as [Hl Hu] by lia. clear Hz. unfold dump_integer.
  destruct (Z.eqb_spec z 0) as [->|Hz]; [by eexists|].
  destruct (Z.ltb_spec z 0) as [Hneg|Hpos].
  - unfold store. rewrite decide_True by lia. cbn [mbind outcome_bind].
    assert (remove_sign z = Z.to_N (- z)) as ->.
    { unfold remove_sign, u64. rewrite (Z.mod_small (- (z + 1))) by lia.
      rewrite Z.mod_small by lia. f_equal. lia. }
    destruct (write_number_ok (Z.to_N (- z)) (<[0%nat := "-"%char]> (number_buffer s)) 1)
      as (k & buf & -> & Hk & E & Hlen & Ht); [lia|lia|by rewrite length_insert|].
    cbn [mbind outcome_bind]. rewrite decide_True by done. rewrite E. cbn [mbind outcome_bind].
    eexists. split; [done|]. split; [by split_and!|]. cbn [o write_characters]. f_equal.
    rewrite Ht. destruct (number_buffer s) as [|c l]; [done|]. cbn [insert list_insert take].
    rewrite string_of_list_app, string_of_digits. by destruct z.
  - cbn [mbind outcome_bind].
    destruct (write_number_ok (Z.to_N z) (number_buffer s) 0)
      as (k & buf & -> & Hk & E & Hlen & Ht); [lia|lia|done|].
    cbn [mbind outcome_bind]. rewrite decide_True by done. rewrite E. cbn [mbind outcome_bind].
    eexists. split; [done|]. split; [by split_and!|]. cbn [o write_characters]. f_equal.
    rewrite Ht, string_of_list_app, string_of_digits. by destruct z.
Qed.

(** * Strings, again *)

(** The states of the decoder, with the ranges of bytes they wait for and the bounds of the code point
    read so far. *)
Definition states : list Z := [0; 2; 3; 4; 5; 6; 7; 8].
Definition awaited (st : Z) : list (Z * Z) :=
  if st =? 2 then [(0x80, 0xBF)]
  else if st =? 3 then [(0x80, 0xBF); (0x80, 0xBF)]
  else if st =? 4 then [(0xA0, 0xBF); (0x80, 0xBF)]
  else if st =? 5 then [(0x80, 0x9F); (0x80, 0xBF)]
  else if st =? 6 then [(0x90, 0xBF); (0x80, 0xBF); (0x80, 0xBF)]
  else if st =? 7 then [(0x80, 0xBF); (0x80, 0xBF); (0x80, 0xBF)]
  else if st =? 8 then [(0x80, 0x8F); (0x80, 0xBF); (0x80, 0xBF)]
  else [].
Definition cp_low (st : Z) : Z :=
  if st =? 2 then 2 else if bool_decide (st ∈ [3; 5; 7; 8]) then 1 else 0.
Definition cp_high (st : Z) : Z :=
  if st =? 2 then 2 ^ 15 else if st =? 3 then 2 ^ 9 else if bool_decide (st ∈ [4; 5]) then 16
  else if bool_decide (st ∈ [6; 7; 8]) then 8 else 2 ^ 21.

Definition byte_type (b : Z) : Z := nth (Z.to_nat b) utf8d 0.
Definition next_state (st b : Z) : Z := nth (Z.to_nat (256 + st * 16 + byte_type b)) utf8d 0.

(** The transitions of the table, for each state and byte. *)
Definition transition_ok (st b : Z) : bool :=
  let st' := next_state st b in
  let known rs := bool_decide (st' ∈ states) && bool_decide (awaited st' = rs) in
  bool_decide (0 <= byte_type b <= 11) &&
  match awaited st with
  | [] =>
      let cp := Z.land (Z.shiftr 0xFF (byte_type b)) b in
      match utf8_follow b with
      | Some rs => known rs && (cp_low st' <=? cp) && (cp <? cp_high st') &&
          (if st' =? 0 then cp =? b else true)
      | None => st' =? 1
      end
  | r :: rs =>
      if in_range b r
      then known rs && (cp_low st' <=? cp_low st * 64 + b mod 64) &&
        ((cp_high st - 1) * 64 + 63 <? cp_high st') &&
        (if st' =? 0 then 0x80 <=? cp_low st * 64 + b mod 64 else true)
      else st' =? 1
  end.

Lemma code_bound c : 0 <= code c < 256.
Proof. unfold code. pose proof (N_ascii_bounded c). lia. Qed.

Lemma transitions st c : st ∈ states -> transition_ok st (code c) = true.
Proof.
  intros Hst. unfold code.
  refine (forallb_N (fun i => transition_ok st (Z.of_N i)) 256 _ _ (N_ascii_bounded c)).
  refine (proj1 (forallb_forall (fun st => forallb (fun k => transition_ok st (Z.of_N (N.of_nat k)))
    (seq 0 256)) states) _ st (proj1 (list_elem_of_In _ _) Hst)).
  vm_compute. reflexivity.
Qed.

Lemma transition_type st c : st ∈ states -> 0 <= byte_type (code c) <= 11.
Proof.
  intros H%(transitions _ c). unfold transition_ok in H. apply andb_prop in H as [H _].
  by apply bool_decide_eq_true in H.
Qed.

Lemma states_bound st : st ∈ states -> 0 <= st <= 8.
Proof. unfold states. rewrite !elem_of_cons, elem_of_nil. lia. Qed.

Lemma decode_eq st cp c : st ∈ states ->
  decode st cp (code c) = Ok (next_state st (code c),
    if st =? 0 then Z.land (Z.shiftr 0xFF (byte_type (code c))) (code c)
    else Z.lor (Z.land (code c) 0x3F) (u32 (Z.shiftl cp 6))).
Proof.
  intros Hst. pose proof (code_bound c). pose proof (transition_type st c Hst).
  pose proof (states_bound st Hst). unfold decode.
  rewrite (read_ok _ _ (byte_type (code c))) by (apply lookup_nth; change (length utf8d) with 400%nat; lia).
  cbn [mbind outcome_bind].
  by rewrite (read_ok _ _ (next_state st (code c))) by
    (apply lookup_nth; change (length utf8d) with 400%nat; lia).
Qed.

(** A continuation byte adds six bits. *)
Lemma codepoint_add b cp :
  0 <= b -> 0 <= cp < 2 ^ 26 -> Z.lor (Z.land b 0x3F) (u32 (Z.shiftl cp 6)) = cp * 64 + b mod 64.
Proof.
  intros Hb Hcp. change 0x3F with (Z.ones 6). rewrite Z.land_ones by done.
  rewrite u32_small by (rewrite Z.shiftl_mul_pow2 by done; unfold is_u32; lia).
  rewrite lor_shiftl_add by (try apply Z.mod_pos_bound; lia). change (2 ^ 6) with 64. ring.
Qed.

(** One byte, between code points and within one. *)
Lemma decode_first cp c :
  exists st', match utf8_follow (code c) with
  | Some rs => exists cp', decode 0 cp (code c) = Ok (st', cp') /\ st' ∈ states /\ awaited st' = rs /\
      cp_low st' <= cp' < cp_high st' /\ (st' = 0 -> cp' = code c)
  | None => exists cp', decode 0 cp (code c) = Ok (1, cp')
  end.
Proof.
  assert (H0 : 0 ∈ states) by by left. exists (next_state 0 (code c)).
  pose proof (transitions 0 c H0) as H. unfold transition_ok in H. cbn [awaited Z.eqb] in H.
  rewrite decode_eq by done. apply andb_prop in H as [_ H].
  destruct (utf8_follow (code c)) as [rs|]; [|apply Z.eqb_eq in H as ->; by eexists].
  rewrite !andb_true_iff, !bool_decide_eq_true, Z.leb_le, Z.ltb_lt in H.
  destruct H as [[[[Hs Ha] Hl] Hh] Hz]. eexists. split_and!; [done..|]. intros E.
  rewrite E in Hz. by apply Z.eqb_eq.
Qed.

Lemma decode_next st cp c r rs :
  st ∈ states -> awaited st = r :: rs -> cp_low st <= cp < cp_high st ->
  if in_range (code c) r
  then exists st' cp', decode st cp (code c) = Ok (st', cp') /\ st' ∈ states /\ awaited st' = rs /\
      cp_low st' <= cp' < cp_high st' /\ (st' = 0 -> 0x80 <= cp')
  else exists cp', decode st cp (code c) = Ok (1, cp').
Proof.
  intros Hst Ha Hcp. pose proof (transitions st c Hst) as H. unfold transition_ok in H.
  rewrite decode_eq by done. rewrite Ha in H. apply andb_prop in H as [_ H].
  pose proof (code_bound c).
  assert (Hh : 0 <= cp_low st /\ cp_high st <= 2 ^ 21).
  { unfold cp_low, cp_high. repeat case_match; lia. }
  destruct (Z.eqb_spec st 0) as [->|]; [done|].
  rewrite codepoint_add by lia.
  destruct (in_range (code c) r); [|apply Z.eqb_eq in H as ->; by eexists].
  rewrite !andb_true_iff, !bool_decide_eq_true, Z.leb_le, Z.ltb_lt in H.
  destruct H as [[[[Hs Ha'] Hl] Hu] Hz]. eexists _, _.
  pose proof (Z.mod_pos_bound (code c) 64 eq_refl).
  split_and!; [done|done|done|nia|nia|]. intros E. rewrite E in Hz. cbn [Z.eqb] in Hz. lia.
Qed.

(** ** The buffer *)

Definition text (e : esc) : string := out e +:+ buffered e.

(** [l] has been put into the buffer; decoder and output are as before. *)
Definition has_put (l : list ascii) (e e' : esc) : Prop :=
  length (buffer e') = length (buffer e) /\ bytes e' = (bytes e + length l)%nat /\
  text e' = text e +:+ String.string_of_list_ascii l /\ state e' = state e /\
  codepoint e' = codepoint e.

Lemma take_store l n (c : ascii) : (n < length l)%nat -> take (S n) (<[n := c]> l) = take n l ++ [c].
Proof.
  intros H. rewrite (take_S_r _ _ c) by (by rewrite list_lookup_insert_eq).
  by rewrite take_insert_ge by lia.
Qed.

Lemma put_ok c e : (bytes e < length (buffer e))%nat -> exists e', put c e = Ok e' /\ has_put [c] e e'.
Proof.
  intros H. unfold put, store. rewrite decide_True by done. cbn [mbind outcome_bind].
  eexists; split; [done|]. split_and!; cbn; [by rewrite length_insert|lia| |done..].
  unfold text, buffered. cbn [out bytes buffer].
  by rewrite take_store, string_of_list_app, <- string_app_assoc by done.
Qed.

Lemma put_all_ok l : forall e, (bytes e + length l <= length (buffer e))%nat ->
  exists e', put_all l e = Ok e' /\ has_put l e e'.
Proof.
  induction l as [|c l IH]; intros e H; cbn in H.
  { exists e. split; [done|]. split_and!; cbn; [done|lia|by rewrite string_app_nil_r|done..]. }
  destruct (put_ok c e) as (e1 & E1 & L1 & B1 & T1 & S1 & C1); [lia|].
  destruct (IH e1) as (e2 & E2 & L2 & B2 & T2 & S2 & C2); [cbn in B1; lia|].
  unfold put_all in *. cbn [foldM]. rewrite E1. cbn [mbind outcome_bind]. exists e2.
  split; [done|]. split_and!; [congruence|cbn in *; lia| |congruence..].
  by rewrite T2, T1, string_app_assoc.
Qed.

(** What the switch on the code point puts there. *)
Definition codepoint_text (c : ascii) (cp : Z) : list ascii :=
  if cp =? 0x08 then ["\"; "b"]%char
  else if cp =? 0x09 then ["\"; "t"]%char
  else if cp =? 0x0A then ["\"; "n"]%char
  else if cp =? 0x0C then ["\"; "f"]%char
  else if cp =? 0x0D then ["\"; "r"]%char
  else if cp =? 0x22 then ["\"; "034"]%char
  else if cp =? 0x5C then ["\"; "\"]%char
  else if cp <=? 0x1F then u_hex cp
  else [c].

Lemma codepoint_text_length c cp : (length (codepoint_text c cp) <= 6)%nat.
Proof. unfold codepoint_text. repeat case_match; cbn; lia. Qed.

Lemma codepoint_text_ascii c :
  String.string_of_list_ascii (codepoint_text c (code c)) = escape_char c.
Proof. each_byte c; reflexivity. Qed.

Lemma codepoint_text_other c cp : 0x80 <= cp -> codepoint_text c cp = [c].
Proof.
  intros H. unfold codepoint_text. repeat (rewrite (proj2 (Z.eqb_neq _ _)) by lia).
  by rewrite (proj2 (Z.leb_gt _ _)) by lia.
Qed.

Lemma put_null_ok e : (bytes e < length (buffer e))%nat -> exists e', put_null e = Ok e' /\ has_put [] e e'.
Proof.
  intros H. unfold put_null, store. rewrite decide_True by done. cbn [mbind outcome_bind].
  eexists; split; [done|]. split_and!; cbn; [by rewrite length_insert|lia| |done..].
  rewrite string_app_nil_r. unfold text, buffered. cbn [out bytes buffer].
  by rewrite take_insert_ge by lia.
Qed.

Lemma put_codepoint_ok c e : (bytes e + 7 <= length (buffer e))%nat ->
  exists e', put_codepoint c e = Ok e' /\ has_put (codepoint_text c (codepoint e)) e e'.
Proof.
  intros H. unfold put_codepoint, codepoint_text.
  repeat match goal with
  | |- context [if ?b then _ else _] => destruct b; [try (apply put_all_ok; cbn; lia)|]
  end; [|apply put_ok; lia].
  destruct (put_all_ok (u_hex (codepoint e)) e) as (e1 & -> & L1 & B1 & T1 & S1 & C1); [cbn; lia|].
  cbn [mbind outcome_bind].
  destruct (put_null_ok e1) as (e2 & -> & L2 & B2 & T2 & S2 & C2); [rewrite L1, B1; cbn; lia|].
  exists e2. split; [done|]. split_and!; [congruence|cbn in *; lia| |congruence..].
  by rewrite T2, T1, string_app_nil_r.
Qed.

Lemma flush_ok e :
  length (buffer e) = 512%nat -> length (buffer (flush e)) = 512%nat /\ (bytes (flush e) <= 499)%nat /\
  text (flush e) = text e /\ state (flush e) = state e /\ codepoint (flush e) = codepoint e.
Proof.
  intros H. unfold flush. rewrite H. case_decide; [|by split_and!; [|lia|..]].
  split_and!; cbn; [done|lia| |done..]. unfold text at 1, buffered. cbn. by rewrite string_app_nil_r.
Qed.

(** ** The loop *)

(** Before a byte: [pend] is what the decoder waits for, and the buffer has room for it. *)
Definition esc_inv (pend : list (Z * Z)) (e : esc) : Prop :=
  length (buffer e) = 512%nat /\ state e ∈ states /\ awaited (state e) = pend /\
  cp_low (state e) <= codepoint e < cp_high (state e) /\
  (bytes e + length pend <= 503)%nat /\ (pend = [] -> (bytes e <= 499)%nat).

Lemma awaited_nil st : st ∈ states -> awaited st = [] <-> st = 0.
Proof.
  unfold states. rewrite !elem_of_cons, elem_of_nil.
  intros [->|[->|[->|[->|[->|[->|[->|[->|[]]]]]]]]]; by split.
Qed.

Lemma states_reject st : st ∈ states -> st <> UTF8_REJECT.
Proof. unfold states, UTF8_REJECT. rewrite !elem_of_cons, elem_of_nil. lia. Qed.

(** The common end of both kinds of bytes: the decoder moved on to [st] and [cp]. *)
Lemma dump_byte_moved c e st cp rs :
  length (buffer e) = 512%nat -> decode (state e) (codepoint e) (code c) = Ok (st, cp) ->
  st ∈ states -> awaited st = rs -> cp_low st <= cp < cp_high st ->
  (bytes e + S (length rs) <= 503)%nat ->
  exists e', dump_byte c e = Ok e' /\ esc_inv rs e' /\
    text e' = text e +:+ String.string_of_list_ascii (if st =? 0 then codepoint_text c cp else [c]).
Proof.
  intros Hl Hd Hst Ha Hcp Hb. unfold dump_byte. rewrite Hd. cbn [mbind outcome_bind].
  set (e1 := Esc (out e) (buffer e) cp st (bytes e) (bytes_after_last_accept e) (undumped_chars e)).
  change (text e) with (text e1). unfold UTF8_ACCEPT. destruct (Z.eqb_spec st 0) as [Hz|Hz].
  - destruct (put_codepoint_ok c e1) as (e2 & -> & L2 & B2 & T2 & S2 & C2);
      [subst e1; cbn; lia|]. cbn [mbind outcome_bind].
    destruct (flush_ok e2) as (L3 & B3 & T3 & S3 & C3); [by rewrite L2|].
    apply awaited_nil in Hz; [|done]. rewrite Ha in Hz. subst rs. cbn [codepoint e1] in T2.
    eexists. split; [done|]. split; [|exact (eq_trans T3 T2)].
    unfold esc_inv. cbn [buffer state codepoint bytes]. rewrite S3, S2, C3, C2, Hz. cbn [state codepoint e1].
    split_and!; [done|done|done|lia|lia|cbn; lia|done].
  - rewrite (proj2 (Z.eqb_neq _ _)) by (by apply states_reject).
    destruct (put_ok c e1) as (e2 & -> & L2 & B2 & T2 & S2 & C2); [subst e1; cbn; lia|].
    cbn [mbind outcome_bind]. eexists. split; [done|]. split; [|exact T2].
    unfold esc_inv. cbn [buffer state codepoint bytes]. rewrite L2, S2, C2, B2.
    cbn [state codepoint bytes buffer e1 length]. split_and!; [done|done|done|lia|lia|lia|].
    intros ->. by apply awaited_nil in Ha.
Qed.

Lemma dump_byte_rejected c e cp :
  decode (state e) (codepoint e) (code c) = Ok (1, cp) ->
  dump_byte c e = Throw (json_type_error 316).
Proof. intros Hd. unfold dump_byte. by rewrite Hd. Qed.

(** Reading bytes of an incomplete sequence and of a complete character, as [Json.dump_escaped] does. *)
Lemma follow_length c rs : utf8_follow (code c) = Some rs -> (length rs <= 3)%nat.
Proof. each_byte c; intros H; vm_compute in H; simplify_eq; cbn; lia. Qed.
Lemma escape_lead c r rs : utf8_follow (code c) = Some (r :: rs) -> escape_char c = String c "".
Proof. each_byte c; intros H; vm_compute in H; simplify_eq; reflexivity. Qed.

Lemma dump_byte_ok c e pend : esc_inv pend e ->
  match pend with
  | [] =>
      match utf8_follow (code c) with
      | Some rs => exists e', dump_byte c e = Ok e' /\ esc_inv rs e' /\ text e' = text e +:+ escape_char c
      | None => dump_byte c e = Throw (json_type_error 316)
      end
  | r :: rs =>
      if in_range (code c) r
      then exists e', dump_byte c e = Ok e' /\ esc_inv rs e' /\ text e' = text e +:+ String c ""
      else dump_byte c e = Throw (json_type_error 316)
  end.
Proof.
  intros (Hl & Hst & Ha & Hcp & Hb & Hb0). destruct pend as [|r rs].
  - apply awaited_nil in Ha; [|done]. rewrite Ha in *.
    destruct (decode_first (codepoint e) c) as [st H].
    destruct (utf8_follow (code c)) as [rs|] eqn:Hf.
    + destruct H as (cp & Hd & Hst' & Ha' & Hcp' & Hz). rewrite <- Ha in Hd.
      pose proof (follow_length c rs Hf).
      destruct (dump_byte_moved c e st cp rs) as (e' & E & Hi & Ht); [done..|specialize (Hb0 eq_refl); lia|].
      exists e'. split_and!; [done|done|]. rewrite Ht. f_equal.
      destruct (Z.eqb_spec st 0) as [->|Hne].
      * rewrite (Hz eq_refl). apply codepoint_text_ascii.
      * destruct rs as [|r rs]; [by apply awaited_nil in Ha'|]. by rewrite (escape_lead c r rs).
    + destruct H as [cp Hd]. rewrite <- Ha in Hd. by apply dump_byte_rejected in Hd.
  - pose proof (decode_next (state e) (codepoint e) c r rs Hst Ha Hcp) as H.
    destruct (in_range (code c) r).
    + destruct H as (st & cp & Hd & Hst' & Ha' & Hcp' & Hz).
      destruct (dump_byte_moved c e st cp rs) as (e' & E & Hi & Ht); [done..|cbn in Hb; lia|].
      exists e'. split_and!; [done|done|]. rewrite Ht. f_equal.
      destruct (Z.eqb_spec st 0) as [->|]; [|done]. by rewrite codepoint_text_other by auto.
    + destruct H as [cp Hd]. by apply dump_byte_rejected in Hd.
Qed.

(** The end of [dump_escaped]. *)
Definition finish (s : serializer) (e : esc) : outcome serializer :=
  if state e =? UTF8_ACCEPT then
    Ok {| o := out e +:+ buffered e; number_buffer := number_buffer s; string_buffer := buffer e;
          indent_string := indent_string s |}
  else Throw (json_type_error 316).

Lemma dump_loop_ok n s (Hs : ready n s) t : forall pend e, esc_inv pend e ->
  match Json.dump_escaped pend t with
  | Ok u => exists s', (e' ← foldM (fun e c => dump_byte c e) e (String.list_ascii_of_string t);
        finish s e') = Ok s' /\ ready n s' /\ o s' = text e +:+ u
  | Throw x => (e' ← foldM (fun e c => dump_byte c e) e (String.list_ascii_of_string t);
        finish s e') = Throw x
  | _ => False
  end.
Proof.
  induction t as [|c t IH]; intros pend e He.
  - cbn. unfold finish, UTF8_ACCEPT. destruct He as (Hl & Hst & Ha & _).
    destruct pend as [|r rs]; cbn.
    + apply awaited_nil in Ha; [|done]. rewrite Ha. cbn. eexists; split; [done|].
      rewrite string_app_nil_r. split; [|done]. by destruct Hs as (? & ? & ?).
    + destruct (Z.eqb_spec (state e) 0) as [Hz|]; [|done].
      apply awaited_nil in Hz; [|done]. congruence.
  - cbn [Json.dump_escaped String.list_ascii_of_string foldM].
    pose proof (dump_byte_ok c e pend He) as H. destruct pend as [|r rs].
    + destruct (utf8_follow (code c)) as [rs|]; [|by rewrite H].
      destruct H as (e1 & -> & He1 & Ht). specialize (IH rs e1 He1). cbn [mbind outcome_bind].
      destruct (Json.dump_escaped rs t) as [u| | |]; cbn [mbind outcome_bind]; [|exact IH|done..].
      destruct IH as (s' & E & Hs' & Ho). exists s'. by rewrite Ho, Ht, string_app_assoc.
    + destruct (in_range (code c) r); [|by rewrite H].
      destruct H as (e1 & -> & He1 & Ht). specialize (IH rs e1 He1). cbn [mbind outcome_bind].
      destruct (Json.dump_escaped rs t) as [u| | |]; cbn [mbind outcome_bind]; [|exact IH|done..].
      destruct IH as (s' & E & Hs' & Ho). exists s'. by rewrite Ho, Ht, string_app_assoc.
Qed.

Lemma dump_escaped_ok n t : emits n (dump_escaped t) (Json.dump_escaped [] t).
Proof.
  intros s Hs. pose proof Hs as (_ & Hb & _).
  pose proof (dump_loop_ok n s Hs t [] (Esc (o s) (string_buffer s) 0 UTF8_ACCEPT 0 0 0)) as H.
  assert (E : forall s, String.string_of_list_ascii (take 0 (string_buffer s)) = "") by done.
  unfold text, buffered in H. cbn [out bytes buffer] in H. rewrite E, string_app_nil_r in H.
  assert (Hi : esc_inv [] (Esc (o s) (string_buffer s) 0 UTF8_ACCEPT 0 0 0)).
  { unfold esc_inv. split_and!; [done|by left|done|by vm_compute|by vm_compute|cbn; lia|cbn; lia]. }
  specialize (H Hi). by destruct (Json.dump_escaped [] t).
Qed.

(** * Values, again *)

Lemma ready_le m n s : ready n s -> (m <= n)%nat -> ready m s.
Proof. intros (? & ? & ? & ? & ?) ?. split_and!; auto; lia. Qed.

Lemma spaces_replicate m k l :
  (k <= m)%nat -> String.string_of_list_ascii (take k (replicate m " "%char ++ l)) = spaces k.
Proof.
  revert m. induction k as [|k IH]; intros [|m] H; try lia; [done..|].
  cbn [replicate app take String.string_of_list_ascii spaces]. by rewrite IH by lia.
Qed.

Lemma write_indent_ok n k : (k <= n)%nat -> emits n (write_indent (Z.of_nat k)) (Ok (spaces k)).
Proof.
  intros Hk s (Hn & Hb & H5 & Hi & Hr). unfold write_indent.
  rewrite (proj2 (Z.leb_le _ _)) by (rewrite length_app; lia). eexists. split; [done|].
  split; [by split_and!|]. cbn [o write_characters]. f_equal. rewrite Nat2Z.id, Hr.
  by apply spaces_replicate; lia.
Qed.

(** One doubling is enough for a step of at most 512. *)
Lemma grow_indent_ok cur step s :
  ready cur s -> (step <= 512)%nat -> ready (cur + step) (grow_indent (Z.of_nat (cur + step)) s) /\
    o (grow_indent (Z.of_nat (cur + step)) s) = o s.
Proof.
  intros (Hn & Hb & H5 & Hi & Hr) Hs. unfold grow_indent.
  destruct (Z.ltb_spec (Z.of_nat (length (indent_string s))) (Z.of_nat (cur + step)));
    (split; [|done]); [|split_and!; auto; lia].
  unfold ready. cbn [number_buffer string_buffer indent_string].
  rewrite !length_app, !length_replicate, replicate_add, <- Hr. split_and!; auto; lia.
Qed.

(** The loop over the elements, [before] each of which [ind] is written. *)
Lemma dump_elements_ok {A} n before ind sep sep' (g : A -> serializer -> outcome serializer) f l :
  emits n before (Ok ind) -> String "," sep' = sep +:+ ind ->
  Forall (fun x => emits n (g x) (f x)) l -> l <> [] ->
  emits n (dump_elements before sep g l) (t ← join f sep' l; Ok (ind +:+ t)).
Proof.
  intros Hb Hsep Hl. induction Hl as [|x l Hx Hl IH]; [done|]. intros _.
  destruct l as [|y l].
  - eapply emits_ext; [exact (emits_bind n _ _ _ _ Hb Hx)| |].
    + intros s. cbn. destruct (before s) as [s1| | |]; cbn; [|done..]. by destruct (g x s1).
    + cbn. by destruct (f x).
  - specialize (IH ltac:(done)). apply (emits_before n sep) in IH.
    eapply emits_ext; [exact (emits_bind n _ _ _ _ Hb (emits_bind n _ _ _ _ Hx IH))|done|].
    change (join f sep' (x :: y :: l)) with
      (t ← f x; r ← join f sep' (y :: l); Ok (t +:+ String "," (sep' +:+ r))).
    destruct (f x) as [t| | |]; cbn [mbind outcome_bind]; [|done..].
    destruct (join f sep' (y :: l)) as [r| | |]; cbn [mbind outcome_bind]; [|done..].
    do 2 f_equal. change (String "," (sep' +:+ r)) with (String "," sep' +:+ r).
    by rewrite Hsep, !string_app_assoc.
Qed.

Section Refines.
Variable step : option nat.
Let width := default 0%nat step.
Let pretty_print := if step is Some _ then true else false.
Hypothesis width_small : (width <= 512)%nat.

(** Both kinds of containers, given what their elements write. *)
Lemma dump_container_ok {A} opening closing (g : Z -> A -> serializer -> outcome serializer) f l cur :
  Z.of_nat (cur + width) < 2 ^ 32 -> l <> [] ->
  Forall (fun x => emits (cur + width) (g (Z.of_nat (cur + width)) x) (f x)) l ->
  emits cur (dump_container pretty_print (Z.of_nat width) (String opening "") (String closing "") g l
               (Z.of_nat cur))
    (body ← join f (line_break step (cur + width)) l;
     Ok (String opening (line_break step (cur + width) +:+
       (body +:+ (line_break step cur +:+ String closing ""))))).
Proof.
  intros Hcur Hne Hl s Hs. unfold dump_container, pretty_print in *.
  destruct step as [w|]; cbn [default from_option id] in width; subst width; cbn [line_break].
  - rewrite <- Nat2Z.inj_add, u32_small by (unfold is_u32; lia).
    destruct (grow_indent_ok cur w (write_characters (String opening "" +:+ String newline "") s))
      as [Hg Ho]; [done..|].
    set (s1 := grow_indent _ _) in *.
    pose proof (dump_elements_ok (cur + w) _ _ (String "," (String newline ""))
      (String newline (spaces (cur + w))) _ f l (write_indent_ok _ _ (le_n _)) eq_refl Hl Hne s1 Hg) as H.
    destruct (join f _ l) as [body| | |]; cbn [mbind outcome_bind] in *; [|by rewrite H..].
    destruct H as (s2 & -> & H2 & Ho2). cbn [mbind outcome_bind].
    apply (ready_le cur) in H2; [|lia].
    destruct (emits_before cur (String newline "") _ _ (write_indent_ok cur cur (le_n _)) s2 H2)
      as (s3 & -> & H3 & Ho3).
    eexists. split; [done|]. split; [exact H3|]. cbn [o write_characters].
    rewrite Ho3, Ho2, Ho. cbn [o write_characters]. rewrite !string_app_assoc. do 4 f_equal.
  - rewrite Nat.add_0_r in *.
    pose proof (dump_elements_ok cur (fun s => Ok s) "" "," "" (g (Z.of_nat cur)) f l) as H.
    assert (Hid : emits cur (fun s => Ok s) (Ok "")).
    { intros s' Hs'. exists s'. by rewrite string_app_nil_r. }
    specialize (H Hid eq_refl Hl Hne (write_characters (String opening "") s) Hs).
    destruct (join f _ l) as [body| | |]; cbn [mbind outcome_bind] in *; [|by rewrite H..].
    destruct H as (s2 & -> & H2 & Ho2). eexists. split; [done|]. split; [exact H2|].
    cbn [o write_characters]. rewrite Ho2. cbn [o write_characters]. by rewrite !string_app_assoc.
Qed.

Lemma dump_entry_ok n (f : json -> serializer -> outcome serializer) r e :
  emits n (f e.2) (r e.2) ->
  emits n (dump_entry (if pretty_print then ": " else ":") f e) (dump_member step r e).
Proof.
  intros Hf. unfold dump_entry, dump_member.
  eapply emits_ext.
  - exact (emits_before n (String quote "") _ _ (emits_bind n _ _ _ _ (dump_escaped_ok n e.1)
      (emits_before n (String quote (key_sep step)) _ _ Hf))).
  - intros s. subst pretty_print. by destruct step.
  - destruct (Json.dump_escaped [] e.1) as [kt| | |]; cbn; [|done..].
    by destruct (r e.2).
Qed.

Lemma dump_string_ok n t :
  emits n (fun s => s ← dump_escaped t (write_characters (String quote "") s);
             Ok (write_characters (String quote "") s))
    (u ← Json.dump_escaped [] t; Ok (String quote (u +:+ String quote ""))).
Proof.
  eapply emits_ext; [|done|].
  - exact (emits_before n (String quote "") _ _
      (emits_after n (String quote "") _ _ (dump_escaped_ok n t))).
  - by destruct (Json.dump_escaped [] t).
Qed.

(** The nesting of containers. *)
Fixpoint depth (v : json) : nat :=
  match v with
  | JArr l => S (foldr (fun x n => Nat.max (depth x) n) 0%nat l)
  | JObj l => S (foldr (fun e n => Nat.max (depth e.2) n) 0%nat l)
  | _ => 0%nat
  end.

Lemma foldr_max {A} (f : A -> nat) l :
  Forall (fun x => f x <= foldr (fun x n => Nat.max (f x) n) 0 l)%nat l.
Proof.
  induction l as [|x l IH]; [constructor|]. constructor; cbn [foldr]; [lia|].
  eapply Forall_impl; [exact IH|]. cbn. lia.
Qed.

Lemma dump_value_ok v : forall cur, json_wf v = true -> Z.of_nat (cur + depth v * width) < 2 ^ 32 ->
  emits cur (dump pretty_print (Z.of_nat width) (Z.of_nat cur) v) (Json.dump step cur v).
Proof.
  induction v as [|b|z|t|l IH|l IH] using json_strong_ind; intros cur Hwf Hd.
  - exact (emits_write cur "null").
  - destruct b; [exact (emits_write cur "true")|exact (emits_write cur "false")].
  - by apply dump_integer_ok.
  - apply dump_string_ok.
  - cbn [depth] in Hd. destruct l as [|x l]; [exact (emits_write cur "[]")|]. set (xs := x :: l) in *.
    refine (dump_container_ok "[" "]" (fun i => dump pretty_print (Z.of_nat width) i) _ xs cur _ _ _);
      [lia|done|].
    cbn [json_wf] in Hwf. rewrite forallb_forall in Hwf.
    pose proof (foldr_max depth xs) as Hm. rewrite Forall_forall in IH, Hm |- *. intros y Hy.
    apply IH; [done| |].
    + by apply Hwf, list_elem_of_In.
    + specialize (Hm y Hy). cbn beta in Hm. nia.
  - cbn [depth] in Hd. destruct l as [|x l]; [exact (emits_write cur "{}")|]. set (xs := x :: l) in *.
    refine (dump_container_ok "{" "}" (fun i => dump_entry _ (dump pretty_print (Z.of_nat width) i)) _
      xs cur _ _ _); [lia|done|].
    cbn [json_wf] in Hwf. apply andb_prop in Hwf as [_ Hwf]. rewrite forallb_forall in Hwf.
    pose proof (foldr_max (fun e => depth e.2) xs) as Hm. rewrite Forall_forall in IH, Hm |- *.
    intros y Hy. apply dump_entry_ok. apply IH; [done| |].
    + by apply Hwf, list_elem_of_In.
    + specialize (Hm y Hy). cbn beta in Hm. nia.
Qed.
End Refines.

Lemma serializer_new_ready : ready 0 serializer_new.
Proof. split_and!; try done; cbn; lia. Qed.

(** C19: the serializer of the JSON library, which writes integers backwards into a buffer two digits at
    a time, escapes strings through a table-driven decoder and a buffer of 512 bytes, and cuts
    indentation from a string that it doubles when needed, writes exactly the reference text of every
    well-formed value, or throws where that is undefined because of invalid UTF-8: it never leaves
    its buffers, for every indentation up to 512 and nesting that keeps the indentation below 2^32. *)
Theorem serializer_refines indent v :
  json_wf v = true ->
  (default 0 indent <= 512)%nat -> Z.of_nat (depth v * default 0%nat indent) < 2 ^ 32 ->
  basic_json_dump indent v = Json.dump indent 0 v.
Proof.
  intros Hwf Hs Hd.
  pose proof (dump_value_ok indent Hs v 0 Hwf Hd serializer_new serializer_new_ready) as H.
  unfold basic_json_dump. destruct indent as [n|]; cbn [default from_option id] in *.
  - rewrite u32_small by (unfold is_u32; lia). change (Z.of_nat 0) with 0 in H.
    destruct (Json.dump (Some n) 0 v) as [t| | |]; [|by rewrite H..].
    destruct H as (s' & -> & _ & Ho). cbn. by rewrite Ho.
  - change (Z.of_nat 0) with 0 in H.
    destruct (Json.dump None 0 v) as [t| | |]; [|by rewrite H..].
    destruct H as (s' & -> & _ & Ho). cbn. by rewrite Ho.
Qed.

(** An object with an array, negative and large numbers and a string to escape. *)
Definition sample : json :=
  JObj [("a", JArr [JInt (-90071); JInt (2 ^ 64 - 1); JNull]); ("b", JStr (String "010" "xyz"))].

Lemma serializer_refines_witness :
  basic_json_dump (Some 4%nat) sample = Json.dump (Some 4%nat) 0 sample.
Proof. apply serializer_refines; [reflexivity|vm_compute; lia|vm_compute; reflexivity]. Defined.

(** Doubling once is not enough for a wide step: the text of the indentation is read past its end. *)
Lemma wide_indent_overruns :
  basic_json_dump (Some 1026%nat) (JArr [JNull]) = Undef out_of_bounds.
Proof. vm_compute. reflexivity. Qed.
End Serializer.
