(* ===== verification/JsonParser.v ===== *)
(** The parser of the JSON library as it is: a lexer that yields tokens, a loop with one token of
    look-ahead and a stack of open containers, and a consumer of its events that builds the value through
    references into it; with the proof that it reads exactly what the recursive parser of [Json] reads. *)
From S2P Require Import Prelude Json JsonRoundTrip.
Local Open Scope Z_scope.

Module Parser.

(** * The lexer *)

(** [token_type], with the value the lexer keeps for the token. *)
Inductive token :=
| literal_true | literal_false | literal_null
| value_string (s : string)
| value_number (n : number)
| begin_array | begin_object | end_array | end_object
| name_separator | value_separator
| parse_error
| end_of_input.

(** The token of a structural character. *)
Definition structural (c : ascii) : option token :=
  match c with
  | "[" => Some begin_array
  | "]" => Some end_array
  | "{" => Some begin_object
  | "}" => Some end_object
  | ":" => Some name_separator
  | "," => Some value_separator
  | _ => None
  end%char.

(** The token [t] if the rest of its text was found. *)
Definition found {A} (t : A -> token) (s : string) (r : option (A * string)) : token * string :=
  match r with Some (a, rest) => (t a, rest) | None => (parse_error, s) end.

(** [scan] after the byte order mark: the token and the input after it.  Where the lexer stops after an
    error does not matter, as the parser reads no further. *)
Definition scan (s : string) : token * string :=
  match skip_whitespace s with
  | "" => (end_of_input, "")
  | String c s1 =>
      match structural c with
      | Some t => (t, s1)
      | None =>
          if Ascii.eqb c "t" then
            match scan_literal "rue" s1 with Some r => (literal_true, r) | None => (parse_error, s1) end
          else if Ascii.eqb c "f" then
            match scan_literal "alse" s1 with Some r => (literal_false, r) | None => (parse_error, s1) end
          else if Ascii.eqb c "n" then
            match scan_literal "ull" s1 with Some r => (literal_null, r) | None => (parse_error, s1) end
          else if Ascii.eqb c quote then found value_string s1 (scan_string [] s1)
          else if Ascii.eqb c "000" then (end_of_input, s1)
          else found value_number s1 (scan_number (String c s1))
      end
  end.

(** * The consumer of events *)

(** A reference into a value: the element of an array, or of an object, of the value that the rest
    refers to from the root. *)
Inductive place := at_index (i : nat) | at_key (k : string).

Fixpoint jget (p : list place) (j : json) : option json :=
  match p, j with
  | [], _ => Some j
  | at_index i :: p', JArr l => x ← l !! i; jget p' x
  | at_key k :: p', JObj l => x ← obj_lookup k l; jget p' x
  | _, _ => None
  end.

(** Assignment through a reference. *)
Fixpoint jput (p : list place) (v j : json) : json :=
  match p, j with
  | [], _ => v
  | at_index i :: p', JArr l => JArr (alter (jput p' v) i l)
  | at_key k :: p', JObj l =>
      match obj_lookup k l with
      | Some x => JObj (obj_insert k (jput p' v x) l)
      | None => j
      end
  | _, _ => j
  end.

(** [json_sax_dom_parser]; the last reference of the stack is the first of the list. *)
Record dom := Dom {
  root : json;
  ref_stack : list (list place);
  object_element : option (list place)
}.

(** [handle_value]: the reference to the new value, and the new state. *)
Definition handle_value (v : json) (d : dom) : outcome (list place * dom) :=
  match ref_stack d with
  | [] => Ok ([], {| root := v; ref_stack := []; object_element := object_element d |})
  | r :: _ =>
      match jget r (root d) with
      | Some (JArr l) =>
          Ok (r ++ [at_index (length l)],
              {| root := jput r (JArr (l ++ [v])) (root d); ref_stack := ref_stack d;
                 object_element := object_element d |})
      | Some (JObj _) =>
          match object_element d with
          | Some e => Ok (e, {| root := jput e v (root d); ref_stack := ref_stack d;
                                object_element := Some e |})
          | None => Throw assertion_failed
          end
      | _ => Throw assertion_failed
      end
  end.

(** [null], [boolean], [number_integer], [number_unsigned], [string]. *)
Definition add_value (v : json) (d : dom) : outcome dom := '(_, d) ← handle_value v d; Ok d.

(** [start_object] and [start_array]; [v] is the empty container. *)
Definition start_container (v : json) (d : dom) : outcome dom :=
  '(r, d) ← handle_value v d;
  Ok {| root := root d; ref_stack := r :: ref_stack d; object_element := object_element d |}.

(** [key]: [operator[]] on the map adds null if the key is new. *)
Definition key (k : string) (d : dom) : outcome dom :=
  match ref_stack d with
  | r :: _ =>
      match jget r (root d) with
      | Some (JObj l) =>
          let l' := match obj_lookup k l with Some _ => l | None => obj_insert k JNull l end in
          Ok {| root := jput r (JObj l') (root d); ref_stack := ref_stack d;
                object_element := Some (r ++ [at_key k]) |}
      | _ => Throw assertion_failed
      end
  | [] => Throw assertion_failed
  end.

(** [end_object] and [end_array]. *)
Definition end_container (d : dom) : outcome dom :=
  match ref_stack d with
  | _ :: rs => Ok {| root := root d; ref_stack := rs; object_element := object_element d |}
  | [] => Throw assertion_failed
  end.

(** * The parser *)

(** [parser] with the stack of [sax_parse_internal]: [true] for an array, [false] for an object. *)
Record parser := Par {
  last_token : token;
  input : string;
  states : list bool;
  sax : dom;
  skip_to_state_evaluation : bool
}.

Definition get_token (p : parser) : parser :=
  let '(t, s) := scan (input p) in
  {| last_token := t; input := s; states := states p; sax := sax p;
     skip_to_state_evaluation := skip_to_state_evaluation p |}.

(** One event for the consumer. *)
Definition emit (f : dom -> outcome dom) (p : parser) : outcome parser :=
  d ← f (sax p);
  Ok {| last_token := last_token p; input := input p; states := states p; sax := d;
        skip_to_state_evaluation := skip_to_state_evaluation p |}.

Definition set_states (l : list bool) (p : parser) : parser :=
  {| last_token := last_token p; input := input p; states := l; sax := sax p;
     skip_to_state_evaluation := skip_to_state_evaluation p |}.
Definition set_skip (b : bool) (p : parser) : parser :=
  {| last_token := last_token p; input := input p; states := states p; sax := sax p;
     skip_to_state_evaluation := b |}.

(** [sax->parse_error], which throws. *)
Definition sax_parse_error {A} : outcome A := Throw json_parse_error.

(** The key of an object and the separator after it; the token of the key has been read. *)
Definition object_key (p : parser) : outcome parser :=
  match last_token p with
  | value_string k =>
      p ← emit (key k) p;
      let p := get_token p in
      match last_token p with name_separator => Ok p | _ => sax_parse_error end
  | _ => sax_parse_error
  end.

(** How the switch ends: with [continue], or with a complete value. *)
Inductive switched := Continue (p : parser) | Break (p : parser).

(** The switch on [last_token]. *)
Definition switch_token (p : parser) : outcome switched :=
  match last_token p with
  | begin_object =>
      p ← emit (start_container (JObj [])) p;
      let p := get_token p in
      match last_token p with
      | end_object => p ← emit end_container p; Ok (Break p)
      | _ =>
          p ← object_key p;
          Ok (Continue (get_token (set_states (false :: states p) p)))
      end
  | begin_array =>
      p ← emit (start_container (JArr [])) p;
      let p := get_token p in
      match last_token p with
      | end_array => p ← emit end_container p; Ok (Break p)
      | _ => Ok (Continue (set_states (true :: states p) p))
      end
  | value_number n => v ← number_value n; p ← emit (add_value v) p; Ok (Break p)
  | literal_false => p ← emit (add_value (JBool false)) p; Ok (Break p)
  | literal_null => p ← emit (add_value JNull) p; Ok (Break p)
  | literal_true => p ← emit (add_value (JBool true)) p; Ok (Break p)
  | value_string t => p ← emit (add_value (JStr t)) p; Ok (Break p)
  | parse_error | end_of_input | end_array | end_object | name_separator | value_separator =>
      sax_parse_error
  end.

(** How an iteration ends: with [continue], or with [return true]. *)
Inductive iterated := Again (p : parser) | Return (p : parser).

(** The end of a container: pop the stack and evaluate the state again. *)
Definition close (l : list bool) (p : parser) : outcome iterated :=
  p ← emit end_container p; Ok (Again (set_skip true (set_states l p))).

(** What follows a complete value. *)
Definition evaluate_state (p : parser) : outcome iterated :=
  match states p with
  | [] => Ok (Return p)
  | true :: l =>
      let p := get_token p in
      match last_token p with
      | value_separator => Ok (Again (get_token p))
      | end_array => close l p
      | _ => sax_parse_error
      end
  | false :: l =>
      let p := get_token p in
      match last_token p with
      | value_separator => p ← object_key (get_token p); Ok (Again (get_token p))
      | end_object => close l p
      | _ => sax_parse_error
      end
  end.

(** [sax_parse_internal]; [fuel] bounds its iterations. *)
Fixpoint sax_parse_internal (fuel : nat) (p : parser) : outcome parser :=
  match fuel with
  | O => Unmodelled
  | S fuel' =>
      r ← (if skip_to_state_evaluation p then evaluate_state (set_skip false p)
           else
             r ← switch_token p;
             match r with Continue p => Ok (Again p) | Break p => evaluate_state p end);
      match r with Again p => sax_parse_internal fuel' p | Return p => Ok p end
  end.

(** The constructor reads the first token. *)
Definition parser_new (s : string) : parser :=
  get_token {| last_token := end_of_input; input := s; states := [];
               sax := {| root := JNull; ref_stack := []; object_element := None |};
               skip_to_state_evaluation := false |}.

(** [parser::parse] on the input after the byte order mark. *)
Definition parse (strict : bool) (s : string) : outcome json :=
  p ← sax_parse_internal (String.length s + 1) (parser_new s);
  if strict then
    match last_token (get_token p) with
    | end_of_input => Ok (root (sax p))
    | _ => sax_parse_error
    end
  else Ok (root (sax p)).

(** [json::parse(s)] ([strict]) and [stream >> j]. *)
Definition basic_json_parse (strict : bool) (s : string) : outcome json :=
  match skip_bom s with
  | None => sax_parse_error
  | Some s0 => parse strict s0
  end.

(** * Tokens and the recursive scanner *)

(** The character of a structural token. *)
Definition structural_char (t : token) : option ascii :=
  match t with
  | begin_array => Some "["
  | end_array => Some "]"
  | begin_object => Some "{"
  | end_object => Some "}"
  | name_separator => Some ":"
  | value_separator => Some ","
  | _ => None
  end%char.

Lemma structural_inv c t : structural c = Some t -> structural_char t = Some c.
Proof. each_byte c; intros H; cbn in H; simplify_eq; reflexivity. Qed.

Lemma found_token {A} (f : A -> token) s r :
  (forall a, structural_char (f a) = None) -> structural_char (found f s r).1 = None.
Proof. intros H. by destruct r as [[a rest]|]; cbn. Qed.

(** What [expect] and [eat] look for is the next token. *)
Lemma scan_eat c t s :
  structural c = Some t ->
  match eat c (skip_whitespace s) with Some r => scan s = (t, r) | None => (scan s).1 <> t end.
Proof.
  intros Hc. pose proof (structural_inv c t Hc) as Ht. unfold scan.
  destruct (skip_whitespace s) as [|d s1]; cbn [eat].
  { intros <-. done. }
  destruct (Ascii.eqb_spec d c) as [->|Hd]; [by rewrite Hc|].
  destruct (structural d) as [u|] eqn:Hu.
  { cbn. intros <-. apply structural_inv in Hu. congruence. }
  intros E. assert (structural_char t = None); [|congruence]. rewrite <- E.
  repeat case_match; try done; by apply found_token.
Qed.

(** The token of a string is what [scan_quoted] reads. *)
Lemma scan_string_token s :
  match scan_quoted (skip_whitespace s) with
  | Ok (k, r) => scan s = (value_string k, r)
  | Throw e => e = json_parse_error /\ forall k, (scan s).1 <> value_string k
  | _ => False
  end.
Proof.
  unfold scan_quoted, scan. destruct (skip_whitespace s) as [|c s1]; [done|]. cbn [eat].
  destruct (Ascii.eqb_spec c quote) as [->|Hc].
  - change (structural quote) with (@None token). cbn [Ascii.eqb Bool.eqb].
    change (Ascii.eqb quote "t") with false. change (Ascii.eqb quote "f") with false.
    change (Ascii.eqb quote "n") with false. change (Ascii.eqb quote quote) with true.
    by destruct (scan_string [] s1) as [[k r]|].
  - split; [done|]. intros k. destruct (structural c) eqn:Hs.
    { apply structural_inv in Hs. cbn. by intros ->. }
    repeat case_match; subst; try done. by destruct (scan_number (String c s1)) as [[n r]|].
Qed.

(** * References *)

Lemma jget_app p q j : jget (p ++ q) j = (x ← jget p j; jget q x).
Proof.
  revert j. induction p as [|[i|k] p IH]; intros j; [done|..]; destruct j; try done; cbn.
  - by destruct (l !! i); cbn.
  - by destruct (obj_lookup k l); cbn.
Qed.

Lemma jget_put p v : forall j x, jget p j = Some x -> jget p (jput p v j) = Some v.
Proof.
  induction p as [|[i|k] p IH]; intros j x H; [done|..]; destruct j; try done; cbn in *.
  - rewrite list_lookup_alter_eq. destruct (l !! i) as [y|]; [|done]. by apply (IH y x).
  - destruct (obj_lookup k l) as [y|]; [|done]. cbn in *. rewrite obj_lookup_insert. cbn. by apply (IH y x).
Qed.

Lemma jput_put p v w : forall j, jput p v (jput p w j) = jput p v j.
Proof.
  induction p as [|[i|k] p IH]; intros j; [done|..]; destruct j; try done; cbn.
  - f_equal. rewrite list_alter_alter_eq. apply list_alter_ext; [|done]. intros x _. apply IH.
  - destruct (obj_lookup k l) as [y|] eqn:E; [|cbn; by rewrite E]. cbn.
    by rewrite obj_lookup_insert, obj_insert_twice, IH.
Qed.

Lemma jput_app p q v : forall j x, jget p j = Some x -> jput (p ++ q) v j = jput p (jput q v x) j.
Proof.
  induction p as [|[i|k] p IH]; intros j x H; [by simplify_eq/=|..]; destruct j; try done; cbn in *.
  - f_equal. destruct (l !! i) as [y|] eqn:E; [|done].
    apply list_alter_ext; [|done]. intros z Hz. rewrite E in Hz. simplify_eq. by apply IH.
  - destruct (obj_lookup k l) as [y|]; [|done]. cbn in *. by rewrite (IH y x).
Qed.

(** [F v] is a value with a hole at [q] that holds [v]. *)
Definition hole (q : list place) (F : json -> json) : Prop :=
  (forall v, jget q (F v) = Some v) /\ (forall v w, jput q w (F v) = F w).

(** The consumer puts its next value at [q]; what it has then is [F] of the value. *)
Definition accepts (d : dom) (q : list place) (F : json -> json) : Prop :=
  hole q F /\ forall v, handle_value v d =
    Ok (q, {| root := F v; ref_stack := ref_stack d; object_element := object_element d |}).

Lemma accepts_root j e : accepts (Dom j [] e) [] (fun v => v).
Proof. by split. Qed.

Lemma accepts_array q F l rs e :
  hole q F ->
  accepts (Dom (F (JArr l)) (q :: rs) e) (q ++ [at_index (length l)]) (fun v => F (JArr (l ++ [v]))).
Proof.
  intros [Hget Hput]. split; [split|].
  - intros v. rewrite jget_app, Hget. cbn. by rewrite list_lookup_middle.
  - intros v w. rewrite (jput_app _ _ _ _ _ (Hget _)), Hput. cbn. do 2 f_equal.
    by rewrite alter_app_r_alt, Nat.sub_diag by done.
  - intros v. unfold handle_value. cbn [ref_stack root]. by rewrite Hget, Hput.
Qed.

(** What [key] leaves of the entries. *)
Definition with_key (k : string) (l : list (string * json)) : list (string * json) :=
  match obj_lookup k l with Some _ => l | None => obj_insert k JNull l end.

Lemma with_key_insert k v l : obj_insert k v (with_key k l) = obj_insert k v l.
Proof. unfold with_key. destruct (obj_lookup k l); [done|]. apply obj_insert_twice. Qed.
Lemma with_key_lookup k l : exists x, obj_lookup k (with_key k l) = Some x.
Proof.
  unfold with_key. destruct (obj_lookup k l) as [x|] eqn:E; [by exists x|].
  exists JNull. apply obj_lookup_insert.
Qed.

Lemma key_ok k q F l rs e :
  hole q F ->
  key k (Dom (F (JObj l)) (q :: rs) e)
  = Ok (Dom (F (JObj (with_key k l))) (q :: rs) (Some (q ++ [at_key k]))).
Proof. intros [Hget Hput]. unfold key. cbn. by rewrite Hget, Hput. Qed.

Lemma accepts_object k q F l rs :
  hole q F ->
  accepts (Dom (F (JObj (with_key k l))) (q :: rs) (Some (q ++ [at_key k]))) (q ++ [at_key k])
    (fun v => F (JObj (obj_insert k v l))).
Proof.
  intros [Hget Hput]. destruct (with_key_lookup k l) as [x Hx]. split; [split|].
  - intros v. rewrite jget_app, Hget. cbn. by rewrite obj_lookup_insert.
  - intros v w. rewrite (jput_app _ _ _ _ _ (Hget _)), Hput. cbn.
    by rewrite obj_lookup_insert, obj_insert_twice.
  - intros v. unfold handle_value. cbn [ref_stack root object_element].
    rewrite Hget, (jput_app _ _ _ _ _ (Hget _)), Hput. cbn. by rewrite Hx, with_key_insert.
Qed.

(** * The loop and the recursion *)

(** The rest of an iteration after a complete value, and the following iterations. *)
Definition after (fuel : nat) (p : parser) : outcome parser :=
  r ← evaluate_state p;
  match r with Again p => sax_parse_internal fuel p | Return p => Ok p end.

(** The parser at a value, and after one. *)
Definition before (s : string) (l : list bool) (d : dom) : parser :=
  {| last_token := (scan s).1; input := (scan s).2; states := l; sax := d;
     skip_to_state_evaluation := false |}.
Definition behind (t : token) (s : string) (l : list bool) (d : dom) : parser :=
  {| last_token := t; input := s; states := l; sax := d; skip_to_state_evaluation := false |}.

Lemma get_token_behind t s l d : get_token (behind t s l d) = before s l d.
Proof. unfold get_token, before. cbn. by destruct (scan s). Qed.

Lemma run_break f s l d p :
  switch_token (before s l d) = Ok (Break p) -> sax_parse_internal (S f) (before s l d) = after f p.
Proof. intros H. cbn [sax_parse_internal skip_to_state_evaluation before]. by rewrite H. Qed.
Lemma run_continue f s l d (r : outcome parser) :
  switch_token (before s l d) = (p ← r; Ok (Continue p)) ->
  sax_parse_internal (S f) (before s l d) = (p ← r; sax_parse_internal f p).
Proof. intros H. cbn [sax_parse_internal skip_to_state_evaluation before]. rewrite H. by destruct r. Qed.
Lemma run_throw f s l d e :
  switch_token (before s l d) = Throw e -> sax_parse_internal (S f) (before s l d) = Throw e.
Proof. intros H. cbn [sax_parse_internal skip_to_state_evaluation before]. by rewrite H. Qed.
Lemma run_unmodelled f s l d :
  switch_token (before s l d) = Unmodelled -> sax_parse_internal (S f) (before s l d) = Unmodelled.
Proof. intros H. cbn [sax_parse_internal skip_to_state_evaluation before]. by rewrite H. Qed.

(** [g], given the fuel, does on [n] characters of input what the recursive parser did: if that
    returned [a], the loop comes to the end of the value with [F a] in the consumer, having used as
    much fuel as characters at most; if it failed, the loop fails. *)
Definition simulates {A} (n : nat) (l : list bool) (rs : list (list place)) (F : A -> json)
    (g : nat -> outcome parser) (r : outcome (A * string)) : Prop :=
  match r with
  | Ok (a, rest) => exists k t e, (k + String.length rest <= n)%nat /\
      forall f, g (k + f)%nat = after f (behind t rest l (Dom (F a) rs e))
  | Throw x => exists k, (k <= S n)%nat /\ forall f, g (k + f)%nat = Throw x
  | Undef u => False
  | Unmodelled => exists k, (k <= S n)%nat /\ forall f, g (k + f)%nat = Unmodelled
  end.

(** Further steps before, or after, with other results. *)
Lemma simulates_step {A B} n m j l rs (F : A -> json) (F' : B -> json) g g' r (h : A -> B) :
  (forall f, g' (j + f)%nat = g f) -> (j + m <= n)%nat -> (forall a, F' (h a) = F a) ->
  simulates m l rs F g r ->
  simulates n l rs F' g' ('(a, rest) ← r; Ok (h a, rest)).
Proof.
  intros Hg Hn HF H. destruct r as [[a rest]|x|u|]; cbn in *; [| |done|].
  - destruct H as (k & t & e & Hk & H). exists (j + k)%nat, t, e. split; [lia|].
    intros f. by rewrite <- Nat.add_assoc, Hg, H, HF.
  - destruct H as (k & Hk & H). exists (j + k)%nat. split; [lia|].
    intros f. by rewrite <- Nat.add_assoc, Hg, H.
  - destruct H as (k & Hk & H). exists (j + k)%nat. split; [lia|].
    intros f. by rewrite <- Nat.add_assoc, Hg, H.
Qed.

Lemma simulates_weaken {A} n m l rs (F : A -> json) g r :
  (m <= n)%nat -> simulates m l rs F g r -> simulates n l rs F g r.
Proof.
  intros Hn. destruct r as [[a rest]|x|u|]; cbn; [|intros (k & Hk & H); exists k; split; [lia|done]
    |done|intros (k & Hk & H); exists k; split; [lia|done]].
  intros (k & t & e & Hk & H). exists k, t, e. split; [lia|done].
Qed.

Lemma bind_pair_id {A B} (r : outcome (A * B)) : ('(a, b) ← r; Ok (a, b)) = r.
Proof. by destruct r as [[a b]| | |]. Qed.

Lemma simulates_throw {A} n l rs (F : A -> json) g j x :
  (forall f, g (j + f)%nat = Throw x) -> (j <= S n)%nat -> simulates n l rs F g (Throw x).
Proof. intros Hg Hj. by exists j. Qed.

Lemma expect_token c t s :
  structural c = Some t ->
  match expect c s with
  | Ok r => scan s = (t, r)
  | Throw e => e = json_parse_error /\ (scan s).1 <> t
  | _ => False
  end.
Proof.
  intros Hc. pose proof (scan_eat c t s Hc) as H. unfold expect.
  by destruct (eat c (skip_whitespace s)).
Qed.

(** Key and separator. *)
Lemma object_key_ok s l q F acc rs e :
  hole q F ->
  object_key (before s l (Dom (F (JObj acc)) (q :: rs) e)) =
    ('(k, s1) ← scan_quoted (skip_whitespace s);
     s2 ← expect ":" s1;
     Ok (behind name_separator s2 l
       (Dom (F (JObj (with_key k acc))) (q :: rs) (Some (q ++ [at_key k]))))).
Proof.
  intros Hh. unfold object_key. cbn [last_token before].
  pose proof (scan_string_token s) as H.
  destruct (scan_quoted (skip_whitespace s)) as [[k s1]|x|u|]; [| |done..].
  - unfold before. rewrite H. cbn [fst snd]. unfold emit. cbn [sax].
    rewrite (key_ok k q F acc rs e Hh). cbn [mbind outcome_bind].
    change (get_token _) with (get_token (behind (value_string k) s1 l
      (Dom (F (JObj (with_key k acc))) (q :: rs) (Some (q ++ [at_key k]))))).
    rewrite get_token_behind. pose proof (expect_token ":" name_separator s1 eq_refl) as He.
    destruct (expect ":" s1) as [s2|x|u|]; cbn [mbind outcome_bind]; [| |done..].
    + unfold before. by rewrite He.
    + destruct He as [-> He]. cbn [last_token before]. by destruct (scan s1).1.
  - destruct H as [-> H]. cbn [mbind outcome_bind]. destruct (scan s).1 as [| | |t| | | | | | | | |]; try done.
    by destruct (H t).
Qed.

(** ** What follows a value in a container *)

Definition closing (array : bool) : ascii := if array then "]"%char else "}"%char.
Definition closing_token (array : bool) : token := if array then end_array else end_object.

Lemma evaluate_container array l t s d :
  evaluate_state (behind t s (array :: l) d) =
    match (scan s).1 with
    | value_separator =>
        if array then Ok (Again (get_token (before s (true :: l) d)))
        else p ← object_key (get_token (before s (false :: l) d)); Ok (Again (get_token p))
    | end_array => if array then close l (before s (true :: l) d) else sax_parse_error
    | end_object => if array then sax_parse_error else close l (before s (false :: l) d)
    | _ => sax_parse_error
    end.
Proof.
  unfold evaluate_state. cbn [states behind]. rewrite get_token_behind. cbn [last_token before].
  by destruct array, (scan s).1.
Qed.

Lemma before_token s t s1 l d : scan s = (t, s1) -> before s l d = behind t s1 l d.
Proof. intros H. unfold before. by rewrite H. Qed.

Lemma after_comma array f t s s1 l d :
  eat "," (skip_whitespace s) = Some s1 ->
  after f (behind t s (array :: l) d) =
    if array then sax_parse_internal f (before s1 (true :: l) d)
    else p ← object_key (before s1 (false :: l) d); sax_parse_internal f (get_token p).
Proof.
  intros H. pose proof (scan_eat "," value_separator s eq_refl) as Hs. rewrite H in Hs.
  unfold after. rewrite evaluate_container, Hs. cbn [fst].
  destruct array; rewrite (before_token _ _ _ _ _ Hs), get_token_behind; [done|].
  by destruct (object_key _).
Qed.

Lemma after_close array f t s s1 l j q rs e :
  eat "," (skip_whitespace s) = None -> expect (closing array) s = Ok s1 ->
  after (S f) (behind t s (array :: l) (Dom j (q :: rs) e))
  = after f (behind (closing_token array) s1 l (Dom j rs e)).
Proof.
  intros _ H. assert (Hs : scan s = (closing_token array, s1)).
  { pose proof (expect_token (closing array) (closing_token array) s) as Hs. rewrite H in Hs.
    apply Hs. by destruct array. }
  unfold after at 1. rewrite evaluate_container, Hs. cbn [fst].
  destruct array; cbn [closing_token]; rewrite (before_token _ _ _ _ _ Hs); reflexivity.
Qed.

Lemma after_fail array f t s l d x :
  eat "," (skip_whitespace s) = None -> expect (closing array) s = Throw x ->
  after f (behind t s (array :: l) d) = Throw x.
Proof.
  intros Hc H. assert (Hs : x = json_parse_error /\ (scan s).1 <> closing_token array).
  { pose proof (expect_token (closing array) (closing_token array) s) as Hs. rewrite H in Hs.
    apply Hs. by destruct array. }
  pose proof (scan_eat "," value_separator s eq_refl) as Hv. rewrite Hc in Hv.
  destruct Hs as [-> Hs]. unfold after. rewrite evaluate_container.
  by destruct array, (scan s).1.
Qed.

Lemma expect_length_ok c s s1 :
  expect c s = Ok s1 -> (S (String.length s1) <= String.length s)%nat.
Proof. intros H. pose proof (expect_length c s) as Hl. rewrite H in Hl. cbn in Hl. lia. Qed.

Lemma expect_not_other c s : match expect c s with Ok _ | Throw _ => True | _ => False end.
Proof. unfold expect. by destruct (eat _ _). Qed.

Lemma eat_skip_length c s s1 :
  eat c (skip_whitespace s) = Some s1 -> (S (String.length s1) <= String.length s)%nat.
Proof. intros H%eat_length. pose proof (skip_whitespace_length s). lia. Qed.

(** A simulated value and what the recursive parser does with the rest. *)
Lemma simulates_then {A B} n l1 rs1 (F1 : A -> json) l rs (F : B -> json) g r1 cont :
  simulates n l1 rs1 F1 g r1 ->
  (forall v s1 k t e, (k + String.length s1 <= n)%nat ->
    (forall f, g (k + f)%nat = after f (behind t s1 l1 (Dom (F1 v) rs1 e))) ->
    simulates n l rs F g (cont (v, s1))) ->
  simulates n l rs F g (r1 ≫= cont).
Proof.
  intros H Hc. destruct r1 as [[v s1]|x|u|]; cbn in *; [|done..].
  destruct H as (k & t & e & Hk & Hg). eauto.
Qed.

(** The end of a container, or an error instead. *)
Lemma simulates_close {A} array n l rs (F : A -> json) g k t s1 j q e a :
  (k + String.length s1 <= n)%nat -> eat "," (skip_whitespace s1) = None -> j = F a ->
  (forall f, g (k + f)%nat = after f (behind t s1 (array :: l) (Dom j (q :: rs) e))) ->
  simulates n l rs F g (rest ← expect (closing array) s1; Ok (a, rest)).
Proof.
  intros Hk Hc -> Hg. pose proof (expect_not_other (closing array) s1).
  destruct (expect (closing array) s1) as [s3|x|u|] eqn:E; [| |done..].
  - exists (k + 1)%nat, (closing_token array), e. pose proof (expect_length_ok _ _ _ E). split; [lia|].
    intros f. rewrite <- Nat.add_assoc, Hg. cbn [Nat.add]. by apply after_close.
  - exists k. split; [lia|]. intros f. rewrite Hg. by apply after_fail.
Qed.

(** ** The three mutually recursive parts *)

Definition sim_value (fuel : nat) (s : string) : Prop := forall l d q F,
  accepts d q F -> (2 * String.length s + 1 <= fuel)%nat ->
  simulates (String.length s) l (ref_stack d) F
    (fun f => sax_parse_internal f (before s l d)) (parse_value fuel s).

Definition sim_elems (fuel : nat) (s : string) : Prop := forall l q F acc rs e,
  hole q F -> (2 * String.length s + 2 <= fuel)%nat ->
  simulates (String.length s) l rs (fun l' => F (JArr (acc ++ l')))
    (fun f => sax_parse_internal f (before s (true :: l) (Dom (F (JArr acc)) (q :: rs) e)))
    (parse_elems fuel s).

Definition sim_members (fuel : nat) (s : string) : Prop := forall l l0 q F acc rs e,
  hole q F -> (2 * String.length s + 2 <= fuel)%nat ->
  simulates (String.length s) l rs (fun l' => F (JObj l'))
    (fun f => p ← object_key (before s l0 (Dom (F (JObj acc)) (q :: rs) e));
              sax_parse_internal f (get_token (set_states (false :: l) p)))
    (parse_members fuel acc s).

Lemma sim_elems_step fuel s :
  (forall s, sim_value fuel s) -> (forall s, sim_elems fuel s) -> sim_elems (S fuel) s.
Proof.
  intros IHv IHe l q F acc rs e Hh Hf. cbn [parse_elems].
  eapply simulates_then.
  { apply (IHv s _ _ _ _ (accepts_array q F acc rs e Hh)). lia. }
  cbn [ref_stack]. intros v s1 k t e' Hk Hg.
  destruct (eat "," (skip_whitespace s1)) as [s2|] eqn:E.
  - pose proof (eat_skip_length _ _ _ E).
    refine (simulates_step _ (String.length s2) k _ _ _ _ _ _ _ (fun l' => v :: l') _ _ _
      (IHe s2 l q F (acc ++ [v]) rs e' Hh _)); [|lia| |lia].
    + intros f. rewrite Hg. exact (after_comma true f t s1 s2 _ _ E).
    + intros l'. by rewrite <- app_assoc.
  - by eapply (simulates_close true); [exact Hk|exact E| |exact Hg].
Qed.

Lemma sim_members_step fuel s :
  (forall s, sim_value fuel s) -> (forall s, sim_members fuel s) -> sim_members (S fuel) s.
Proof.
  intros IHv IHm l l0 q F acc rs e Hh Hf. cbn [parse_members].
  rewrite (object_key_ok _ _ _ _ _ _ _ Hh).
  pose proof (scan_quoted_consumes (skip_whitespace s)) as Hq. pose proof (skip_whitespace_length s).
  destruct (scan_quoted (skip_whitespace s)) as [[k0 s1]|x|u|] eqn:Ek;
    [|by apply (simulates_throw _ _ _ _ _ 0); [|lia]
     |pose proof (scan_string_token s) as Ht; by rewrite Ek in Ht..].
  cbn in Hq. cbn [mbind outcome_bind].
  pose proof (expect_not_other ":" s1).
  destruct (expect ":" s1) as [s2|x|u|] eqn:Ec; cbn [mbind outcome_bind];
    [|by apply (simulates_throw _ _ _ _ _ 0); [|lia]|done..].
  pose proof (expect_length_ok _ _ _ Ec).
  change (set_states (false :: l) (behind ?t ?s ?l0 ?d)) with (behind t s (false :: l) d).
  rewrite get_token_behind.
  eapply simulates_then.
  { pose proof (IHv s2 (false :: l) _ _ _ (accepts_object k0 q F acc rs Hh)) as Hv.
    refine (simulates_weaken _ _ _ _ _ _ _ _ (Hv _)); lia. }
  cbn [ref_stack]. intros v s3 k t e' Hk Hg.
  destruct (eat "," (skip_whitespace s3)) as [s4|] eqn:E.
  - pose proof (eat_skip_length _ _ _ E). rewrite <- (bind_pair_id (parse_members _ _ _)).
    refine (simulates_step _ (String.length s4) k _ _ _ _ _ _ _ (fun l' => l') _ _ _
      (IHm s4 l (false :: l) q F (obj_insert k0 v acc) rs e' Hh _)); [|lia|done|lia].
    intros f. rewrite Hg. etransitivity; [exact (after_comma false f t s3 s4 _ _ E)|].
    rewrite (object_key_ok _ _ _ _ _ _ _ Hh).
    destruct (scan_quoted (skip_whitespace s4)) as [[k1 s5]| | |]; [|done..]. cbn [mbind outcome_bind].
    by destruct (expect ":" s5).
  - by eapply (simulates_close false); [exact Hk|exact E| |exact Hg].
Qed.

(** A primitive value: one iteration. *)
Lemma simulates_primitive n l d q F s v rest :
  accepts d q F -> (S (String.length rest) <= n)%nat ->
  switch_token (before s l d)
    = (p ← emit (add_value v) (before s l d); Ok (Break p)) -> (scan s).2 = rest ->
  simulates n l (ref_stack d) F (fun f => sax_parse_internal f (before s l d)) (Ok (v, rest)).
Proof.
  intros [_ Hd] Hn Hs <-. exists 1%nat, (scan s).1, (object_element d). split; [cbn; lia|]. intros f.
  apply run_break. rewrite Hs. unfold emit, add_value. cbn [sax before]. by rewrite Hd.
Qed.

Lemma number_value_other n : match number_value n with Ok _ | Unmodelled => True | _ => False end.
Proof. by destruct n. Qed.

(** Start of a container. *)
Lemma start_container_ok v t s l d q F :
  accepts d q F ->
  emit (start_container v) (behind t s l d)
  = Ok (behind t s l (Dom (F v) (q :: ref_stack d) (object_element d))).
Proof. intros [_ Hd]. unfold emit, start_container. cbn [sax behind]. by rewrite Hd. Qed.

Lemma switch_object s s1 l d q F :
  scan s = (begin_object, s1) -> accepts d q F ->
  switch_token (before s l d) =
    match eat "}" (skip_whitespace s1) with
    | Some s2 => Ok (Break (behind end_object s2 l (Dom (F (JObj [])) (ref_stack d) (object_element d))))
    | None =>
        p ← (p ← object_key (before s1 l (Dom (F (JObj [])) (q :: ref_stack d) (object_element d)));
             Ok (get_token (set_states (false :: l) p)));
        Ok (Continue p)
    end.
Proof.
  intros Hs Ha. rewrite (before_token _ _ _ _ _ Hs). unfold switch_token. cbn [last_token behind].
  rewrite (start_container_ok _ _ _ _ _ _ _ Ha). cbn [mbind outcome_bind]. rewrite get_token_behind.
  pose proof (scan_eat "}" end_object s1 eq_refl) as H.
  destruct (eat "}" (skip_whitespace s1)) as [s2|].
  - by rewrite (before_token _ _ _ _ _ H).
  - change (last_token (before s1 l ?d)) with (scan s1).1.
    assert (forall A (a b : A), match (scan s1).1 with end_object => a | _ => b end = b) as ->.
    { intros A a b. by destruct (scan s1).1. }
    rewrite (object_key_ok _ _ _ _ _ _ _ (proj1 Ha)).
    destruct (scan_quoted (skip_whitespace s1)) as [[k s2]| | |]; cbn [mbind outcome_bind]; [|done..].
    by destruct (expect ":" s2).
Qed.

Lemma switch_array s s1 l d q F :
  scan s = (begin_array, s1) -> accepts d q F ->
  switch_token (before s l d) =
    match eat "]" (skip_whitespace s1) with
    | Some s2 => Ok (Break (behind end_array s2 l (Dom (F (JArr [])) (ref_stack d) (object_element d))))
    | None => Ok (Continue (before s1 (true :: l)
                (Dom (F (JArr [])) (q :: ref_stack d) (object_element d))))
    end.
Proof.
  intros Hs Ha. rewrite (before_token _ _ _ _ _ Hs). unfold switch_token. cbn [last_token behind].
  rewrite (start_container_ok _ _ _ _ _ _ _ Ha). cbn [mbind outcome_bind]. rewrite get_token_behind.
  pose proof (scan_eat "]" end_array s1 eq_refl) as H.
  destruct (eat "]" (skip_whitespace s1)) as [s2|].
  - by rewrite (before_token _ _ _ _ _ H).
  - change (last_token (before s1 l ?d)) with (scan s1).1. by destruct (scan s1).1.
Qed.

Lemma switch_fails s l d : (scan s).1 = parse_error \/ (scan s).1 = end_of_input ->
  switch_token (before s l d) = Throw json_parse_error.
Proof. intros H. unfold switch_token. cbn [last_token before]. by destruct H as [-> | ->]. Qed.

Lemma sim_fails n s l d rs F :
  (scan s).1 = parse_error \/ (scan s).1 = end_of_input ->
  simulates n l rs F (fun f => sax_parse_internal f (before s l d))
    (Throw json_parse_error : outcome (json * string)).
Proof.
  intros H. apply (simulates_throw _ _ _ _ _ 1); [|lia]. intros f. by apply run_throw, switch_fails.
Qed.

(** A literal. *)
Lemma sim_literal n s s1 l d q F t lit v :
  accepts d q F -> (S (String.length s1) <= n)%nat ->
  scan s = match scan_literal lit s1 with Some r => (t, r) | None => (parse_error, s1) end ->
  (forall s, switch_token (behind t s l d) = (p ← emit (add_value v) (behind t s l d); Ok (Break p))) ->
  simulates n l (ref_stack d) F (fun f => sax_parse_internal f (before s l d)) (scan_lit_value lit v s1).
Proof.
  intros Ha Hn Hs Hsw. pose proof (scan_lit_consumes lit v s1) as Hc. unfold scan_lit_value in *.
  destruct (scan_literal lit s1) as [r|].
  - cbn in Hc. eapply simulates_primitive; [exact Ha|lia| |by rewrite Hs].
    rewrite (before_token _ _ _ _ _ Hs). apply Hsw.
  - apply sim_fails. left. by rewrite Hs.
Qed.

(** A number. *)
Lemma sim_number n s s0 s1 l d q F :
  accepts d q F -> (String.length s1 <= n)%nat -> scan s = found value_number s0 (scan_number s1) ->
  simulates n l (ref_stack d) F (fun f => sax_parse_internal f (before s l d)) (scan_number_value s1).
Proof.
  intros Ha Hn Hs. unfold scan_number_value. pose proof (scan_number_length s1) as Hl.
  destruct (scan_number s1) as [[m rest]|]; [|apply sim_fails; left; by rewrite Hs].
  specialize (Hl m rest eq_refl). cbn [found] in Hs. pose proof (number_value_other m) as Hm.
  destruct (number_value m) as [v|x|u|] eqn:Ev; [|done..|].
  - eapply simulates_primitive; [exact Ha|lia| |by rewrite Hs].
    rewrite (before_token _ _ _ _ _ Hs). unfold switch_token. cbn [last_token behind]. by rewrite Ev.
  - exists 1%nat. split; [lia|]. intros f. apply run_unmodelled.
    rewrite (before_token _ _ _ _ _ Hs). unfold switch_token. cbn [last_token behind]. by rewrite Ev.
Qed.

(** A string. *)
Lemma sim_string n s s1 l d q F :
  accepts d q F -> (String.length s1 < n)%nat -> scan s = found value_string s1 (scan_string [] s1) ->
  simulates n l (ref_stack d) F (fun f => sax_parse_internal f (before s l d))
    ('(t, rest) ← scan_quoted (String quote s1); Ok (JStr t, rest)).
Proof.
  intros Ha Hn Hs. pose proof (scan_quoted_consumes (String quote s1)) as Hc. unfold scan_quoted in *.
  rewrite eat_cons in *.
  destruct (scan_string [] s1) as [[t rest]|]; cbn [mbind outcome_bind]; cbn in Hc.
  - eapply simulates_primitive; [exact Ha|lia| |by rewrite Hs].
    rewrite (before_token _ _ _ _ _ Hs). reflexivity.
  - apply sim_fails. left. by rewrite Hs.
Qed.

Lemma sim_value_step fuel s :
  (forall s, sim_elems fuel s) -> (forall s, sim_members fuel s) -> sim_value (S fuel) s.
Proof.
  intros IHe IHm l d q F Ha Hf. cbn [parse_value].
  pose proof (skip_whitespace_length s) as Hlen. pose proof (eq_refl (scan s)) as Hscan.
  unfold scan at 2 in Hscan.
  destruct (skip_whitespace s) as [|c s1].
  { apply sim_fails. right. by rewrite Hscan. }
  cbn in Hlen.
  destruct (Ascii.eqb_spec c "{") as [->|Hc1].
  { cbn [structural] in Hscan. pose proof (switch_object s s1 l d q F Hscan Ha) as Hsw.
    destruct (eat "}" (skip_whitespace s1)) as [s2|] eqn:E.
    - pose proof (eat_skip_length _ _ _ E). exists 1%nat, end_object, (object_element d).
      split; [lia|]. intros f. by apply run_break.
    - refine (simulates_step _ (String.length s1) 1 _ _ _ _ _ _ _ JObj _ _ _
        (IHm s1 l l q F [] _ (object_element d) (proj1 Ha) _)); [|lia|done|lia].
      intros f. refine (eq_trans (run_continue f s l d _ Hsw) _). by destruct (object_key _). }
  destruct (Ascii.eqb_spec c "[") as [->|Hc2].
  { cbn [structural] in Hscan. pose proof (switch_array s s1 l d q F Hscan Ha) as Hsw.
    destruct (eat "]" (skip_whitespace s1)) as [s2|] eqn:E.
    - pose proof (eat_skip_length _ _ _ E). exists 1%nat, end_array, (object_element d).
      split; [lia|]. intros f. by apply run_break.
    - refine (simulates_step _ (String.length s1) 1 _ _ _ _ _ _ _ JArr _ _ _
        (IHe s1 l q F [] _ _ (proj1 Ha) _)); [|lia|done|lia].
      intros f. exact (run_continue f s l d (Ok _) Hsw). }
  destruct (structural c) as [t|] eqn:Ht.
  { (* a structural character that starts no value *)
    assert (scan_number_value (String c s1) = Throw json_parse_error /\
      (c <> "t" /\ c <> "f" /\ c <> "n" /\ c <> quote)%char) as (-> & H1 & H2 & H3 & H4).
    { clear -Ht Hc1 Hc2. each_byte c; try discriminate Ht; split_and!; done. }
    repeat (rewrite (proj2 (Ascii.eqb_neq _ _)) by done).
    apply (simulates_throw _ _ _ _ _ 1); [|lia]. intros f. apply run_throw.
    unfold switch_token. cbn [last_token before]. rewrite Hscan. cbn [fst].
    clear -Ht Hc1 Hc2. each_byte c; try discriminate Ht; cbn in Ht; by simplify_eq. }
  destruct (Ascii.eqb_spec c "t"); [by eapply (sim_literal _ _ _ _ _ _ _ literal_true)|].
  destruct (Ascii.eqb_spec c "f"); [by eapply (sim_literal _ _ _ _ _ _ _ literal_false)|].
  destruct (Ascii.eqb_spec c "n"); [by eapply (sim_literal _ _ _ _ _ _ _ literal_null)|].
  destruct (Ascii.eqb_spec c quote) as [->|Hq]; [by eapply sim_string|].
  destruct (Ascii.eqb_spec c "000") as [->|Hz].
  { change (scan_number_value (String "000" s1)) with (Throw json_parse_error : outcome (json * string)).
    apply sim_fails. right. by rewrite Hscan. }
  by eapply sim_number; [exact Ha|cbn; lia|exact Hscan].
Qed.

(** The loop simulates the recursion, whatever is nested in what. *)
Lemma sim_all fuel : forall s, sim_value fuel s /\ sim_elems fuel s /\ sim_members fuel s.
Proof.
  induction fuel as [|fuel IH]; intros s.
  { unfold sim_value, sim_elems, sim_members. split_and!; intros; lia. }
  split_and!.
  - apply sim_value_step; intros s'; apply IH.
  - apply sim_elems_step; intros s'; apply IH.
  - apply sim_members_step; intros s'; apply IH.
Qed.

(** The first token, and the end of the loop. *)
Lemma parser_new_before s : parser_new s = before s [] (Dom JNull [] None).
Proof. apply get_token_behind. Qed.

Lemma parse_ok strict s :
  parse strict s =
    ('(v, rest) ← parse_value (2 * String.length s + 1) s;
     if strict then
       match (scan rest).1 with end_of_input => Ok v | _ => Throw json_parse_error end
     else Ok v).
Proof.
  destruct (sim_all (2 * String.length s + 1) s) as (Hv & _).
  specialize (Hv [] _ _ _ (accepts_root JNull None) (le_n _)).
  unfold parse. rewrite parser_new_before.
  destruct (parse_value _ s) as [[v rest]|x|u|]; cbn [mbind outcome_bind]; cbn in Hv; [| |done|].
  - destruct Hv as (k & t & e & Hk & Hv). replace (String.length s + 1)%nat with (k + (String.length s + 1 - k))%nat by lia.
    rewrite Hv. cbn [after evaluate_state states behind mbind outcome_bind].
    by rewrite get_token_behind.
  - destruct Hv as (k & Hk & Hv). replace (String.length s + 1)%nat with (k + (String.length s + 1 - k))%nat by lia.
    by rewrite Hv.
  - destruct Hv as (k & Hk & Hv). replace (String.length s + 1)%nat with (k + (String.length s + 1 - k))%nat by lia.
    by rewrite Hv.
Qed.

(** The end of the input, or a null character. *)
Lemma scan_end s :
  match (scan s).1 with end_of_input => true | _ => false end =
  match skip_whitespace s with "" => true | String "000"%char _ => true | _ => false end.
Proof.
  unfold scan. destruct (skip_whitespace s) as [|c s1]; [done|].
  each_byte c; cbn -[scan_literal scan_string scan_number]; try reflexivity;
    unfold found; by repeat case_match.
Qed.

(** C18: the parser of the JSON library, a loop over tokens with a stack of open containers and references
    into the value under construction, reads exactly what the recursive definition reads, for
    strings and for streams: the same values, the same errors and the same floating-point numbers; it
    ends after at most as many iterations as the text has characters plus one, and no reference or
    assertion fails on the way. *)
Theorem basic_json_parse_refines s :
  basic_json_parse true s = jparse s /\ basic_json_parse false s = jread s.
Proof.
  unfold basic_json_parse, jparse, jread. destruct (skip_bom s) as [s0|]; [|done].
  rewrite !parse_ok. split; destruct (parse_value _ s0) as [[v rest]| | |]; try done.
  cbn [mbind outcome_bind]. pose proof (scan_end rest) as H.
  destruct (skip_whitespace rest) as [|c r]; [by destruct (scan rest).1|].
  each_byte c; by destruct (scan rest).1.
Qed.
End Parser.
