(* ===== verification/JsonDestroy.v ===== *)
(** How values of the JSON library are destroyed (src/include/json/json.hpp): not by recursion over the nesting, but
    with a stack of the values that are still to be destroyed. *)
From S2P Require Import Prelude Json.

Module Destroy.

(** What a value holds on the heap. *)
Inductive heap_block := array_block | object_block | string_block (s : string).

(** The values that a container holds, and what is left of it when they have been moved out: null values; and
    what is left after [clear]. *)
Definition children (v : json) : list json :=
  match v with JArr l => l | JObj l => map snd l | _ => [] end.
Definition moved_out (v : json) : json :=
  match v with
  | JArr l => JArr (map (fun _ => JNull) l)
  | JObj l => JObj (map (fun e => (e.1, JNull)) l)
  | v => v
  end.
Definition cleared (v : json) : json :=
  match v with JArr _ => JArr [] | JObj _ => JObj [] | v => v end.

(** The loop over [stack], whose back is the end of the list.  [destructor] is [~basic_json]; [freed] are the
    blocks that were given back so far. *)
Fixpoint flatten (destructor : json -> list heap_block -> option (list heap_block)) (fuel : nat)
    (stack : list json) (freed : list heap_block) : option (list heap_block) :=
  match last stack, fuel with
  | None, _ => Some freed
  | Some _, O => None
  | Some current_item, S fuel' =>
      let stack := removelast stack in
      let stack := stack ++ children current_item in
      freed ← destructor (cleared current_item) freed;
      flatten destructor fuel' stack freed
  end.

(** The destructors of the elements of a container. *)
Fixpoint destroy_elements (destructor : json -> list heap_block -> option (list heap_block)) (l : list json)
    (freed : list heap_block) : option (list heap_block) :=
  match l with
  | [] => Some freed
  | v :: l' => freed ← destructor v freed; destroy_elements destructor l' freed
  end.

(** [json_value::destroy].  [depth]: how many calls of it may be active at once. *)
Fixpoint destroy (depth fuel : nat) (v : json) (freed : list heap_block) : option (list heap_block) :=
  match depth with
  | O => None
  | S depth' =>
      freed ← match v with
              | JArr _ | JObj _ => flatten (destroy depth' fuel) fuel (children v) freed
              | _ => Some freed
              end;
      let v := moved_out v in
      match v with
      | JObj _ => freed ← destroy_elements (destroy depth' fuel) (children v) freed; Some (freed ++ [object_block])
      | JArr _ => freed ← destroy_elements (destroy depth' fuel) (children v) freed; Some (freed ++ [array_block])
      | JStr s => Some (freed ++ [string_block s])
      | _ => Some freed
      end
  end.

(** * What there is to destroy *)

(** The number of values in a value. *)
Fixpoint values (v : json) : nat :=
  match v with
  | JArr l => S (list_sum (map values l))
  | JObj l => S (list_sum (map (fun e => values e.2) l))
  | _ => 1
  end.

Definition own (v : json) : list heap_block :=
  match v with JArr _ => [array_block] | JObj _ => [object_block] | JStr s => [string_block s] | _ => [] end.
(** The blocks of a value and of all values in it. *)
Fixpoint blocks (v : json) : list heap_block :=
  match v with
  | JArr l => array_block :: flat_map blocks l
  | JObj l => object_block :: flat_map (fun e => blocks e.2) l
  | v => own v
  end.

Lemma values_children v : values v = S (list_sum (map values (children v))).
Proof. destruct v; try done. cbn. by rewrite map_map. Qed.
Lemma blocks_children v : blocks v = own v ++ flat_map blocks (children v).
Proof. destruct v; try done. cbn. f_equal. induction l as [|e l IH]; [done|]. cbn. by rewrite IH. Qed.

Definition total (l : list json) : nat := list_sum (map values l).

Lemma total_app l1 l2 : total (l1 ++ l2) = (total l1 + total l2)%nat.
Proof. unfold total. by rewrite map_app, list_sum_app. Qed.

(** * The destructor of a value without children *)

Lemma destroy_elements_null fuel l depth freed : Forall (fun v => v = JNull) l ->
  destroy_elements (destroy (S depth) fuel) l freed = Some freed.
Proof. induction 1 as [|v l -> _ IH]; [done|]. exact IH. Qed.

Lemma moved_out_null v : Forall (fun v => v = JNull) (children (moved_out v)).
Proof. destruct v; cbn; try constructor; induction l; by constructor. Qed.

Lemma destroy_cleared fuel depth v freed : destroy (S depth) fuel (cleared v) freed = Some (freed ++ own v).
Proof.
  destruct v; cbn; rewrite ?app_nil_r; try reflexivity; destruct fuel; reflexivity.
Qed.

Definition container (v : json) : bool := match v with JArr _ | JObj _ => true | _ => false end.

Lemma destroy_cases depth fuel v freed : destroy (S depth) fuel v freed =
  if container v then
    freed ← flatten (destroy depth fuel) fuel (children v) freed;
    freed ← destroy_elements (destroy depth fuel) (children (moved_out v)) freed;
    Some (freed ++ own v)
  else Some (freed ++ own v).
Proof. destruct v; cbn; by rewrite ?app_nil_r. Qed.

(** * The loop *)

Lemma flatten_snoc destructor k stack v freed :
  flatten destructor (S k) (stack ++ [v]) freed =
  freed ← destructor (cleared v) freed; flatten destructor k (stack ++ children v) freed.
Proof. cbn [flatten]. by rewrite last_snoc, removelast_last. Qed.

(** One turn for each value: no more are needed, and with fewer the loop does not end. *)
Lemma flatten_total fuel depth k : forall stack freed,
  if (total stack <=? k)%nat
  then exists out, flatten (destroy (S depth) fuel) k stack freed = Some (freed ++ out) /\ out ≡ₚ flat_map blocks stack
  else flatten (destroy (S depth) fuel) k stack freed = None.
Proof.
  induction k as [|k IH]; intros stack freed; destruct stack as [|v stack _] using rev_ind;
    try (exists []; by rewrite app_nil_r).
  - rewrite total_app. unfold total at 2. cbn [map list_sum foldr]. rewrite values_children.
    rewrite (proj2 (Nat.leb_gt _ _)) by lia. cbn [flatten]. by rewrite last_snoc.
  - rewrite flatten_snoc, destroy_cleared. cbn [mbind option_bind]. specialize (IH (stack ++ children v) (freed ++ own v)).
    assert (E : (total (stack ++ [v]) = S (total (stack ++ children v)))%nat).
    { rewrite !total_app. unfold total at 2 4. cbn [map list_sum foldr]. rewrite values_children. lia. }
    rewrite E. change (S (total (stack ++ children v)) <=? S k)%nat with (total (stack ++ children v) <=? k)%nat.
    destruct (_ <=? k)%nat; [|exact IH]. destruct IH as (out & -> & Hp). exists (own v ++ out). rewrite app_assoc.
    split; [done|]. rewrite Hp, !flat_map_app. cbn [flat_map]. rewrite app_nil_r, (blocks_children v). solve_Permutation.
Qed.

(** C40: a value is destroyed by a loop that takes one turn for each value in it, however deeply they are nested:
    with at most two calls of [destroy] active at once, every block that the value and the values
    in it hold is given back exactly once; and the loop does not end in fewer turns. *)
Theorem destroy_releases (v : json) (fuel : nat) (freed : list heap_block) :
  if (values v <=? S fuel)%nat
  then exists out, destroy 2 fuel v freed = Some (freed ++ out) /\ out ≡ₚ blocks v
  else destroy 2 fuel v freed = None.
Proof.
  pose proof (flatten_total fuel 0 fuel (children v) freed) as Hf. rewrite values_children, blocks_children.
  change (S (list_sum _) <=? S fuel)%nat with (total (children v) <=? fuel)%nat. rewrite destroy_cases.
  destruct (container v) eqn:Ec.
  - destruct (_ <=? fuel)%nat; [|by rewrite Hf]. destruct Hf as (out & -> & Hp). cbn [mbind option_bind].
    rewrite destroy_elements_null by apply moved_out_null. cbn [mbind option_bind]. exists (out ++ own v).
    rewrite app_assoc. split; [done|]. rewrite Hp. solve_Permutation.
  - assert (E : children v = []) by by destruct v. rewrite E. exists (own v). cbn. by rewrite app_nil_r.
Qed.

(** Ten values: nine turns. *)
Example destroys_nested :
  let v := JObj [("a", JArr [JInt 1; JStr "x"; JArr [JNull; JStr "y"]]); ("b", JObj [("c", JBool true)]); ("d", JStr "z")] in
  values v = 10%nat /\ destroy 2 9 v [] = Some
    [string_block "z"; object_block; array_block; array_block; string_block "y"; string_block "x"; object_block] /\
  destroy 2 8 v [] = None.
Proof. by vm_compute. Qed.
End Destroy.
