(* ===== verification/Signature.v ===== *)
(** The one-time signatures of src/lib/signature/hash.cc: bit sets, key generation, signing,
    verification and the text form of keys and signatures.  The hash function is an interface;
    the SHA-256 hasher implements it. *)
From S2P Require Import Prelude Sha256 Json JsonRoundTrip.
Local Open Scope nat_scope.

(** * The hash function *)

(** What the other components rely on: a function to strings of 64 hexadecimal digits. *)
Class Hash := {
  hash : string -> string;
  hash_length : forall s, String.length (hash s) = 64;
  hash_hex : forall s, Forall (fun c => is_hex c = true) (String.list_ascii_of_string (hash s))
}.

(** [signature::hash]: a fresh hasher, its memory whatever it was, called once. *)
Definition hash_with (memory extra : list Z) (data : string) : string :=
  (sha256_call extra (SHA256_new memory) data).1.

#[export, refine] Instance sha256_hash : Hash := {
  hash := hash_with (repeat 0%Z 64) (repeat 0%Z 64)
}.
Proof. all: intros s; apply sha256_call_hex. Defined.

(** * Bit sets *)

Definition KEY_LEN_ : nat := 256.
Arguments KEY_LEN_ : simpl never.
Abbreviation bitset := (list bool).

(** [std::bitset] starts out all zero; [bits[i] = b] past the end is undefined behaviour. *)
Definition bitset_zero : bitset := repeat false KEY_LEN_.
Definition bitset_set (bits : bitset) (i : nat) (b : bool) : outcome bitset :=
  if i <? KEY_LEN_ then Ok (<[i := b]> bits) else Undef out_of_bounds.

(** The byte of the bits [i .. i + 7], lowest first. *)
Definition byte_at (bits : bitset) (i : nat) : Z :=
  foldl (fun byte j => Z.lor byte (Z.shiftl (Z.b2z (nth (i + j) bits false)) (Z.of_nat j)))
    0%Z (seq 0 8).

Definition bitset_to_string (bits : bitset) : string :=
  string_of_bytes (map (fun k => byte_at bits (8 * k)) (seq 0 (KEY_LEN_ / 8))).

(** The inner loop: the eight bits of one character, [index] advancing. *)
Definition set_byte (st : bitset * nat) (c : ascii) : outcome (bitset * nat) :=
  foldM (fun st j =>
           bits ← bitset_set st.1 st.2 (Z.testbit (Z.of_N (N_of_ascii c)) (Z.of_nat j));
           Ok (bits, S st.2))
    st (seq 0 8).

Definition string_to_bitset (str : string) : outcome bitset :=
  '(bits, _) ← foldM set_byte (bitset_zero, 0) (String.list_ascii_of_string str);
  Ok bits.

(** [bits.to_string()] writes the highest bit first; the constructor reads it back and refuses
    other characters. *)
Definition bitset_print (bits : bitset) : string :=
  String.string_of_list_ascii (map (fun b : bool => if b then "1" else "0")%char (rev bits)).

Definition bit_of_char (c : ascii) : outcome bool :=
  if Ascii.eqb c "0" then Ok false
  else if Ascii.eqb c "1" then Ok true
  else Throw (invalid_argument "bitset::_M_copy_from_ptr").

Definition bitset_parse (s : string) : outcome bitset :=
  bs ← outcome_mapM bit_of_char (String.list_ascii_of_string s);
  let bs := rev (take KEY_LEN_ bs) in
  Ok (bs ++ repeat false (KEY_LEN_ - length bs)).

(** * Signatures as text *)

Definition signature_to_json (signature : list string) : outcome string :=
  j ← foldM (fun j sig => bits ← string_to_bitset sig; jpush j (JStr (bitset_print bits)))
        JNull signature;
  jdump j.

Definition json_to_string (text : string) : outcome (list string) :=
  j ← jparse text;
  outcome_mapM (fun v => str ← jget_string v; bits ← bitset_parse str; Ok (bitset_to_string bits))
    (jelems j).

(** * Keys *)

Record SigKey := mkSigKey { S0 : list string; S1 : list string }.
#[export] Instance SigKey_eq_dec : EqDecision SigKey.
Proof. solve_decision. Defined.

Definition SigKey_empty : SigKey := mkSigKey [] [].

(** [key1 == key2] and [key1 != key2]. *)
Definition SigKey_eqb (key1 key2 : SigKey) : bool :=
  bool_decide (S0 key1 = S0 key2) && bool_decide (S1 key1 = S1 key2).
Definition SigKey_neqb (key1 key2 : SigKey) : bool :=
  bool_decide (S0 key1 <> S0 key2) || bool_decide (S1 key1 <> S1 key2).

Definition key_length_error (what : string) (key : SigKey) : exn :=
  runtime_error (what +:+ ", invalid signature key length (S0: " +:+ pretty (length (S0 key))
    +:+ ", S1: " +:+ pretty (length (S1 key)) +:+ ")").

Definition SigKey_to_string (sigkey : SigKey) : outcome string :=
  if negb (length (S0 sigkey) =? KEY_LEN_) || negb (length (S1 sigkey) =? KEY_LEN_)
  then Throw (key_length_error "Cannot convert SigKey to string" sigkey)
  else
    j ← foldM (fun j i =>
          k0 ← read (S0 sigkey) i;
          j ← jset_push j "S0" (JStr k0);
          k1 ← read (S1 sigkey) i;
          jset_push j "S1" (JStr k1)) JNull (seq 0 KEY_LEN_);
    jdump j.

(** The length test looks at ["S0"] twice, and its message at the empty result. *)
Definition SigKey_from_json (j : json) : outcome SigKey :=
  s0 ← jat j "S0";
  s0' ← jat j "S0";
  if negb (jsize s0 =? KEY_LEN_) || negb (jsize s0' =? KEY_LEN_)
  then Throw (key_length_error "Cannot convert string to SigKey" SigKey_empty)
  else
    foldM (fun key i =>
      a ← jat j "S0"; x ← jindex a i; k0 ← jget_string x;
      b ← jat j "S1"; y ← jindex b i; k1 ← jget_string y;
      Ok (mkSigKey (S0 key ++ [k0]) (S1 key ++ [k1]))) SigKey_empty (seq 0 KEY_LEN_).

Definition SigKey_from_string (sigkey_string : string) : outcome SigKey :=
  j ← jparse sigkey_string; SigKey_from_json j.

(** [sigkey.S0[0]] of an empty key is undefined behaviour. *)
Definition print_SigKey (sigkey : SigKey) : outcome string :=
  k0 ← read (S0 sigkey) 0;
  k1 ← read (S1 sigkey) 0;
  Ok ("S0: " +:+ String.substring 0 10 k0 +:+ "... S1: " +:+ String.substring 0 10 k1 +:+ "...").

(** * The random device *)

(** [/dev/urandom]: the [k]-th time it is opened it fails ([None]) or yields, byte by byte, what
    [read] returns ([None] for an error). *)
Definition device := nat -> option (nat -> option Z).

Fixpoint random_bytes (reads : nat -> option Z) (n : nat) (buf : bitset) : outcome bitset :=
  match n with
  | O => Ok buf
  | S n' =>
      buf ← random_bytes reads n' buf;
      match reads n' with
      | None => Throw (runtime_error "Failed to read from /dev/urandom")
      | Some temp_buf =>
          Ok (foldl (fun buf bit => <[8 * n' + bit := Z.testbit temp_buf (Z.of_nat bit)]> buf)
                buf (seq 0 8))
      end
  end.

Definition getRandomBits (dev : device) (k : nat) : outcome bitset :=
  match dev k with
  | None => Throw (runtime_error "Failed to open /dev/urandom")
  | Some reads => random_bytes reads (KEY_LEN_ / 8) bitset_zero
  end.

Section WithHash.
Context `{Hash}.

(** * The [Signature] singleton and key generation *)

Record Signature := mkSignature { public_key_ : SigKey; private_key_ : SigKey }.

Definition push_key (key : SigKey) (k0 k1 : string) : SigKey :=
  mkSigKey (S0 key ++ [k0]) (S1 key ++ [k1]).

(** Both random strings of one position, then the four [push_back]s. *)
Definition KeyGen_step (dev : device) (i : nat) (s : Signature) : outcome Signature :=
  bits0 ← getRandomBits dev (2 * i);
  let K0 := bitset_to_string bits0 in
  bits1 ← getRandomBits dev (2 * i + 1);
  let K1 := bitset_to_string bits1 in
  Ok (mkSignature (push_key (public_key_ s) (hash K0) (hash K1)) (push_key (private_key_ s) K0 K1)).

(** [KeyGen]: the state it leaves, also when it throws, and its result.  [dev] is the device from
    its next opening on. *)
Fixpoint KeyGen_loop (dev : device) (i n : nat) (s : Signature) : Signature * outcome Z :=
  match n with
  | O => (s, Ok 1%Z)
  | S n' =>
      match KeyGen_step dev i s with
      | Ok s' => KeyGen_loop dev (S i) n' s'
      | Throw e => (s, Throw e)
      | Undef u => (s, Undef u)
      | Unmodelled => (s, Unmodelled)
      end
  end.

Definition KeyGen (dev : device) (s : Signature) : Signature * outcome Z :=
  KeyGen_loop dev 0 KEY_LEN_ (mkSignature SigKey_empty SigKey_empty).

(** * Signing and verification *)

(** [if (m.size() > 32) m = m.substr(0, 32)]. *)
Definition crop (m : string) : string :=
  if KEY_LEN_ / 8 <? String.length m then String.substring 0 (KEY_LEN_ / 8) m else m.

Definition Sign (m : string) (private_key : SigKey) : outcome (list string) :=
  if negb (length (S0 private_key) =? KEY_LEN_) || negb (length (S1 private_key) =? KEY_LEN_)
  then Ok []
  else
    m_bits ← string_to_bitset (crop m);
    outcome_mapM (fun i => if nth i m_bits false then read (S1 private_key) i
                           else read (S0 private_key) i) (seq 0 KEY_LEN_).

(** The comparison loop from position [i] on, [n] positions left. *)
Fixpoint Verify_loop (m_bits : bitset) (sig : list string) (public_key : SigKey) (i n : nat)
    : outcome Z :=
  match n with
  | O => Ok 1%Z
  | S n' =>
      k_i ← (if nth i m_bits false then read (S1 public_key) i else read (S0 public_key) i);
      s_i ← read sig i;
      if bool_decide (k_i = hash s_i) then Verify_loop m_bits sig public_key (S i) n'
      else Ok 0%Z
  end.

(** -1: a key or the signature has the wrong length; 0: it does not verify; 1: it does. *)
Definition Verify (m : string) (sig : list string) (public_key : SigKey) : outcome Z :=
  if negb (length (S0 public_key) =? KEY_LEN_) || negb (length (S1 public_key) =? KEY_LEN_)
     || negb (length sig =? KEY_LEN_)
  then Ok (-1)%Z
  else
    m_bits ← string_to_bitset (crop m);
    Verify_loop m_bits sig public_key 0 KEY_LEN_.

End WithHash.

(** * Bit sets and strings *)

(** The bits of a character, lowest first, and of a string, padded with zeros. *)
Definition char_bits (c : ascii) : list bool :=
  map (fun j => Z.testbit (Z.of_N (N_of_ascii c)) (Z.of_nat j)) (seq 0 8).
Definition text_bits (s : string) : list bool :=
  flat_map char_bits (String.list_ascii_of_string s).
Definition bits_of (s : string) : bitset :=
  text_bits s ++ repeat false (KEY_LEN_ - length (text_bits s)).

Lemma text_bits_length s : length (text_bits s) = 8 * String.length s.
Proof.
  unfold text_bits. induction s as [|c s IH]; [done|].
  cbn [String.list_ascii_of_string flat_map String.length]. rewrite length_app, IH. cbn. lia.
Qed.

Lemma bits_of_length s : String.length s <= 32 -> length (bits_of s) = KEY_LEN_.
Proof.
  intros Hs. unfold bits_of. rewrite length_app, repeat_length, text_bits_length.
  unfold KEY_LEN_. lia.
Qed.

(** Writing bits one after the other, as both loops do. *)
Definition set_bits (st : bitset * nat) (bs : list bool) : outcome (bitset * nat) :=
  foldM (fun st b => bits ← bitset_set st.1 st.2 b; Ok (bits, S st.2)) st bs.

Lemma bitset_set_spec bits i b :
  bitset_set bits i b = if decide (i < KEY_LEN_) then Ok (<[i := b]> bits) else Undef out_of_bounds.
Proof. unfold bitset_set. by destruct (Nat.ltb_spec i KEY_LEN_), (decide (i < KEY_LEN_)); try lia. Qed.

Lemma set_bits_cons bits i b bs :
  set_bits (bits, i) (b :: bs) =
  if decide (i < KEY_LEN_) then set_bits (<[i := b]> bits, S i) bs else Undef out_of_bounds.
Proof.
  unfold set_bits. cbn [foldM fst snd]. rewrite bitset_set_spec. by destruct (decide _).
Qed.

Lemma set_bits_ok bs : forall pre, length pre + length bs <= KEY_LEN_ ->
  set_bits (pre ++ repeat false (KEY_LEN_ - length pre), length pre) bs
  = Ok ((pre ++ bs) ++ repeat false (KEY_LEN_ - length (pre ++ bs)), length (pre ++ bs)).
Proof.
  induction bs as [|b bs IH]; intros pre Hl; [by rewrite app_nil_r|]. cbn [length] in Hl.
  rewrite set_bits_cons, decide_True by lia.
  replace (KEY_LEN_ - length pre) with (S (KEY_LEN_ - S (length pre))) by lia.
  rewrite insert_app_r_alt, Nat.sub_diag by lia. cbn [repeat].
  specialize (IH (pre ++ [b])). rewrite length_app, Nat.add_1_r, <- !app_assoc in IH.
  cbn [app length] in IH. rewrite <- app_assoc. apply IH. lia.
Qed.

Lemma set_bits_overflow bs : forall bits i, i <= KEY_LEN_ -> KEY_LEN_ < i + length bs ->
  set_bits (bits, i) bs = Undef out_of_bounds.
Proof.
  induction bs as [|b bs IH]; intros bits i Hi Hl; cbn in Hl; [lia|].
  rewrite set_bits_cons. destruct (decide (i < KEY_LEN_)); [|done]. apply IH; lia.
Qed.

Lemma set_bytes_bits cs st : foldM set_byte st cs = set_bits st (flat_map char_bits cs).
Proof.
  unfold set_bits. revert st. induction cs as [|c cs IH]; intros st; [done|].
  cbn [foldM flat_map]. rewrite foldM_app.
  assert (set_byte st c = set_bits st (char_bits c)) as ->.
  { unfold set_bits, char_bits. by rewrite foldM_map. }
  unfold set_bits at 1. destruct (foldM _ st (char_bits c)); cbn [mbind outcome_bind]; [apply IH|done..].
Qed.

(** [string_to_bitset] on every string. *)
Lemma string_to_bitset_spec s :
  string_to_bitset s = if String.length s <=? 32 then Ok (bits_of s) else Undef out_of_bounds.
Proof.
  unfold string_to_bitset. rewrite set_bytes_bits. fold (text_bits s).
  pose proof (text_bits_length s) as Hl. destruct (Nat.leb_spec (String.length s) 32).
  - pose proof (set_bits_ok (text_bits s) []) as Hs. cbn [length app] in Hs.
    rewrite Nat.sub_0_r in Hs. unfold bitset_zero. rewrite Hs by (unfold KEY_LEN_; lia). done.
  - rewrite set_bits_overflow; [done|lia|]. unfold KEY_LEN_. lia.
Qed.

(** ** Back to strings *)

Lemma byte_at_char c rest : byte_at (char_bits c ++ rest) 0 = code c.
Proof. destruct c as [[] [] [] [] [] [] [] []]; reflexivity. Qed.

Lemma byte_at_shift c rest i : byte_at (char_bits c ++ rest) (8 + i) = byte_at rest i.
Proof. reflexivity. Qed.

Lemma bytes_at cs rest :
  map (fun k => byte_at (flat_map char_bits cs ++ rest) (8 * k)) (seq 0 (length cs))
  = map code cs.
Proof.
  induction cs as [|c cs IH]; [done|]. cbn [flat_map length seq map]. f_equal.
  - rewrite <- app_assoc. apply byte_at_char.
  - rewrite <- seq_shift, map_map, <- IH. apply map_ext. intros k.
    rewrite <- app_assoc. replace (8 * S k) with (8 + 8 * k) by lia. apply byte_at_shift.
Qed.

Lemma string_of_codes s : string_of_bytes (map code (String.list_ascii_of_string s)) = s.
Proof.
  unfold string_of_bytes. rewrite map_map.
  rewrite (map_ext _ id), map_id, String.string_of_list_ascii_of_string; [done|].
  intros c. unfold code. by rewrite N2Z.id, ascii_N_embedding.
Qed.

Lemma list_ascii_length s : length (String.list_ascii_of_string s) = String.length s.
Proof. induction s; cbn; auto. Qed.

Lemma bitset_to_string_bits_of s : String.length s = 32 -> bitset_to_string (bits_of s) = s.
Proof.
  intros Hs. unfold bitset_to_string, bits_of, text_bits. change (KEY_LEN_ / 8) with 32.
  rewrite <- Hs, <- list_ascii_length. rewrite bytes_at. apply string_of_codes.
Qed.

Lemma bitset_to_string_length bits : String.length (bitset_to_string bits) = 32.
Proof. reflexivity. Qed.

(** Printing the bits of a set and reading them back. *)
Lemma bitset_parse_print bits : length bits = KEY_LEN_ -> bitset_parse (bitset_print bits) = Ok bits.
Proof.
  intros Hl. unfold bitset_parse, bitset_print. rewrite String.list_ascii_of_string_of_list_ascii.
  rewrite outcome_mapM_map, (outcome_mapM_ok _ id), map_id.
  - cbn. rewrite take_ge, rev_involutive, Hl, Nat.sub_diag by (rewrite length_rev; lia).
    cbn. by rewrite app_nil_r.
  - apply Forall_forall. by intros [] _.
Qed.

Lemma bitset_print_utf8 bits : utf8_valid [] (bitset_print bits) = true.
Proof.
  apply utf8_valid_ascii. unfold bitset_print. rewrite String.list_ascii_of_string_of_list_ascii.
  apply Forall_map, Forall_forall. by intros [] _.
Qed.

(** * The text of a signature *)

Lemma signature_to_json_ok sig :
  Forall (fun s => String.length s <= 32) sig ->
  signature_to_json sig = jdump (jarr (map (fun s => JStr (bitset_print (bits_of s))) sig)).
Proof.
  intros Hl. unfold signature_to_json.
  rewrite (foldM_ext _ (fun j s => v ← (bits ← string_to_bitset s; Ok (JStr (bitset_print bits)));
                                   jpush j v)).
  - change JNull with (jarr []). rewrite foldM_jpush.
    rewrite (outcome_mapM_ok _ (fun s => JStr (bitset_print (bits_of s)))); [done|].
    eapply Forall_impl; [exact Hl|]. intros s Hs. cbn beta in *. rewrite string_to_bitset_spec.
    by rewrite (proj2 (Nat.leb_le _ _) Hs).
  - intros j s. by destruct (string_to_bitset s).
Qed.

Lemma signature_text sig :
  Forall (fun s => String.length s = 32) sig ->
  text_roundtrip (signature_to_json sig) json_to_string sig.
Proof.
  intros Hl. unfold text_roundtrip. rewrite signature_to_json_ok.
  2: { eapply Forall_impl; [exact Hl|]. cbn. lia. }
  set (vs := map _ sig).
  assert (Hwf : json_wf (jarr vs) = true).
  { rewrite json_wf_jarr. apply forallb_forall. intros v Hv. by apply in_map_iff in Hv as (s & <- & _). }
  destruct (jdump_total None (jarr vs) Hwf) as (text & Ht & Hp & _ & Hu).
  { rewrite json_utf8_jarr. apply forallb_forall. intros v Hv.
    apply in_map_iff in Hv as (s & <- & _). apply bitset_print_utf8. }
  exists text. split_and!; [exact Ht| |done]. unfold json_to_string. rewrite Hp.
  cbn [mbind outcome_bind].
  rewrite jelems_jarr. subst vs. rewrite outcome_mapM_map, (outcome_mapM_ok _ id), map_id; [done|].
  eapply Forall_impl; [exact Hl|]. intros s Hs. cbn beta in Hs. cbn [jget_string mbind outcome_bind].
  rewrite bitset_parse_print by (apply bits_of_length; lia).
  cbn [mbind outcome_bind]. unfold id. by rewrite bitset_to_string_bits_of.
Qed.

(** A signature of 32-byte strings survives its transport as JSON text. *)
Theorem signature_json_roundtrip (sig : list string) :
  Forall (fun s => String.length s = 32) sig ->
  exists text, signature_to_json sig = Ok text /\ json_to_string text = Ok sig.
Proof. intros Hl. destruct (signature_text sig Hl) as (text & Ht & Hf & _). eauto. Qed.

Lemma signature_json_roundtrip_witness :
  let sig := ["0123456789abcdef0123456789abcdef"; "abcdef0123456789abcdef0123456789"] in
  exists text, signature_to_json sig = Ok text /\ json_to_string text = Ok sig.
Proof. apply signature_json_roundtrip. repeat constructor. Defined.

(** * The text of a key *)

(** Computes the monad and the conversions, and nothing else. *)
Ltac cbn_out :=
  cbn [option_map default from_option jget_string mbind outcome_bind id Signature.S0 Signature.S1].

Definition key_json (l0 l1 : list json) : json := JObj [("S0", JArr l0); ("S1", JArr l1)].

Lemma key_json_S0 l0 l1 : jat (key_json l0 l1) "S0" = Ok (JArr l0).
Proof. reflexivity. Qed.
Lemma key_json_S1 l0 l1 : jat (key_json l0 l1) "S1" = Ok (JArr l1).
Proof. reflexivity. Qed.

Lemma take_S_snoc {A} (l : list A) n x : l !! n = Some x -> take (S n) l = take n l ++ [x].
Proof. apply take_S_r. Qed.

(** The loop that pushes both strings of every position. *)
Lemma SigKey_to_string_ok key :
  length (S0 key) = KEY_LEN_ -> length (S1 key) = KEY_LEN_ ->
  SigKey_to_string key = jdump (key_json (map JStr (S0 key)) (map JStr (S1 key))).
Proof.
  intros H0 H1. unfold SigKey_to_string. rewrite H0, H1, Nat.eqb_refl. cbn [negb orb].
  set (body := fun (j : json) (i : nat) => _).
  assert (Hn : forall n, n <= KEY_LEN_ -> foldM body JNull (seq 0 n) =
    Ok (match n with O => JNull | _ => key_json (map JStr (take n (S0 key))) (map JStr (take n (S1 key))) end)).
  { induction n as [|n IH]; intros Hn; [done|]. rewrite seq_S, foldM_snoc, IH by lia.
    cbn [mbind outcome_bind]. rewrite Nat.add_0_l. unfold body.
    destruct (lookup_lt_is_Some_2 (S0 key) n) as [x Hx]; [lia|].
    destruct (lookup_lt_is_Some_2 (S1 key) n) as [y Hy]; [lia|].
    rewrite (read_ok _ _ _ Hx). cbn [mbind outcome_bind]. rewrite (read_ok _ _ _ Hy).
    rewrite (take_S_snoc _ _ _ Hx), (take_S_snoc _ _ _ Hy).
    rewrite !map_app. destruct n as [|n]; reflexivity. }
  rewrite Hn by done.
  rewrite !take_ge by lia. reflexivity.
Qed.

(** Reading a key from the value it was written as, and from values of other lengths. *)
Lemma SigKey_from_json_spec l0 l1 :
  length l0 = KEY_LEN_ ->
  SigKey_from_json (key_json (map JStr l0) (map JStr l1)) =
  if KEY_LEN_ <=? length l1 then Ok (mkSigKey l0 (take KEY_LEN_ l1))
  else Throw (json_type_error 302).
Proof.
  intros H0. unfold SigKey_from_json. rewrite key_json_S0, key_json_S1. cbn [jsize mbind outcome_bind].
  rewrite length_map, H0, Nat.eqb_refl. cbn [negb orb].
  set (body := fun (key : SigKey) (i : nat) => _).
  assert (Hn : forall n, n <= KEY_LEN_ -> foldM body SigKey_empty (seq 0 n) =
    if n <=? length l1 then Ok (mkSigKey (take n l0) (take n l1)) else Throw (json_type_error 302)).
  { induction n as [|n IH]; intros Hn; [done|]. rewrite seq_S, foldM_snoc, IH by lia.
    destruct (lookup_lt_is_Some_2 l0 n) as [x Hx]; [lia|].
    destruct (Nat.leb_spec n (length l1)) as [Hl|Hl]; cbn [mbind outcome_bind].
    2: { destruct (Nat.leb_spec (S n) (length l1)); [lia|done]. }
    rewrite Nat.add_0_l. unfold body.
    cbn [jindex mbind outcome_bind].
    rewrite !list_lookup_map, Hx. cbn_out.
    destruct (l1 !! n) as [y|] eqn:Hy.
    - cbn_out. pose proof (lookup_lt_Some _ _ _ Hy).
      destruct (Nat.leb_spec (S n) (length l1)); [|lia].
      by rewrite (take_S_snoc _ _ _ Hx), (take_S_snoc _ _ _ Hy).
    - cbn_out. apply lookup_ge_None in Hy.
      destruct (Nat.leb_spec (S n) (length l1)); [lia|done]. }
  rewrite Hn by done. by rewrite (take_ge l0) by lia.
Qed.

Lemma SigKey_text key :
  length (S0 key) = KEY_LEN_ -> length (S1 key) = KEY_LEN_ ->
  Forall (fun s => utf8_valid [] s = true) (S0 key ++ S1 key) ->
  text_roundtrip (SigKey_to_string key) SigKey_from_string key.
Proof.
  intros H0 H1 Hu. unfold text_roundtrip. rewrite SigKey_to_string_ok by done.
  apply Forall_app in Hu as [Hu0 Hu1]. set (j := key_json _ _).
  assert (Hutf : json_utf8 j = true).
  { cbn. rewrite !andb_true_r. apply andb_true_intro. rewrite Forall_forall in Hu0, Hu1.
    split; apply forallb_forall; intros v Hv; apply in_map_iff in Hv as (s & <- & Hs);
      [apply Hu0|apply Hu1]; by apply list_elem_of_In. }
  assert (Hwf : json_wf j = true).
  { assert (Hw : forall l, forallb json_wf (map JStr l) = true) by (induction l; auto).
    cbn. by rewrite !Hw. }
  destruct (jdump_total None j Hwf Hutf) as (text & Ht & Hp & _ & Hu).
  exists text. split_and!; [exact Ht| |done].
  unfold SigKey_from_string. rewrite Hp. cbn [mbind outcome_bind].
  unfold j. rewrite SigKey_from_json_spec by done. rewrite H1, Nat.leb_refl, take_ge by lia.
  by destruct key.
Qed.

(** A key of the right length whose strings are UTF-8 (every public key: its strings are
    hexadecimal) is read back from its text. *)
Theorem SigKey_roundtrip (key : SigKey) :
  length (S0 key) = KEY_LEN_ -> length (S1 key) = KEY_LEN_ ->
  Forall (fun s => utf8_valid [] s = true) (S0 key ++ S1 key) ->
  exists text, SigKey_to_string key = Ok text /\ SigKey_from_string text = Ok key.
Proof.
  intros H0 H1 Hu. destruct (SigKey_text key H0 H1 Hu) as (text & Ht & Hf & _). eauto.
Qed.

Lemma SigKey_roundtrip_witness :
  let key := mkSigKey (repeat "00ff" 256) (repeat "a" 256) in
  exists text, SigKey_to_string key = Ok text /\ SigKey_from_string text = Ok key.
Proof.
  apply SigKey_roundtrip; [reflexivity|reflexivity|].
  apply Forall_app. split; apply Forall_forall; intros s Hs;
    apply list_elem_of_In, repeat_spec in Hs as ->; reflexivity.
Defined.

(** Reading a key checks the number of strings of its first half only: a second half that is
    too long is truncated, and one that is too short is a JSON type error instead of the
    length error. *)
Theorem SigKey_from_string_lengths (text : string) (l0 l1 : list string) :
  jparse text = Ok (key_json (map JStr l0) (map JStr l1)) ->
  SigKey_from_string text =
    if length l0 =? KEY_LEN_ then
      if KEY_LEN_ <=? length l1 then Ok (mkSigKey l0 (take KEY_LEN_ l1))
      else Throw (json_type_error 302)
    else Throw (key_length_error "Cannot convert string to SigKey" SigKey_empty).
Proof.
  intros Hj. unfold SigKey_from_string. rewrite Hj. cbn [mbind outcome_bind].
  destruct (Nat.eqb_spec (length l0) KEY_LEN_) as [Hl|Hl]; [by apply SigKey_from_json_spec|].
  unfold SigKey_from_json. rewrite key_json_S0. cbn [mbind outcome_bind jsize].
  rewrite length_map. by rewrite (proj2 (Nat.eqb_neq _ _) Hl).
Qed.

Lemma SigKey_from_string_lengths_witness :
  let text := string_of_bytes
    (map code (match jdump (key_json (map JStr (repeat "a" 256)) (map JStr ["b"])) with
               | Ok t => String.list_ascii_of_string t | _ => [] end)) in
  SigKey_from_string text = Throw (json_type_error 302).
Proof.
  intros text. rewrite (SigKey_from_string_lengths text (repeat "a" 256) ["b"]);
    vm_compute; reflexivity.
Defined.

(** * Messages *)

Lemma substring_take n s :
  String.list_ascii_of_string (String.substring 0 n s) = take n (String.list_ascii_of_string s).
Proof.
  revert s. induction n as [|n IH]; intros [|c s]; cbn; [done..|]. by rewrite <- IH.
Qed.

Lemma crop_length m : String.length (crop m) <= 32.
Proof.
  unfold crop. change (KEY_LEN_ / 8) with 32. destruct (Nat.ltb_spec 32 (String.length m)); [|lia].
  rewrite <- list_ascii_length, substring_take, length_take. lia.
Qed.

(** The 256 bits of a message that signatures look at. *)
Definition msg_bits (m : string) : bitset := bits_of (crop m).
Definition msg_bit (m : string) (i : nat) : bool := nth i (msg_bits m) false.

Lemma string_to_bitset_crop m : string_to_bitset (crop m) = Ok (msg_bits m).
Proof. rewrite string_to_bitset_spec, (proj2 (Nat.leb_le _ _) (crop_length m)). done. Qed.

(** The half of a key a bit selects. *)
Definition half (key : SigKey) (b : bool) : list string := if b then S1 key else S0 key.

Definition full_key (key : SigKey) : Prop :=
  length (S0 key) = KEY_LEN_ /\ length (S1 key) = KEY_LEN_.

#[export] Instance full_key_dec key : Decision (full_key key).
Proof. unfold full_key. apply _. Defined.

Lemma half_length key b : full_key key -> length (half key b) = KEY_LEN_.
Proof. intros []. by destruct b. Qed.

Lemma full_key_test key : full_key key ->
  negb (length (S0 key) =? KEY_LEN_) || negb (length (S1 key) =? KEY_LEN_) = false.
Proof. intros [-> ->]. by rewrite Nat.eqb_refl. Qed.

Lemma not_full_key_test key : ~ full_key key ->
  negb (length (S0 key) =? KEY_LEN_) || negb (length (S1 key) =? KEY_LEN_) = true.
Proof.
  intros Hn. destruct (Nat.eqb_spec (length (S0 key)) KEY_LEN_) as [E|]; [|done].
  destruct (Nat.eqb_spec (length (S1 key)) KEY_LEN_); [|done]. by destruct Hn.
Qed.

(** What [Sign] returns, position by position. *)
Lemma Sign_spec m sk : full_key sk ->
  exists sig, Sign m sk = Ok sig /\ length sig = KEY_LEN_ /\
    forall i, i < KEY_LEN_ -> sig !! i = half sk (msg_bit m i) !! i.
Proof.
  intros Hk. unfold Sign. rewrite full_key_test, string_to_bitset_crop by done.
  cbn [mbind outcome_bind].
  rewrite (outcome_mapM_ok _ (fun i => nth i (half sk (msg_bit m i)) "")).
  - eexists. split; [done|]. rewrite length_map, length_seq. split; [done|].
    intros i Hi. rewrite list_lookup_map. rewrite lookup_seq_lt by done. cbn.
    symmetry. apply lookup_nth. by rewrite half_length.
  - apply Forall_forall. intros i Hi. apply elem_of_seq in Hi.
    fold (msg_bit m i). unfold half.
    destruct (msg_bit m i); apply read_ok, lookup_nth; destruct Hk; lia.
Qed.

Section Verification.
Context `{Hash}.

(** Position [i] of the signature matches the bit of the message. *)
Definition matches (bits : bitset) (sig : list string) (pk : SigKey) (i : nat) : Prop :=
  exists s, sig !! i = Some s /\ half pk (nth i bits false) !! i = Some (hash s).

Lemma Verify_loop_spec bits sig pk n : forall i,
  full_key pk -> length sig = KEY_LEN_ -> i + n = KEY_LEN_ ->
  exists r, Verify_loop bits sig pk i n = Ok r /\ (r = 0%Z \/ r = 1%Z) /\
    (r = 1%Z <-> forall k, i <= k < KEY_LEN_ -> matches bits sig pk k).
Proof.
  induction n as [|n IH]; intros i Hk Hs Hn.
  { exists 1%Z. split; [done|]. split; [by right|]. split; [lia|done]. }
  cbn [Verify_loop].
  destruct (lookup_lt_is_Some_2 (half pk (nth i bits false)) i) as [k Hki];
    [rewrite half_length by done; lia|].
  destruct (lookup_lt_is_Some_2 sig i) as [s Hsi]; [lia|].
  assert ((if nth i bits false then read (S1 pk) i else read (S0 pk) i) = Ok k) as ->.
  { unfold half in Hki. destruct (nth i bits false); by apply read_ok. }
  rewrite (read_ok _ _ _ Hsi). cbn [mbind outcome_bind]. case_bool_decide as He.
  - destruct (IH (S i)) as (r & -> & Hr & Hiff); [done..|lia|].
    exists r. split; [done|]. split; [done|]. rewrite Hiff. split; intros Hm k' Hk'.
    + destruct (decide (k' = i)) as [->|]; [|apply Hm; lia]. exists s. by subst.
    + apply Hm. lia.
  - exists 0%Z. split; [done|]. split; [by left|]. split; [done|]. intros Hm.
    destruct (Hm i) as (s' & Hs' & Hk'); [lia|]. simplify_eq.
Qed.

Lemma Verify_iff m sig pk :
  (~ (full_key pk /\ length sig = KEY_LEN_) -> Verify m sig pk = Ok (-1)%Z) /\
  (full_key pk -> length sig = KEY_LEN_ ->
   (Verify m sig pk = Ok 0%Z \/ Verify m sig pk = Ok 1%Z) /\
   (Verify m sig pk = Ok 1%Z <->
    forall i, i < KEY_LEN_ -> matches (msg_bits m) sig pk i)).
Proof.
  unfold Verify. split.
  - intros Hn. destruct (Nat.eqb_spec (length sig) KEY_LEN_).
    + rewrite not_full_key_test; [done|]. intros Hf. by apply Hn.
    + by rewrite orb_true_r.
  - intros Hk Hl. rewrite full_key_test, Hl, Nat.eqb_refl, string_to_bitset_crop by done.
    cbn [negb orb mbind outcome_bind].
    destruct (Verify_loop_spec (msg_bits m) sig pk KEY_LEN_ 0) as (r & -> & Hr & Hiff); [done..|].
    split; [by destruct Hr as [-> | ->]; auto|]. split.
    + intros [= ->] i Hi. apply Hiff; [done|lia].
    + intros Hm. rewrite (proj2 Hiff); [done|]. intros k Hkk. apply Hm. lia.
Qed.

(** The keys [KeyGen] produces. *)
Definition key_pair (pk sk : SigKey) : Prop :=
  full_key sk /\ S0 pk = map hash (S0 sk) /\ S1 pk = map hash (S1 sk).

Lemma key_pair_half pk sk b i :
  key_pair pk sk -> half pk b !! i = option_map hash (half sk b !! i).
Proof. intros (_ & E0 & E1). unfold half. rewrite E0, E1. destruct b; apply list_lookup_map. Qed.

Lemma key_pair_full pk sk : key_pair pk sk -> full_key pk.
Proof. intros ([F0 F1] & E0 & E1). unfold full_key. by rewrite E0, E1, !length_map. Qed.

Lemma sign_verify m pk sk : key_pair pk sk ->
  exists sig, Sign m sk = Ok sig /\ Verify m sig pk = Ok 1%Z.
Proof.
  intros Hp. destruct (Sign_spec m sk) as (sig & Hs & Hl & Hi); [by destruct Hp|].
  exists sig. split; [done|]. apply Verify_iff; [by eapply key_pair_full|done|].
  intros i Hlt. destruct (lookup_lt_is_Some_2 sig i) as [s Hsi]; [lia|].
  exists s. split; [done|]. rewrite (key_pair_half pk sk) by done.
  fold (msg_bit m i). by rewrite <- (Hi i Hlt), Hsi.
Qed.
End Verification.

(** * Key generation *)

Section Generation.
Context `{Hash}.

(** The keys after [n] positions: matching halves, the secrets 32 bytes each. *)
Definition generated (n : nat) (s : Signature) : Prop :=
  let sk := private_key_ s in
  length (S0 sk) = n /\ length (S1 sk) = n /\
  S0 (public_key_ s) = map hash (S0 sk) /\ S1 (public_key_ s) = map hash (S1 sk) /\
  Forall (fun k => String.length k = 32) (S0 sk ++ S1 sk).

Lemma random_bytes_outcome reads n buf :
  match random_bytes reads n buf with Ok _ => True
  | Throw e => e = runtime_error "Failed to read from /dev/urandom" | _ => False end.
Proof.
  induction n as [|n IH]; [done|]. cbn [random_bytes].
  destruct (random_bytes reads n buf); cbn; [|done..]. by destruct (reads n).
Qed.

Definition device_error (e : exn) : Prop :=
  e = runtime_error "Failed to open /dev/urandom" \/
  e = runtime_error "Failed to read from /dev/urandom".

Lemma getRandomBits_outcome dev k :
  match getRandomBits dev k with Ok _ => True | Throw e => device_error e | _ => False end.
Proof.
  unfold getRandomBits, device_error. destruct (dev k) as [reads|]; [|by left].
  pose proof (random_bytes_outcome reads (KEY_LEN_ / 8) bitset_zero) as Hr.
  destruct (random_bytes _ _ _); auto.
Qed.

Lemma KeyGen_step_outcome dev i n s : generated n s ->
  match KeyGen_step dev i s with
  | Ok s' => generated (S n) s' | Throw e => device_error e | _ => False end.
Proof.
  intros (L0 & L1 & P0 & P1 & Hlen). unfold KeyGen_step.
  pose proof (getRandomBits_outcome dev (2 * i)) as R0.
  destruct (getRandomBits dev (2 * i)) as [b0| | |]; cbn [mbind outcome_bind]; [|done..].
  pose proof (getRandomBits_outcome dev (2 * i + 1)) as R1.
  destruct (getRandomBits dev (2 * i + 1)) as [b1| | |]; cbn [mbind outcome_bind]; [|done..].
  unfold generated, push_key. cbn [public_key_ private_key_ S0 S1].
  rewrite !length_app, !map_app, P0, P1, L0, L1. cbn [length map].
  apply Forall_app in Hlen as [H0 H1].
  split_and!; [lia|lia|done|done|].
  rewrite !Forall_app, !Forall_singleton. by split_and!; rewrite ?bitset_to_string_length.
Qed.

Lemma KeyGen_loop_outcome dev n : forall i s, generated i s ->
  match KeyGen_loop dev i n s with
  | (s', Ok r) => r = 1%Z /\ generated (i + n) s'
  | (s', Throw e) => device_error e /\ exists k, k < i + n /\ generated k s'
  | _ => False
  end.
Proof.
  induction n as [|n IH]; intros i s Hg; cbn [KeyGen_loop]; [by rewrite Nat.add_0_r|].
  pose proof (KeyGen_step_outcome dev i i s Hg) as Hs.
  destruct (KeyGen_step dev i s) as [s'|e| |]; [|split; [done|exists i; split; [lia|done]]|done..].
  specialize (IH (S i) s' Hs).
  destruct (KeyGen_loop dev (S i) n s') as [s2 [r|e| |]]; rewrite ?Nat.add_succ_r; auto.
Qed.

Lemma KeyGen_outcome dev s0 :
  match KeyGen dev s0 with
  | (s, Ok r) => r = 1%Z /\ generated KEY_LEN_ s
  | (s, Throw e) => device_error e /\ exists k, k < KEY_LEN_ /\ generated k s
  | _ => False
  end.
Proof. apply (KeyGen_loop_outcome dev KEY_LEN_ 0). by split_and!. Qed.

(** With a device that works, keys are generated. *)
Lemma KeyGen_total dev s0 :
  (forall k, exists reads, dev k = Some reads /\ forall i, reads i <> None) ->
  exists s, KeyGen dev s0 = (s, Ok 1%Z).
Proof.
  intros Hd.
  assert (Hr : forall reads n buf, (forall i, reads i <> None) -> exists b, random_bytes reads n buf = Ok b).
  { intros reads n buf Hi. induction n as [|n [b Hb]]; [by eexists|]. cbn [random_bytes]. rewrite Hb.
    cbn [mbind outcome_bind]. specialize (Hi n). destruct (reads n); [by eexists|done]. }
  assert (Hg : forall k, exists b, getRandomBits dev k = Ok b).
  { intros k. unfold getRandomBits. destruct (Hd k) as (reads & -> & Hi). by apply Hr. }
  unfold KeyGen. generalize (mkSignature SigKey_empty SigKey_empty). generalize 0.
  induction KEY_LEN_ as [|n IH]; intros i s; [by eexists|]. cbn [KeyGen_loop]. unfold KeyGen_step.
  destruct (Hg (2 * i)) as [b0 ->]. destruct (Hg (2 * i + 1)) as [b1 ->]. apply IH.
Qed.

Lemma generated_pair s : generated KEY_LEN_ s -> key_pair (public_key_ s) (private_key_ s).
Proof. intros (L0 & L1 & P0 & P1 & _). by split. Qed.

(** C31: key generation either returns 1, and then every message signed with the private key
    verifies under the public key, with a signature of 32-byte strings; or it throws because of
    the random device, and leaves halves of one length shorter than 256, with which [Sign] returns
    the empty signature and [Verify] the error code -1. *)
Theorem keygen_sign_verify (dev : device) (s0 : Signature) (m : string) :
  let '(s, r) := KeyGen dev s0 in
  match r with
  | Ok v => v = 1%Z /\ exists sig, Sign m (private_key_ s) = Ok sig /\
      Verify m sig (public_key_ s) = Ok 1%Z /\ Forall (fun x => String.length x = 32) sig
  | Throw e => device_error e /\ Sign m (private_key_ s) = Ok [] /\
      forall sig, Verify m sig (public_key_ s) = Ok (-1)%Z
  | _ => False
  end.
Proof.
  pose proof (KeyGen_loop_outcome dev KEY_LEN_ 0 (mkSignature SigKey_empty SigKey_empty)) as Hk.
  unfold KeyGen. destruct (KeyGen_loop _ _ _ _) as [s [v|e| |]]; [| |by apply Hk..].
  - destruct Hk as [-> Hg]; [by split_and!|]. split; [done|].
    pose proof (generated_pair s Hg) as Hp.
    destruct (sign_verify m _ _ Hp) as (sig & Hs & Hv). exists sig. split_and!; [done..|].
    destruct Hp as [Hf _]. destruct (Sign_spec m _ Hf) as (sig' & Hs' & Hl & Hi). rewrite Hs in Hs'. simplify_eq.
    apply Forall_lookup. intros i x Hx. pose proof (lookup_lt_Some _ _ _ Hx) as Hlt.
    rewrite (Hi i) in Hx by lia. destruct Hg as (_ & _ & _ & _ & Hlen).
    apply Forall_app in Hlen as [Hl0 Hl1].
    destruct (msg_bit m i); [exact (Forall_lookup_1 _ _ _ _ Hl1 Hx)|exact (Forall_lookup_1 _ _ _ _ Hl0 Hx)].
  - destruct Hk as [He (k & Hlt & L0 & L1 & P0 & P1 & _)]; [by split_and!|]. split; [done|].
    cbn in Hlt. split.
    + unfold Sign. rewrite not_full_key_test; [done|]. intros []. lia.
    + intros sig. apply Verify_iff. intros [[Hf _] _]. rewrite P0, length_map in Hf. lia.
Qed.

(** C36: what verification accepts: it never fails to return, gives -1 exactly for keys or
    signatures that do not have 256 strings, and otherwise 1 exactly when every string of the
    signature hashes to the string that the bit of the message selects in the key. *)
Theorem Verify_spec (m : string) (sig : list string) (pk : SigKey) :
  (Verify m sig pk = Ok (-1)%Z <-> ~ (full_key pk /\ length sig = KEY_LEN_)) /\
  (Verify m sig pk = Ok 1%Z <->
    (full_key pk /\ length sig = KEY_LEN_) /\
    forall i, i < KEY_LEN_ ->
      exists s, sig !! i = Some s /\ half pk (msg_bit m i) !! i = Some (hash s)) /\
  (Verify m sig pk = Ok (-1)%Z \/ Verify m sig pk = Ok 0%Z \/ Verify m sig pk = Ok 1%Z).
Proof.
  destruct (Verify_iff m sig pk) as [Hbad Hok].
  destruct (decide (full_key pk /\ length sig = KEY_LEN_)) as [[Hf Hl]|Hn].
  - destruct (Hok Hf Hl) as [Hr Hiff]. split_and!.
    + split; [|done]. intros E. destruct Hr as [Hr|Hr]; by rewrite Hr in E.
    + split; [intros Hv; split; [done|by apply Hiff]|]. intros [_ Hm]. by apply Hiff.
    + destruct Hr; auto.
  - specialize (Hbad Hn). rewrite Hbad. split_and!; [done| |auto].
    split; [done|]. by intros [? _].
Qed.

(** The one-time signature is as strong as the hash function: whoever has seen one signature
    and makes another message verify has inverted the hash of a secret not yet revealed, unless
    the two messages have the same 256 bits. *)
Theorem forgery_inverts (pk sk : SigKey) (m m' : string) (sig sig' : list string) :
  key_pair pk sk -> Sign m sk = Ok sig -> Verify m' sig' pk = Ok 1%Z ->
  msg_bits m <> msg_bits m' ->
  exists i s k, sig !! i = half sk (negb (msg_bit m' i)) !! i /\ sig' !! i = Some s /\
    half sk (msg_bit m' i) !! i = Some k /\ hash s = hash k.
Proof.
  intros Hp Hs0 Hv Hne.
  assert (Hex : exists i, i < KEY_LEN_ /\ msg_bit m' i <> msg_bit m i).
  { assert (Hlen : forall x, length (msg_bits x) = KEY_LEN_) by (intros; apply bits_of_length, crop_length).
    destruct (decide (Exists (fun i => msg_bit m' i <> msg_bit m i) (seq 0 KEY_LEN_))) as [Hx|Hx].
    - apply Exists_exists in Hx as (i & Hi & Hd). apply elem_of_seq in Hi. exists i. split; [lia|done].
    - destruct Hne. apply list_eq_same_length with KEY_LEN_; [done..|]. intros i x y Hi Hx' Hy'.
      destruct (decide (x = y)) as [|Hxy]; [done|]. destruct Hx. apply Exists_exists. exists i.
      split; [apply elem_of_seq; lia|]. unfold msg_bit.
      rewrite (lookup_nth _ _ false) in Hx' by (rewrite Hlen; lia).
      rewrite (lookup_nth _ _ false) in Hy' by (rewrite Hlen; lia). congruence. }
  destruct Hex as (i & Hi & Hd). pose proof (key_pair_full _ _ Hp) as Hf.
  assert (Hl : length sig' = KEY_LEN_).
  { destruct (decide (length sig' = KEY_LEN_)); [done|].
    rewrite (proj1 (Verify_iff m' sig' pk)) in Hv; [done|]. by intros [_ ?]. }
  destruct (proj1 (proj2 (proj2 (Verify_iff m' sig' pk) Hf Hl)) Hv i Hi) as (s & Hs & Hh).
  fold (msg_bit m' i) in Hh. rewrite (key_pair_half pk sk) in Hh by done.
  destruct (half sk (msg_bit m' i) !! i) as [k|] eqn:Hk; [|done]. cbn in Hh.
  destruct (Sign_spec m sk) as (sig0 & Hs1 & _ & Hsig); [by destruct Hp|].
  rewrite Hs0 in Hs1. simplify_eq. exists i, s, k. split_and!; [|done..].
  rewrite Hsig by done. by destruct (msg_bit m' i), (msg_bit m i).
Qed.

(** The positions of [m] taken from the first signature where [m] agrees with [m1], and from the
    second one elsewhere. *)
Definition mix (m m1 : string) (sig1 sig2 : list string) : list string :=
  map (fun i => if Bool.eqb (msg_bit m i) (msg_bit m1 i) then nth i sig1 "" else nth i sig2 "")
    (seq 0 KEY_LEN_).

(** A key signs once: from the signatures of two messages, and without the private key, every
    message whose bits each agree with one of the two can be signed. *)
Theorem two_signatures_forge (pk sk : SigKey) (m m1 m2 : string) (sig1 sig2 : list string) :
  key_pair pk sk -> Sign m1 sk = Ok sig1 -> Sign m2 sk = Ok sig2 ->
  (forall i, i < KEY_LEN_ -> msg_bit m i = msg_bit m1 i \/ msg_bit m i = msg_bit m2 i) ->
  Verify m (mix m m1 sig1 sig2) pk = Ok 1%Z.
Proof.
  intros Hp H1 H2 Hm. pose proof (proj1 Hp) as Hf.
  destruct (Sign_spec m1 sk Hf) as (s1 & E1 & L1 & Hi1). rewrite H1 in E1. simplify_eq.
  destruct (Sign_spec m2 sk Hf) as (s2 & E2 & L2 & Hi2). rewrite H2 in E2. simplify_eq.
  apply Verify_iff; [by eapply key_pair_full|by unfold mix; rewrite length_map, length_seq|].
  intros i Hi. unfold matches, mix. rewrite list_lookup_map, lookup_seq_lt by done.
  cbn [option_map]. rewrite Nat.add_0_l. eexists. split; [done|].
  fold (msg_bit m i). rewrite (key_pair_half pk sk) by done.
  destruct (Bool.eqb_spec (msg_bit m i) (msg_bit m1 i)) as [E|E].
  - by rewrite E, <- Hi1, (lookup_nth _ _ "") by lia.
  - destruct (Hm i Hi) as [|E']; [done|]. by rewrite E', <- Hi2, (lookup_nth _ _ "") by lia.
Qed.

Lemma bits_of_inj s t : String.length s = 32 -> String.length t = 32 -> bits_of s = bits_of t -> s = t.
Proof.
  intros Hs Ht E. rewrite <- (bitset_to_string_bits_of s), <- (bitset_to_string_bits_of t) by done.
  by rewrite E.
Qed.

Lemma crop_hash x : crop (hash x) = String.substring 0 32 (hash x).
Proof. unfold crop. by rewrite hash_length. Qed.

(** Signing a hash value binds its first 32 hexadecimal digits and nothing else: two hash
    values have the same signatures under every key exactly when they agree on them. *)
Theorem signed_hash_prefix (a b : string) :
  (forall sk, Sign (hash a) sk = Sign (hash b) sk) <->
  String.substring 0 32 (hash a) = String.substring 0 32 (hash b).
Proof.
  rewrite <- !crop_hash. split; [|intros E sk; unfold Sign; by rewrite E].
  intros Hs. set (sk := mkSigKey (repeat "0" KEY_LEN_) (repeat "1" KEY_LEN_)).
  assert (Hf : full_key sk) by (by split; apply repeat_length).
  destruct (Sign_spec (hash a) sk Hf) as (s1 & E1 & L1 & Hi1).
  destruct (Sign_spec (hash b) sk Hf) as (s2 & E2 & L2 & Hi2).
  rewrite Hs in E1. rewrite E1 in E2. simplify_eq.
  assert (Hcrop : forall x, String.length (crop (hash x)) = 32).
  { intros x. rewrite crop_hash, <- list_ascii_length, substring_take, length_take.
    rewrite list_ascii_length, hash_length. done. }
  apply bits_of_inj; [apply Hcrop..|].
  assert (Hlen : forall x, length (msg_bits x) = KEY_LEN_) by (intros; apply bits_of_length, crop_length).
  change (msg_bits (hash a) = msg_bits (hash b)). apply list_eq_same_length with KEY_LEN_; [done..|].
  intros i x y Hi Hx Hy. specialize (Hi1 i Hi). specialize (Hi2 i Hi). rewrite Hi1 in Hi2.
  unfold msg_bit, half in Hi2. rewrite (nth_lookup_Some _ _ _ _ Hx), (nth_lookup_Some _ _ _ _ Hy) in Hi2.
  assert (Hrep : forall (c : string), repeat c KEY_LEN_ !! i = Some c).
  { intros c. rewrite (lookup_nth _ _ c) by (rewrite repeat_length; lia). f_equal.
    apply nth_repeat. }
  unfold sk in Hi2. destruct x, y; cbn [S0 S1] in Hi2; rewrite ?Hrep in Hi2; done.
Qed.
End Generation.

(** A hash function cheap enough for concrete evaluations. *)
Definition test_hash : Hash.
Proof.
  refine {| hash := fun s => String.string_of_list_ascii
    (repeat (if String.eqb s "a" then "a" else "0")%char 64) |};
    intros s; destruct (String.eqb s "a"); repeat constructor.
Defined.

Definition test_sk : SigKey := mkSigKey (repeat "a" 256) (repeat "b" 256).
Definition test_pk : SigKey :=
  mkSigKey (map (@hash test_hash) (S0 test_sk)) (map (@hash test_hash) (S1 test_sk)).
Definition test_sig (m : string) : list string :=
  match Sign m test_sk with Ok sig => sig | _ => [] end.

Lemma forgery_inverts_witness :
  exists i s k, test_sig "x" !! i = half test_sk (negb (msg_bit "y" i)) !! i
    /\ test_sig "y" !! i = Some s /\ half test_sk (msg_bit "y" i) !! i = Some k /\ @hash test_hash s = @hash test_hash k.
Proof.
  apply (@forgery_inverts test_hash test_pk test_sk "x" "y" (test_sig "x") (test_sig "y"));
    [repeat split|reflexivity|vm_compute; reflexivity|vm_compute; discriminate].
Defined.

Lemma two_signatures_forge_witness :
  @Verify test_hash "C" (mix "C" "A" (test_sig "A") (test_sig "B")) test_pk = Ok 1%Z.
Proof.
  apply (@two_signatures_forge test_hash test_pk test_sk "C" "A" "B");
    [repeat split|reflexivity|reflexivity|].
  intros i Hi.
  assert (Hb : (Bool.eqb (msg_bit "C" i) (msg_bit "A" i) || Bool.eqb (msg_bit "C" i) (msg_bit "B" i)) = true).
  { revert i Hi. apply forallb_seq. vm_compute. reflexivity. }
  apply orb_true_iff in Hb as [Hb|Hb]; apply Bool.eqb_prop in Hb; auto.
Defined.
