(* ===== verification/Transaction.v ===== *)
(** Transactions (src/lib/blockchain/{input,output,transaction}.cc, src/include/blockchain/*.h):
    inputs, outputs, unspent outputs, the spending conditions, digests, and the two encodings of a
    transaction, JSON text and protocol buffers. *)
From S2P Require Import Prelude Json JsonRoundTrip Signature.
Local Open Scope Z_scope.

(** * Protocol buffer messages (src/protos/chat.proto) *)

Module chat.
Record InputMsg := mkInput { txid : Z; outputindex : Z }.
Record OutputMsg := mkOutput { value : Z; receiverid : Z }.
Record TransactionMsg := mkTransaction {
  tx_txid : Z; tx_input : list InputMsg; tx_output : list OutputMsg; tx_senderid : Z;
  tx_sendersig : list string; tx_publickey : string
}.
Record UTXOMsg := mkUTXO {
  transaction_id : Z; output_index : Z; output_value : Z; receiver_id : Z
}.
Definition UTXOlistMsg := list UTXOMsg.
(** A message just created: every field at its default. *)
Definition TransactionMsg_default : TransactionMsg := mkTransaction 0 [] [] 0 [] "".
End chat.

(** * Inputs *)

Record Input := mkInput { Input_txID : Z; Input_outputIndex : Z }.
#[export] Instance Input_eq_dec : EqDecision Input.
Proof. solve_decision. Defined.

Definition Input_from_proto (p : chat.InputMsg) : Input :=
  mkInput (chat.txid p) (chat.outputindex p).

Definition Input_eqb (a b : Input) : bool :=
  (Input_txID a =? Input_txID b) && (Input_outputIndex a =? Input_outputIndex b).
Definition Input_neqb (a b : Input) : bool :=
  negb (Input_txID a =? Input_txID b) || negb (Input_outputIndex a =? Input_outputIndex b).
Definition Input_ltb (a b : Input) : bool :=
  if Input_txID a <? Input_txID b then true
  else if Input_txID a =? Input_txID b then Input_outputIndex a <? Input_outputIndex b
  else false.
Definition Input_gtb (a b : Input) : bool :=
  if Input_txID b <? Input_txID a then true
  else if Input_txID a =? Input_txID b then Input_outputIndex b <? Input_outputIndex a
  else false.

Definition Input_to_string (i : Input) : outcome string :=
  j ← jset JNull "txID" (JInt (Input_txID i));
  j ← jset j "outputIndex" (JInt (Input_outputIndex i));
  jdump j.

Definition Input_from_string (s : string) : outcome Input :=
  j ← jparse s;
  v ← jat j "txID"; txID ← jget_int u32 v;
  v ← jat j "outputIndex"; outputIndex ← jget_u64 v;
  Ok (mkInput txID outputIndex).

(** * Outputs *)

Record Output := mkOutput { Output_value : Z; Output_receiverID : Z }.
#[export] Instance Output_eq_dec : EqDecision Output.
Proof. solve_decision. Defined.

Definition Output_from_proto (p : chat.OutputMsg) : Output :=
  mkOutput (chat.value p) (chat.receiverid p).

Definition Output_eqb (a b : Output) : bool :=
  (Output_value a =? Output_value b) && (Output_receiverID a =? Output_receiverID b).
(** Not the negation of [Output_eqb]: both fields must differ. *)
Definition Output_neqb (a b : Output) : bool :=
  negb (Output_value a =? Output_value b) && negb (Output_receiverID a =? Output_receiverID b).
Definition Output_ltb (a b : Output) : bool :=
  if Output_value a =? Output_value b then Output_receiverID a <? Output_receiverID b
  else Output_value a <? Output_value b.
Definition Output_gtb (a b : Output) : bool :=
  if Output_value a =? Output_value b then Output_receiverID b <? Output_receiverID a
  else Output_value b <? Output_value a.

Definition Output_to_string (o : Output) : outcome string :=
  j ← jset JNull "value" (JInt (Output_value o));
  j ← jset j "receiverID" (JInt (Output_receiverID o));
  jdump j.

Definition Output_from_string (s : string) : outcome Output :=
  j ← jparse s;
  v ← jat j "value"; value ← jget_u64 v;
  v ← jat j "receiverID"; receiverID ← jget_int u32 v;
  Ok (mkOutput value receiverID).

(** * Unspent outputs *)

(** [outputIndex_] is an [int]. *)
Record UTXO := mkUTXO { transactionId_ : Z; outputIndex_ : Z; output_ : Output }.
#[export] Instance UTXO_eq_dec : EqDecision UTXO.
Proof. solve_decision. Defined.

Definition UTXO_from_proto (p : chat.UTXOMsg) : UTXO :=
  mkUTXO (chat.transaction_id p) (i32 (chat.output_index p))
         (mkOutput (chat.output_value p) (chat.receiver_id p)).
Definition toProtoUTXO (u : UTXO) : chat.UTXOMsg :=
  chat.mkUTXO (transactionId_ u) (u32 (outputIndex_ u)) (Output_value (output_ u))
              (Output_receiverID (output_ u)).

Definition UTXO_eqb (a b : UTXO) : bool :=
  (transactionId_ a =? transactionId_ b) && (outputIndex_ a =? outputIndex_ b)
  && Output_eqb (output_ a) (output_ b).
Definition UTXO_gtb (a b : UTXO) : bool :=
  if transactionId_ a =? transactionId_ b then outputIndex_ b <? outputIndex_ a
  else transactionId_ b <? transactionId_ a.
Definition UTXO_ltb (a b : UTXO) : bool :=
  if transactionId_ a =? transactionId_ b then outputIndex_ a <? outputIndex_ b
  else transactionId_ a <? transactionId_ b.

(** ** [UTXOlist] *)

Abbreviation UTXOlist := (list UTXO).

Definition UTXOlist_from_proto (p : chat.UTXOlistMsg) : UTXOlist :=
  foldl (fun l x => l ++ [UTXO_from_proto x]) [] p.
Definition UTXOlist_add (l : UTXOlist) (u : UTXO) : UTXOlist := l ++ [u].
Definition UTXOlist_clear (l : UTXOlist) : UTXOlist := [].
Definition UTXOlist_empty (l : UTXOlist) : bool := match l with [] => true | _ => false end.
(** [int size()]. *)
Definition UTXOlist_size (l : UTXOlist) : Z := i32 (Z.of_nat (length l)).
Definition UTXOlist_at (l : UTXOlist) (index : nat) : outcome UTXO := read l index.

(** The comparison of an input with an entry: the [int] is converted to [uint64_t]. *)
Definition refers (i : Input) (u : UTXO) : bool :=
  (transactionId_ u =? Input_txID i) && (u64 (outputIndex_ u) =? Input_outputIndex i).

(** [index]: the first position that matches, or -1. *)
Fixpoint UTXOlist_index_from (k : Z) (l : UTXOlist) (i : Input) : Z :=
  match l with
  | [] => -1
  | u :: l' => if refers i u then k else UTXOlist_index_from (k + 1) l' i
  end.
Definition UTXOlist_index (l : UTXOlist) (i : Input) : Z := UTXOlist_index_from 0 l i.

(** [erase(begin() + index)]: outside the vector it is undefined behaviour. *)
Definition UTXOlist_erase (l : UTXOlist) (index : Z) : outcome UTXOlist :=
  if (0 <=? index) && (index <? Z.of_nat (length l))
  then Ok (delete (Z.to_nat index) l) else Undef out_of_bounds.

Definition toProtoUTXOlist (l : UTXOlist) (p : chat.UTXOlistMsg) : chat.UTXOlistMsg :=
  foldl (fun p u => p ++ [toProtoUTXO u]) p l.
Definition fromProtoUTXOlist (l : UTXOlist) (p : chat.UTXOlistMsg) : UTXOlist :=
  foldl (fun l x => l ++ [UTXO_from_proto x]) l p.
Definition UTXOlist_eqb (a b : UTXOlist) : bool :=
  (length a =? length b)%nat && forallb (fun '(x, y) => UTXO_eqb x y) (zip a b).

(** * Transactions *)

Record Transaction := mkTransaction {
  inputs_ : list Input;
  outputs_ : list Output;
  senderSig_ : list string;
  senderID_ : Z;           (** [uint16_t] *)
  txID_ : Z;               (** [uint32_t] *)
  public_key_ : SigKey
}.
#[export] Instance Transaction_eq_dec : EqDecision Transaction.
Proof. solve_decision. Defined.

(** The constructors; those that leave members without a value take it from [memory]. *)
Definition Transaction_default (memory : Z * Z) : Transaction :=
  mkTransaction [] [] [] memory.1 memory.2 SigKey_empty.
Definition Transaction_new1 (memory txID : Z) : Transaction :=
  mkTransaction [] [] [] memory txID SigKey_empty.
Definition Transaction_new2 (txID senderID : Z) : Transaction :=
  mkTransaction [] [] [] senderID txID SigKey_empty.
Definition Transaction_new (inputs : list Input) (outputs : list Output) (senderID txID : Z)
    (public_key : SigKey) : Transaction :=
  mkTransaction inputs outputs [] senderID txID public_key.

Definition setSenderSig (t : Transaction) (sig : list string) : Transaction :=
  mkTransaction (inputs_ t) (outputs_ t) sig (senderID_ t) (txID_ t) (public_key_ t).
Definition settxID (t : Transaction) (txID : Z) : Transaction :=
  mkTransaction (inputs_ t) (outputs_ t) (senderSig_ t) (senderID_ t) txID (public_key_ t).
Definition setSenderID (t : Transaction) (senderID : Z) : Transaction :=
  mkTransaction (inputs_ t) (outputs_ t) (senderSig_ t) senderID (txID_ t) (public_key_ t).
Definition setPublicKey (t : Transaction) (key : SigKey) : Transaction :=
  mkTransaction (inputs_ t) (outputs_ t) (senderSig_ t) (senderID_ t) (txID_ t) key.
Definition addInput (t : Transaction) (i : Input) : Transaction :=
  mkTransaction (inputs_ t ++ [i]) (outputs_ t) (senderSig_ t) (senderID_ t) (txID_ t) (public_key_ t).
Definition addOutput (t : Transaction) (o : Output) : Transaction :=
  mkTransaction (inputs_ t) (outputs_ t ++ [o]) (senderSig_ t) (senderID_ t) (txID_ t) (public_key_ t).
Definition getInputAt (t : Transaction) (index : nat) : outcome Input := read (inputs_ t) index.
Definition getOutputAt (t : Transaction) (index : nat) : outcome Output := read (outputs_ t) index.

(** ** Spending conditions *)

(** [total += value] with [int total] and [uint64_t value]. *)
Definition add_value (total value : Z) : Z := i32 (u64 (u64 total + value)).

Definition total_outputs (outputs : list Output) : Z :=
  foldl (fun total o => add_value total (Output_value o)) 0 outputs.

(** The first entry an input refers to. *)
Definition find_utxo (utxo : UTXOlist) (i : Input) : option UTXO := List.find (refers i) utxo.

(** The loop over the inputs: [None] when an input is not found. *)
Fixpoint total_inputs (utxo : UTXOlist) (inputs : list Input) (total : Z) : option Z :=
  match inputs with
  | [] => Some total
  | i :: inputs' =>
      match find_utxo utxo i with
      | Some u => total_inputs utxo inputs' (add_value total (Output_value (output_ u)))
      | None => None
      end
  end.

Definition known_receiver (wallet_ids : list Z) (o : Output) : bool :=
  existsb (fun key => Output_receiverID o =? key) wallet_ids.

Definition checkSpendingConditions (t : Transaction) (utxolist : UTXOlist) (wallet_ids : list Z)
    : bool :=
  match inputs_ t with
  | [] => (length (outputs_ t) =? 0)%nat
  | _ =>
      match total_inputs utxolist (inputs_ t) 0 with
      | None => false
      | Some totalInputValue =>
          if negb (totalInputValue =? total_outputs (outputs_ t)) then false
          else forallb (known_receiver wallet_ids) (outputs_ t)
      end
  end.

(** ** Digest *)

Definition getStringDigest (t : Transaction) : string :=
  let data := pretty (txID_ t) in
  let data := foldl (fun data i =>
    data +:+ pretty (Input_txID i) +:+ pretty (Input_outputIndex i)) data (inputs_ t) in
  foldl (fun data o =>
    data +:+ pretty (Output_value o) +:+ pretty (Output_receiverID o)) data (outputs_ t).

Definition getDigest `{Hash} (t : Transaction) : string := hash (getStringDigest t).

(** ** Protocol buffers *)

Definition has_key (key : SigKey) : bool :=
  match S0 key, S1 key with [], _ | _, [] => false | _, _ => true end.

Definition fromProtoTransaction (t : Transaction) (p : chat.TransactionMsg) : outcome Transaction :=
  let inputs := foldl (fun l x => l ++ [Input_from_proto x]) (inputs_ t) (chat.tx_input p) in
  let outputs := foldl (fun l x => l ++ [Output_from_proto x]) (outputs_ t) (chat.tx_output p) in
  let sig := foldl (fun l s => l ++ [s]) [] (chat.tx_sendersig p) in
  let publickey := chat.tx_publickey p in
  key ← (if bool_decide (publickey = "") then Ok (public_key_ t)
         else SigKey_from_string publickey);
  Ok (mkTransaction inputs outputs sig (u16 (chat.tx_senderid p)) (chat.tx_txid p) key).

Definition toProtoTransaction (t : Transaction) (p : chat.TransactionMsg) : outcome chat.TransactionMsg :=
  let inputs := foldl (fun l i =>
    l ++ [chat.mkInput (Input_txID i) (Input_outputIndex i)]) (chat.tx_input p) (inputs_ t) in
  let outputs := foldl (fun l o =>
    l ++ [chat.mkOutput (Output_value o) (Output_receiverID o)]) (chat.tx_output p) (outputs_ t) in
  publickey ← (if has_key (public_key_ t) then SigKey_to_string (public_key_ t) else Ok "");
  let sig := foldl (fun l s => l ++ [s]) (chat.tx_sendersig p) (senderSig_ t) in
  Ok (chat.mkTransaction (txID_ t) inputs outputs (u32 (senderID_ t)) sig publickey).

(** ** Equality *)

(** [operator==], its comparisons in order; the lists have been found equally long. *)
Definition Transaction_eqb (t1 t2 : Transaction) : bool :=
  if negb (length (inputs_ t1) =? length (inputs_ t2))%nat then false
  else if existsb (fun '(a, b) => Input_neqb a b) (zip (inputs_ t1) (inputs_ t2)) then false
  else if negb (length (outputs_ t1) =? length (outputs_ t2))%nat then false
  else if existsb (fun '(a, b) => Output_neqb a b) (zip (outputs_ t1) (outputs_ t2)) then false
  else if bool_decide (senderSig_ t1 <> senderSig_ t2) then false
  else if negb (senderID_ t1 =? senderID_ t2) then false
  else if negb (txID_ t1 =? txID_ t2) then false
  else if SigKey_neqb (public_key_ t1) (public_key_ t2) then false
  else true.

(** ** JSON text *)

Definition Transaction_to_string (t : Transaction) : outcome string :=
  j ← jset JNull "txID" (JInt (txID_ t));
  j ← foldM (fun j i => v ← JStr <$> Input_to_string i; jset_push j "inputs" v) j (inputs_ t);
  j ← foldM (fun j o => v ← JStr <$> Output_to_string o; jset_push j "outputs" v) j (outputs_ t);
  j ← jset j "senderID" (JInt (senderID_ t));
  s ← signature_to_json (senderSig_ t);
  j ← jset j "senderSig" (JStr s);
  j ← (if has_key (public_key_ t)
       then k ← SigKey_to_string (public_key_ t); jset j "publicKey" (JStr k)
       else Ok j);
  jdump j.

Definition Transaction_from_string (t : Transaction) (tx_string : string) : outcome Transaction :=
  j ← jparse tx_string;
  v ← jat j "txID"; txID ← jget_int u32 v;
  a ← jat j "inputs";
  inputs ← outcome_mapM (fun v => el ← jget_string v; Input_from_string el) (jelems a);
  a ← jat j "outputs";
  outputs ← outcome_mapM (fun v => el ← jget_string v; Output_from_string el) (jelems a);
  v ← jat j "senderID"; senderID ← jget_int u16 v;
  v ← jat j "senderSig"; s ← jget_string v; senderSig ← json_to_string s;
  key ← (if jcontains j "publicKey"
         then v ← jat j "publicKey"; s ← jget_string v; SigKey_from_string s
         else Ok (public_key_ t));
  Ok (mkTransaction inputs outputs senderSig senderID txID key).

(** * Spending conditions: exact characterisation *)

Definition zsum (l : list Z) : Z := foldr Z.add 0 l.
Definition total_out (t : Transaction) : Z := zsum (map Output_value (outputs_ t)).
Definition utxo_total (us : list UTXO) : Z := zsum (map (fun u => Output_value (output_ u)) us).

Lemma i32_congr x y : x mod 2 ^ 32 = y mod 2 ^ 32 -> i32 x = i32 y.
Proof. intros E. unfold i32. by rewrite <- (Zplus_mod_idemp_l x), E, Zplus_mod_idemp_l. Qed.

Lemma i32_inv x y : i32 x = i32 y -> x mod 2 ^ 32 = y mod 2 ^ 32.
Proof.
  unfold i32. intros E. assert (E' : (x + 2 ^ 31) mod 2 ^ 32 = (y + 2 ^ 31) mod 2 ^ 32) by lia.
  replace x with (x + 2 ^ 31 - 2 ^ 31) by lia. replace y with (y + 2 ^ 31 - 2 ^ 31) by lia.
  by rewrite <- (Zminus_mod_idemp_l (x + _)), E', Zminus_mod_idemp_l.
Qed.

Lemma u64_mod32 x : u64 x mod 2 ^ 32 = x mod 2 ^ 32.
Proof. apply Z.mod_mod_divide. by exists (2 ^ 32). Qed.

Lemma i32_mod x : i32 x mod 2 ^ 32 = x mod 2 ^ 32.
Proof.
  unfold i32. rewrite Zminus_mod_idemp_l. f_equal. lia.
Qed.

(** The [int] accumulators hold the sums modulo [2 ^ 32]. *)
Lemma add_value_i32 x v : add_value (i32 x) v = i32 (x + v).
Proof.
  unfold add_value. apply i32_congr. rewrite u64_mod32, <- Zplus_mod_idemp_l, u64_mod32, i32_mod.
  apply Zplus_mod_idemp_l.
Qed.

Lemma total_outputs_sum outs : total_outputs outs = i32 (zsum (map Output_value outs)).
Proof.
  unfold total_outputs. rewrite <- (Z.add_0_l (zsum _)). change 0 with (i32 0) at 1.
  generalize 0 as x. induction outs as [|o outs IH]; intros x; cbn; [f_equal; lia|].
  rewrite add_value_i32, IH. f_equal. unfold zsum. lia.
Qed.

Lemma total_inputs_sum l ins : forall x v,
  total_inputs l ins (i32 x) = Some v <->
  exists us, Forall2 (fun i u => find_utxo l i = Some u) ins us /\ v = i32 (x + utxo_total us).
Proof.
  induction ins as [|i ins IH]; intros x v; cbn.
  - split.
    + intros [= <-]. exists []. split; [constructor|]. cbn. f_equal. lia.
    + intros (us & Hus & ->). apply Forall2_nil_inv_l in Hus as ->. cbn. do 2 f_equal. lia.
  - destruct (find_utxo l i) as [u|] eqn:Hu.
    + rewrite add_value_i32, IH. split.
      * intros (us & Hus & ->). exists (u :: us). split; [by constructor|].
        unfold utxo_total, zsum. cbn. f_equal. lia.
      * intros (us & Hus & ->). apply Forall2_cons_inv_l in Hus as (u' & us' & Hu' & Hus & ->).
        simplify_eq. exists us'. split; [done|]. unfold utxo_total, zsum. cbn. f_equal. lia.
    + split; [done|]. intros (us & Hus & _).
      apply Forall2_cons_inv_l in Hus as (u' & us' & Hu' & _). by rewrite Hu in Hu'.
Qed.

Lemma known_receiver_spec w o : known_receiver w o = true <-> Output_receiverID o ∈ w.
Proof.
  unfold known_receiver. rewrite existsb_exists. split.
  - intros (k & Hk & E). apply Z.eqb_eq in E as ->. by apply list_elem_of_In.
  - intros Hk. exists (Output_receiverID o). split; [by apply list_elem_of_In|apply Z.eqb_refl].
Qed.

(** The exact condition, with the sums over the integers. *)
Definition spendable (t : Transaction) (l : UTXOlist) (w : list Z) (us : list UTXO) : Prop :=
  Forall2 (fun i u => find_utxo l i = Some u) (inputs_ t) us /\
  total_out t mod 2 ^ 32 = utxo_total us mod 2 ^ 32 /\
  Forall (fun o => Output_receiverID o ∈ w) (outputs_ t).

Lemma found_unique l ins : forall us us',
  Forall2 (fun i u => find_utxo l i = Some u) ins us ->
  Forall2 (fun i u => find_utxo l i = Some u) ins us' -> us = us'.
Proof.
  induction ins as [|i ins IH]; intros us us' H H'.
  - apply Forall2_nil_inv_l in H, H'. by subst.
  - apply Forall2_cons_inv_l in H as (u & vs & Hu & H & ->).
    apply Forall2_cons_inv_l in H' as (u' & vs' & Hu' & H' & ->).
    rewrite Hu in Hu'. simplify_eq. f_equal. eauto.
Qed.

Lemma known_receivers_spec w outs :
  forallb (known_receiver w) outs = true <-> Forall (fun o => Output_receiverID o ∈ w) outs.
Proof.
  rewrite forallb_forall, Forall_forall. setoid_rewrite known_receiver_spec.
  by setoid_rewrite <- list_elem_of_In.
Qed.

Lemma checkSpendingConditions_iff t l w :
  inputs_ t <> [] ->
  checkSpendingConditions t l w = true <-> exists us, spendable t l w us.
Proof.
  intros Hne. unfold checkSpendingConditions, spendable, total_out.
  destruct (inputs_ t) as [|i ins] eqn:Hi; [done|]. rewrite <- Hi in *. clear Hi Hne.
  pose proof (total_inputs_sum l (inputs_ t) 0) as Hs. change (i32 0) with 0 in Hs.
  rewrite total_outputs_sum. destruct (total_inputs l (inputs_ t) 0) as [v|] eqn:Hv.
  - destruct (proj1 (Hs v) eq_refl) as (us & Hus & ->). rewrite Z.add_0_l.
    destruct (Z.eqb_spec (i32 (utxo_total us)) (i32 (zsum (map Output_value (outputs_ t))))) as [E|E];
      cbn [negb].
    + rewrite known_receivers_spec. split.
      * intros Hf. exists us. split_and!; [done| |done]. symmetry. by apply i32_inv.
      * by intros (us' & _ & _ & Hf).
    + split; [done|]. intros (us' & Hus' & Hm & _).
      rewrite (found_unique _ _ _ _ Hus' Hus) in Hm. destruct E. by apply i32_congr.
  - split; [done|]. intros (us & Hus & _). by pose proof (proj2 (Hs _) (ex_intro _ us (conj Hus eq_refl))).
Qed.

(** C20: the spending conditions accept a transaction exactly if it is empty, or it has inputs, each
    of them refers to an entry of the list, every receiver is a known wallet, and the outputs and
    the entries spent have the same sum modulo [2^32]; below [2^32] the sums are then equal. *)
Theorem checkSpendingConditions_spec (t : Transaction) (l : UTXOlist) (w : list Z) :
  (checkSpendingConditions t l w = true <->
     inputs_ t = [] /\ outputs_ t = [] \/
     inputs_ t <> [] /\ exists us, spendable t l w us) /\
  (forall us, spendable t l w us -> 0 <= total_out t < 2 ^ 32 -> 0 <= utxo_total us < 2 ^ 32 ->
     total_out t = utxo_total us).
Proof.
  split.
  - destruct (decide (inputs_ t = [])) as [Hi|Hi].
    + unfold checkSpendingConditions. rewrite Hi, Nat.eqb_eq, length_zero_iff_nil.
      split; [by left|]. by intros [[_ H]|[H _]].
    + rewrite checkSpendingConditions_iff by done. split; [by right|]. by intros [[H _]|[_ H]].
  - intros us (_ & Hm & _) Ho Hu. by rewrite !Z.mod_small in Hm by done.
Qed.

(** The totals are [int]s, so that a transaction can create [2^32] coins out of nothing. *)
Theorem spending_inflates :
  exists (t : Transaction) (l : UTXOlist) (w : list Z) (us : list UTXO),
    checkSpendingConditions t l w = true /\
    Forall2 (fun i u => find_utxo l i = Some u) (inputs_ t) us /\
    total_out t = utxo_total us + 2 ^ 32.
Proof.
  set (u := mkUTXO 1 0 (mkOutput 10 7)).
  exists (mkTransaction [mkInput 1 0] [mkOutput (10 + 2 ^ 32) 7] [] 7 2 SigKey_empty), [u], [7], [u].
  split_and!; [reflexivity|by repeat constructor|reflexivity].
Qed.

Lemma zsum_repeat v n : zsum (repeat v n) = Z.of_nat n * v.
Proof. unfold zsum. induction n as [|n IH]; [done|]. cbn [repeat foldr]. rewrite IH. lia. Qed.

(** One entry can be spent any number of times by the inputs of one transaction: nothing
    compares the inputs with each other. *)
Theorem repeated_input_accepted (n : nat) (i : Input) (u : UTXO) (l : UTXOlist) (r : Z) (w : list Z)
    (sender txID : Z) (key : SigKey) :
  n <> O -> find_utxo l i = Some u -> r ∈ w ->
  checkSpendingConditions
    (Transaction_new (repeat i n) [mkOutput (Z.of_nat n * Output_value (output_ u)) r] sender txID key)
    l w = true.
Proof.
  intros Hn Hu Hr. apply checkSpendingConditions_iff; [by destruct n|].
  exists (repeat u n). split_and!; cbn.
  - clear Hn. induction n; cbn; by constructor.
  - unfold total_out, utxo_total. cbn. rewrite map_repeat, zsum_repeat. f_equal. lia.
  - by repeat constructor.
Qed.

Lemma repeated_input_accepted_witness :
  let u := mkUTXO 1 0 (mkOutput 10 7) in
  checkSpendingConditions
    (Transaction_new (repeat (mkInput 1 0) 3) [mkOutput (Z.of_nat 3 * 10) 7] 7 2 SigKey_empty)
    [u] [7] = true.
Proof.
  apply (repeated_input_accepted 3 (mkInput 1 0) (mkUTXO 1 0 (mkOutput 10 7)));
    [done|reflexivity|by constructor].
Defined.

(** * Digests *)

(** A digest does not determine what is signed: numbers are concatenated without separators,
    so that a payment of 1 to wallet 12 and one of 11 to wallet 2 have the same digest, and the
    sender and the key are not part of it; a signature of the one is a signature of the other. *)
Theorem digest_not_binding `{Hash} :
  (forall t sender key, getDigest (setPublicKey (setSenderID t sender) key) = getDigest t) /\
  exists t1 t2 : Transaction,
    outputs_ t1 = [mkOutput 1 12] /\ outputs_ t2 = [mkOutput 11 2] /\
    inputs_ t1 = inputs_ t2 /\ txID_ t1 = txID_ t2 /\
    forall sig pk, Verify (getDigest t1) sig pk = Verify (getDigest t2) sig pk.
Proof.
  split; [done|].
  exists (mkTransaction [mkInput 5 0] [mkOutput 1 12] [] 1 3 SigKey_empty),
    (mkTransaction [mkInput 5 0] [mkOutput 11 2] [] 1 3 SigKey_empty).
  split_and!; [done..|]. reflexivity.
Qed.

(** * Equality *)

Lemma existsb_zip {A} (p : A -> A -> bool) (l1 l2 : list A) :
  length l1 = length l2 ->
  existsb (fun '(a, b) => p a b) (zip l1 l2) = false <-> Forall2 (fun a b => p a b = false) l1 l2.
Proof.
  revert l2. induction l1 as [|a l1 IH]; intros [|b l2] Hl; try done.
  cbn. rewrite orb_false_iff, Forall2_cons, IH by (by injection Hl). done.
Qed.

Lemma Input_neqb_false a b : Input_neqb a b = false <-> a = b.
Proof.
  destruct a as [x y], b as [x' y']. unfold Input_neqb. cbn.
  rewrite orb_false_iff, !negb_false_iff, !Z.eqb_eq. split; [by intros [-> ->]|by intros [= -> ->]].
Qed.

Lemma Output_neqb_false a b :
  Output_neqb a b = false <->
  Output_value a = Output_value b \/ Output_receiverID a = Output_receiverID b.
Proof. unfold Output_neqb. by rewrite andb_false_iff, !negb_false_iff, !Z.eqb_eq. Qed.

Lemma SigKey_neqb_false a b : SigKey_neqb a b = false <-> a = b.
Proof.
  destruct a as [x y], b as [x' y']. unfold SigKey_neqb. cbn.
  rewrite orb_false_iff, !bool_decide_eq_false.
  split; [|intros [= -> ->]; split; by intros []].
  intros [H1 H2]. f_equal; by apply dec_stable.
Qed.

Lemma Inputs_equal l1 l2 : length l1 = length l2 ->
  existsb (fun '(a, b) => Input_neqb a b) (zip l1 l2) = false <-> l1 = l2.
Proof.
  intros Hl. rewrite existsb_zip by done. split.
  - induction 1 as [|a b l1' l2' Hab _ IH]; [done|]. apply Input_neqb_false in Hab as ->.
    f_equal. apply IH. by injection Hl.
  - intros <-. clear Hl. induction l1 as [|a l IH]; constructor; [by apply Input_neqb_false|done].
Qed.

Definition same_value_or_receiver (a b : Output) : Prop :=
  Output_value a = Output_value b \/ Output_receiverID a = Output_receiverID b.

Lemma Outputs_equal l1 l2 : length l1 = length l2 ->
  existsb (fun '(a, b) => Output_neqb a b) (zip l1 l2) = false <->
  Forall2 same_value_or_receiver l1 l2.
Proof.
  intros Hl. rewrite existsb_zip by done.
  split; intros H; (eapply Forall2_impl; [exact H|]); intros a b; by apply Output_neqb_false.
Qed.

(** [operator==] on transactions compares everything except that two outputs count as equal
    when they agree in the value or in the receiver. *)
Theorem Transaction_eqb_spec (t1 t2 : Transaction) :
  Transaction_eqb t1 t2 = true <->
    inputs_ t1 = inputs_ t2 /\
    Forall2 same_value_or_receiver (outputs_ t1) (outputs_ t2) /\
    senderSig_ t1 = senderSig_ t2 /\ senderID_ t1 = senderID_ t2 /\ txID_ t1 = txID_ t2 /\
    public_key_ t1 = public_key_ t2.
Proof.
  unfold Transaction_eqb.
  destruct (Nat.eqb_spec (length (inputs_ t1)) (length (inputs_ t2))) as [Hl|Hl]; cbn [negb].
  2: { split; [done|]. intros [E _]. by rewrite E in Hl. }
  rewrite <- (Inputs_equal _ _ Hl). destruct (existsb _ (zip (inputs_ t1) _)).
  { split; [done|]. by intros [E _]. }
  destruct (Nat.eqb_spec (length (outputs_ t1)) (length (outputs_ t2))) as [Ho|Ho]; cbn [negb].
  2: { split; [done|]. intros (_ & E & _). by apply Forall2_length in E. }
  rewrite <- (Outputs_equal _ _ Ho). destruct (existsb _ (zip (outputs_ t1) _)).
  { split; [done|]. by intros (_ & E & _). }
  rewrite <- SigKey_neqb_false. case_bool_decide as Hs.
  { split; [done|]. by intros (_ & _ & E & _). }
  destruct (Z.eqb_spec (senderID_ t1) (senderID_ t2)) as [E1|E1]; cbn [negb].
  2: { split; [done|]. by intros (_ & _ & _ & E & _). }
  destruct (Z.eqb_spec (txID_ t1) (txID_ t2)) as [E2|E2]; cbn [negb].
  2: { split; [done|]. by intros (_ & _ & _ & _ & E & _). }
  destruct (SigKey_neqb _ _); [split; [done|]; by intros (_ & _ & _ & _ & _ & E)|].
  split; [|done]. intros _. split_and!; try done.
Qed.

(** * Round trips *)

Definition Input_wf (i : Input) : Prop := is_u32 (Input_txID i) /\ is_u64 (Input_outputIndex i).
Definition Output_wf (o : Output) : Prop := is_u64 (Output_value o) /\ is_u32 (Output_receiverID o).

Lemma Input_roundtrip i : Input_wf i -> text_roundtrip (Input_to_string i) Input_from_string i.
Proof.
  intros [H1 H2]. unfold text_roundtrip.
  destruct (jdump_total None (JObj [("outputIndex", JInt (Input_outputIndex i));
                                    ("txID", JInt (Input_txID i))])) as (s & Hs & Hp & _ & Hu).
  { cbn. by rewrite int_fits_u64, int_fits_u32. }
  { done. }
  exists s. split_and!; [exact Hs| |done]. unfold Input_from_string. rewrite Hp. jsimpl.
  rewrite u32_small, u64_small by done. by destruct i.
Qed.

Lemma Output_roundtrip o : Output_wf o -> text_roundtrip (Output_to_string o) Output_from_string o.
Proof.
  intros [H1 H2]. unfold text_roundtrip.
  destruct (jdump_total None (JObj [("receiverID", JInt (Output_receiverID o));
                                    ("value", JInt (Output_value o))])) as (s & Hs & Hp & _ & Hu).
  { cbn. by rewrite (int_fits_u64 (Output_value o)), (int_fits_u32 (Output_receiverID o)). }
  { done. }
  exists s. split_and!; [exact Hs| |done]. unfold Output_from_string. rewrite Hp. jsimpl.
  rewrite u32_small, u64_small by done. by destruct o.
Qed.


(** A key that is either absent or complete, its strings UTF-8. *)
Definition key_wf (key : SigKey) : Prop :=
  key = SigKey_empty \/
  full_key key /\ Forall (fun s => utf8_valid [] s = true) (S0 key ++ S1 key).

Definition Transaction_wf (t : Transaction) : Prop :=
  Forall Input_wf (inputs_ t) /\ Forall Output_wf (outputs_ t) /\
  Forall (fun s => String.length s = 32%nat) (senderSig_ t) /\
  is_u16 (senderID_ t) /\ is_u32 (txID_ t) /\ key_wf (public_key_ t).

Lemma key_text key : key_wf key ->
  (has_key key = false /\ key = SigKey_empty) \/
  (has_key key = true /\ exists s, SigKey_to_string key = Ok s /\ s <> "" /\
     utf8_valid [] s = true /\ SigKey_from_string s = Ok key).
Proof.
  intros [->|[[H0 H1] Hu]]; [by left|right].
  destruct (SigKey_text key H0 H1 Hu) as (s & Ht & Hf & Hs). split.
  - unfold has_key. destruct (S0 key), (S1 key); [|done..]. by rewrite H1 in H0.
  - exists s. split_and!; [done| |done..]. intros ->. vm_compute in Hf. done.
Qed.

(** The object a transaction is written as. *)
Definition entries (k : string) (l : list string) : list (string * json) :=
  match l with [] => [] | _ => [(k, JArr (map JStr l))] end.

Definition tx_json (ins outs : list string) (t : Transaction) (sig : string) (key : option string)
    : json :=
  JObj (entries "inputs" ins ++ entries "outputs" outs
    ++ match key with Some k => [("publicKey", JStr k)] | None => [] end
    ++ [("senderID", JInt (senderID_ t)); ("senderSig", JStr sig); ("txID", JInt (txID_ t))]).

Lemma Transaction_to_string_json t ins outs sig key :
  outcome_mapM (fun i => JStr <$> Input_to_string i) (inputs_ t) = Ok (map JStr ins) ->
  outcome_mapM (fun o => JStr <$> Output_to_string o) (outputs_ t) = Ok (map JStr outs) ->
  signature_to_json (senderSig_ t) = Ok sig ->
  match key with
  | Some k => has_key (public_key_ t) = true /\ SigKey_to_string (public_key_ t) = Ok k
  | None => has_key (public_key_ t) = false
  end ->
  Transaction_to_string t = jdump (tx_json ins outs t sig key).
Proof.
  intros Hi Ho Hsig Hkey. unfold Transaction_to_string.
  cbn [jset mbind outcome_bind]. rewrite foldM_jset_push by reflexivity. rewrite Hi.
  cbn [mbind outcome_bind].
  rewrite foldM_jset_push by (by destruct ins). rewrite Ho. cbn [mbind outcome_bind].
  destruct key as [k|]; [destruct Hkey as [-> Hk]|rewrite Hkey];
    (destruct ins as [|i0 ins], outs as [|o0 outs]; cbn [map jset mbind outcome_bind];
     rewrite Hsig; cbn [mbind outcome_bind]; rewrite ?Hk; reflexivity).
Qed.

Lemma entries_ok k l :
  utf8_valid [] k = true -> Forall (fun s => utf8_valid [] s = true) l ->
  forallb (fun e : string * json => json_wf e.2) (entries k l) = true /\
  forallb (fun e : string * json => utf8_valid [] e.1 && json_utf8 e.2) (entries k l) = true.
Proof.
  intros Hk Hl.
  assert (Hw : forallb json_wf (map JStr l) = true) by (clear; by induction l).
  assert (Hu : forallb json_utf8 (map JStr l) = true).
  { induction Hl as [|s l Hsl _ IH]; [done|]. cbn in *. rewrite Hsl. by apply IH. }
  destruct l as [|x l]; [done|]. split; [by cbn in *; rewrite Hw|].
  cbn -[utf8_valid] in *. by rewrite Hk, Hu.
Qed.

Lemma tx_json_ok ins outs t sig key :
  Forall (fun s => utf8_valid [] s = true) ins -> Forall (fun s => utf8_valid [] s = true) outs ->
  utf8_valid [] sig = true -> is_u16 (senderID_ t) -> is_u32 (txID_ t) ->
  match key with Some k => utf8_valid [] k = true | None => True end ->
  json_wf (tx_json ins outs t sig key) = true /\ json_utf8 (tx_json ins outs t sig key) = true.
Proof.
  intros Hi Ho Hs H1 H2 Hk.
  destruct (entries_ok "inputs" ins) as [Wi Ui]; [done..|].
  destruct (entries_ok "outputs" outs) as [Wo Uo]; [done..|].
  split; unfold tx_json.
  - cbn [json_wf]. apply andb_true_intro. split; [by destruct ins, outs, key|].
    rewrite !forallb_app, Wi, Wo. destruct key as [k|]; cbn;
      by rewrite (int_fits_u16 (senderID_ t)), (int_fits_u32 (txID_ t)).
  - cbn [json_utf8]. rewrite !forallb_app, Ui, Uo.
    destruct key as [k|]; cbn -[utf8_valid]; by rewrite Hs, ?Hk.
Qed.

(** The text of the key, when there is one. *)
Definition key_entry (key : SigKey) (k : option string) : Prop :=
  match k with
  | Some k => has_key key = true /\ SigKey_to_string key = Ok k
      /\ SigKey_from_string k = Ok key /\ utf8_valid [] k = true
  | None => has_key key = false /\ key = SigKey_empty
  end.

Lemma key_entry_exists key : key_wf key -> exists k, key_entry key k.
Proof.
  intros Hk. destruct (key_text _ Hk) as [[H1 H2]|(H1 & k & H2 & _ & H4 & H5)];
    [by exists None|by exists (Some k)].
Qed.

Lemma Transaction_text t t0 :
  Transaction_wf t -> inputs_ t <> [] -> outputs_ t <> [] -> public_key_ t0 = SigKey_empty ->
  text_roundtrip (Transaction_to_string t) (Transaction_from_string t0) t.
Proof.
  intros (Hi & Ho & Hs & H16 & H32 & Hk) Hin Hout Hk0.
  destruct (parts_roundtrip Input_to_string Input_from_string (inputs_ t)) as (ins & Ti & Fi & Ui & Li).
  { eapply Forall_impl; [exact Hi|]. apply Input_roundtrip. }
  destruct (parts_roundtrip Output_to_string Output_from_string (outputs_ t)) as (outs & To & Fo & Uo & Lo).
  { eapply Forall_impl; [exact Ho|]. apply Output_roundtrip. }
  assert (ins <> []) by (intros ->; by destruct (inputs_ t)).
  assert (outs <> []) by (intros ->; by destruct (outputs_ t)).
  destruct (signature_text _ Hs) as (sig & Ts & Fs & Us).
  destruct (key_entry_exists _ Hk) as [key Hkey].
  destruct (tx_json_ok ins outs t sig key) as [Hwf Hu]; [done..|by destruct key; [apply Hkey|]|].
  unfold text_roundtrip. rewrite (Transaction_to_string_json t ins outs sig key);
    [|done..|destruct key; destruct Hkey as [? Hkey]; [split; [done|apply Hkey]|done]].
  destruct (jdump_total None _ Hwf Hu) as (text & Tt & Pt & _ & Ut).
  exists text. split_and!; [exact Tt| |done].
  unfold Transaction_from_string. rewrite Pt. unfold tx_json.
  destruct ins as [|i0 ins], outs as [|o0 outs]; [done..|].
  destruct key as [k|]; cbn [entries app]; jsimpl; rewrite Fi; jsimpl; rewrite Fo; jsimpl; rewrite Fs; jsimpl.
  - destruct Hkey as (_ & _ & -> & _). jsimpl. rewrite u16_small, u32_small by done. by destruct t.
  - destruct Hkey as [_ Hkey]. rewrite Hk0, <- Hkey, u16_small, u32_small by done. by destruct t.
Qed.

(** C32: a transaction with inputs and outputs survives its JSON text: reading it into a fresh object
    gives the same transaction. *)
Theorem Transaction_json_roundtrip (t t0 : Transaction) :
  Transaction_wf t -> inputs_ t <> [] -> outputs_ t <> [] -> public_key_ t0 = SigKey_empty ->
  exists s, Transaction_to_string t = Ok s /\ Transaction_from_string t0 s = Ok t.
Proof. intros H1 H2 H3 H4. destruct (Transaction_text t t0) as (s & Hs & Hf & _); eauto. Qed.

Definition example_tx : Transaction :=
  mkTransaction [mkInput 1 0; mkInput 4294967295 18446744073709551615] [mkOutput 10 7]
    ["0123456789abcdef0123456789abcdef"] 65535 2 SigKey_empty.

Lemma example_tx_wf : Transaction_wf example_tx.
Proof. repeat constructor; by compute. Qed.

Lemma Transaction_json_roundtrip_witness :
  exists s, Transaction_to_string example_tx = Ok s /\
    Transaction_from_string (Transaction_default (9, 8)) s = Ok example_tx.
Proof. apply Transaction_json_roundtrip; [apply example_tx_wf|done..]. Defined.

(** A transaction without inputs or without outputs is written without the list, and its text
    cannot be read back: the key is reported missing. *)
Theorem Transaction_json_incomplete (t t0 : Transaction) :
  Transaction_wf t -> inputs_ t = [] \/ outputs_ t = [] ->
  exists s, Transaction_to_string t = Ok s /\
    Transaction_from_string t0 s = Throw (json_out_of_range 403).
Proof.
  intros (Hi & Ho & Hs & H16 & H32 & Hk) Hnil.
  destruct (parts_roundtrip Input_to_string Input_from_string (inputs_ t)) as (ins & Ti & Fi & Ui & Li).
  { eapply Forall_impl; [exact Hi|]. apply Input_roundtrip. }
  destruct (parts_roundtrip Output_to_string Output_from_string (outputs_ t)) as (outs & To & Fo & Uo & Lo).
  { eapply Forall_impl; [exact Ho|]. apply Output_roundtrip. }
  destruct (signature_text _ Hs) as (sig & Ts & Fs & Us).
  destruct (key_entry_exists _ Hk) as [key Hkey].
  destruct (tx_json_ok ins outs t sig key) as [Hwf Hu]; [done..|by destruct key; [apply Hkey|]|].
  rewrite (Transaction_to_string_json t ins outs sig key);
    [|done..|destruct key; destruct Hkey as [? Hkey]; [split; [done|apply Hkey]|done]].
  destruct (jdump_total None _ Hwf Hu) as (text & Tt & Pt & _ & Ut).
  exists text. split; [exact Tt|].
  unfold Transaction_from_string. rewrite Pt. unfold tx_json.
  destruct ins as [|i0 ins]; [by destruct outs, key; cbn [entries app]; jsimpl|].
  destruct Hnil as [E|E]; [by rewrite E in Li|rewrite E in Lo]. destruct outs; [|done].
  destruct key; cbn [entries app]; jsimpl; rewrite Fi; by jsimpl.
Qed.

Lemma Transaction_json_incomplete_witness :
  exists s, Transaction_to_string (Transaction_new2 3 4) = Ok s /\
    Transaction_from_string (Transaction_default (9, 8)) s = Throw (json_out_of_range 403).
Proof.
  apply Transaction_json_incomplete; [|by left]. repeat constructor; by compute.
Defined.

(** ** Protocol buffers *)

Lemma Transaction_proto t t0 :
  is_u16 (senderID_ t) -> key_wf (public_key_ t) -> public_key_ t0 = SigKey_empty ->
  exists p, toProtoTransaction t chat.TransactionMsg_default = Ok p /\
    fromProtoTransaction t0 p =
      Ok (mkTransaction (inputs_ t0 ++ inputs_ t) (outputs_ t0 ++ outputs_ t) (senderSig_ t)
            (senderID_ t) (txID_ t) (public_key_ t)).
Proof.
  intros H16 Hk Hk0. unfold toProtoTransaction, fromProtoTransaction.
  assert (Hid : u16 (u32 (senderID_ t)) = senderID_ t).
  { rewrite u32_small, u16_small; [done|done|]. unfold is_u16, is_u32 in *. lia. }
  destruct (key_text _ Hk) as [[-> Hempty]|(-> & k & -> & Hne & _ & Hf)];
    (eexists; split; [reflexivity|]); cbn [chat.tx_input chat.tx_output chat.tx_sendersig
      chat.tx_publickey chat.tx_senderid chat.tx_txid chat.TransactionMsg_default].
  - rewrite bool_decide_true by done. cbn [mbind outcome_bind].
    rewrite !foldl_snoc_map, !app_nil_l, !map_map, Hid, Hk0, <- Hempty.
    rewrite !(map_self (fun x => _)) by (by intros []). done.
  - rewrite bool_decide_false, Hf by done. cbn [mbind outcome_bind].
    rewrite !foldl_snoc_map, !app_nil_l, !map_map, Hid.
    rewrite !(map_self (fun x => _)) by (by intros []). done.
Qed.

(** A transaction sent as a protocol buffer message is received unchanged by a fresh object; the
    lists of an object that is not fresh are appended to. *)
Theorem Transaction_proto_roundtrip (t t0 : Transaction) :
  is_u16 (senderID_ t) -> key_wf (public_key_ t) -> public_key_ t0 = SigKey_empty ->
  exists p, toProtoTransaction t chat.TransactionMsg_default = Ok p /\
    fromProtoTransaction t0 p =
      Ok (mkTransaction (inputs_ t0 ++ inputs_ t) (outputs_ t0 ++ outputs_ t) (senderSig_ t)
            (senderID_ t) (txID_ t) (public_key_ t)).
Proof. apply Transaction_proto. Qed.

Lemma Transaction_proto_roundtrip_witness :
  exists p, toProtoTransaction example_tx chat.TransactionMsg_default = Ok p /\
    fromProtoTransaction (Transaction_default (9, 8)) p = Ok example_tx.
Proof. apply (Transaction_proto_roundtrip example_tx); [by compute|by left|done]. Defined.
