(* ===== verification/Block.v ===== *)
(** Headers and blocks (src/lib/blockchain/{header,block}.cc): the Merkle root, the life cycle of a
    block from mutable to signed, its verification, digest, equality and encodings. *)
From S2P Require Import Prelude Json JsonRoundTrip Signature Transaction.
Local Open Scope Z_scope.

(** * Protocol buffer messages *)

Module chatblock.
Record HeaderMsg := mkHeaderMsg { prevblockdigest : string; merkleroot : string }.
Record BlockMsg := mkBlockMsg {
  header : HeaderMsg; blockid : Z; transaction : list chat.TransactionMsg;
  validatorsig : list string; validatorid : Z; publickey : string
}.
Definition BlockMsg_default : BlockMsg := mkBlockMsg (mkHeaderMsg "" "") 0 [] [] 0 "".
End chatblock.
Import chatblock.

(** * Headers *)

Record Header := mkHeader { prevBlockDigest_ : string; merkleRoot_ : string }.
#[export] Instance Header_eq_dec : EqDecision Header.
Proof. solve_decision. Defined.

Definition Header_new (prevBlockDigest : string) : Header := mkHeader prevBlockDigest "".
Definition Header_from_proto (p : HeaderMsg) : Header :=
  mkHeader (prevblockdigest p) (merkleroot p).
Definition toProtoHeader (h : Header) : HeaderMsg :=
  mkHeaderMsg (prevBlockDigest_ h) (merkleRoot_ h).
Definition Header_eqb (a b : Header) : bool :=
  bool_decide (prevBlockDigest_ a = prevBlockDigest_ b) && bool_decide (merkleRoot_ a = merkleRoot_ b).

Definition Header_to_string (h : Header) : outcome string :=
  j ← jset JNull "prevBlockDigest" (JStr (prevBlockDigest_ h));
  j ← jset j "merkleRoot" (JStr (merkleRoot_ h));
  jdump j.

Definition Header_from_string (s : string) : outcome Header :=
  j ← jparse s;
  v ← jat j "prevBlockDigest"; prev ← jget_string v;
  v ← jat j "merkleRoot"; root ← jget_string v;
  Ok (mkHeader prev root).

Section WithHash.
Context `{Hash}.

(** [getID]. *)
Definition Header_getID (h : Header) : string := hash (prevBlockDigest_ h +:+ merkleRoot_ h).

(** ** The Merkle root *)

(** [for (i = 0; i < size; i += 2) new_hashes.push_back(hash(hashes[i] + hashes[i + 1]))] on a list
    of even length. *)
Fixpoint hash_pairs (hashes : list string) : list string :=
  match hashes with
  | a :: b :: hashes' => hash (a +:+ b) :: hash_pairs hashes'
  | _ => []
  end.

(** An odd list gets its last element twice. *)
Definition make_even (hashes : list string) : list string :=
  if Nat.odd (length hashes) then hashes ++ [List.last hashes ""] else hashes.

(** [while (hashes.size() > 1)]: every round halves the list, so its length is enough fuel. *)
Fixpoint merkle_loop (fuel : nat) (hashes : list string) : outcome (list string) :=
  if (length hashes <=? 1)%nat then Ok hashes
  else match fuel with
       | O => Unmodelled
       | S fuel' => merkle_loop fuel' (hash_pairs (make_even hashes))
       end.

Definition merkle_root (transactions : list Transaction) : outcome string :=
  match transactions with
  | [] => Ok ""
  | _ =>
      let hashes := map getDigest transactions in
      hashes ← merkle_loop (length hashes) hashes;
      read hashes 0
  end.

Definition calculateMerkleRoot (h : Header) (transactions : list Transaction) : outcome Header :=
  root ← merkle_root transactions; Ok (mkHeader (prevBlockDigest_ h) root).

(** * Blocks *)

Record BlockSignature := mkBlockSignature {
  sig_signature : list string; sig_public_key : SigKey; sig_validator_id : Z; sig_round : Z
}.

Record Block := mkBlock {
  header_ : Header;
  txs_ : list Transaction;
  validatorSigs_ : list BlockSignature;
  validator_sig_ : list string;
  validator_id_ : Z;                      (** [uint16_t] *)
  validator_next_public_key_ : SigKey;
  id_ : Z;                                (** [uint64_t] *)
  empty_ : bool;
  mutable_ : bool
}.

(** The constructors; they leave [validator_id_] without a value, here what [memory] held. *)
Definition Block_new (memory id : Z) (prevBlockDigest : string) : Block :=
  mkBlock (Header_new prevBlockDigest) [] [] [] memory SigKey_empty id false true.
Definition Block_empty (memory : Z) : Block :=
  mkBlock (Header_new "") [] [] [] memory SigKey_empty 0 true true.

Definition addTransaction (b : Block) (tx : Transaction) : outcome Block :=
  if mutable_ b
  then Ok (mkBlock (header_ b) (txs_ b ++ [tx]) (validatorSigs_ b) (validator_sig_ b)
             (validator_id_ b) (validator_next_public_key_ b) (id_ b) (empty_ b) (mutable_ b))
  else Throw (runtime_error "Cannot add transaction to an immutable block.").

Definition finalize (b : Block) : outcome Block :=
  if negb (mutable_ b) then Throw (runtime_error "Cannot finalize immutable block.")
  else
    h ← calculateMerkleRoot (header_ b) (txs_ b);
    Ok (mkBlock h (txs_ b) (validatorSigs_ b) (validator_sig_ b) (validator_id_ b)
          (validator_next_public_key_ b) (id_ b) (empty_ b) false).

(** ** Verification *)

(** [std::set<Input>::insert]: nothing is inserted when neither is less than the other. *)
Definition set_insert (s : list Input) (i : Input) : list Input :=
  if existsb (fun x => negb (Input_ltb x i) && negb (Input_ltb i x)) s then s else s ++ [i].

(** The loop over the transactions: the number of inputs (an [int]) and the set of them. *)
Fixpoint verify_loop (utxolist : UTXOlist) (receiverIDs : list Z) (txs : list Transaction)
    (n : Z) (all_inputs : list Input) : bool :=
  match txs with
  | [] => u64 n =? Z.of_nat (length all_inputs)
  | transaction :: txs' =>
      if negb (checkSpendingConditions transaction utxolist receiverIDs) then false
      else
        let inputs := inputs_ transaction in
        verify_loop utxolist receiverIDs txs' (i32 (u64 n + Z.of_nat (length inputs)))
          (foldl set_insert all_inputs inputs)
  end.

Definition Block_verify (b : Block) (utxolist : UTXOlist) (receiverIDs : list Z) : bool :=
  verify_loop utxolist receiverIDs (txs_ b) 0 [].

Definition verifyTxConsist (b : Block) (new_tx : Transaction) : bool :=
  forallb (fun tx => forallb (fun input => negb (existsb (Input_eqb input) (inputs_ new_tx)))
                       (inputs_ tx)) (txs_ b).

(** ** Digest and signatures *)

Definition Block_getDigest (b : Block) : outcome string :=
  if mutable_ b then Throw (runtime_error "Cannot digest mutable block.")
  else
    let input_str := Header_getID (header_ b) +:+ pretty (validator_id_ b) in
    k ← (if has_key (validator_next_public_key_ b)
         then SigKey_to_string (validator_next_public_key_ b) else Ok "");
    Ok (hash (input_str +:+ k)).

(** [getDigest() const] calls itself: the recursion never ends, whatever the fuel. *)
Fixpoint Block_getDigest_const (fuel : nat) (b : Block) : option string :=
  match fuel with O => None | S fuel' => Block_getDigest_const fuel' b end.

Definition Block_sign (b : Block) (signing_key : SigKey) (validator_id : Z)
    (next_public_key : SigKey) : outcome Block :=
  if mutable_ b then Throw (runtime_error "Cannot sign mutable block.")
  else
    let b := mkBlock (header_ b) (txs_ b) (validatorSigs_ b) (validator_sig_ b) validator_id
               next_public_key (id_ b) (empty_ b) (mutable_ b) in
    digest_str ← Block_getDigest b;
    sig ← Sign digest_str signing_key;
    Ok (mkBlock (header_ b) (txs_ b) (validatorSigs_ b) sig (validator_id_ b)
          (validator_next_public_key_ b) (id_ b) (empty_ b) (mutable_ b)).

Definition verifySignature (b : Block) (public_key : SigKey) : outcome bool :=
  digest_str ← Block_getDigest b;
  r ← Verify digest_str (validator_sig_ b) public_key;
  Ok (r =? 1).

Definition addValidatorSignature (b : Block) (sig : BlockSignature) : Block :=
  mkBlock (header_ b) (txs_ b) (validatorSigs_ b ++ [sig]) (validator_sig_ b) (validator_id_ b)
    (validator_next_public_key_ b) (id_ b) (empty_ b) (mutable_ b).

Definition removeSignatures (b : Block) : Block :=
  mkBlock (header_ b) (txs_ b) [] [] 0 SigKey_empty (id_ b) (empty_ b) (mutable_ b).
End WithHash.

(** ** Order and equality *)

Definition Block_ltb (a b : Block) : bool :=
  if empty_ a && empty_ b then false else id_ a <? id_ b.
Definition Block_gtb (a b : Block) : bool :=
  if empty_ a && empty_ b then false else id_ b <? id_ a.

Definition BlockSignature_eqb (a b : BlockSignature) : bool :=
  bool_decide (sig_signature a = sig_signature b) && SigKey_eqb (sig_public_key a) (sig_public_key b)
  && (sig_validator_id a =? sig_validator_id b) && (sig_round a =? sig_round b).

(** [operator==], its comparisons in order. *)
Definition Block_eqb (a b : Block) : bool :=
  if negb (id_ a =? id_ b) then false
  else if negb (Header_eqb (header_ a) (header_ b)) then false
  else if negb (length (txs_ a) =? length (txs_ b))%nat then false
  else if existsb (fun '(x, y) => negb (Transaction_eqb x y)) (zip (txs_ a) (txs_ b)) then false
  else if bool_decide (validator_sig_ a <> validator_sig_ b) then false
  else if negb (validator_id_ a =? validator_id_ b) then false
  else if SigKey_neqb (validator_next_public_key_ a) (validator_next_public_key_ b) then false
  else if negb (length (validatorSigs_ a) =? length (validatorSigs_ b))%nat then false
  else if existsb (fun '(x, y) =>
      negb (sig_validator_id x =? sig_validator_id y)
      || bool_decide (sig_signature x <> sig_signature y)
      || negb (sig_round x =? sig_round y)
      || SigKey_neqb (sig_public_key x) (sig_public_key y))
      (zip (validatorSigs_ a) (validatorSigs_ b)) then false
  else true.

(** ** Protocol buffers *)

Definition toProtoBlock (b : Block) (p : BlockMsg) : outcome BlockMsg :=
  if mutable_ b then Throw (runtime_error "Cannot convert mutable block.")
  else
    txs ← outcome_mapM (fun tx => toProtoTransaction tx chat.TransactionMsg_default) (txs_ b);
    let sigs := foldl (fun l s => l ++ [s]) (validatorsig p) (validator_sig_ b) in
    key ← SigKey_to_string (validator_next_public_key_ b);
    Ok (mkBlockMsg (toProtoHeader (header_ b)) (id_ b) (transaction p ++ txs) sigs
          (u32 (validator_id_ b)) key).

(** The transactions are read into default objects, whose members hold what [memory] held, and
    appended to those the block has. *)
Definition fromProtoBlock (memory : Z * Z) (b : Block) (p : BlockMsg) : outcome Block :=
  txs ← outcome_mapM (fromProtoTransaction (Transaction_default memory)) (transaction p);
  let sigs := foldl (fun l s => l ++ [s]) [] (validatorsig p) in
  key ← SigKey_from_string (publickey p);
  Ok (mkBlock (Header_from_proto (header p)) (txs_ b ++ txs) (validatorSigs_ b) sigs
        (u16 (validatorid p)) key (blockid p) false false).

(** The constructor from a message: the same on an object without transactions. *)
Definition Block_from_proto (memory : Z * Z) (p : BlockMsg) : outcome Block :=
  fromProtoBlock memory (mkBlock (Header_new "") [] [] [] 0 SigKey_empty 0 false true) p.

(** ** JSON text *)

Definition BlockSignature_to_json (s : BlockSignature) : outcome json :=
  sig ← signature_to_json (sig_signature s);
  key ← SigKey_to_string (sig_public_key s);
  j ← jset JNull "validator_id" (JInt (sig_validator_id s));
  j ← jset j "signature" (JStr sig);
  j ← jset j "round" (JInt (sig_round s));
  jset j "public_key" (JStr key).

Definition BlockSignature_from_json (el : json) : outcome BlockSignature :=
  v ← jat el "validator_id"; validator_id ← jget_int u16 v;
  v ← jat el "signature"; s ← jget_string v; sig ← json_to_string s;
  v ← jat el "round"; round ← jget_int u16 v;
  v ← jat el "public_key"; s ← jget_string v; key ← SigKey_from_string s;
  Ok (mkBlockSignature sig key validator_id round).

Definition Block_to_string (b : Block) : outcome string :=
  h ← Header_to_string (header_ b);
  j ← jset JNull "header" (JStr h);
  j ← jset j "blockID" (JInt (id_ b));
  j ← foldM (fun j tx => v ← JStr <$> Transaction_to_string tx; jset_push j "transactions" v)
        j (txs_ b);
  s ← signature_to_json (validator_sig_ b);
  j ← jset j "validatorSig" (JStr s);
  j ← jset j "validatorID" (JInt (validator_id_ b));
  k ← SigKey_to_string (validator_next_public_key_ b);
  j ← jset j "publicKey" (JStr k);
  j ← foldM (fun j sig => v ← BlockSignature_to_json sig; jset_push j "validatorSigs" v)
        j (validatorSigs_ b);
  jdump j.

Definition Block_from_string (memory : Z * Z) (b : Block) (block_string : string) : outcome Block :=
  j ← jparse block_string;
  v ← jat j "header"; s ← jget_string v; header ← Header_from_string s;
  v ← jat j "blockID"; id ← jget_u64 v;
  a ← jat j "transactions";
  txs ← outcome_mapM (fun v => el ← jget_string v;
                       Transaction_from_string (Transaction_default memory) el) (jelems a);
  v ← jat j "validatorSig"; s ← jget_string v; validator_sig ← json_to_string s;
  v ← jat j "validatorID"; validator_id ← jget_int u16 v;
  v ← jat j "publicKey"; s ← jget_string v; key ← SigKey_from_string s;
  sigs ← (if jcontains j "validatorSigs"
          then a ← jat j "validatorSigs"; outcome_mapM BlockSignature_from_json (jelems a)
          else Ok []);
  Ok (mkBlock header txs sigs validator_sig validator_id key id false false).

(** * The Merkle root *)

Section Merkle.
Context `{Hash}.

Lemma make_even_even l : Nat.even (length (make_even l)) = true.
Proof.
  unfold make_even. destruct (Nat.odd (length l)) eqn:E.
  - rewrite length_app, Nat.add_1_r, Nat.even_succ. done.
  - by rewrite <- Nat.negb_odd, E.
Qed.

(** Induction on lists of even length, two elements at a time. *)
Lemma even_list_ind {A} (P : list A -> Prop) :
  P [] -> (forall a b l, P l -> P (a :: b :: l)) ->
  forall l, Nat.even (length l) = true -> P l.
Proof.
  intros Hnil Hcons l Hl. remember (length l) as n eqn:E. revert l E Hl.
  induction n as [n IH] using lt_wf_ind. intros l -> Hl.
  destruct l as [|a [|b l]]; [done|done|]. apply Hcons.
  eapply IH; [|reflexivity|done]. cbn. lia.
Qed.

Lemma hash_pairs_length l :
  Nat.even (length l) = true -> (2 * length (hash_pairs l))%nat = length l.
Proof. revert l. apply even_list_ind; [done|]. intros a b l IH. cbn in *. lia. Qed.

Lemma make_even_length l : length (make_even l) = (length l + Nat.b2n (Nat.odd (length l)))%nat.
Proof. unfold make_even. destruct (Nat.odd (length l)); rewrite ?length_app; cbn; lia. Qed.

Lemma round_length l :
  (2 <= length l)%nat -> (1 <= length (hash_pairs (make_even l)) < length l)%nat.
Proof.
  intros Hl. pose proof (hash_pairs_length _ (make_even_even l)) as He.
  rewrite make_even_length in He. destruct (Nat.odd (length l)) eqn:Ho; cbn in He.
  - assert (length l <> 2%nat) by (intros E; by rewrite E in Ho). lia.
  - lia.
Qed.

(** The loop ends with one hash. *)
Lemma merkle_loop_total fuel : forall l, (1 <= length l <= fuel)%nat ->
  exists h, merkle_loop fuel l = Ok [h].
Proof.
  induction fuel as [|fuel IH]; intros l Hl; [lia|]. cbn [merkle_loop].
  destruct (Nat.leb_spec (length l) 1).
  - destruct l as [|h [|h' l]]; cbn in *; [lia|by exists h|lia].
  - apply IH. pose proof (round_length l). lia.
Qed.

Lemma merkle_loop_unfold fuel l :
  merkle_loop (S fuel) l =
  if (length l <=? 1)%nat then Ok l else merkle_loop fuel (hash_pairs (make_even l)).
Proof. reflexivity. Qed.

(** More fuel does not change a result. *)
Lemma merkle_loop_S fuel : forall l r, merkle_loop fuel l = Ok r -> merkle_loop (S fuel) l = Ok r.
Proof.
  induction fuel as [|fuel IH]; intros l r; cbn [merkle_loop];
    destruct (length l <=? 1)%nat; try done. intros E. apply IH in E. exact E.
Qed.

Lemma merkle_root_loop txs : txs <> [] ->
  exists h, merkle_loop (length txs) (map getDigest txs) = Ok [h] /\ merkle_root txs = Ok h.
Proof.
  intros Hne. destruct (merkle_loop_total (length txs) (map getDigest txs)) as [h Hh].
  { rewrite length_map. destruct txs; [done|cbn; lia]. }
  exists h. split; [done|]. unfold merkle_root. destruct txs as [|t txs]; [done|].
  by rewrite length_map, Hh.
Qed.

Lemma merkle_root_total txs : exists r, merkle_root txs = Ok r.
Proof.
  destruct (decide (txs = [])) as [->|Hne]; [by exists ""|].
  destruct (merkle_root_loop txs Hne) as (h & _ & ->). eauto.
Qed.

(** ** What the root binds *)

(** The strings hashed in one round, and in all rounds. *)
Fixpoint pair_concats (l : list string) : list string :=
  match l with a :: b :: l' => (a +:+ b) :: pair_concats l' | _ => [] end.

Fixpoint inner_preimages (fuel : nat) (l : list string) : list string :=
  if (length l <=? 1)%nat then []
  else match fuel with
       | O => []
       | S fuel' => pair_concats (make_even l) ++ inner_preimages fuel' (hash_pairs (make_even l))
       end.

(** Every string hashed to compute the root of a list of transactions. *)
Definition merkle_preimages (txs : list Transaction) : list string :=
  map getStringDigest txs ++ inner_preimages (length txs) (map getDigest txs).

(** Two strings of the lists that collide. *)
Definition collision_in (l1 l2 : list string) : Prop :=
  exists x y, x ∈ l1 /\ y ∈ l2 /\ x <> y /\ hash x = hash y.

Lemma collision_in_mono l1 l2 l1' l2' :
  l1 ⊆ l1' -> l2 ⊆ l2' -> collision_in l1 l2 -> collision_in l1' l2'.
Proof. intros H1 H2 (x & y & Hx & Hy & Hn & Hh). exists x, y. split_and!; auto. Qed.

Lemma string_app_inj_length (a b c d : string) :
  String.length a = String.length c -> a +:+ b = c +:+ d -> a = c /\ b = d.
Proof.
  revert c. induction a as [|x a IH]; intros [|y c] Hl E; try done.
  rewrite !string_app_cons in E. injection E as -> E. injection Hl as Hl.
  destruct (IH c Hl E) as [-> ->]. done.
Qed.

Definition all64 (l : list string) : Prop := Forall (fun s => String.length s = 64%nat) l.

Lemma hash_pairs_inj l1 : Nat.even (length l1) = true -> forall l2,
  length l1 = length l2 -> all64 l1 -> all64 l2 -> hash_pairs l1 = hash_pairs l2 ->
  l1 = l2 \/ collision_in (pair_concats l1) (pair_concats l2).
Proof.
  revert l1. refine (even_list_ind _ _ _).
  - intros [|b l2] Hl; [by left|done].
  - intros a b l1 IH [|c [|d l2]] Hl H1 H2 E; [done..|].
    apply Forall_cons in H1 as [Ha H1]. apply Forall_cons in H1 as [Hb H1].
    apply Forall_cons in H2 as [Hc H2]. apply Forall_cons in H2 as [Hd H2].
    injection Hl as Hl. injection E as Eh E.
    destruct (decide (a +:+ b = c +:+ d)) as [Eab|Nab].
    + apply string_app_inj_length in Eab as [-> ->]; [|congruence].
      destruct (IH l2 Hl H1 H2 E) as [->|Hcol]; [by left|right].
      eapply collision_in_mono; [| |exact Hcol]; cbn; set_solver.
    + right. exists (a +:+ b), (c +:+ d). cbn. split_and!; [set_solver|set_solver|done|done].
Qed.

Lemma make_even_inj l1 l2 : length l1 = length l2 -> make_even l1 = make_even l2 -> l1 = l2.
Proof.
  intros Hl. unfold make_even. rewrite Hl. destruct (Nat.odd (length l2)); [|done].
  intros E. by apply app_inj_1 in E as [-> _].
Qed.

Lemma make_even_all64 l : all64 l -> all64 (make_even l).
Proof.
  intros Hl. unfold make_even. destruct (Nat.odd (length l)) eqn:E; [|done].
  apply Forall_app. split; [done|]. constructor; [|done].
  destruct l as [|x l] using rev_ind; [done|]. rewrite last_last.
  apply Forall_app in Hl as [_ Hl]. by apply Forall_cons in Hl as [Hl _].
Qed.

Lemma hash_pairs_all64 l : Nat.even (length l) = true -> all64 (hash_pairs l).
Proof.
  revert l. apply even_list_ind; [constructor|]. intros a b l IH. cbn. constructor; [apply hash_length|done].
Qed.

Lemma merkle_loop_inj fuel : forall l1 l2,
  length l1 = length l2 -> (length l1 <= fuel)%nat -> all64 l1 -> all64 l2 ->
  merkle_loop fuel l1 = merkle_loop fuel l2 ->
  l1 = l2 \/ collision_in (inner_preimages fuel l1) (inner_preimages fuel l2).
Proof.
  induction fuel as [|fuel IH]; intros l1 l2 Hl Hf H1 H2 E; cbn [merkle_loop inner_preimages] in *;
    rewrite <- Hl in *.
  { destruct l1; [|cbn in Hf; lia]. destruct l2; [by left|done]. }
  destruct (Nat.leb_spec (length l1) 1); [left; by injection E|].
  assert (Hle : length (make_even l1) = length (make_even l2)) by (by rewrite !make_even_length, Hl).
  pose proof (hash_pairs_length _ (make_even_even l1)) as L1.
  pose proof (hash_pairs_length _ (make_even_even l2)) as L2.
  pose proof (round_length l1) as Lr.
  destruct (IH (hash_pairs (make_even l1)) (hash_pairs (make_even l2))) as [Ep|Hcol];
    [lia|lia|by apply hash_pairs_all64, make_even_even..|done| |].
  - destruct (hash_pairs_inj _ (make_even_even l1) _ Hle) as [Em|Hcol];
      [by apply make_even_all64..|done|left; by apply make_even_inj|right].
    eapply collision_in_mono; [| |exact Hcol]; set_solver.
  - right. eapply collision_in_mono; [| |exact Hcol]; set_solver.
Qed.

Lemma digests_inj txs1 : forall txs2,
  map getDigest txs1 = map getDigest txs2 ->
  map getStringDigest txs1 = map getStringDigest txs2 \/
  collision_in (map getStringDigest txs1) (map getStringDigest txs2).
Proof.
  induction txs1 as [|t1 txs1 IH]; intros [|t2 txs2] E; try done; [by left|]. cbn in *.
  injection E as Eh E. destruct (decide (getStringDigest t1 = getStringDigest t2)) as [->|N].
  - destruct (IH txs2 E) as [->|Hcol]; [by left|right].
    eapply collision_in_mono; [| |exact Hcol]; set_solver.
  - right. exists (getStringDigest t1), (getStringDigest t2). split_and!; [set_solver..|done|done].
Qed.

(** C28: the Merkle root is always computed, and for a given number of transactions it binds their
    string digests: equal roots mean equal string digests, or two different strings hashed on the
    way have the same hash. *)
Theorem merkle_binding (txs1 txs2 : list Transaction) :
  (exists r, merkle_root txs1 = Ok r) /\
  (length txs1 = length txs2 -> merkle_root txs1 = merkle_root txs2 ->
   map getStringDigest txs1 = map getStringDigest txs2 \/
   collision_in (merkle_preimages txs1) (merkle_preimages txs2)).
Proof.
  split; [apply merkle_root_total|]. intros Hl E.
  destruct (decide (txs1 = [])) as [->|N1]; [left; by destruct txs2|].
  assert (N2 : txs2 <> []) by (intros ->; by destruct txs1).
  destruct (merkle_root_loop txs1 N1) as (h1 & L1 & R1).
  destruct (merkle_root_loop txs2 N2) as (h2 & L2 & R2).
  rewrite R1, R2 in E. injection E as <-. rewrite <- Hl, <- L1 in L2.
  assert (Hmap : forall l, all64 (map getDigest l)).
  { intros l. apply Forall_map, Forall_forall. intros t _. apply hash_length. }
  unfold merkle_preimages. rewrite <- Hl.
  assert (length (map getDigest txs1) = length (map getDigest txs2)) as Lm
    by (rewrite !length_map; exact Hl).
  destruct (merkle_loop_inj (length txs1) _ _ Lm) as [Ed|Hcol];
    [by rewrite length_map|apply Hmap..|congruence| |].
  - destruct (digests_inj _ _ Ed) as [|Hcol]; [by left|right].
    eapply collision_in_mono; [| |exact Hcol]; set_solver.
  - right. eapply collision_in_mono; [| |exact Hcol]; set_solver.
Qed.

(** An odd number of transactions, three or more, has the same Merkle root as the list with its
    last transaction repeated. *)
Theorem merkle_duplicate (txs : list Transaction) (t : Transaction) :
  txs <> [] -> Nat.even (length txs) = true ->
  merkle_root (txs ++ [t]) = merkle_root (txs ++ [t; t]).
Proof.
  intros Hne Hev.
  assert (Hodd : Nat.odd (length txs) = false) by (by rewrite <- Nat.negb_even, Hev).
  assert (Hround : make_even (map getDigest (txs ++ [t])) = make_even (map getDigest (txs ++ [t; t]))).
  { unfold make_even. rewrite !length_map, !length_app. cbn [length].
    rewrite Nat.add_1_r, Nat.odd_succ, Hev, Nat.add_comm. cbn [Nat.add].
    rewrite !map_app. cbn [map]. rewrite last_last.
    rewrite Nat.odd_succ, Nat.even_succ, Hodd. by rewrite <- app_assoc. }
  destruct (merkle_root_loop (txs ++ [t])) as (h1 & L1 & R1); [by destruct txs|].
  destruct (merkle_root_loop (txs ++ [t; t])) as (h2 & L2 & R2); [by destruct txs|].
  rewrite R1, R2. f_equal.
  assert (Hlen : (2 <= length txs)%nat) by (destruct txs as [|a [|b txs]]; cbn in *; (done || lia)).
  rewrite length_app in L1, L2. cbn [length] in L1, L2.
  rewrite Nat.add_1_r in L1. replace (length txs + 2)%nat with (S (S (length txs))) in L2 by lia.
  rewrite merkle_loop_unfold, length_map, length_app in L1, L2. cbn [length] in L1, L2.
  destruct (Nat.leb_spec (length txs + 1) 1); [lia|].
  destruct (Nat.leb_spec (length txs + 2) 1); [lia|].
  rewrite Hround in L1. apply merkle_loop_S in L1. rewrite L1 in L2. by injection L2.
Qed.

End Merkle.

Lemma merkle_binding_witness :
  let t := Transaction_new2 1 1 in
  (exists r, @merkle_root test_hash [t] = Ok r) /\
  (map getStringDigest [t] = map getStringDigest [t] \/
   @collision_in test_hash (@merkle_preimages test_hash [t]) (@merkle_preimages test_hash [t])).
Proof.
  split; [|apply (proj2 (@merkle_binding test_hash _ _)); reflexivity].
  apply (proj1 (@merkle_binding test_hash [Transaction_new2 1 1] [])).
Defined.

Lemma merkle_duplicate_witness :
  let t := Transaction_new2 1 1 in
  @merkle_root test_hash ([t; t] ++ [Transaction_new2 2 1])
  = @merkle_root test_hash ([t; t] ++ [Transaction_new2 2 1; Transaction_new2 2 1]).
Proof.
  apply (@merkle_duplicate test_hash [Transaction_new2 1 1; Transaction_new2 1 1]); done.
Defined.

(** * Verification *)

Lemma Input_ltb_total a b : negb (Input_ltb a b) && negb (Input_ltb b a) = true <-> a = b.
Proof.
  destruct a as [x y], b as [x' y']. unfold Input_ltb. cbn.
  rewrite andb_true_iff, !negb_true_iff. split.
  - intros [H1 H2]. destruct (Z.ltb_spec x x'), (Z.eqb_spec x x'), (Z.ltb_spec x' x),
      (Z.eqb_spec x' x); try done; try lia. subst. f_equal.
    apply Z.ltb_ge in H1, H2. lia.
  - intros [= -> ->]. by rewrite !Z.ltb_irrefl, Z.eqb_refl.
Qed.

Lemma set_insert_spec s i : set_insert s i = if decide (i ∈ s) then s else s ++ [i].
Proof.
  unfold set_insert. destruct (existsb _ s) eqn:E; case_decide as Hi; try done; exfalso.
  - apply existsb_exists in E as (x & Hx & E). apply Input_ltb_total in E as ->.
    apply Hi. by apply list_elem_of_In.
  - apply not_true_iff_false in E. apply E, existsb_exists. exists i.
    split; [by apply list_elem_of_In|]. by apply Input_ltb_total.
Qed.

(** Inserting a list one by one keeps its length exactly when nothing occurs twice. *)
Lemma set_inserts_length l : forall s, NoDup s ->
  NoDup (foldl set_insert s l) /\ (length (foldl set_insert s l) <= length s + length l)%nat /\
  (length (foldl set_insert s l) = (length s + length l)%nat <-> NoDup (s ++ l)) /\
  (NoDup (s ++ l) -> foldl set_insert s l = s ++ l).
Proof.
  induction l as [|i l IH]; intros s Hs; cbn [foldl length].
  { rewrite Nat.add_0_r, app_nil_r. split_and!; [done|lia|done|done]. }
  rewrite set_insert_spec. case_decide as Hi.
  - destruct (IH s Hs) as (N & L & _ & _). split_and!; [done|lia| |].
    + split; [lia|]. intros Hd. exfalso. rewrite NoDup_app in Hd.
      destruct Hd as (_ & Hd & _). apply (Hd i Hi). by left.
    + intros Hd. exfalso. rewrite NoDup_app in Hd.
      destruct Hd as (_ & Hd & _). apply (Hd i Hi). by left.
  - assert (Hs' : NoDup (s ++ [i])).
    { rewrite NoDup_app. split_and!; [done| |apply NoDup_singleton].
      intros x Hx Hxi. apply list_elem_of_singleton in Hxi as ->. done. }
    destruct (IH _ Hs') as (N & L & Hiff & Heq). rewrite length_app in L, Hiff. cbn in L, Hiff.
    rewrite <- app_assoc in Hiff, Heq. cbn in Hiff, Heq. split_and!; [done|lia| |done].
    rewrite <- Hiff. lia.
Qed.

Definition all_inputs (txs : list Transaction) : list Input := concat (map inputs_ txs).

Lemma verify_loop_spec l w txs : forall n s,
  NoDup s -> Z.of_nat (n + length (all_inputs txs)) < 2 ^ 31 -> (length s <= n)%nat ->
  verify_loop l w txs (Z.of_nat n) s = true <->
  Forall (fun t => checkSpendingConditions t l w = true) txs /\
  length s = n /\ NoDup (s ++ all_inputs txs).
Proof.
  induction txs as [|t txs IH]; intros n s Hs Hn Hl; cbn [verify_loop].
  - unfold all_inputs in *. cbn in *. rewrite app_nil_r, u64_small by (unfold is_u64; lia).
    rewrite Z.eqb_eq, Forall_nil. split; [|intros (_ & -> & _); done].
    intros E. split_and!; [done|lia|done].
  - destruct (checkSpendingConditions t l w) eqn:Hc; cbn [negb].
    2: { split; [done|]. intros [Hf _]. apply Forall_cons in Hf as [Hf _]. by rewrite Hf in Hc. }
    unfold all_inputs in *. cbn [map concat] in *. rewrite length_app in Hn.
    destruct (set_inserts_length (inputs_ t) s Hs) as (N & L & Hiff & Heq).
    replace (i32 (u64 (Z.of_nat n) + Z.of_nat (length (inputs_ t))))
      with (Z.of_nat (n + length (inputs_ t))%nat).
    2: { rewrite u64_small by (unfold is_u64; lia). unfold i32. rewrite Z.mod_small; lia. }
    rewrite IH; [|done|lia|lia]. rewrite Forall_cons, app_assoc. split.
    + intros (Hf & Hlen & Hd). assert (length s = n) by lia. subst n.
      rewrite Heq in Hd by (by apply Hiff). done.
    + intros ([_ Hf] & <- & Hd). assert (NoDup (s ++ inputs_ t)) as Hd' by (rewrite NoDup_app in Hd; apply Hd).
      rewrite Heq by done. split_and!; [done|by rewrite length_app|done].
Qed.

Lemma Block_verify_iff (b : Block) (l : UTXOlist) (w : list Z) :
  Z.of_nat (length (all_inputs (txs_ b))) < 2 ^ 31 ->
  Block_verify b l w = true <->
  Forall (fun t => checkSpendingConditions t l w = true) (txs_ b) /\ NoDup (all_inputs (txs_ b)).
Proof.
  intros Hn. unfold Block_verify. change 0 with (Z.of_nat 0).
  rewrite verify_loop_spec; [|constructor|done|done]. cbn. split; [by intros (? & _ & ?)|].
  by intros [? ?].
Qed.

(** C21: a block verifies exactly if each transaction meets the spending conditions and no input occurs
    twice in the whole block, in one transaction or in two. *)
Theorem Block_verify_spec (b : Block) (l : UTXOlist) (w : list Z) :
  Z.of_nat (length (all_inputs (txs_ b))) < 2 ^ 31 ->
  Block_verify b l w = true <->
  Forall (fun t => checkSpendingConditions t l w = true) (txs_ b) /\ NoDup (all_inputs (txs_ b)).
Proof. apply Block_verify_iff. Qed.

Lemma Block_verify_spec_witness :
  let t := mkTransaction [mkInput 1 0] [mkOutput 10 7] [] 7 2 SigKey_empty in
  let b := mkBlock (Header_new "") [t; t] [] [] 0 SigKey_empty 0 false true in
  let l := [mkUTXO 1 0 (mkOutput 10 7)] in
  Block_verify b l [7] = true <->
  Forall (fun t => checkSpendingConditions t l [7] = true) [t; t] /\
  NoDup (all_inputs [t; t]).
Proof.
  set (t := mkTransaction _ _ _ _ _ _).
  apply (Block_verify_spec (mkBlock (Header_new "") [t; t] [] [] 0 SigKey_empty 0 false true)).
  reflexivity.
Defined.

(** * The life cycle *)

Section Life.
Context `{Hash}.

(** What the program does to a block it creates. *)
Inductive block_step : Block -> Block -> Prop :=
| step_add b tx b' : addTransaction b tx = Ok b' -> block_step b b'
| step_finalize b b' : finalize b = Ok b' -> block_step b b'
| step_sign b sk id next b' : Block_sign b sk id next = Ok b' -> block_step b b'
| step_add_signature b sig : block_step b (addValidatorSignature b sig)
| step_remove b : block_step b (removeSignatures b).

(** An immutable block has the root of its transactions. *)
Definition rooted (b : Block) : Prop :=
  mutable_ b = false -> merkle_root (txs_ b) = Ok (merkleRoot_ (header_ b)).

(** What a signature covers is fixed. *)
Definition same_content (b b' : Block) : Prop :=
  header_ b' = header_ b /\ txs_ b' = txs_ b /\ id_ b' = id_ b /\ mutable_ b' = mutable_ b.

#[export] Instance same_content_preorder : PreOrder same_content.
Proof.
  split; [done|]. intros a b c (A & B & C & D) (A' & B' & C' & D'). unfold same_content. by split_and!; etrans.
Qed.

Lemma Block_sign_inv b sk id next b' : Block_sign b sk id next = Ok b' ->
  mutable_ b = false /\ same_content b b' /\ validator_id_ b' = id /\
  validator_next_public_key_ b' = next /\
  exists d, Block_getDigest b' = Ok d /\ Sign d sk = Ok (validator_sig_ b').
Proof.
  unfold Block_sign. destruct (mutable_ b) eqn:Hm; [done|].
  set (b1 := mkBlock _ _ _ _ _ _ _ _ _).
  destruct (Block_getDigest b1) as [d| | |] eqn:Hd; cbn [mbind outcome_bind]; [|done..].
  destruct (Sign d sk) as [sig| | |] eqn:Hs; cbn [mbind outcome_bind]; [|done..].
  intros [= <-]. unfold same_content. cbn. split_and!; try done. exists d. split; [|done]. exact Hd.
Qed.

Lemma block_step_rooted b b' : block_step b b' -> rooted b -> rooted b'.
Proof.
  unfold rooted. intros [b0 tx b1 Hb|b0 b1 Hb|b0 sk id next b1 Hb|b0 sig|b0] Hr Hm.
  - unfold addTransaction in Hb. destruct (mutable_ b0) eqn:E; by simplify_eq.
  - unfold finalize in Hb. destruct (mutable_ b0) eqn:E; [|done]. cbn [negb] in Hb.
    unfold calculateMerkleRoot in Hb.
    destruct (merkle_root (txs_ b0)) as [r| | |] eqn:Er; simplify_eq/=. done.
  - apply Block_sign_inv in Hb as (Hm0 & (-> & -> & _) & _). auto.
  - auto.
  - auto.
Qed.

Lemma block_step_content b b' : block_step b b' -> mutable_ b = false -> same_content b b'.
Proof.
  intros [b0 tx b1 Hb|b0 b1 Hb|b0 sk id next b1 Hb|b0 sig|b0] Hm; [| | |done|done].
  - unfold addTransaction in Hb. by rewrite Hm in Hb.
  - unfold finalize in Hb. by rewrite Hm in Hb.
  - by apply Block_sign_inv in Hb as (_ & Hc & _).
Qed.


(** * Signatures *)

Lemma Block_sign_ok (b : Block) (pk sk next : SigKey) (id : Z) :
  key_pair pk sk -> key_wf next -> mutable_ b = false ->
  exists b', Block_sign b sk id next = Ok b' /\ verifySignature b' pk = Ok true.
Proof.
  intros Hp Hk Hm.
  assert (Hd : exists d, Block_getDigest (mkBlock (header_ b) (txs_ b) (validatorSigs_ b)
    (validator_sig_ b) id next (id_ b) (empty_ b) (mutable_ b)) = Ok d).
  { unfold Block_getDigest. cbn [mutable_]. rewrite Hm. cbn [validator_next_public_key_].
    destruct (key_text _ Hk) as [[-> _]|(-> & k & -> & _)]; by eexists. }
  destruct Hd as [d Hd]. destruct (sign_verify d pk sk Hp) as (sig & Hs & Hv).
  set (b' := mkBlock (header_ b) (txs_ b) (validatorSigs_ b) sig id next (id_ b) (empty_ b) (mutable_ b)).
  exists b'. split.
  - unfold Block_sign. rewrite Hm in Hd |- *. rewrite Hd. cbn [mbind outcome_bind]. rewrite Hs.
    unfold b'. by rewrite Hm.
  - unfold verifySignature. change (Block_getDigest b') with (Block_getDigest (mkBlock (header_ b)
      (txs_ b) (validatorSigs_ b) (validator_sig_ b) id next (id_ b) (empty_ b) (mutable_ b))).
    rewrite Hd. cbn [mbind outcome_bind validator_sig_ b']. by rewrite Hv.
Qed.

(** Signing a block succeeds exactly on immutable blocks, and the signature verifies under the
    public key of the pair; a mutable block can neither be signed, nor digested, nor sent. *)
Theorem sign_then_verify (b : Block) (pk sk next : SigKey) (id : Z) :
  key_pair pk sk -> key_wf next ->
  if mutable_ b then
    (exists e, Block_sign b sk id next = Throw e) /\ (exists e, Block_getDigest b = Throw e) /\
    forall p, exists e, toProtoBlock b p = Throw e
  else
    exists b', Block_sign b sk id next = Ok b' /\ verifySignature b' pk = Ok true /\
      same_content b b' /\ validator_id_ b' = id /\ validator_next_public_key_ b' = next.
Proof.
  intros Hp Hk. destruct (mutable_ b) eqn:Hm.
  { unfold Block_sign, Block_getDigest, toProtoBlock. rewrite Hm. split_and!; [by eexists..|by intros; eexists]. }
  destruct (Block_sign_ok b pk sk next id Hp Hk Hm) as (b' & Hs & Hv). exists b'.
  by destruct (Block_sign_inv _ _ _ _ _ Hs) as (_ & Hc & Hid & Hn & _).
Qed.

(** What a received block is identified by and signed over does not include its transactions or
    its number: the Merkle root is taken from the message and never recomputed, so that replacing
    both in a message leaves the digest and the verdict on the signature as they are. *)
Theorem digest_ignores_transactions (memory : Z * Z) (p : BlockMsg) (b : Block)
    (txs' : list chat.TransactionMsg) (ts' : list Transaction) (id' : Z) :
  Block_from_proto memory p = Ok b ->
  outcome_mapM (fromProtoTransaction (Transaction_default memory)) txs' = Ok ts' ->
  exists b',
    Block_from_proto memory
      (mkBlockMsg (header p) id' txs' (validatorsig p) (validatorid p) (publickey p)) = Ok b' /\
    txs_ b' = ts' /\ id_ b' = id' /\
    Block_getDigest b' = Block_getDigest b /\
    forall pk, verifySignature b' pk = verifySignature b pk.
Proof.
  unfold Block_from_proto, fromProtoBlock. cbn [header blockid transaction validatorsig validatorid publickey].
  intros Hb Hts. rewrite Hts. cbn [mbind outcome_bind].
  destruct (outcome_mapM _ (transaction p)) as [ts| | |]; cbn [mbind outcome_bind] in *; [|done..].
  destruct (SigKey_from_string (publickey p)) as [key| | |]; cbn [mbind outcome_bind] in *; [|done..].
  simplify_eq. eexists. split; [done|]. by split_and!.
Qed.
End Life.

(** * Round trips *)

Definition utf8 (s : string) : Prop := utf8_valid [] s = true.

Lemma Header_text h : utf8 (prevBlockDigest_ h) -> utf8 (merkleRoot_ h) ->
  text_roundtrip (Header_to_string h) Header_from_string h.
Proof.
  intros H1 H2. unfold text_roundtrip.
  destruct (jdump_total None (JObj [("merkleRoot", JStr (merkleRoot_ h));
    ("prevBlockDigest", JStr (prevBlockDigest_ h))])) as (s & Hs & Hp & _ & Hu).
  { done. }
  { cbn -[utf8_valid]. by rewrite H1, H2. }
  exists s. split_and!; [exact Hs| |done]. unfold Header_from_string. rewrite Hp. jsimpl. by destruct h.
Qed.

(** A complete key with UTF-8 strings. *)
Definition full_text_key (key : SigKey) : Prop :=
  full_key key /\ Forall utf8 (S0 key ++ S1 key).

Lemma full_key_text key : full_text_key key -> text_roundtrip (SigKey_to_string key) SigKey_from_string key.
Proof. intros [[H0 H1] Hu]. by apply SigKey_text. Qed.

Definition BlockSignature_wf (s : BlockSignature) : Prop :=
  Forall (fun x => String.length x = 32%nat) (sig_signature s) /\ full_text_key (sig_public_key s) /\
  is_u16 (sig_validator_id s) /\ is_u16 (sig_round s).

(** The values of the entries of ["validatorSigs"]. *)
Lemma BlockSignature_json s : BlockSignature_wf s ->
  exists v, BlockSignature_to_json s = Ok v /\ BlockSignature_from_json v = Ok s /\
    json_wf v = true /\ json_utf8 v = true.
Proof.
  intros (Hs & Hk & Hi & Hr). destruct (signature_text _ Hs) as (sig & Ts & Fs & Us).
  destruct (full_key_text _ Hk) as (key & Tk & Fk & Uk).
  exists (JObj [("public_key", JStr key); ("round", JInt (sig_round s)); ("signature", JStr sig);
    ("validator_id", JInt (sig_validator_id s))]).
  unfold BlockSignature_to_json. rewrite Ts, Tk. split_and!; [reflexivity| | |].
  - unfold BlockSignature_from_json. jsimpl. rewrite Fs. jsimpl. rewrite Fk. jsimpl.
    rewrite !u16_small by done. by destruct s.
  - cbn. by rewrite (int_fits_u16 (sig_round s)), (int_fits_u16 (sig_validator_id s)).
  - cbn -[utf8_valid]. by rewrite Us, Uk.
Qed.

Lemma BlockSignatures_json l : Forall BlockSignature_wf l ->
  exists vs, outcome_mapM BlockSignature_to_json l = Ok vs /\
    outcome_mapM BlockSignature_from_json vs = Ok l /\
    forallb json_wf vs = true /\ forallb json_utf8 vs = true.
Proof.
  induction 1 as [|s l Hs _ (vs & T & F & W & U)]; [by exists []|].
  destruct (BlockSignature_json s Hs) as (v & Tv & Fv & Wv & Uv).
  exists (v :: vs). cbn. rewrite Tv. cbn. rewrite T. cbn. rewrite Fv. cbn. rewrite F. cbn.
  by rewrite Wv, Uv.
Qed.

Definition Block_wf (b : Block) : Prop :=
  utf8 (prevBlockDigest_ (header_ b)) /\ utf8 (merkleRoot_ (header_ b)) /\
  Forall (fun t => Transaction_wf t /\ inputs_ t <> [] /\ outputs_ t <> []) (txs_ b) /\
  Forall BlockSignature_wf (validatorSigs_ b) /\
  Forall (fun s => String.length s = 32%nat) (validator_sig_ b) /\
  is_u16 (validator_id_ b) /\ full_text_key (validator_next_public_key_ b) /\ is_u64 (id_ b).

(** The object a block is written as. *)
Definition block_json (h : string) (txs : list string) (sig key : string) (sigs : list json)
    (b : Block) : json :=
  JObj ([("blockID", JInt (id_ b)); ("header", JStr h); ("publicKey", JStr key)]
    ++ entries "transactions" txs
    ++ [("validatorID", JInt (validator_id_ b)); ("validatorSig", JStr sig)]
    ++ match sigs with [] => [] | _ => [("validatorSigs", JArr sigs)] end).

Lemma Block_to_string_json b h txs sig key sigs :
  Header_to_string (header_ b) = Ok h ->
  outcome_mapM (fun tx => JStr <$> Transaction_to_string tx) (txs_ b) = Ok (map JStr txs) ->
  signature_to_json (validator_sig_ b) = Ok sig ->
  SigKey_to_string (validator_next_public_key_ b) = Ok key ->
  outcome_mapM BlockSignature_to_json (validatorSigs_ b) = Ok sigs ->
  Block_to_string b = jdump (block_json h txs sig key sigs b).
Proof.
  intros Hh Ht Hs Hk Hsigs. unfold Block_to_string. rewrite Hh. jsimpl.
  change (obj_insert "blockID" ?v [("header", ?w)]) with [("blockID", v); ("header", w)].
  rewrite foldM_jset_push by reflexivity. rewrite Ht. cbn [mbind outcome_bind].
  destruct txs as [|t0 txs]; cbn [map jset mbind outcome_bind]; rewrite Hs;
    cbn [mbind outcome_bind]; rewrite Hk; cbn [mbind outcome_bind];
    (rewrite foldM_jset_push by reflexivity); rewrite Hsigs; by destruct sigs.
Qed.

Lemma block_json_ok b h txs sig key sigs :
  utf8 h -> Forall utf8 txs -> utf8 sig -> utf8 key -> is_u64 (id_ b) -> is_u16 (validator_id_ b) ->
  forallb json_wf sigs = true -> forallb json_utf8 sigs = true ->
  json_wf (block_json h txs sig key sigs b) = true /\
  json_utf8 (block_json h txs sig key sigs b) = true.
Proof.
  intros Hh Ht Hs Hk Hid Hv Hw Hu. destruct (entries_ok "transactions" txs) as [Ew Eu]; [done..|].
  unfold block_json. split.
  - cbn [json_wf]. apply andb_true_intro. split; [by destruct txs, sigs|].
    rewrite !forallb_app, Ew. cbn.
    rewrite (int_fits_u64 (id_ b)), (int_fits_u16 (validator_id_ b)) by done.
    destruct sigs; [done|]. cbn in *. by rewrite Hw.
  - cbn [json_utf8]. rewrite !forallb_app, Eu. cbn -[utf8_valid]. rewrite Hh, Hs, Hk.
    destruct sigs; [done|]. cbn -[utf8_valid] in *. by rewrite Hu.
Qed.

Lemma Block_text_result b b0 memory :
  Block_wf b -> empty_ b = false -> mutable_ b = false ->
  exists s, Block_to_string b = Ok s /\ utf8 s /\
    Block_from_string memory b0 s =
      match txs_ b with [] => Throw (json_out_of_range 403) | _ => Ok b end.
Proof.
  intros (H1 & H2 & Ht & Hsg & Hvs & Hv & Hk & Hid) He Hm.
  destruct (Header_text _ H1 H2) as (h & Th & Fh & Uh).
  destruct (parts_roundtrip Transaction_to_string
    (Transaction_from_string (Transaction_default memory)) (txs_ b)) as (txs & Tt & Ft & Ut & Lt).
  { eapply Forall_impl; [exact Ht|]. intros t (W & Hi & Ho). by apply Transaction_text. }
  destruct (BlockSignatures_json _ Hsg) as (sigs & Tg & Fg & Wg & Ug).
  destruct (signature_text _ Hvs) as (sig & Ts & Fs & Us).
  destruct (full_key_text _ Hk) as (key & Tk & Fk & Uk).
  destruct (block_json_ok b h txs sig key sigs) as [Hwf Hu]; [done..|].
  rewrite (Block_to_string_json b h txs sig key sigs) by done.
  destruct (jdump_total None _ Hwf Hu) as (text & Ttx & Ptx & _ & Utx).
  exists text. split; [exact Ttx|]. split; [exact Utx|]. unfold Block_from_string. rewrite Ptx. unfold block_json.
  destruct txs as [|t0 txs].
  { destruct (txs_ b); [|done]. destruct sigs; cbn [entries app]; jsimpl; rewrite Fh; by jsimpl. }
  assert (Hne : txs_ b <> []) by (intros E; by rewrite E in Lt).
  assert (Hres : Ok b = match txs_ b with [] => Throw (json_out_of_range 403) | _ => Ok b end)
    by (by destruct (txs_ b)).
  rewrite <- Hres. clear Hres.
  assert (Hid' : u64 (id_ b) = id_ b /\ u16 (validator_id_ b) = validator_id_ b)
    by (by rewrite u64_small, u16_small). destruct Hid' as [Eid Ev].
  destruct sigs as [|g sigs]; [injection Fg as Fg|set (gs := g :: sigs) in *; clearbody gs];
    cbn [entries app]; jsimpl; rewrite Fh; jsimpl; rewrite Ft; jsimpl;
    rewrite Fs; jsimpl; rewrite Fk; jsimpl; [|rewrite Fg; jsimpl];
    rewrite Eid, Ev; destruct b; cbn in *; by subst.
Qed.

Lemma Block_text b b0 memory :
  Block_wf b -> txs_ b <> [] -> empty_ b = false -> mutable_ b = false ->
  text_roundtrip (Block_to_string b) (Block_from_string memory b0) b.
Proof.
  intros Hb Ht He Hm. destruct (Block_text_result b b0 memory Hb He Hm) as (s & Hs & Hu & Hf).
  exists s. split_and!; [done| |done]. rewrite Hf. by destruct (txs_ b).
Qed.

(** C33: a block with transactions survives its JSON text, whatever object it is read into; a block
    without transactions is written without the list and cannot be read back. *)
Theorem Block_json_roundtrip (b b0 : Block) (memory : Z * Z) :
  Block_wf b -> empty_ b = false -> mutable_ b = false ->
  exists s, Block_to_string b = Ok s /\
    Block_from_string memory b0 s =
      match txs_ b with [] => Throw (json_out_of_range 403) | _ => Ok b end.
Proof.
  intros Hb He Hm. destruct (Block_text_result b b0 memory Hb He Hm) as (s & Hs & _ & Hf). eauto.
Qed.

Definition example_key : SigKey := mkSigKey (repeat "0f" 256) (repeat "a1" 256).

Lemma example_key_wf : full_text_key example_key.
Proof.
  split; [by split|]. apply Forall_app.
  split; apply Forall_forall; intros s Hs; apply list_elem_of_In, repeat_spec in Hs as ->; reflexivity.
Qed.

Definition example_block : Block :=
  mkBlock (mkHeader "ab" "cd") [example_tx]
    [mkBlockSignature ["0123456789abcdef0123456789abcdef"] example_key 3 1]
    ["0123456789abcdef0123456789abcdef"] 3 example_key 1 false false.

Lemma example_block_wf : Block_wf example_block.
Proof.
  pose proof example_key_wf. pose proof example_tx_wf.
  unfold Block_wf, BlockSignature_wf. cbn [example_block header_ txs_ validatorSigs_ validator_sig_
    validator_id_ validator_next_public_key_ id_]. by split_and!; repeat constructor.
Qed.

Lemma Block_json_roundtrip_witness :
  exists s, Block_to_string example_block = Ok s /\
    Block_from_string (9, 8) (Block_empty 7) s = Ok example_block.
Proof.
  exact (Block_json_roundtrip example_block (Block_empty 7) (9, 8) example_block_wf eq_refl eq_refl).
Defined.

(** ** Protocol buffers *)

Lemma Transactions_proto memory txs :
  Forall (fun t => is_u16 (senderID_ t) /\ key_wf (public_key_ t)) txs ->
  exists ps, outcome_mapM (fun t => toProtoTransaction t chat.TransactionMsg_default) txs = Ok ps /\
    outcome_mapM (fromProtoTransaction (Transaction_default memory)) ps = Ok txs.
Proof.
  induction 1 as [|t txs [Hu Hk] _ (ps & Tp & Fp)]; [by exists []|].
  destruct (Transaction_proto t (Transaction_default memory) Hu Hk eq_refl) as (p & T & F).
  exists (p :: ps). cbn [outcome_mapM]. rewrite T. cbn [mbind outcome_bind]. rewrite Tp, F.
  cbn [mbind outcome_bind]. rewrite Fp. split; [done|]. by destruct t.
Qed.

(** What can be sent. *)
Definition sendable (b : Block) : Prop :=
  Forall (fun t => is_u16 (senderID_ t) /\ key_wf (public_key_ t)) (txs_ b) /\
  is_u16 (validator_id_ b) /\ full_text_key (validator_next_public_key_ b) /\ mutable_ b = false.

Lemma Block_proto memory b b0 : sendable b ->
  exists p, toProtoBlock b BlockMsg_default = Ok p /\
    fromProtoBlock memory b0 p =
      Ok (mkBlock (header_ b) (txs_ b0 ++ txs_ b) (validatorSigs_ b0) (validator_sig_ b)
            (validator_id_ b) (validator_next_public_key_ b) (id_ b) false false).
Proof.
  intros (Ht & Hv & Hk & Hm). destruct (Transactions_proto memory _ Ht) as (ps & Tp & Fp).
  destruct (full_key_text _ Hk) as (key & Tk & Fk & _).
  unfold toProtoBlock, fromProtoBlock. rewrite Hm, Tp. cbn [mbind outcome_bind]. rewrite Tk.
  cbn [mbind outcome_bind]. eexists. split; [reflexivity|].
  cbn [transaction validatorsig publickey header validatorid blockid BlockMsg_default app].
  rewrite Fp. cbn [mbind outcome_bind]. rewrite Fk. cbn [mbind outcome_bind].
  rewrite !(foldl_snoc_map (fun x => x)), !app_nil_l, !map_id.
  assert (u16 (u32 (validator_id_ b)) = validator_id_ b) as ->.
  { rewrite u32_small, u16_small; [done|done|]. unfold is_u16, is_u32 in *. lia. }
  by destruct (header_ b).
Qed.

(** * Witnesses *)

Definition finalized_block : Block :=
  mkBlock (mkHeader "ab" "") [] [] [] 0 SigKey_empty 1 false false.


Lemma sign_then_verify_witness :
  exists b', @Block_sign test_hash finalized_block test_sk 3 SigKey_empty = Ok b' /\
    @verifySignature test_hash b' test_pk = Ok true /\ same_content finalized_block b' /\
    validator_id_ b' = 3 /\ validator_next_public_key_ b' = SigKey_empty.
Proof.
  apply (@sign_then_verify test_hash finalized_block test_pk test_sk SigKey_empty 3);
    [repeat split|by left].
Defined.

Definition example_message : BlockMsg :=
  match toProtoBlock example_block BlockMsg_default with Ok p => p | _ => BlockMsg_default end.

Lemma digest_ignores_transactions_witness :
  exists b b',
    Block_from_proto (9, 8) example_message = Ok b /\
    Block_from_proto (9, 8) (mkBlockMsg (header example_message) 77 [] (validatorsig example_message)
      (validatorid example_message) (publickey example_message)) = Ok b' /\
    txs_ b = [example_tx] /\ txs_ b' = [] /\ id_ b' = 77 /\
    @Block_getDigest test_hash b' = @Block_getDigest test_hash b /\
    forall pk, @verifySignature test_hash b' pk = @verifySignature test_hash b pk.
Proof.
  pose (b := mkBlock (mkHeader "ab" "cd") [example_tx] [] ["0123456789abcdef0123456789abcdef"] 3
    example_key 1 false false).
  assert (Hb : Block_from_proto (9, 8) example_message = Ok b) by (vm_compute; reflexivity).
  destruct (@digest_ignores_transactions test_hash (9, 8) example_message b [] [] 77 Hb eq_refl)
    as (b' & H1 & H2 & H3 & H4).
  exists b, b'. split_and!; [exact Hb|exact H1|reflexivity|exact H2|exact H3|..]; apply H4.
Defined.
