(* ===== verification/Message.v ===== *)
(** Messages between validators (src/include/blockchain/message.h, src/lib/blockchain/message.cc). *)
From S2P Require Import Prelude Json Signature Transaction Block.
Import chatblock.
Local Open Scope Z_scope.

(** [chat.Message]. *)
Record MessageMsg := mkMessageMsg {
  type : Z; sender_id : Z; round : Z; block : BlockMsg
}.
Definition MessageMsg_default : MessageMsg := mkMessageMsg 0 0 0 BlockMsg_default.

(** Conversion to [int64_t]. *)
Definition i64 (x : Z) : Z := (x + 2 ^ 63) mod 2 ^ 64 - 2 ^ 63.

Inductive MsgType := ECHO | SEND | READY.
#[export] Instance MsgType_eq_dec : EqDecision MsgType.
Proof. solve_decision. Defined.

Record Message := mkMessage {
  type_ : MsgType;
  block_ : Block;
  sender_id_ : Z;   (** [uint64_t] *)
  round_ : Z;       (** [uint32_t] *)
  msg_empty_ : bool
}.

(** The empty message: the members without a value hold what [memory] held. *)
Definition Message_empty (memory : MsgType * Z * Z * Z) : Message :=
  let '(t, sender, round, validator) := memory in
  mkMessage t (Block_empty validator) sender round true.

Definition Message_new (type : MsgType) (block : Block) (sender_id round : Z) : Message :=
  mkMessage type block sender_id round false.

(** [Message(const chat::Message&)]; a type other than 0, 1, 2 leaves [type_] without a value. *)
Definition Message_from_proto (memory : MsgType * (Z * Z) * Z) (p : MessageMsg) : outcome Message :=
  let '(t0, tx_memory, validator) := memory in
  let proto_type := u32 (type p) in
  let t := if proto_type =? 0 then ECHO else if proto_type =? 1 then SEND
           else if proto_type =? 2 then READY else t0 in
  b ← fromProtoBlock tx_memory (Block_empty validator) (block p);
  Ok (mkMessage t b (u64 (sender_id p)) (u32 (round p)) false).

Definition toProtoMessage (m : Message) : outcome MessageMsg :=
  let t := match type_ m with ECHO => 0 | SEND => 1 | READY => 2 end in
  b ← toProtoBlock (block_ m) BlockMsg_default;
  Ok (mkMessageMsg t (i64 (sender_id_ m)) (i32 (round_ m)) b).

(** The getters return [int]. *)
Definition getSenderId (m : Message) : Z := i32 (sender_id_ m).
Definition getRound (m : Message) : Z := i32 (round_ m).
Definition setType (m : Message) (t : MsgType) : Message :=
  mkMessage t (block_ m) (sender_id_ m) (round_ m) (msg_empty_ m).

Definition Msgtype2String (t : MsgType) : string :=
  match t with SEND => "SEND" | ECHO => "ECHO" | READY => "READY" end.

Lemma u64_i64 x : is_u64 x -> u64 (i64 x) = x.
Proof.
  unfold is_u64, u64, i64. intros Hx. rewrite Zminus_mod_idemp_l.
  replace (x + 2 ^ 63 - 2 ^ 63) with x by lia. by apply Z.mod_small.
Qed.
Lemma u32_i32 x : is_u32 x -> u32 (i32 x) = x.
Proof. intros Hx. unfold u32. rewrite i32_mod. by apply Z.mod_small. Qed.

(** What the receiver of a message holds: the block without the list of validators' signatures, which
    is not part of the message. *)
Definition received (m : Message) : Message :=
  let b := block_ m in
  mkMessage (type_ m)
    (mkBlock (header_ b) (txs_ b) [] (validator_sig_ b) (validator_id_ b)
       (validator_next_public_key_ b) (id_ b) false false)
    (sender_id_ m) (round_ m) false.

(** A message whose block is immutable and carries a complete next key is received with every
    field unchanged, except for the validators' signatures kept in the block, which are lost. *)
Theorem Message_proto_roundtrip (m : Message) (memory : MsgType * (Z * Z) * Z) :
  sendable (block_ m) -> is_u64 (sender_id_ m) -> is_u32 (round_ m) ->
  exists p, toProtoMessage m = Ok p /\ Message_from_proto memory p = Ok (received m).
Proof.
  intros Hb Hs Hr. destruct memory as [[t0 tm] v].
  destruct (Block_proto tm _ (Block_empty v) Hb) as (p & Tp & Fp).
  unfold toProtoMessage, Message_from_proto. rewrite Tp. cbn [mbind outcome_bind].
  eexists. split; [reflexivity|]. cbn [block sender_id round type]. rewrite Fp.
  cbn [mbind outcome_bind]. rewrite u64_i64, u32_i32 by done. unfold received. by destruct (type_ m).
Qed.

Lemma Message_proto_roundtrip_witness :
  let m := Message_new READY example_block 18446744073709551615 4294967295 in
  exists p, toProtoMessage m = Ok p /\ Message_from_proto (SEND, (9, 8), 7) p = Ok (received m).
Proof.
  cbn zeta. apply (Message_proto_roundtrip (Message_new READY example_block _ _)); [|by compute..].
  unfold sendable. split_and!; [|by compute|exact example_key_wf|done].
  repeat constructor; by compute.
Defined.
