(* ===== verification/Database.v ===== *)
(** The block database (src/lib/database/database.cc): the chain of digests in memory and its file,
    and the settings (src/lib/config/settings.cc) the validators and wallets start from. *)
From S2P Require Import Prelude Json JsonRoundTrip Signature Transaction Block.
Local Open Scope Z_scope.

(** * Files *)

(** The file system: the contents of the files that can be opened for reading, and the names that can
    be opened for writing. *)
Record files := mkFiles { contents : gmap string string; writable : string -> bool }.

Definition write_file (fs : files) (name text : string) : files :=
  mkFiles (<[name := text]> (contents fs)) (writable fs).

Module Settings.

(** * Settings *)

Record AddressInfo := mkAddressInfo { id : Z; address : string; port : Z; faulty : bool }.
Definition AddressInfo_eqb (a b : AddressInfo) : bool :=
  (id a =? id b) && bool_decide (address a = address b) && (port a =? port b)
  && Bool.eqb (faulty a) (faulty b).
(** [AddressInfo()]. *)
Definition AddressInfo_default : AddressInfo := mkAddressInfo 0 "" 0 false.

(** [std::map<uint32_t, AddressInfo>], in the order of the keys. *)
Definition address_map := list (Z * AddressInfo).

Fixpoint map_set (k : Z) (v : AddressInfo) (m : address_map) : address_map :=
  match m with
  | [] => [(k, v)]
  | (k', v') :: m' =>
      if k =? k' then (k, v) :: m' else if k <? k' then (k, v) :: m else (k', v') :: map_set k v m'
  end.
Fixpoint map_get (k : Z) (m : address_map) : option AddressInfo :=
  match m with
  | [] => None
  | (k', v') :: m' => if k =? k' then Some v' else map_get k m'
  end.

(** [validators_[k]]: an absent key is added with a default value. *)
Definition map_at (k : Z) (m : address_map) : AddressInfo * address_map :=
  match map_get k m with
  | Some v => (v, m)
  | None => (AddressInfo_default, map_set k AddressInfo_default m)
  end.

Record Settings := mkSettings {
  leader_id_ : Z; validators_ : address_map; wallets_ : list Z;
  my_validator_id_ : Z; my_wallet_id_ : Z
}.

Definition Settings_new (validators : list AddressInfo) (leader_id : Z) (wallets : list Z)
    (my_validator_id my_wallet_id : Z) : Settings :=
  mkSettings leader_id (foldl (fun m v => map_set (id v) v m) [] validators) wallets
    my_validator_id my_wallet_id.

Definition AddressInfo_from_json (element : json) : outcome AddressInfo :=
  v ← jat element "id"; i ← jget_int u32 v;
  v ← jat element "address"; a ← jget_string v;
  v ← jat element "port"; p ← jget_int i32 v;
  v ← jat element "faulty"; f ← jget_bool v;
  Ok (mkAddressInfo i a p f).

Definition Settings_from_json (j : json) : outcome Settings :=
  v ← jat j "leaderID"; leader_id ← jget_int u32 v;
  a ← jat j "validators";
  validators ← foldM (fun m e => info ← AddressInfo_from_json e; Ok (map_set (id info) info m))
                 [] (jelems a);
  a ← jat j "wallets";
  wallets ← outcome_mapM (jget_int u32) (jelems a);
  v ← jat j "myValidatorID"; my_validator_id ← jget_int u32 v;
  v ← jat j "myWalletID"; my_wallet_id ← jget_int u32 v;
  Ok (mkSettings leader_id validators wallets my_validator_id my_wallet_id).

Definition AddressInfo_to_json (v : AddressInfo) : outcome json :=
  j ← jset JNull "id" (JInt (id v));
  j ← jset j "address" (JStr (address v));
  j ← jset j "port" (JInt (port v));
  jset j "faulty" (JBool (faulty v)).

Definition Settings_to_json (s : Settings) : outcome json :=
  j ← jset JNull "leaderID" (JInt (leader_id_ s));
  j ← foldM (fun j e => v ← AddressInfo_to_json e.2; jset_push j "validators" v) j (validators_ s);
  j ← jset j "wallets" (JArr (map JInt (wallets_ s)));
  j ← jset j "myValidatorID" (JInt (my_validator_id_ s));
  jset j "myWalletID" (JInt (my_wallet_id_ s)).

Definition Settings_from_file (settings_file : string) (fs : files) : outcome Settings :=
  match contents fs !! settings_file with
  | None => Throw (runtime_error ("Could not open settings file: " +:+ settings_file))
  | Some text => j ← jread text; Settings_from_json j
  end.

Definition to_address (ip_addr : string) (port : Z) : string := ip_addr +:+ String ":" (pretty port).

Definition getLeaderInfo (s : Settings) : AddressInfo * Settings :=
  let '(v, m) := map_at (leader_id_ s) (validators_ s) in
  (v, mkSettings (leader_id_ s) m (wallets_ s) (my_validator_id_ s) (my_wallet_id_ s)).
Definition getValidatorInfo (s : Settings) (validator_id : Z) : AddressInfo * Settings :=
  let '(v, m) := map_at validator_id (validators_ s) in
  (v, mkSettings (leader_id_ s) m (wallets_ s) (my_validator_id_ s) (my_wallet_id_ s)).
Definition getValidators (s : Settings) : list AddressInfo :=
  foldl (fun l e => l ++ [e.2]) [] (validators_ s).
Definition getValidatorAdresses (s : Settings) : list string :=
  foldl (fun l e => l ++ [to_address (address e.2) (u32 (port e.2))]) [] (validators_ s).
Definition getLeaderAddress (s : Settings) : string * Settings :=
  let '(leader, s) := getLeaderInfo s in (to_address (address leader) (u32 (port leader)), s).
Definition getTotalNumberOfValidators (s : Settings) : Z := i32 (Z.of_nat (length (validators_ s))).
Definition getNumberOfFaultyValidators (s : Settings) : Z :=
  foldl (fun n e => if faulty e.2 then i32 (n + 1) else n) 0 (validators_ s).
Definition getMyValidatorInfo (s : Settings) : AddressInfo :=
  match map_get (my_validator_id_ s) (validators_ s) with
  | None => AddressInfo_default
  | Some v => v
  end.
Definition getMyValidatorAddress (s : Settings) : string :=
  let v := getMyValidatorInfo s in to_address (address v) (u32 (port v)).

(** ** Round trip *)

Definition AddressInfo_wf (v : AddressInfo) : Prop :=
  is_u32 (id v) /\ - 2 ^ 31 <= port v < 2 ^ 31.

(** A map whose keys are the ids of the entries, in order. *)
Fixpoint keyed (lo : Z) (m : address_map) : Prop :=
  match m with
  | [] => True
  | (k, v) :: m' => lo <= k /\ k = id v /\ keyed (k + 1) m'
  end.

Definition Settings_wf (s : Settings) : Prop :=
  is_u32 (leader_id_ s) /\ is_u32 (my_validator_id_ s) /\ is_u32 (my_wallet_id_ s) /\
  Forall is_u32 (wallets_ s) /\ Forall (fun e => AddressInfo_wf e.2) (validators_ s) /\
  keyed 0 (validators_ s) /\ validators_ s <> [].

Lemma i32_small x : - 2 ^ 31 <= x < 2 ^ 31 -> i32 x = x.
Proof. intros Hx. unfold i32. rewrite Z.mod_small; lia. Qed.

Lemma AddressInfo_json v : AddressInfo_wf v ->
  exists j, AddressInfo_to_json v = Ok j /\ AddressInfo_from_json j = Ok v.
Proof.
  intros [Hi Hp]. exists (JObj [("address", JStr (address v)); ("faulty", JBool (faulty v));
    ("id", JInt (id v)); ("port", JInt (port v))]).
  split; [reflexivity|]. unfold AddressInfo_from_json. jsimpl.
  rewrite u32_small, i32_small by done. by destruct v.
Qed.

Lemma map_set_last m : forall lo k v, keyed lo (m ++ [(k, v)]) -> map_set k v m = m ++ [(k, v)].
Proof.
  induction m as [|[k' v'] m IH]; [done|]. intros lo k v Hk. cbn in *. destruct Hk as (H1 & H2 & H3).
  assert (Hlt : k' + 1 <= k).
  { clear - H3. revert H3. generalize (k' + 1) as lo. induction m as [|[k2 v2] m IH]; intros lo; cbn.
    - by intros [? _].
    - intros (Hlo & _ & Hm). apply IH in Hm. lia. }
  destruct (Z.eqb_spec k k'); [lia|]. destruct (Z.ltb_spec k k'); [lia|]. by erewrite IH.
Qed.

Lemma AddressInfos_json m : forall acc, Forall (fun e => AddressInfo_wf e.2) m ->
  keyed 0 (acc ++ m) ->
  exists js, outcome_mapM (fun e : Z * AddressInfo => AddressInfo_to_json e.2) m = Ok js /\
    length js = length m /\
    foldM (fun m e => info ← AddressInfo_from_json e; Ok (map_set (id info) info m)) acc js
    = Ok (acc ++ m).
Proof.
  induction m as [|[k v] m IH]; intros acc Hm Hk.
  { exists []. cbn. by rewrite app_nil_r. }
  apply Forall_cons in Hm as [Hv Hm]. destruct (AddressInfo_json v Hv) as (j & Tj & Fj).
  replace (acc ++ (k, v) :: m) with ((acc ++ [(k, v)]) ++ m) in * by (by rewrite <- app_assoc).
  destruct (IH _ Hm Hk) as (js & Tjs & L & Fjs). exists (j :: js). cbn [outcome_mapM foldM length snd].
  rewrite Tj. cbn [mbind outcome_bind]. rewrite Tjs. cbn [mbind outcome_bind]. rewrite Fj.
  cbn [mbind outcome_bind].
  assert (Hset : map_set (id v) v acc = acc ++ [(k, v)] /\ k = id v).
  { clear - Hk. revert Hk. generalize 0 as lo. induction acc as [|[k' v'] acc IH]; intros lo Hk.
    - cbn in *. destruct Hk as (_ & -> & _). done.
    - cbn in Hk. destruct Hk as (H1 & H2 & H3). destruct (IH _ H3) as [E ->].
      split; [|done]. apply (map_set_last ((k', v') :: acc) lo). cbn. split_and!; [done|done|].
      clear - H3. revert H3. generalize (k' + 1) as lo. induction acc as [|[k2 v2] acc IH]; intros lo; cbn.
      + by intros (? & ? & _).
      + intros (? & ? & ?). split_and!; auto. }
  destruct Hset as [-> Hkv]. split_and!; [done|by rewrite L|done].
Qed.

(** Settings with at least one validator are read back from the JSON value they are written as,
    the validators in the order of their numbers. *)
Theorem Settings_json_roundtrip (s : Settings) :
  Settings_wf s -> exists j, Settings_to_json s = Ok j /\ Settings_from_json j = Ok s.
Proof.
  intros (H1 & H2 & H3 & Hw & Hv & Hk & Hne).
  destruct (AddressInfos_json (validators_ s) [] Hv Hk) as (js & Tj & L & Fj).
  assert (Hj : exists j0 js', js = j0 :: js').
  { destruct js as [|j0 js']; [|eauto]. by destruct (validators_ s). }
  destruct Hj as (j0 & js' & ->).
  assert (Hwal : outcome_mapM (jget_int u32) (map JInt (wallets_ s)) = Ok (wallets_ s)).
  { rewrite outcome_mapM_map, (outcome_mapM_ok _ (fun x => x)), map_id; [done|].
    eapply Forall_impl; [exact Hw|]. intros x Hx. cbn. by rewrite u32_small. }
  exists (JObj [("leaderID", JInt (leader_id_ s)); ("myValidatorID", JInt (my_validator_id_ s));
    ("myWalletID", JInt (my_wallet_id_ s)); ("validators", JArr (j0 :: js'));
    ("wallets", JArr (map JInt (wallets_ s)))]).
  split.
  - unfold Settings_to_json. cbn [jset mbind outcome_bind].
    rewrite foldM_jset_push by reflexivity. rewrite Tj. reflexivity.
  - unfold Settings_from_json. set (js := j0 :: js') in *. clearbody js. jsimpl.
    rewrite Fj. jsimpl. rewrite Hwal. jsimpl. rewrite !u32_small by done. by destruct s.
Qed.

Lemma Settings_json_roundtrip_witness :
  let s := Settings_new [mkAddressInfo 2 "b" 5002 false; mkAddressInfo 1 "a" (-1) true] 1 [7; 9] 2 7 in
  validators_ s = [(1, mkAddressInfo 1 "a" (-1) true); (2, mkAddressInfo 2 "b" 5002 false)] /\
  exists j, Settings_to_json s = Ok j /\ Settings_from_json j = Ok s.
Proof.
  split; [reflexivity|]. apply Settings_json_roundtrip. unfold Settings_wf, AddressInfo_wf.
  cbn. split_and!; repeat constructor; by compute.
Defined.

(** Asking for an unknown leader adds an entry to the table of validators. *)
Lemma getLeaderInfo_unknown s :
  map_get (leader_id_ s) (validators_ s) = None ->
  length (validators_ (getLeaderInfo s).2) = S (length (validators_ s)).
Proof.
  unfold getLeaderInfo, map_at. intros E. rewrite E. cbn. revert E. generalize (validators_ s) as m.
  induction m as [|[k v] m IH]; [done|]. cbn. destruct (_ =? k) eqn:E; [done|]. intros Hm.
  destruct (_ <? k); [done|]. cbn. by rewrite IH.
Qed.
End Settings.

(** * The database *)

Section Database.
Context `{Hash}.
(** What uninitialised members of blocks and transactions hold. *)
Variables (memory : Z * Z) (block_memory : Z).

Record Database := mkDatabase {
  blocks_ : gmap string Block;
  digests_ : list string;
  filename_ : string
}.

(** One entry of ["blockchain"]: the digest is appended before its block is read, so that it stays
    when reading the block throws. *)
Definition load_entry (db : Database) (el : json) : Database * outcome unit :=
  match (v ← jat el "digest"; jget_string v) with
  | Ok digest =>
      let db := mkDatabase (blocks_ db) (digests_ db ++ [digest]) (filename_ db) in
      match (v ← jat el "block"; s ← jget_string v;
             Block_from_string memory (Block_empty block_memory) s) with
      | Ok block => (mkDatabase (<[digest := block]> (blocks_ db)) (digests_ db) (filename_ db), Ok tt)
      | Throw e => (db, Throw e)
      | Undef u => (db, Undef u)
      | Unmodelled => (db, Unmodelled)
      end
  | Throw e => (db, Throw e)
  | Undef u => (db, Undef u)
  | Unmodelled => (db, Unmodelled)
  end.

Fixpoint load_entries (db : Database) (els : list json) : Database * outcome unit :=
  match els with
  | [] => (db, Ok tt)
  | el :: els' =>
      match load_entry db el with
      | (db, Ok _) => load_entries db els'
      | r => r
      end
  end.

Definition Database_from_json (db : Database) (j : json) : Database * outcome unit :=
  let db := mkDatabase ∅ [] (filename_ db) in
  match jat j "blockchain" with
  | Ok a => load_entries db (jelems a)
  | Throw e => (db, Throw e)
  | Undef u => (db, Undef u)
  | Unmodelled => (db, Unmodelled)
  end.

(** One element of ["blockchain"], and the same pushed onto [j]. *)
Definition entry_value (digest : string) (block : Block) : outcome json :=
  s ← Block_to_string block;
  e ← jset JNull "digest" (JStr digest);
  jset e "block" (JStr s).
Definition entry_to_json (digest : string) (block : Block) (j : json) : outcome json :=
  e ← entry_value digest block; jset_push j "blockchain" e.

(** [to_json]: [blocks_[digest]] of an absent digest adds an empty block, which has no key and then
    cannot be written. *)
Fixpoint to_json_loop (blocks : gmap string Block) (j : json) (digests : list string)
    : gmap string Block * outcome json :=
  match digests with
  | [] => (blocks, Ok j)
  | d :: ds =>
      let block := default (Block_empty block_memory) (blocks !! d) in
      let blocks := match blocks !! d with Some _ => blocks | None => <[d := block]> blocks end in
      match entry_to_json d block j with
      | Ok j => to_json_loop blocks j ds
      | r => (blocks, r)
      end
  end.

Definition Database_to_json (db : Database) : Database * outcome json :=
  let '(blocks, r) := to_json_loop (blocks_ db) JNull (digests_ db) in
  (mkDatabase blocks (digests_ db) (filename_ db), r).

(** The rest of [save]: the file is opened, which empties it, then the text is produced and
    written. *)
Definition write_json (j : json) (filename : string) (fs : files) : files * outcome unit :=
  if writable fs filename then
    match jdump_indent 4 j with
    | Ok text => (write_file fs filename text, Ok tt)
    | Throw e => (write_file fs filename "", Throw e)
    | Undef u => (write_file fs filename "", Undef u)
    | Unmodelled => (write_file fs filename "", Unmodelled)
    end
  else (fs, Throw (runtime_error ("Could not open file for writing: " +:+ filename))).

Definition save (db : Database) (filename : string) (fs : files)
    : Database * files * outcome unit :=
  match Database_to_json db with
  | (db, Ok j) => let '(fs, r) := write_json j filename fs in (db, fs, r)
  | (db, Throw e) => (db, fs, Throw e)
  | (db, Undef u) => (db, fs, Undef u)
  | (db, Unmodelled) => (db, fs, Unmodelled)
  end.

Definition load (db : Database) (filename : string) (fs : files) : Database * outcome unit :=
  let db := mkDatabase (blocks_ db) (digests_ db) filename in
  match contents fs !! filename with
  | None => (mkDatabase ∅ [] filename, Ok tt)
  | Some text =>
      match jread text with
      | Ok j => Database_from_json db j
      | Throw e => (db, Throw e)
      | Undef u => (db, Undef u)
      | Unmodelled => (db, Unmodelled)
      end
  end.

(** The constructor; an exception leaves no object. *)
Definition Database_new (filename : string) (fs : files) : outcome Database :=
  let '(db, r) := load (mkDatabase ∅ [] filename) filename fs in _ ← r; Ok db.

(** [digests_.empty() || digests_.back() == block.getHeader().getPrevBlockDigest()]. *)
Definition follows (db : Database) (block : Block) : bool :=
  match last (digests_ db) with
  | None => true
  | Some d => bool_decide (d = prevBlockDigest_ (header_ block))
  end.

(** [addBlock]: the block stays in memory even when saving throws. *)
Definition addBlock (db : Database) (block : Block) (fs : files) : Database * files * outcome Z :=
  if follows db block then
    match Block_getDigest block with
    | Ok digest =>
        let db := mkDatabase (<[digest := block]> (blocks_ db)) (digests_ db ++ [digest]) (filename_ db) in
        let '(db, fs, r) := save db (filename_ db) fs in (db, fs, _ ← r; Ok 0)
    | Throw e => (db, fs, Throw e)
    | Undef u => (db, fs, Undef u)
    | Unmodelled => (db, fs, Unmodelled)
    end
  else (db, fs, Ok 1).

Definition getBlock (db : Database) (block_digest : string) : outcome Block :=
  match blocks_ db !! block_digest with
  | Some b => Ok b
  | None => Throw (runtime_error ("No block with digest " +:+ block_digest +:+ " in blockchain"))
  end.

Definition getBlockDigests (db : Database) : list string := digests_ db.

(** ** The chain *)

(** Every digest has its block, and every block names the digest before it. *)
Fixpoint linked (blocks : gmap string Block) (prev : option string) (ds : list string) : Prop :=
  match ds with
  | [] => True
  | d :: ds' =>
      (exists b, blocks !! d = Some b /\ Block_getDigest b = Ok d /\
         match prev with None => True | Some p => prevBlockDigest_ (header_ b) = p end) /\
      linked blocks (Some d) ds'
  end.

Definition chain (db : Database) : Prop := linked (blocks_ db) None (digests_ db).

Lemma linked_insert blocks d b ds : forall prev,
  d ∉ ds -> linked blocks prev ds -> linked (<[d := b]> blocks) prev ds.
Proof.
  induction ds as [|d' ds IH]; intros prev Hd Hl; [done|]. cbn in *.
  apply not_elem_of_cons in Hd as [Hne Hd]. destruct Hl as [(b' & Hb & Hr) Hl]. split; [|auto].
  exists b'. by rewrite lookup_insert_ne.
Qed.

Lemma linked_snoc blocks d b ds : forall prev,
  linked blocks prev ds -> blocks !! d = Some b -> Block_getDigest b = Ok d ->
  match (match last ds with Some p => Some p | None => prev end) with
  | None => True | Some p => prevBlockDigest_ (header_ b) = p end ->
  linked blocks prev (ds ++ [d]).
Proof.
  induction ds as [|d' ds IH]; intros prev Hl Hb Hd Hp; cbn [app linked].
  - split; [|done]. eauto.
  - destruct Hl as [Hd' Hl]. split; [done|]. apply IH; [done..|].
    rewrite last_cons in Hp. by destruct (last ds).
Qed.

(** What saving does to the object: at most empty blocks appear for absent digests. *)
Lemma to_json_loop_blocks ds : forall blocks j d b,
  blocks !! d = Some b -> (to_json_loop blocks j ds).1 !! d = Some b.
Proof.
  induction ds as [|d' ds IH]; intros blocks j d b Hb; cbn [to_json_loop]; [done|].
  set (blocks' := match blocks !! d' with Some _ => blocks | None => _ end).
  assert (Hb' : blocks' !! d = Some b).
  { unfold blocks'. destruct (blocks !! d') eqn:E; [done|].
    rewrite lookup_insert_ne; [done|]. intros ->. by rewrite Hb in E. }
  destruct (entry_to_json _ _ _); [by apply IH|done..].
Qed.

Lemma save_db db f fs : let '(db', _, _) := save db f fs in
  digests_ db' = digests_ db /\ forall d b, blocks_ db !! d = Some b -> blocks_ db' !! d = Some b.
Proof.
  unfold save, Database_to_json.
  pose proof (to_json_loop_blocks (digests_ db) (blocks_ db) JNull) as Hb.
  destruct (to_json_loop (blocks_ db) JNull (digests_ db)) as [blocks r].
  destruct r as [j| | |]; [destruct (write_json j f fs) as [fs' r']|..]; (split; [done|exact Hb]).
Qed.

Lemma linked_mono m m' ds : forall prev,
  (forall d b, m !! d = Some b -> m' !! d = Some b) -> linked m prev ds -> linked m' prev ds.
Proof.
  induction ds as [|d ds IH]; intros prev Hm Hl; [done|]. cbn in *.
  destruct Hl as [(b & Hb & Hr) Hl]. split; [eauto|by apply IH].
Qed.

(** C34: adding a block: it returns 1 and changes nothing when the block does not name the last digest;
    it throws and changes nothing when the block is mutable; otherwise the digest and the block are
    appended, whether or not saving succeeds, and the chain stays linked if the digest is new. *)
Theorem addBlock_spec (db : Database) (block : Block) (fs : files) :
  (follows db block = false -> addBlock db block fs = (db, fs, Ok 1)) /\
  (follows db block = true -> mutable_ block = true ->
     exists e, addBlock db block fs = (db, fs, Throw e)) /\
  (forall d, follows db block = true -> Block_getDigest block = Ok d ->
     exists db' fs' r, addBlock db block fs = (db', fs', r) /\
       digests_ db' = digests_ db ++ [d] /\ getBlock db' d = Ok block /\
       (forall v, r = Ok v -> v = 0) /\
       (chain db -> d ∉ digests_ db -> chain db')).
Proof.
  unfold addBlock. split_and!.
  - by intros ->.
  - intros -> Hm. unfold Block_getDigest. rewrite Hm. by eexists.
  - intros d Hf Hd. rewrite Hf, Hd. set (db1 := mkDatabase _ _ _).
    assert (Hchain : chain db -> d ∉ digests_ db -> chain db1).
    { intros Hc Hn. unfold chain, db1. cbn [blocks_ digests_].
      apply (linked_snoc _ _ block); [by apply linked_insert|by rewrite lookup_insert_eq|done|].
      unfold follows in Hf. destruct (last (digests_ db)); [|done].
      by apply bool_decide_eq_true in Hf. }
    pose proof (save_db db1 (filename_ db1) fs) as Hs.
    destruct (save db1 (filename_ db1) fs) as [[db' fs'] r]. destruct Hs as [Hds Hbs].
    exists db', fs', (_ ← r; Ok 0). split; [done|]. split_and!.
    + by rewrite Hds.
    + unfold getBlock. rewrite (Hbs d block); [done|]. unfold db1. cbn. by rewrite lookup_insert_eq.
    + intros v. destruct r; cbn; congruence.
    + intros Hc Hn. unfold chain. rewrite Hds. eapply linked_mono; [exact Hbs|]. by apply Hchain.
Qed.

(** ** Saving and loading *)

(** A stored block that can be written and read back. *)
Definition storable (db : Database) (d : string) : Prop :=
  utf8 d /\ exists b, blocks_ db !! d = Some b /\ Block_wf b /\ txs_ b <> [] /\
    empty_ b = false /\ mutable_ b = false.

Lemma entry_roundtrip d b db :
  utf8 d -> Block_wf b -> txs_ b <> [] -> empty_ b = false -> mutable_ b = false ->
  exists v, entry_value d b = Ok v /\ json_wf v = true /\ json_utf8 v = true /\
    load_entry db v =
      (mkDatabase (<[d := b]> (blocks_ db)) (digests_ db ++ [d]) (filename_ db), Ok tt).
Proof.
  intros Hd Hb Ht He Hm.
  destruct (Block_text b (Block_empty block_memory) memory Hb Ht He Hm) as (s & Ts & Fs & Us).
  exists (JObj [("block", JStr s); ("digest", JStr d)]). unfold entry_value. rewrite Ts.
  split_and!; [reflexivity|reflexivity| |].
  - cbn -[utf8_valid]. by rewrite Us, Hd.
  - unfold load_entry. jsimpl. by rewrite Fs.
Qed.

Lemma entries_roundtrip db ds : Forall (storable db) ds -> forall db0,
  exists vs, outcome_mapM (fun d => entry_value d (default (Block_empty block_memory) (blocks_ db !! d))) ds
      = Ok vs /\ length vs = length ds /\
    forallb json_wf vs = true /\ forallb json_utf8 vs = true /\
    exists m, load_entries db0 vs = (mkDatabase m (digests_ db0 ++ ds) (filename_ db0), Ok tt) /\
      forall d, m !! d = if decide (d ∈ ds) then blocks_ db !! d else blocks_ db0 !! d.
Proof.
  induction 1 as [|d ds (Hd & b & Eb & Hb & Ht & He & Hm) _ IH]; intros db0.
  { exists []. split_and!; [done..|]. exists (blocks_ db0). cbn. rewrite app_nil_r. by destruct db0. }
  destruct (entry_roundtrip d b db0 Hd Hb Ht He Hm) as (v & Tv & Wv & Uv & Lv).
  set (db1 := mkDatabase _ _ _) in Lv.
  destruct (IH db1) as (vs & Tvs & L & Wvs & Uvs & m & Lm & Hmap).
  exists (v :: vs). cbn [outcome_mapM length forallb load_entries]. rewrite Eb. cbn [default from_option id].
  rewrite Tv. cbn [mbind outcome_bind]. rewrite Tvs. cbn [mbind outcome_bind].
  rewrite Wv, Uv, L, Lv, Lm. split_and!; [done..|]. exists m. unfold db1. cbn [digests_ filename_].
  rewrite <- app_assoc. split; [done|]. intros d'. rewrite Hmap. unfold db1. cbn [blocks_].
  destruct (decide (d' ∈ ds)) as [Hin|Hin]; [by rewrite decide_True by (by right)|].
  destruct (decide (d' = d)) as [->|Hne].
  - rewrite decide_True by (by left). by rewrite lookup_insert_eq, Eb.
  - rewrite lookup_insert_ne by done. rewrite decide_False; [done|]. set_solver.
Qed.

(** With every block present, the loop only builds the value. *)
Lemma to_json_loop_foldM blocks ds : forall j,
  Forall (fun d => is_Some (blocks !! d)) ds ->
  to_json_loop blocks j ds =
    (blocks, foldM (fun j d =>
       v ← entry_value d (default (Block_empty block_memory) (blocks !! d)); jset_push j "blockchain" v) j ds).
Proof.
  induction ds as [|d ds IH]; intros j Hds; [done|]. apply Forall_cons in Hds as [[b Hb] Hds].
  cbn [to_json_loop foldM]. rewrite Hb. cbn [default from_option id]. unfold entry_to_json.
  destruct (v ← entry_value d b; jset_push j "blockchain" v) as [j'| | |]; [|done..].
  rewrite IH by done. done.
Qed.

Lemma jset_push_null k v : jset_push JNull k v = jset_push (JObj []) k v.
Proof. reflexivity. Qed.

(** C35: the file of a database: loading what was saved, into any object, gives the same digests and the
    same block for each of them, while a database without blocks writes a null value that cannot be
    loaded. *)
Theorem save_load_roundtrip (db db0 : Database) (f : string) (fs : files) :
  writable fs f = true -> Forall (storable db) (digests_ db) ->
  exists fs', save db f fs = (db, fs', Ok tt) /\
    (digests_ db <> [] ->
     exists m, load db0 f fs' = (mkDatabase m (digests_ db) f, Ok tt) /\
       forall d, m !! d = if decide (d ∈ digests_ db) then blocks_ db !! d else None) /\
    (digests_ db = [] -> load db0 f fs' = (mkDatabase ∅ [] f, Throw (json_type_error 304))).
Proof.
  intros Hw Hds. unfold save, Database_to_json.
  rewrite to_json_loop_foldM by (eapply Forall_impl; [exact Hds|]; intros d (_ & b & -> & _); eauto).
  destruct (decide (digests_ db = [])) as [E|Hne].
  - rewrite E. cbn [foldM]. unfold write_json. rewrite Hw.
    change (jdump_indent 4 JNull) with (@Ok string "null"). eexists. split; [by destruct db; cbn in *; subst|].
    split; [done|]. intros _. unfold load. cbn [contents write_file]. rewrite lookup_insert_eq.
    reflexivity.
  - destruct (entries_roundtrip db (digests_ db) Hds (mkDatabase ∅ [] f))
      as (vs & Tvs & L & Wvs & Uvs & m & Lm & Hmap).
    assert (Hj : foldM (fun j d => v ← entry_value d (default (Block_empty block_memory) (blocks_ db !! d));
        jset_push j "blockchain" v) JNull (digests_ db) = Ok (JObj [("blockchain", JArr vs)])).
    { transitivity (foldM (fun j d => v ← entry_value d (default (Block_empty block_memory) (blocks_ db !! d));
        jset_push j "blockchain" v) (JObj []) (digests_ db)); [by destruct (digests_ db)|].
      rewrite foldM_jset_push by done. rewrite Tvs. cbn [mbind outcome_bind].
      destruct vs; [by destruct (digests_ db)|done]. }
    rewrite Hj. unfold write_json. rewrite Hw.
    destruct (jdump_total (Some 4%nat) (JObj [("blockchain", JArr vs)])) as (text & Tt & _ & Rt & _).
    { cbn. by rewrite Wvs. }
    { cbn -[utf8_valid]. by rewrite Uvs. }
    unfold jdump_indent. rewrite Tt. eexists. split; [by destruct db|]. split; [|done]. intros _.
    unfold load. cbn [contents write_file]. rewrite lookup_insert_eq, Rt.
    unfold Database_from_json. cbn [filename_]. jsimpl. rewrite Lm. cbn [digests_ filename_ app].
    exists m. split; [done|]. intros d. by rewrite Hmap.
Qed.
End Database.

Definition example_database : Database :=
  mkDatabase {[ "d" := example_block ]} ["d"] "chain.json".
Definition no_files : files := mkFiles ∅ (fun _ => true).

Lemma save_load_roundtrip_witness :
  exists fs', save 7 example_database "chain.json" no_files = (example_database, fs', Ok tt) /\
    (digests_ example_database <> [] ->
     exists m, load (9, 8) 7 (mkDatabase ∅ [] "other") "chain.json" fs'
         = (mkDatabase m ["d"] "chain.json", Ok tt) /\
       forall d, m !! d = if decide (d ∈ ["d"]) then blocks_ example_database !! d else None) /\
    (digests_ example_database = [] ->
     load (9, 8) 7 (mkDatabase ∅ [] "other") "chain.json" fs'
       = (mkDatabase ∅ [] "chain.json", Throw (json_type_error 304))).
Proof.
  apply (save_load_roundtrip (9, 8) 7 example_database (mkDatabase ∅ [] "other") "chain.json" no_files);
    [reflexivity|].
  repeat constructor. exists example_block. split; [reflexivity|]. split; [exact example_block_wf|].
  by split_and!.
Defined.
