(* ===== verification/Comms.v ===== *)
(** The gRPC endpoints: the sending threads of a validator (src/lib/comms/client.cc) and the server that
    queues what arrives (src/lib/comms/server.cc).  The transport itself is outside the program: the
    client logs what it hands to the stub, the server takes steps on what the completion queue yields. *)
From S2P Require Import Prelude Json JsonRoundTrip Signature Transaction Block Message Database.
Local Open Scope Z_scope.

(** * Mutexes *)

(** A mutex between the atomic steps of the threads: whether it is held, and how often it was unlocked
    while it was free.  The standard leaves that undefined; the runs below continue with a free mutex,
    as the GNU implementation does, and count. *)
Record mutex := mkMutex { held : bool; stray_unlocks : nat }.
Definition mutex_new : mutex := mkMutex false 0.
Definition lock (m : mutex) : mutex := mkMutex true (stray_unlocks m).
Definition unlock (m : mutex) : mutex :=
  if held m then mkMutex false (stray_unlocks m) else mkMutex false (S (stray_unlocks m)).

(** * What a node needs from its client *)

(** Broadcasting hands the message to every server, after those handed over before. *)
Class Client (C : Type) := {
  client_broadcast : Message -> C -> outcome (C * Z);
  client_servers : C -> list string;
  client_outbox : C -> string -> list Message;
  client_ok : C -> Prop;
  broadcast_spec : forall m c, client_ok c ->
    exists c', client_broadcast m c = Ok (c', 1) /\ client_ok c' /\
      client_servers c' = client_servers c /\
      forall a, a ∈ client_servers c -> client_outbox c' a = client_outbox c a ++ [m]
}.

(** * The client of a validator *)

(** Where a sending thread is: at the test of [stop_threads_], waiting for its queue, or done. *)
Inductive thread_pc := Testing | Waiting | Finished.

Record thread := mkThread { server_address : string; mq : nat; pc : thread_pc }.

(** The shared pointers of [message_queues_] and of the threads are indices of [queues].  [talked] is
    what [SendMessage_] handed to the stubs, in order. *)
Record ValidatorClientImpl := mkClient {
  servers_ : list string;
  leader_ : string;
  message_queues_ : gmap string nat;
  queues : list (list Message);
  thread_pool_ : list thread;
  mq_mtx_ : mutex;
  stop_threads_ : bool;
  talked : list (string * Message)
}.

Definition set_queues (qs : list (list Message)) (c : ValidatorClientImpl) : ValidatorClientImpl :=
  mkClient (servers_ c) (leader_ c) (message_queues_ c) qs (thread_pool_ c) (mq_mtx_ c)
    (stop_threads_ c) (talked c).
Definition set_mq_mtx (m : mutex) (c : ValidatorClientImpl) : ValidatorClientImpl :=
  mkClient (servers_ c) (leader_ c) (message_queues_ c) (queues c) (thread_pool_ c) m
    (stop_threads_ c) (talked c).
Definition set_pc (k : nat) (p : thread_pc) (c : ValidatorClientImpl) : ValidatorClientImpl :=
  mkClient (servers_ c) (leader_ c) (message_queues_ c) (queues c)
    (alter (fun t => mkThread (server_address t) (mq t) p) k (thread_pool_ c)) (mq_mtx_ c)
    (stop_threads_ c) (talked c).
Definition set_stop (b : bool) (c : ValidatorClientImpl) : ValidatorClientImpl :=
  mkClient (servers_ c) (leader_ c) (message_queues_ c) (queues c) (thread_pool_ c) (mq_mtx_ c)
    b (talked c).

(** One turn of the loop of [startThreads_]. *)
Definition start_thread (c : ValidatorClientImpl) (i : nat) : outcome ValidatorClientImpl :=
  address ← read (servers_ c) i;
  let thread_queue := length (queues c) in
  Ok (mkClient (servers_ c) (leader_ c) (<[address := thread_queue]> (message_queues_ c))
        (queues c ++ [[]]) (thread_pool_ c ++ [mkThread address thread_queue Testing]) (mq_mtx_ c)
        (stop_threads_ c) (talked c)).

(** The number of servers is kept in a [uint8_t]. *)
Definition startThreads_ (c : ValidatorClientImpl) : outcome ValidatorClientImpl :=
  let num_servers := u8 (Z.of_nat (length (servers_ c))) in
  foldM start_thread (set_stop false c) (seq 0 (Z.to_nat num_servers)).

(** The members before the threads start. *)
Definition client_members (servers : list string) (leader : string) : ValidatorClientImpl :=
  mkClient servers leader ∅ [] [] mutex_new false [].

Definition ValidatorClientImpl_new (s : Settings.Settings) : outcome ValidatorClientImpl :=
  startThreads_ (client_members (Settings.getValidatorAdresses s) (Settings.getLeaderAddress s).1).

(** The copy constructor starts threads of its own, with empty queues. *)
Definition ValidatorClientImpl_copy (c : ValidatorClientImpl) : outcome ValidatorClientImpl :=
  startThreads_ (client_members (servers_ c) (leader_ c)).

(** [message_queues_[address]->push(message)]: a null pointer for an address without queue. *)
Definition push (m : Message) (c : ValidatorClientImpl) (address : string)
    : outcome ValidatorClientImpl :=
  match message_queues_ c !! address with
  | None => Undef null_deref
  | Some q => Ok (set_queues (alter (fun mq => mq ++ [m]) q (queues c)) c)
  end.

Definition Broadcast (m : Message) (c : ValidatorClientImpl) : outcome (ValidatorClientImpl * Z) :=
  let c := set_mq_mtx (lock (mq_mtx_ c)) c in
  c ← foldM (push m) c (servers_ c);
  Ok (set_mq_mtx (unlock (mq_mtx_ c)) c, 1).

Definition SendToLeader (m : Message) (c : ValidatorClientImpl) : outcome (ValidatorClientImpl * Z) :=
  let c := set_mq_mtx (lock (mq_mtx_ c)) c in
  c ← push m c (leader_ c);
  Ok (set_mq_mtx (unlock (mq_mtx_ c)) c, 1).

(** [ChatClient::Talk]: what is handed to the stub, whose status is ignored. *)
Definition Talk (m : Message) : outcome MessageMsg := toProtoMessage m.

Definition SendMessage_ (m : Message) (address : string) (c : ValidatorClientImpl)
    : outcome (ValidatorClientImpl * Z) :=
  _ ← Talk m;
  Ok (mkClient (servers_ c) (leader_ c) (message_queues_ c) (queues c) (thread_pool_ c) (mq_mtx_ c)
        (stop_threads_ c) (talked c ++ [(address, m)]), 1).

(** One step of thread [k]; [None] when it is blocked or done.  After a message was sent the mutex is
    unlocked a second time, when [cv_lock] leaves its scope. *)
Definition RunThread_ (k : nat) (c : ValidatorClientImpl) : option (outcome ValidatorClientImpl) :=
  match thread_pool_ c !! k with
  | None => None
  | Some t =>
      match pc t with
      | Finished => None
      | Testing => Some (Ok (set_pc k (if stop_threads_ c then Finished else Waiting) c))
      | Waiting =>
          match queues c !! mq t with
          | Some (msg :: rest) =>
              let c := set_mq_mtx (lock (mq_mtx_ c)) c in
              let c := set_queues (<[mq t := rest]> (queues c)) c in
              let c := set_mq_mtx (unlock (mq_mtx_ c)) c in
              Some ('(c, _) ← SendMessage_ msg (server_address t) c;
                    Ok (set_pc k Testing (set_mq_mtx (unlock (mq_mtx_ c)) c)))
          | _ => if stop_threads_ c then Some (Ok (set_pc k Testing c)) else None
          end
      end
  end.

(** ** Runs of a client *)

(** What happened from [c0] to [c], with the messages pushed for each address, in order. *)
Inductive client_run (c0 : ValidatorClientImpl)
    : list (string * Message) -> ValidatorClientImpl -> Prop :=
| run_start : client_run c0 [] c0
| run_broadcast h c m c' : client_run c0 h c -> Broadcast m c = Ok (c', 1) ->
    client_run c0 (h ++ map (fun a => (a, m)) (servers_ c)) c'
| run_leader h c m c' : client_run c0 h c -> SendToLeader m c = Ok (c', 1) ->
    client_run c0 (h ++ [(leader_ c, m)]) c'
| run_thread h c k c' : client_run c0 h c -> RunThread_ k c = Some (Ok c') -> client_run c0 h c'
| run_stop h c : client_run c0 h c -> client_run c0 h (set_stop true c).

(** The messages for one address. *)
Definition to_address (a : string) (l : list (string * Message)) : list Message :=
  map snd (filter (fun p => p.1 = a) l).

Lemma to_address_app a l1 l2 : to_address a (l1 ++ l2) = to_address a l1 ++ to_address a l2.
Proof. unfold to_address. by rewrite filter_app, map_app. Qed.

Lemma to_address_one a b m : to_address a [(b, m)] = if decide (b = a) then [m] else [].
Proof. unfold to_address. rewrite filter_cons. cbn. by destruct (decide (b = a)). Qed.

Lemma to_address_servers a m l : NoDup l ->
  to_address a (map (fun a => (a, m)) l) = if decide (a ∈ l) then [m] else [].
Proof.
  induction 1 as [|b l Hb Hl IH]; [done|].
  change (map _ (b :: l)) with ([(b, m)] ++ map (fun a => (a, m)) l).
  rewrite to_address_app, to_address_one, IH. destruct (decide (b = a)) as [->|Hne].
  - rewrite decide_False by done. by rewrite decide_True by (by left).
  - destruct (decide (a ∈ l)); [by rewrite decide_True by (by right)|].
    rewrite decide_False; [done|]. intros [->|]%elem_of_cons; done.
Qed.

(** The structure of a client with its threads: one queue per server. *)
Definition wired (c : ValidatorClientImpl) : Prop :=
  NoDup (servers_ c) /\ length (queues c) = length (servers_ c) /\
  length (thread_pool_ c) = length (servers_ c) /\
  (forall i a, servers_ c !! i = Some a -> message_queues_ c !! a = Some i) /\
  (forall i t, thread_pool_ c !! i = Some t -> mq t = i /\ servers_ c !! i = Some (server_address t)) /\
  (forall a, a ∉ servers_ c -> message_queues_ c !! a = None) /\
  held (mq_mtx_ c) = false.

Lemma lock_unlock m : held m = false -> unlock (lock m) = m.
Proof. by destruct m as [[]]. Qed.

Lemma startThreads_wired servers leader :
  NoDup servers -> (length servers <= 255)%nat ->
  exists c, startThreads_ (client_members servers leader) = Ok c /\ wired c /\
    servers_ c = servers /\ leader_ c = leader /\ Forall (fun q => q = []) (queues c) /\
    talked c = [] /\ mq_mtx_ c = mutex_new /\ stop_threads_ c = false /\
    Forall (fun t => pc t = Testing) (thread_pool_ c).
Proof.
  intros Hnd Hlen.
  set (P := fun (k : nat) c =>
    servers_ c = servers /\ leader_ c = leader /\ talked c = [] /\ mq_mtx_ c = mutex_new /\
    length (queues c) = k /\ Forall (fun q => q = []) (queues c) /\
    thread_pool_ c = imap (fun i a => mkThread a i Testing) (take k servers) /\
    (forall i a, (i < k)%nat -> servers !! i = Some a -> message_queues_ c !! a = Some i) /\
    (forall a, a ∉ take k servers -> message_queues_ c !! a = None) /\ stop_threads_ c = false).
  unfold startThreads_. cbn [servers_ client_members].
  assert (u8 (Z.of_nat (length servers)) = Z.of_nat (length servers)) as ->
    by (unfold u8; rewrite Z.mod_small; lia).
  rewrite Nat2Z.id. destruct (foldM_seq_inv P start_thread (length servers)
    (set_stop false (client_members servers leader))) as (c & E & Hc).
  - unfold P. cbn. split_and!; try done. intros i a Hi. lia.
  - intros k c Hk (H1 & H2 & H3 & H4 & H5 & H6 & H7 & H8 & H9 & H10).
    destruct (lookup_lt_is_Some_2 servers k Hk) as [a Ha]. unfold start_thread.
    rewrite H1, (read_ok _ _ _ Ha). cbn [mbind outcome_bind]. eexists. split; [reflexivity|].
    assert (Htake : take (k + 1) servers = take k servers ++ [a])
      by (rewrite Nat.add_1_r; by apply take_S_r).
    unfold P. cbn. rewrite length_app, H5, H7, Htake, imap_app. cbn.
    rewrite length_take_le, Nat.add_0_r by lia. split_and!; try done.
    + apply Forall_app. by split; [|constructor].
    + intros i b Hi Hb. destruct (decide (i = k)) as [->|Hne].
      * rewrite Ha in Hb. injection Hb as ->. by rewrite lookup_insert_eq.
      * rewrite lookup_insert_ne; [apply H8; [lia|done]|]. intros ->.
        apply Hne. by eapply NoDup_lookup.
    + intros b [Hb Hab]%not_elem_of_app. rewrite lookup_insert_ne; [by apply H9|].
      intros ->. apply Hab. by left.
  - destruct Hc as (H1 & H2 & H3 & H4 & H5 & H6 & H7 & H8 & H9 & H10).
    exists c. split; [exact E|]. rewrite firstn_all in H7, H9. split_and!; try done.
    2: { rewrite H7. apply Forall_lookup. intros i t. rewrite list_lookup_imap.
         destruct (servers !! i); [|done]. cbn. by intros [= <-]. }
    unfold wired. rewrite H1, H4, H7, length_imap. split_and!; try done.
    + intros i a Ha. apply H8; [by eapply lookup_lt_Some|done].
    + intros i t. rewrite list_lookup_imap. destruct (servers !! i) eqn:Ei; [|done].
      cbn. by intros [= <-].
Qed.

(** With its threads, a client appends a broadcast message to every queue. *)
Lemma push_servers m n : forall c k,
  (forall i a, servers_ c !! i = Some a -> message_queues_ c !! a = Some i) ->
  length (queues c) = length (servers_ c) -> (length (servers_ c) = k + n)%nat ->
  foldM (push m) c (drop k (servers_ c)) =
    Ok (set_queues (take k (queues c) ++ map (fun q => q ++ [m]) (drop k (queues c))) c).
Proof.
  induction n as [|n IH]; intros c k Hq Hl Hn.
  - rewrite !drop_ge, app_nil_r, take_ge by lia. cbn. by destruct c.
  - destruct (lookup_lt_is_Some_2 (servers_ c) k) as [a Ha]; [lia|].
    destruct (lookup_lt_is_Some_2 (queues c) k) as [q Hk]; [lia|].
    rewrite (drop_S _ _ _ Ha), (drop_S _ _ _ Hk). cbn [foldM map].
    set (c1 := set_queues (alter (fun mq => mq ++ [m]) k (queues c)) c).
    assert (Hp : push m c a = Ok c1) by (unfold push; by rewrite (Hq _ _ Ha)).
    rewrite Hp. cbn [mbind outcome_bind].
    assert (E1 : servers_ c1 = servers_ c) by done. rewrite <- E1.
    rewrite (IH c1 (S k)); [|done|unfold c1; cbn; by rewrite length_alter|cbn; lia].
    f_equal. unfold c1, set_queues. cbn. f_equal.
    assert (Halt : alter (fun mq => mq ++ [m]) k (queues c) !! k = Some (q ++ [m]))
      by (by rewrite list_lookup_alter, decide_True, Hk).
    rewrite drop_alter_lt, (take_S_r _ _ _ Halt), take_alter_ge by lia. by rewrite <- app_assoc.
Qed.

Lemma Broadcast_wired m c : wired c ->
  Broadcast m c = Ok (set_queues (map (fun q => q ++ [m]) (queues c)) c, 1).
Proof.
  intros (Hnd & Hl & _ & Hq & _ & _ & Hm). unfold Broadcast.
  set (c1 := set_mq_mtx _ c). change (servers_ c) with (servers_ c1).
  pose proof (push_servers m (length (servers_ c)) c1 0 Hq Hl eq_refl) as Hp.
  rewrite drop_0 in Hp. rewrite Hp. cbn [mbind outcome_bind take app drop].
  unfold c1, set_mq_mtx, set_queues. cbn -[lock unlock]. by rewrite lock_unlock.
Qed.

Lemma wired_queues c qs : length qs = length (queues c) -> wired c -> wired (set_queues qs c).
Proof. intros Hl (? & ? & ?). unfold wired. cbn. by rewrite Hl. Qed.

(** What holds after the messages [h] were pushed: for every server, those handed to the stub and
    those still queued are the ones pushed for it, in order. *)
Definition faithful (h : list (string * Message)) (c : ValidatorClientImpl) : Prop :=
  wired c /\
  forall i a q, servers_ c !! i = Some a -> queues c !! i = Some q ->
    to_address a (talked c) ++ q = to_address a h.

Lemma faithful_broadcast h c m : faithful h c ->
  faithful (h ++ map (fun a => (a, m)) (servers_ c))
    (set_queues (map (fun q => q ++ [m]) (queues c)) c).
Proof.
  intros [Hw Hf]. split; [by apply wired_queues; [apply length_map|]|]. cbn.
  intros i a q Ha. rewrite list_lookup_map. destruct (queues c !! i) eqn:Eq; [|done].
  intros [= <-]. rewrite to_address_app, to_address_servers, decide_True, app_assoc by
    (apply Hw || by eapply list_elem_of_lookup_2). by rewrite (Hf i a).
Qed.

Lemma faithful_leader h c m c' : faithful h c -> SendToLeader m c = Ok (c', 1) ->
  faithful (h ++ [(leader_ c, m)]) c'.
Proof.
  intros [Hw Hf]. unfold SendToLeader, push. cbn [leader_ message_queues_ set_mq_mtx].
  destruct (message_queues_ c !! leader_ c) as [k|] eqn:Ek; [|done]. cbn [mbind outcome_bind].
  pose proof Hw as (Hnd & Hl & Ht & Hq & Hth & Hno & Hm).
  cbn [mq_mtx_ set_queues set_mq_mtx queues]. rewrite lock_unlock by done.
  intros [= <-]. split; [by apply (wired_queues c); [apply length_alter|]|]. cbn.
  intros i a q Ha. rewrite list_lookup_alter, to_address_app, to_address_one.
  destruct (decide (k = i)) as [->|Hne].
  - destruct (queues c !! i) eqn:Eq; [|done]. intros [= <-].
    assert (leader_ c = a) as ->.
    { destruct (decide (leader_ c ∈ servers_ c)) as [[j Hj]%list_elem_of_lookup|Hn];
        [|by rewrite Hno in Ek]. rewrite (Hq _ _ Hj) in Ek. congruence. }
    rewrite decide_True, app_assoc by done. by rewrite (Hf i a).
  - intros Eq. rewrite decide_False, app_nil_r; [by apply (Hf i)|].
    intros E. rewrite E, (Hq _ _ Ha) in Ek. congruence.
Qed.

Lemma wired_pc k p c : wired c -> wired (set_pc k p c).
Proof.
  intros (Hnd & Hl & Ht & Hq & Hth & Hno & Hm). unfold wired. cbn. rewrite length_alter.
  split_and!; try done. intros i t. rewrite list_lookup_alter. destruct (decide _) as [->|]; [|apply Hth].
  destruct (thread_pool_ c !! i) eqn:E; [|done]. intros [= <-]. by apply Hth in E.
Qed.

(** A step of a thread that sends. *)
Lemma RunThread_send k c t msg rest p : wired c -> thread_pool_ c !! k = Some t -> pc t = Waiting ->
  queues c !! k = Some (msg :: rest) -> toProtoMessage msg = Ok p ->
  RunThread_ k c = Some (Ok (mkClient (servers_ c) (leader_ c) (message_queues_ c)
    (<[k := rest]> (queues c))
    (alter (fun t => mkThread (server_address t) (mq t) Testing) k (thread_pool_ c))
    (mkMutex false (S (stray_unlocks (mq_mtx_ c)))) (stop_threads_ c)
    (talked c ++ [(server_address t, msg)]))).
Proof.
  intros (_ & _ & _ & _ & Hth & _ & Hm) Ht Hpc Hq Hp. unfold RunThread_. rewrite Ht, Hpc.
  destruct (Hth _ _ Ht) as [-> _]. rewrite Hq. cbn [queues set_mq_mtx]. unfold SendMessage_, Talk.
  rewrite Hp. reflexivity.
Qed.

Lemma faithful_thread h c k c' : faithful h c -> RunThread_ k c = Some (Ok c') -> faithful h c'.
Proof.
  intros [Hw Hf] Hr. destruct (thread_pool_ c !! k) as [t|] eqn:Et;
    [|unfold RunThread_ in Hr; by rewrite Et in Hr].
  destruct (pc t) eqn:Epc;
    [unfold RunThread_ in Hr; rewrite Et, Epc in Hr| |unfold RunThread_ in Hr; by rewrite Et, Epc in Hr].
  - injection Hr as <-. split; [by apply wired_pc|exact Hf].
  - destruct (queues c !! k) as [q|] eqn:Eq.
    2:{ pose proof Hw as (_ & Hl & Ht & _). apply lookup_lt_Some in Et.
        apply lookup_ge_None_1 in Eq. lia. }
    destruct Hw as (Hnd & Hl & Ht & Hq & Hth & Hno & Hm). destruct (Hth _ _ Et) as [Hmq Hsrv].
    destruct q as [|msg rest].
    { unfold RunThread_ in Hr. rewrite Et, Epc, Hmq, Eq in Hr. destruct (stop_threads_ c); [|done].
      injection Hr as <-. split; [by apply wired_pc|exact Hf]. }
    destruct (toProtoMessage msg) as [p| | |] eqn:Ep;
      [|unfold RunThread_ in Hr; rewrite Et, Epc, Hmq, Eq in Hr; unfold SendMessage_, Talk in Hr;
        rewrite Ep in Hr; done..].
    rewrite (RunThread_send k c t msg rest p) in Hr by (done || unfold wired; by split_and!).
    injection Hr as <-. split.
    + unfold wired. cbn. rewrite length_insert, length_alter. split_and!; try done.
      intros i t'. rewrite list_lookup_alter. destruct (decide _) as [->|]; [|apply Hth].
      rewrite Et. cbn. intros [= <-]. done.
    + cbn [servers_ queues talked]. intros i a q Ha. rewrite to_address_app, to_address_one.
      destruct (decide (i = k)) as [->|Hne].
      * rewrite list_lookup_insert_eq by (by eapply lookup_lt_Some). intros [= <-].
        rewrite Hsrv in Ha. injection Ha as <-. rewrite decide_True, <- app_assoc by done.
        by apply (Hf k).
      * rewrite list_lookup_insert_ne by done. rewrite decide_False, app_nil_r; [by apply Hf|].
        intros E. rewrite E in Hsrv. apply Hne. by eapply NoDup_lookup.
Qed.

Lemma faithful_run servers leader c0 h c :
  NoDup servers -> (length servers <= 255)%nat ->
  startThreads_ (client_members servers leader) = Ok c0 -> client_run c0 h c ->
  faithful h c /\ servers_ c = servers.
Proof.
  intros Hnd Hlen Hc0 Hrun. destruct (startThreads_wired servers leader Hnd Hlen)
    as (c0' & E & Hw & Hs & _ & Hq & Htk & _). rewrite E in Hc0. injection Hc0 as <-.
  induction Hrun as [|h c m c' Hr [IH Hsv] Hb|h c m c' Hr [IH Hsv] Hb|h c k c' Hr [IH Hsv] Hb|h c Hr [IH Hsv]].
  - split; [|done]. split; [done|]. intros i a q Ha Hi. rewrite Htk.
    by rewrite (proj1 (Forall_lookup _ _) Hq _ _ Hi).
  - rewrite Broadcast_wired in Hb by apply IH. injection Hb as <-.
    split; [by apply faithful_broadcast|done].
  - split; [by eapply faithful_leader|]. unfold SendToLeader, push in Hb. cbn in Hb.
    destruct (message_queues_ c !! leader_ c); [|done]. cbn in Hb. by injection Hb as <-.
  - split; [by eapply faithful_thread|]. unfold RunThread_, SendMessage_ in Hb.
    destruct (thread_pool_ c !! k) as [t|]; [|done]. destruct (pc t); [by injection Hb as <-| |done].
    destruct (queues c !! mq t) as [[|msg rest]|].
    + destruct (stop_threads_ c); [by injection Hb as <-|done].
    + cbn in Hb. destruct (Talk msg); [by injection Hb as <-|done..].
    + destruct (stop_threads_ c); [by injection Hb as <-|done].
  - done.
Qed.



Definition example_client : ValidatorClientImpl :=
  match startThreads_ (client_members ["a:1"; "b:2"] "a:1") with
  | Ok c => c | _ => client_members [] "" end.
Definition example_send : Message := Message_new SEND example_block 3 0.


(** The interface, implemented by a client with its threads: what a server was or will be sent. *)
#[export, refine] Instance validator_client : Client ValidatorClientImpl := {
  client_broadcast := Broadcast;
  client_servers := servers_;
  client_outbox c a := to_address a (talked c) ++
    match message_queues_ c !! a with Some i => default [] (queues c !! i) | None => [] end;
  client_ok := wired
}.
Proof.
  intros m c Hw. rewrite Broadcast_wired by done. eexists. split; [reflexivity|].
  split; [by apply wired_queues; [apply length_map|]|]. split; [done|].
  intros a [i Hi]%list_elem_of_lookup. destruct Hw as (_ & Hl & _ & Hq & _).
  cbn [message_queues_ set_queues queues talked]. rewrite (Hq _ _ Hi), list_lookup_map.
  destruct (lookup_lt_is_Some_2 (queues c) i) as [q ->]; [rewrite Hl; by eapply lookup_lt_Some|].
  cbn. by rewrite app_assoc.
Defined.

(** * The client of a wallet *)

(** [ChatClient::NewTx] and [ChatClient::Sync] up to the stub; the reply of a call that failed is
    empty. *)
Definition NewTx (tx : Transaction) : outcome chat.TransactionMsg :=
  toProtoTransaction tx chat.TransactionMsg_default.
Definition Sync_request (wallet_id : Z) : Z := i32 wallet_id.
Definition Sync_reply (utxolist : UTXOlist) (reply : chat.UTXOlistMsg) : UTXOlist :=
  fromProtoUTXOlist utxolist reply.

(** * The server *)

Inductive CallStatus := CREATE | START_PROCESS | FINISH.
Inductive call_kind := Talk_call | NewTx_call | Sync_call.
#[export] Instance CallStatus_eq_dec : EqDecision CallStatus.
Proof. solve_decision. Defined.
#[export] Instance call_kind_eq_dec : EqDecision call_kind.
Proof. solve_decision. Defined.

(** What a call brings, and what it is answered. *)
Inductive request :=
| Send_request (message : MessageMsg)
| NewTransaction_request (transaction : chat.TransactionMsg)
| SyncReq_request (wallet_id : Z).
Inductive reply := Ack | SyncReply (utxolist : chat.UTXOlistMsg).

Definition request_kind (r : request) : call_kind :=
  match r with
  | Send_request _ => Talk_call | NewTransaction_request _ => NewTx_call | SyncReq_request _ => Sync_call
  end.

Record CallData := mkCallData { kind_ : call_kind; status_ : CallStatus }.

(** The objects of the heap have the position of [calls] as their tag; a deleted one is [None]. *)
Record ChatServiceImpl := mkServer {
  mq_ : list Message;
  txq_ : list Transaction;
  utxolists_ : gmap Z UTXOlist;
  calls : list (option CallData);
  replies : list (nat * reply)
}.

Definition set_calls (cs : list (option CallData)) (s : ChatServiceImpl) : ChatServiceImpl :=
  mkServer (mq_ s) (txq_ s) (utxolists_ s) cs (replies s).
Definition Finish (tag : nat) (r : reply) (s : ChatServiceImpl) : ChatServiceImpl :=
  mkServer (mq_ s) (txq_ s) (utxolists_ s) (calls s) (replies s ++ [(tag, r)]).

Definition set_status (tag : nat) (k : call_kind) (st : CallStatus) (s : ChatServiceImpl)
    : ChatServiceImpl :=
  set_calls (<[tag := Some (mkCallData k st)]> (calls s)) s.

(** The first branch of [Proceed]: the object waits for a call from now on. *)
Definition Request (tag : nat) (k : call_kind) (s : ChatServiceImpl) : ChatServiceImpl :=
  set_status tag k START_PROCESS s.

(** The constructor of the three classes runs [Proceed] on the new object. *)
Definition new_CallData (k : call_kind) (s : ChatServiceImpl) : ChatServiceImpl :=
  let tag := length (calls s) in
  Request tag k (set_calls (calls s ++ [Some (mkCallData k CREATE)]) s).

(** What uninitialised members of messages and transactions hold. *)
Definition message_memory : Type := MsgType * (Z * Z) * Z.

(** The processing of a request, between the creation of the next object and the reply. *)
Definition process (memory : message_memory) (r : request) (s : ChatServiceImpl)
    : outcome (ChatServiceImpl * reply) :=
  match r with
  | Send_request message =>
      m ← Message_from_proto memory message;
      Ok (mkServer (mq_ s ++ [m]) (txq_ s) (utxolists_ s) (calls s) (replies s), Ack)
  | NewTransaction_request transaction =>
      t ← fromProtoTransaction (Transaction_default memory.1.2) transaction;
      Ok (mkServer (mq_ s) (txq_ s ++ [t]) (utxolists_ s) (calls s) (replies s), Ack)
  | SyncReq_request wallet_id =>
      let utxolist := default [] (utxolists_ s !! u32 wallet_id) in
      Ok (s, SyncReply (toProtoUTXOlist utxolist []))
  end.

(** [Proceed] on the object [tag], its request filled in when it is started. *)
Definition Proceed (memory : message_memory) (tag : nat) (r : request) (s : ChatServiceImpl)
    : outcome ChatServiceImpl :=
  match calls s !! tag with
  | Some (Some c) =>
      match status_ c with
      | CREATE => Ok (Request tag (kind_ c) s)
      | START_PROCESS =>
          let s := new_CallData (kind_ c) s in
          '(s, reply) ← process memory r s;
          Ok (set_status tag (kind_ c) FINISH (Finish tag reply s))
      | FINISH => Ok (set_calls (<[tag := None]> (calls s)) s)
      end
  | _ => Undef dangling_read
  end.

(** [HandleRpcs] before its loop. *)
Definition HandleRpcs_start (s : ChatServiceImpl) : ChatServiceImpl :=
  new_CallData Sync_call (new_CallData NewTx_call (new_CallData Talk_call s)).
Definition ChatServiceImpl_new : ChatServiceImpl := mkServer [] [] ∅ [] [].

(** [getMessages] and [getTransactions]: the loop moves the queue to the end of the caller's list. *)
Fixpoint drain {A} (queue out : list A) : list A * list A :=
  match queue with
  | [] => ([], out)
  | x :: queue' => drain queue' (out ++ [x])
  end.

Definition getMessages (msg_list : list Message) (s : ChatServiceImpl)
    : ChatServiceImpl * list Message * bool :=
  match mq_ s with
  | [] => (s, msg_list, false)
  | _ =>
      let '(mq, msg_list) := drain (mq_ s) msg_list in
      (mkServer mq (txq_ s) (utxolists_ s) (calls s) (replies s), msg_list, true)
  end.
Definition getTransactions (tx_list : list Transaction) (s : ChatServiceImpl)
    : ChatServiceImpl * list Transaction * bool :=
  match txq_ s with
  | [] => (s, tx_list, false)
  | _ =>
      let '(txq, tx_list) := drain (txq_ s) tx_list in
      (mkServer (mq_ s) txq (utxolists_ s) (calls s) (replies s), tx_list, true)
  end.
Definition newConsensusMessages (s : ChatServiceImpl) : bool :=
  match mq_ s with [] => false | _ => true end.
Definition newRequests (s : ChatServiceImpl) : bool := match txq_ s with [] => false | _ => true end.
Definition setUTXOlists (utxolists : gmap Z UTXOlist) (s : ChatServiceImpl) : ChatServiceImpl :=
  mkServer (mq_ s) (txq_ s) utxolists (calls s) (replies s).
Definition clearUTXOlists (s : ChatServiceImpl) : ChatServiceImpl :=
  mkServer (mq_ s) (txq_ s) ∅ (calls s) (replies s).

(** ** Runs of a server *)

Definition waits (s : ChatServiceImpl) (k : call_kind) (tag : nat) : Prop :=
  calls s !! tag = Some (Some (mkCallData k START_PROCESS)).

(** What happened since the server started: the requests that arrived, and the messages and
    transactions taken from its queues, in order.  The completion queue yields the tag of a waiting
    object when a call of its kind arrived, and that of an answered one when the answer was sent. *)
Inductive server_run : list request -> list Message -> list Transaction -> ChatServiceImpl -> Prop :=
| server_start : server_run [] [] [] (HandleRpcs_start ChatServiceImpl_new)
| server_call memory arrived ms ts s tag r s' : server_run arrived ms ts s ->
    waits s (request_kind r) tag -> Proceed memory tag r s = Ok s' ->
    server_run (arrived ++ [r]) ms ts s'
| server_sent memory arrived ms ts s tag k r s' : server_run arrived ms ts s ->
    calls s !! tag = Some (Some (mkCallData k FINISH)) -> Proceed memory tag r s = Ok s' ->
    server_run arrived ms ts s'
| server_messages arrived ms ts s s' ms' b : server_run arrived ms ts s ->
    getMessages ms s = (s', ms', b) -> server_run arrived ms' ts s'
| server_transactions arrived ms ts s s' ts' b : server_run arrived ms ts s ->
    getTransactions ts s = (s', ts', b) -> server_run arrived ms ts' s'
| server_utxolists arrived ms ts s u : server_run arrived ms ts s ->
    server_run arrived ms ts (setUTXOlists u s)
| server_clear arrived ms ts s : server_run arrived ms ts s ->
    server_run arrived ms ts (clearUTXOlists s).

Definition sent_messages (arrived : list request) : list MessageMsg :=
  omap (fun r => match r with Send_request m => Some m | _ => None end) arrived.
Definition sent_transactions (arrived : list request) : list chat.TransactionMsg :=
  omap (fun r => match r with NewTransaction_request t => Some t | _ => None end) arrived.

Definition read_message (p : MessageMsg) (m : Message) : Prop :=
  exists memory, Message_from_proto memory p = Ok m.
Definition read_transaction (p : chat.TransactionMsg) (t : Transaction) : Prop :=
  exists memory, fromProtoTransaction (Transaction_default memory) p = Ok t.

(** Exactly one object of each kind waits, and no answered object waits. *)
Definition accepting (s : ChatServiceImpl) : Prop :=
  (forall k, exists tag, waits s k tag /\ forall tag', waits s k tag' -> tag' = tag) /\
  NoDup (map fst (replies s)) /\
  (forall tag r, (tag, r) ∈ replies s -> (tag < length (calls s))%nat /\ forall k, ~ waits s k tag).

Lemma drain_app {A} (queue : list A) : forall out, drain queue out = ([], out ++ queue).
Proof.
  induction queue as [|x queue IH]; intros out; cbn; [by rewrite app_nil_r|].
  by rewrite IH, <- app_assoc.
Qed.

Lemma getMessages_spec ms s :
  getMessages ms s = (mkServer [] (txq_ s) (utxolists_ s) (calls s) (replies s), ms ++ mq_ s,
                      newConsensusMessages s).
Proof.
  unfold getMessages, newConsensusMessages. destruct s as [[|m mq] ?]; cbn; [by rewrite app_nil_r|].
  by rewrite drain_app, <- app_assoc.
Qed.

Lemma getTransactions_spec ts s :
  getTransactions ts s = (mkServer (mq_ s) [] (utxolists_ s) (calls s) (replies s), ts ++ txq_ s,
                          newRequests s).
Proof.
  unfold getTransactions, newRequests. destruct s as [? [|t txq] ?]; cbn; [by rewrite app_nil_r|].
  by rewrite drain_app, <- app_assoc.
Qed.

Lemma new_CallData_spec k s :
  new_CallData k s = set_calls (calls s ++ [Some (mkCallData k START_PROCESS)]) s.
Proof.
  unfold new_CallData, Request, set_status, set_calls. cbn.
  by rewrite insert_app_r_alt, Nat.sub_diag by lia.
Qed.

(** A waiting object that gets a call: what it leaves. *)
Lemma Proceed_call memory tag r s s' : waits s (request_kind r) tag ->
  Proceed memory tag r s = Ok s' ->
  exists s1 rep, process memory r (new_CallData (request_kind r) s) = Ok (s1, rep) /\
    s' = mkServer (mq_ s1) (txq_ s1) (utxolists_ s1)
      (<[tag := Some (mkCallData (request_kind r) FINISH)]> (calls s) ++
         [Some (mkCallData (request_kind r) START_PROCESS)]) (replies s ++ [(tag, rep)]).
Proof.
  intros Hw. unfold Proceed. rewrite Hw. cbn [status_ kind_].
  destruct (process memory r _) as [[s1 rep]| | |] eqn:E; [|done..]. cbn [mbind outcome_bind].
  intros [= <-]. exists s1, rep. split; [done|]. unfold set_status, set_calls, Finish. cbn.
  rewrite new_CallData_spec in E.
  assert (calls s1 = calls s ++ [Some (mkCallData (request_kind r) START_PROCESS)] /\
          replies s1 = replies s) as [-> ->].
  { destruct r; cbn in E; [destruct (Message_from_proto memory message)|
      destruct (fromProtoTransaction (Transaction_default memory.1.2) transaction)|]; cbn in E;
      try discriminate; injection E as <- <-; done. }
  rewrite insert_app_l; [done|by eapply lookup_lt_Some].
Qed.

Lemma accepting_start : accepting (HandleRpcs_start ChatServiceImpl_new).
Proof.
  split_and!; [|constructor|intros tag r Hr; by apply elem_of_nil in Hr].
  unfold waits. intros k. exists (match k with Talk_call => 0 | NewTx_call => 1 | Sync_call => 2 end)%nat.
  split; [by destruct k|]. intros [|[|[|tag]]]; cbn; by intros [= <-].
Qed.

Lemma accepting_call memory tag r s s' : accepting s -> waits s (request_kind r) tag ->
  Proceed memory tag r s = Ok s' -> accepting s'.
Proof.
  intros (Hk & Hnd & Hrep) Hw Hp. destruct (Proceed_call _ _ _ _ _ Hw Hp) as (s1 & rep & _ & ->).
  assert (Hlt : (tag < length (calls s))%nat) by (by eapply lookup_lt_Some).
  assert (Hcalls : forall k' t, (<[tag := Some (mkCallData (request_kind r) FINISH)]> (calls s) ++
      [Some (mkCallData (request_kind r) START_PROCESS)]) !! t
        = Some (Some (mkCallData k' START_PROCESS)) <->
      (t <> tag /\ waits s k' t) \/ (t = length (calls s) /\ k' = request_kind r)).
  { intros k' t. rewrite lookup_app, length_insert. unfold waits.
    destruct (decide (t = tag)) as [->|Hne].
    - rewrite list_lookup_insert_eq by done. split; [done|]. intros [[]|[]]; [done|lia].
    - rewrite list_lookup_insert_ne by done. destruct (calls s !! t) as [c|] eqn:Ec.
      + apply lookup_lt_Some in Ec. split; [intros H1; by left|]. intros [[]|[]]; [done|lia].
      + apply lookup_ge_None_1 in Ec. destruct (decide (t = length (calls s))) as [->|Hn].
        * rewrite Nat.sub_diag. cbn. split; [intros [= ->]; by right|]. intros [[]|[_ ->]]; done.
        * rewrite lookup_ge_None_2 by (cbn; lia). split; [done|]. intros [[]|[]]; [done|lia]. }
  split_and!; unfold waits; cbn [calls replies].
  - intros k. destruct (decide (k = request_kind r)) as [->|Hkr].
    + exists (length (calls s)). split; [apply Hcalls; by right|].
      intros t [[Hne Ht]|[-> _]]%Hcalls; [|done]. destruct (Hk (request_kind r)) as (t0 & _ & Hu).
      rewrite (Hu t Ht), <- (Hu tag Hw) in Hne. done.
    + destruct (Hk k) as (t0 & Ht0 & Hu). exists t0. split.
      * apply Hcalls. left. split; [|done]. intros ->. unfold waits in *. congruence.
      * intros t [[_ Ht]|[_ ?]]%Hcalls; [by apply Hu|done].
  - rewrite map_app. apply NoDup_app. split_and!; [done| |by apply NoDup_singleton].
    intros t ([t' r'] & -> & Hin)%list_elem_of_fmap Ht. cbn in Ht.
    assert (t' = tag) as -> by set_solver. destruct (Hrep _ _ Hin) as [_ Hn]. by apply (Hn _ Hw).
  - intros t r' [Hin|Hin]%elem_of_app; rewrite length_app, length_insert; cbn.
    + destruct (Hrep _ _ Hin) as [Hl Hn]. split; [lia|].
      intros k [[_ Ht]|[-> _]]%Hcalls; [by apply (Hn k)|lia].
    + assert (t = tag) as -> by set_solver. split; [lia|].
      intros k [[]|[-> _]]%Hcalls; [done|lia].
Qed.

Lemma accepting_sent memory tag k r s s' : accepting s ->
  calls s !! tag = Some (Some (mkCallData k FINISH)) -> Proceed memory tag r s = Ok s' ->
  accepting s' /\ mq_ s' = mq_ s /\ txq_ s' = txq_ s /\ replies s' = replies s.
Proof.
  intros (Hk & Hnd & Hrep) Hc. unfold Proceed. rewrite Hc. cbn [status_]. intros [= <-].
  split; [|done].
  assert (Hlt : (tag < length (calls s))%nat) by (by eapply lookup_lt_Some).
  assert (Hw : forall k' t, waits (set_calls (<[tag := None]> (calls s)) s) k' t <-> waits s k' t).
  { intros k' t. unfold waits. cbn. destruct (decide (t = tag)) as [->|Hne].
    - rewrite list_lookup_insert_eq by done. by rewrite Hc.
    - by rewrite list_lookup_insert_ne. }
  split_and!; [|done|].
  - intros k'. destruct (Hk k') as (t & Ht & Hu). exists t. split; [by apply Hw|].
    intros t' Ht'. by apply Hu, Hw.
  - cbn [replies set_calls calls]. intros t r' Hin. rewrite length_insert.
    destruct (Hrep _ _ Hin) as [Hl Hn]. split; [done|]. intros k' ?%Hw. by apply (Hn k').
Qed.

Lemma process_queues memory r s s1 rep : process memory r s = Ok (s1, rep) ->
  exists ms ts, mq_ s1 = mq_ s ++ ms /\ txq_ s1 = txq_ s ++ ts /\
    Forall2 read_message (sent_messages [r]) ms /\
    Forall2 read_transaction (sent_transactions [r]) ts.
Proof.
  destruct r as [p|p|w]; cbn.
  - destruct (Message_from_proto memory p) as [m| | |] eqn:E; cbn; [|done..]. intros [= <- <-].
    exists [m], []. cbn. rewrite app_nil_r. split_and!; repeat constructor. by exists memory.
  - destruct (fromProtoTransaction _ p) as [t| | |] eqn:E; cbn; [|done..]. intros [= <- <-].
    exists [], [t]. cbn. rewrite app_nil_r. split_and!; repeat constructor. by exists memory.1.2.
  - intros [= <- <-]. exists [], []. rewrite !app_nil_r. by split_and!.
Qed.

(** C17: the server of a validator: at every moment of every run exactly one object of each kind waits
    for a call; the messages taken from the queue, followed by those still in it, are the ones that
    arrived, each once and in order, and the same holds for transactions; and the calls that arrived
    were answered, each once. *)
Theorem server_accepts (arrived : list request) (ms : list Message) (ts : list Transaction)
    (s : ChatServiceImpl) :
  server_run arrived ms ts s ->
  (forall k, exists tag, waits s k tag /\ forall tag', waits s k tag' -> tag' = tag) /\
  Forall2 read_message (sent_messages arrived) (ms ++ mq_ s) /\
  Forall2 read_transaction (sent_transactions arrived) (ts ++ txq_ s) /\
  length (replies s) = length arrived /\ NoDup (map fst (replies s)).
Proof.
  intros Hrun. enough (accepting s /\ Forall2 read_message (sent_messages arrived) (ms ++ mq_ s) /\
    Forall2 read_transaction (sent_transactions arrived) (ts ++ txq_ s) /\
    length (replies s) = length arrived) as ((Hk & Hnd & _) & ? & ? & ?) by done.
  induction Hrun as [|memory arr ms ts s tag r s' _ IH Hw Hp|memory arr ms ts s tag k r s' _ IH Hc Hp|
    arr ms ts s s' ms' b _ IH Hg|arr ms ts s s' ts' b _ IH Hg|arr ms ts s u _ IH|arr ms ts s _ IH].
  - split; [apply accepting_start|]. by repeat constructor.
  - destruct IH as (Ha & Hm & Ht & Hl). split; [by eapply accepting_call|].
    destruct (Proceed_call _ _ _ _ _ Hw Hp) as (s1 & rep & Hpr & ->). cbn [mq_ txq_ replies].
    destruct (process_queues _ _ _ _ _ Hpr) as (m1 & t1 & -> & -> & Hm1 & Ht1).
    unfold sent_messages, sent_transactions. rewrite !omap_app, !length_app, Hl. cbn [length].
    rewrite !app_assoc. split_and!; [by apply Forall2_app..|done].
  - destruct IH as (Ha & Hm & Ht & Hl).
    destruct (accepting_sent _ _ _ _ _ _ Ha Hc Hp) as (Ha' & -> & -> & ->). done.
  - rewrite getMessages_spec in Hg. injection Hg as <- <- _. destruct IH as (Ha & Hm & Ht & Hl).
    cbn. by rewrite app_nil_r.
  - rewrite getTransactions_spec in Hg. injection Hg as <- <- _. destruct IH as (Ha & Hm & Ht & Hl).
    cbn. by rewrite app_nil_r.
  - exact IH.
  - exact IH.
Qed.

Lemma server_accepts_witness :
  let s := HandleRpcs_start ChatServiceImpl_new in
  let s' := mkServer [] [Transaction_default (9, 8)] ∅
    (<[1%nat := Some (mkCallData NewTx_call FINISH)]> (calls s) ++ [Some (mkCallData NewTx_call START_PROCESS)])
    [(1%nat, Ack)] in
  let arrived := [NewTransaction_request (chat.mkTransaction 8 [] [] 9 [] "")] in
  (forall k, exists tag, waits s' k tag /\ forall tag', waits s' k tag' -> tag' = tag) /\
  Forall2 read_message (sent_messages arrived) ([] ++ mq_ s') /\
  Forall2 read_transaction (sent_transactions arrived) ([] ++ txq_ s') /\
  length (replies s') = length arrived /\ NoDup (map fst (replies s')).
Proof.
  intros s s' arrived. apply (server_accepts arrived [] [] s').
  apply (server_call (SEND, (9, 8), 7) [] [] [] s 1 (NewTransaction_request (chat.mkTransaction 8 [] [] 9 [] "")));
    [constructor|reflexivity|reflexivity].
Defined.

(** A key that is not JSON text stops the server thread with an exception. *)
Lemma malformed_key_stops memory s tag p :
  waits s Talk_call tag -> chatblock.publickey (block p) = "x" ->
  chatblock.transaction (block p) = [] ->
  Proceed memory tag (Send_request p) s = Throw json_parse_error.
Proof.
  intros Hw Hk Ht. unfold Proceed. rewrite Hw. cbn [status_ kind_ process].
  unfold Message_from_proto, fromProtoBlock. destruct memory as [[t0 tm] v]. rewrite Hk, Ht.
  reflexivity.
Qed.

(** ** Synchronisation *)

Definition UTXO_wf (u : UTXO) : Prop := - 2 ^ 31 <= outputIndex_ u < 2 ^ 31.

Lemma UTXO_proto u : UTXO_wf u -> UTXO_from_proto (toProtoUTXO u) = u.
Proof.
  intros Hu. unfold UTXO_from_proto, toProtoUTXO. cbn.
  assert (i32 (u32 (outputIndex_ u)) = outputIndex_ u) as ->.
  { rewrite <- (Settings.i32_small (outputIndex_ u)) at 2 by done. apply i32_congr.
    unfold u32. by rewrite Z.mod_mod by lia. }
  by destruct u as [? ? []].
Qed.

(** A wallet that synchronises with the server appends to its list exactly the list the server keeps
    for it, and nothing when the server keeps none. *)
Theorem sync_transfers (memory : message_memory) (s : ChatServiceImpl) (tag : nat) (wallet_id : Z)
    (local : UTXOlist) :
  is_u32 wallet_id -> waits s Sync_call tag -> map_Forall (fun _ l => Forall UTXO_wf l) (utxolists_ s) ->
  exists s' reply,
    Proceed memory tag (SyncReq_request (Sync_request wallet_id)) s = Ok s' /\
    replies s' = replies s ++ [(tag, SyncReply reply)] /\
    Sync_reply local reply = local ++ default [] (utxolists_ s !! wallet_id) /\
    utxolists_ s' = utxolists_ s.
Proof.
  intros Hid Hw Hwf. unfold Proceed. rewrite Hw. cbn [status_ kind_ process].
  rewrite new_CallData_spec. cbn [mbind outcome_bind utxolists_ set_calls].
  eexists _, _. split; [reflexivity|]. split; [reflexivity|]. split; [|done].
  unfold Sync_request. rewrite u32_i32 by done. unfold Sync_reply, fromProtoUTXOlist, toProtoUTXOlist.
  rewrite !foldl_snoc_map. cbn [app]. f_equal. rewrite map_map.
  destruct (utxolists_ s !! wallet_id) as [l|] eqn:E; [|done]. cbn. apply Hwf in E.
  induction E as [|u l Hu _ IH]; [done|]. cbn. by rewrite UTXO_proto, IH.
Qed.

Lemma sync_transfers_witness :
  let u := mkUTXO 1 (-1) (mkOutput 50 7) in
  let s := setUTXOlists {[ 7 := [u] ]} (HandleRpcs_start ChatServiceImpl_new) in
  exists s' reply,
    Proceed (SEND, (9, 8), 7) 2 (SyncReq_request (Sync_request 7)) s = Ok s' /\
    replies s' = [(2%nat, SyncReply reply)] /\ Sync_reply [] reply = [u] /\
    utxolists_ s' = utxolists_ s.
Proof.
  intros u s. apply (sync_transfers (SEND, (9, 8), 7) s 2 7 []).
  - by compute.
  - reflexivity.
  - apply map_Forall_singleton. repeat constructor; by compute.
Defined.
