(* ===== verification/Node.v ===== *)
(** The nodes of the Bracha broadcast (src/include/bracha/node.h, src/lib/bracha/node.cc): the chain of
    one-time keys, the counting of ECHO and READY messages, the broadcasts and the delivery.  A node is
    modelled against the interface [Client] of its client. *)
From S2P Require Import Prelude Sha256 Json JsonRoundTrip Signature Transaction Block Message Database Comms.
Local Open Scope Z_scope.

Section Node.
Context `{Hash} {C : Type} `{!Client C}.
(** The random device; the order in which a hash table is walked; what reading the key of an erased entry
    of a hash table gives, for which the standard says nothing; and the memory of new blocks. *)
Variables (dev : device) (order : gmap string Z -> list (string * Z)) (stale : string -> outcome string)
  (block_memory : Z).

(** * The state *)

(** The members that the constructor sets for good. *)
Record config := mkConfig {
  name_ : string; node_id_ : Z; is_faulty_ : bool; port_ : Z; is_lead_ : bool; n_ : Z; f_ : Z
}.

(** [opened_] counts how often the random device was opened. *)
Record Node := mkNode {
  config_ : config;
  grpcClient_ : C;
  mutex_grpc_ : mutex;
  blk_list_ : gmap string Block;
  send_this_round_ : string;
  ready_this_round_ : gmap string Z;
  echo_this_round_ : gmap string Z;
  ready_sent_ : gset string;
  utxolist_ : UTXOlist;
  wallet_ids_ : list Z;
  voted_hash_ : string;
  should_broadcast_ : bool;
  my_current_private_key_ : SigKey;
  my_current_public_key_ : SigKey;
  my_next_key_pair_ : Signature;
  val_sig_keys_ : gmap Z SigKey;
  verified_blocks_ : gset string;
  blocks_ : gmap string Block;
  accepted_blocks_ : list string;
  opened_ : nat
}.

Definition set_grpcClient (x : C) (n : Node) : Node :=
  mkNode (config_ n) x (mutex_grpc_ n) (blk_list_ n) (send_this_round_ n) (ready_this_round_ n)
    (echo_this_round_ n) (ready_sent_ n) (utxolist_ n) (wallet_ids_ n) (voted_hash_ n)
    (should_broadcast_ n) (my_current_private_key_ n) (my_current_public_key_ n) (my_next_key_pair_
    n) (val_sig_keys_ n) (verified_blocks_ n) (blocks_ n) (accepted_blocks_ n) (opened_ n).
Definition set_mutex_grpc (x : mutex) (n : Node) : Node :=
  mkNode (config_ n) (grpcClient_ n) x (blk_list_ n) (send_this_round_ n) (ready_this_round_ n)
    (echo_this_round_ n) (ready_sent_ n) (utxolist_ n) (wallet_ids_ n) (voted_hash_ n)
    (should_broadcast_ n) (my_current_private_key_ n) (my_current_public_key_ n) (my_next_key_pair_
    n) (val_sig_keys_ n) (verified_blocks_ n) (blocks_ n) (accepted_blocks_ n) (opened_ n).
Definition set_blk_list (x : gmap string Block) (n : Node) : Node :=
  mkNode (config_ n) (grpcClient_ n) (mutex_grpc_ n) x (send_this_round_ n) (ready_this_round_ n)
    (echo_this_round_ n) (ready_sent_ n) (utxolist_ n) (wallet_ids_ n) (voted_hash_ n)
    (should_broadcast_ n) (my_current_private_key_ n) (my_current_public_key_ n) (my_next_key_pair_
    n) (val_sig_keys_ n) (verified_blocks_ n) (blocks_ n) (accepted_blocks_ n) (opened_ n).
Definition set_send_this_round (x : string) (n : Node) : Node :=
  mkNode (config_ n) (grpcClient_ n) (mutex_grpc_ n) (blk_list_ n) x (ready_this_round_ n)
    (echo_this_round_ n) (ready_sent_ n) (utxolist_ n) (wallet_ids_ n) (voted_hash_ n)
    (should_broadcast_ n) (my_current_private_key_ n) (my_current_public_key_ n) (my_next_key_pair_
    n) (val_sig_keys_ n) (verified_blocks_ n) (blocks_ n) (accepted_blocks_ n) (opened_ n).
Definition set_ready_this_round (x : gmap string Z) (n : Node) : Node :=
  mkNode (config_ n) (grpcClient_ n) (mutex_grpc_ n) (blk_list_ n) (send_this_round_ n) x
    (echo_this_round_ n) (ready_sent_ n) (utxolist_ n) (wallet_ids_ n) (voted_hash_ n)
    (should_broadcast_ n) (my_current_private_key_ n) (my_current_public_key_ n) (my_next_key_pair_
    n) (val_sig_keys_ n) (verified_blocks_ n) (blocks_ n) (accepted_blocks_ n) (opened_ n).
Definition set_echo_this_round (x : gmap string Z) (n : Node) : Node :=
  mkNode (config_ n) (grpcClient_ n) (mutex_grpc_ n) (blk_list_ n) (send_this_round_ n)
    (ready_this_round_ n) x (ready_sent_ n) (utxolist_ n) (wallet_ids_ n) (voted_hash_ n)
    (should_broadcast_ n) (my_current_private_key_ n) (my_current_public_key_ n) (my_next_key_pair_
    n) (val_sig_keys_ n) (verified_blocks_ n) (blocks_ n) (accepted_blocks_ n) (opened_ n).
Definition set_ready_sent (x : gset string) (n : Node) : Node :=
  mkNode (config_ n) (grpcClient_ n) (mutex_grpc_ n) (blk_list_ n) (send_this_round_ n)
    (ready_this_round_ n) (echo_this_round_ n) x (utxolist_ n) (wallet_ids_ n) (voted_hash_ n)
    (should_broadcast_ n) (my_current_private_key_ n) (my_current_public_key_ n) (my_next_key_pair_
    n) (val_sig_keys_ n) (verified_blocks_ n) (blocks_ n) (accepted_blocks_ n) (opened_ n).
Definition set_utxolist (x : UTXOlist) (n : Node) : Node :=
  mkNode (config_ n) (grpcClient_ n) (mutex_grpc_ n) (blk_list_ n) (send_this_round_ n)
    (ready_this_round_ n) (echo_this_round_ n) (ready_sent_ n) x (wallet_ids_ n) (voted_hash_ n)
    (should_broadcast_ n) (my_current_private_key_ n) (my_current_public_key_ n) (my_next_key_pair_
    n) (val_sig_keys_ n) (verified_blocks_ n) (blocks_ n) (accepted_blocks_ n) (opened_ n).
Definition set_wallet_ids (x : list Z) (n : Node) : Node :=
  mkNode (config_ n) (grpcClient_ n) (mutex_grpc_ n) (blk_list_ n) (send_this_round_ n)
    (ready_this_round_ n) (echo_this_round_ n) (ready_sent_ n) (utxolist_ n) x (voted_hash_ n)
    (should_broadcast_ n) (my_current_private_key_ n) (my_current_public_key_ n) (my_next_key_pair_
    n) (val_sig_keys_ n) (verified_blocks_ n) (blocks_ n) (accepted_blocks_ n) (opened_ n).
Definition set_voted_hash (x : string) (n : Node) : Node :=
  mkNode (config_ n) (grpcClient_ n) (mutex_grpc_ n) (blk_list_ n) (send_this_round_ n)
    (ready_this_round_ n) (echo_this_round_ n) (ready_sent_ n) (utxolist_ n) (wallet_ids_ n) x
    (should_broadcast_ n) (my_current_private_key_ n) (my_current_public_key_ n) (my_next_key_pair_
    n) (val_sig_keys_ n) (verified_blocks_ n) (blocks_ n) (accepted_blocks_ n) (opened_ n).
Definition set_should_broadcast (x : bool) (n : Node) : Node :=
  mkNode (config_ n) (grpcClient_ n) (mutex_grpc_ n) (blk_list_ n) (send_this_round_ n)
    (ready_this_round_ n) (echo_this_round_ n) (ready_sent_ n) (utxolist_ n) (wallet_ids_ n)
    (voted_hash_ n) x (my_current_private_key_ n) (my_current_public_key_ n) (my_next_key_pair_ n)
    (val_sig_keys_ n) (verified_blocks_ n) (blocks_ n) (accepted_blocks_ n) (opened_ n).
Definition set_my_current_private_key (x : SigKey) (n : Node) : Node :=
  mkNode (config_ n) (grpcClient_ n) (mutex_grpc_ n) (blk_list_ n) (send_this_round_ n)
    (ready_this_round_ n) (echo_this_round_ n) (ready_sent_ n) (utxolist_ n) (wallet_ids_ n)
    (voted_hash_ n) (should_broadcast_ n) x (my_current_public_key_ n) (my_next_key_pair_ n)
    (val_sig_keys_ n) (verified_blocks_ n) (blocks_ n) (accepted_blocks_ n) (opened_ n).
Definition set_my_current_public_key (x : SigKey) (n : Node) : Node :=
  mkNode (config_ n) (grpcClient_ n) (mutex_grpc_ n) (blk_list_ n) (send_this_round_ n)
    (ready_this_round_ n) (echo_this_round_ n) (ready_sent_ n) (utxolist_ n) (wallet_ids_ n)
    (voted_hash_ n) (should_broadcast_ n) (my_current_private_key_ n) x (my_next_key_pair_ n)
    (val_sig_keys_ n) (verified_blocks_ n) (blocks_ n) (accepted_blocks_ n) (opened_ n).
Definition set_my_next_key_pair (x : Signature) (n : Node) : Node :=
  mkNode (config_ n) (grpcClient_ n) (mutex_grpc_ n) (blk_list_ n) (send_this_round_ n)
    (ready_this_round_ n) (echo_this_round_ n) (ready_sent_ n) (utxolist_ n) (wallet_ids_ n)
    (voted_hash_ n) (should_broadcast_ n) (my_current_private_key_ n) (my_current_public_key_ n) x
    (val_sig_keys_ n) (verified_blocks_ n) (blocks_ n) (accepted_blocks_ n) (opened_ n).
Definition set_val_sig_keys (x : gmap Z SigKey) (n : Node) : Node :=
  mkNode (config_ n) (grpcClient_ n) (mutex_grpc_ n) (blk_list_ n) (send_this_round_ n)
    (ready_this_round_ n) (echo_this_round_ n) (ready_sent_ n) (utxolist_ n) (wallet_ids_ n)
    (voted_hash_ n) (should_broadcast_ n) (my_current_private_key_ n) (my_current_public_key_ n)
    (my_next_key_pair_ n) x (verified_blocks_ n) (blocks_ n) (accepted_blocks_ n) (opened_ n).
Definition set_verified_blocks (x : gset string) (n : Node) : Node :=
  mkNode (config_ n) (grpcClient_ n) (mutex_grpc_ n) (blk_list_ n) (send_this_round_ n)
    (ready_this_round_ n) (echo_this_round_ n) (ready_sent_ n) (utxolist_ n) (wallet_ids_ n)
    (voted_hash_ n) (should_broadcast_ n) (my_current_private_key_ n) (my_current_public_key_ n)
    (my_next_key_pair_ n) (val_sig_keys_ n) x (blocks_ n) (accepted_blocks_ n) (opened_ n).
Definition set_blocks (x : gmap string Block) (n : Node) : Node :=
  mkNode (config_ n) (grpcClient_ n) (mutex_grpc_ n) (blk_list_ n) (send_this_round_ n)
    (ready_this_round_ n) (echo_this_round_ n) (ready_sent_ n) (utxolist_ n) (wallet_ids_ n)
    (voted_hash_ n) (should_broadcast_ n) (my_current_private_key_ n) (my_current_public_key_ n)
    (my_next_key_pair_ n) (val_sig_keys_ n) (verified_blocks_ n) x (accepted_blocks_ n) (opened_ n).
Definition set_accepted_blocks (x : list string) (n : Node) : Node :=
  mkNode (config_ n) (grpcClient_ n) (mutex_grpc_ n) (blk_list_ n) (send_this_round_ n)
    (ready_this_round_ n) (echo_this_round_ n) (ready_sent_ n) (utxolist_ n) (wallet_ids_ n)
    (voted_hash_ n) (should_broadcast_ n) (my_current_private_key_ n) (my_current_public_key_ n)
    (my_next_key_pair_ n) (val_sig_keys_ n) (verified_blocks_ n) (blocks_ n) x (opened_ n).
Definition set_opened (x : nat) (n : Node) : Node :=
  mkNode (config_ n) (grpcClient_ n) (mutex_grpc_ n) (blk_list_ n) (send_this_round_ n)
    (ready_this_round_ n) (echo_this_round_ n) (ready_sent_ n) (utxolist_ n) (wallet_ids_ n)
    (voted_hash_ n) (should_broadcast_ n) (my_current_private_key_ n) (my_current_public_key_ n)
    (my_next_key_pair_ n) (val_sig_keys_ n) (verified_blocks_ n) (blocks_ n) (accepted_blocks_ n) x.

(** * Construction *)

Definition KeyGen_node (opened : nat) (kp : Signature) : outcome Signature :=
  let '(kp, r) := KeyGen (fun k => dev (opened + k)%nat) kp in _ ← r; Ok kp.

Definition Node_new (name : string) (id : Z) (is_lead faulty : bool) (settings : Settings.Settings)
    (client : C) (opened : nat) : outcome Node :=
  let port := Settings.port (Settings.getValidatorInfo settings id).1 in
  kp ← KeyGen_node opened (mkSignature SigKey_empty SigKey_empty);
  Ok (mkNode (mkConfig name id faulty (u16 port) is_lead
                (u16 (Settings.getTotalNumberOfValidators settings))
                (u16 (Settings.getNumberOfFaultyValidators settings)))
        client mutex_new ∅ "" ∅ ∅ ∅ [] [] "" true SigKey_empty SigKey_empty kp ∅ ∅ ∅ []
        (opened + 2 * KEY_LEN_)%nat).

(** The copy and move constructors forget [n_] and [f_]; the copy has a client of its own. *)
Definition Node_copy (memory : Z * Z) (client : C) (other : Node) : Node :=
  let c := config_ other in
  mkNode (mkConfig (name_ c) (node_id_ c) (is_faulty_ c) (port_ c) (is_lead_ c) memory.1 memory.2)
    client mutex_new (blk_list_ other) (send_this_round_ other) (ready_this_round_ other)
    (echo_this_round_ other) (ready_sent_ other) (utxolist_ other) (wallet_ids_ other)
    (voted_hash_ other) (should_broadcast_ other) (my_current_private_key_ other)
    (my_current_public_key_ other) (my_next_key_pair_ other) (val_sig_keys_ other)
    (verified_blocks_ other) (blocks_ other) (accepted_blocks_ other) (opened_ other).

Definition node_setUTXOlists (utxolist : UTXOlist) (wallet_ids : list Z) (n : Node) : Node :=
  set_wallet_ids wallet_ids (set_utxolist utxolist n).
Definition node_clearUTXOlists (n : Node) : Node := set_utxolist [] n.
Definition isConsensus (n : Node) : bool := negb (should_broadcast_ n).

(** * Signatures *)

(** [signBlock]: the next pair becomes the current one, a new next pair is generated, and the block is
    signed and given the new public key. *)
Definition signBlock (block : Block) (n : Node) : outcome (Node * Block) :=
  let private := private_key_ (my_next_key_pair_ n) in
  let public := Signature.public_key_ (my_next_key_pair_ n) in
  kp ← KeyGen_node (opened_ n) (my_next_key_pair_ n);
  let my_next_pub_key := Signature.public_key_ kp in
  _ ← print_SigKey public;
  _ ← print_SigKey my_next_pub_key;
  block ← Block_sign block private (node_id_ (config_ n)) my_next_pub_key;
  digest ← Block_getDigest block;
  v ← Verify digest (validator_sig_ block) public;
  if v =? 0 then Throw assertion_failed
  else Ok (set_opened (opened_ n + 2 * KEY_LEN_)%nat
             (set_my_next_key_pair kp
               (set_my_current_public_key public (set_my_current_private_key private n))), block).

(** [checkBlockSig]: a validator without known key is accepted, and the next key is stored whatever the
    verdict. *)
Definition checkBlockSig (block : Block) (n : Node) : outcome (Node * bool) :=
  let node_id := validator_id_ block in
  block_digest ← Block_getDigest block;
  valid ← match val_sig_keys_ n !! node_id with
          | None => Ok 1
          | Some key =>
              v ← Verify block_digest (validator_sig_ block) key;
              _ ← print_SigKey key; Ok v
          end;
  _ ← print_SigKey (validator_next_public_key_ block);
  Ok (set_val_sig_keys (<[node_id := validator_next_public_key_ block]> (val_sig_keys_ n)) n, valid =? 1).

(** * Receiving *)

(** [++] on an entry of a table of counters, or its creation. *)
Definition count (h : string) (m : gmap string Z) : gmap string Z :=
  match m !! h with Some k => <[h := u64 (k + 1)]> m | None => <[h := 1]> m end.

(** Storing the signature: under the key just stored, which is the signer's next one. *)
Definition store_signature (block : Block) (blk_hash : string) (round : Z) (n : Node) : Node :=
  let node_id := validator_id_ block in
  let key := default SigKey_empty (val_sig_keys_ n !! node_id) in
  let sig := mkBlockSignature (validator_sig_ block) key node_id (u16 round) in
  let stored := default block (blocks_ n !! blk_hash) in
  set_blocks (<[blk_hash := addValidatorSignature stored sig]> (blocks_ n)) n.

(** The end of the loop body: the block list and the counters. *)
Definition count_message (type : MsgType) (block : Block) (blk_hash : string) (n : Node) : Node :=
  let n := match blk_list_ n !! blk_hash with
           | None => set_blk_list (<[blk_hash := block]> (blk_list_ n)) n | Some _ => n end in
  match type with
  | SEND => set_send_this_round blk_hash n
  | ECHO => set_echo_this_round (count blk_hash (echo_this_round_ n)) n
  | READY => set_ready_this_round (count blk_hash (ready_this_round_ n)) n
  end.

Definition recv_message (n : Node) (msg : Message) : outcome Node :=
  let block := block_ msg in
  let blk_hash := Header_getID (header_ block) in
  '(n, valid) ← checkBlockSig block n;
  if negb valid then Ok n
  else
    let known := bool_decide (blk_hash ∈ verified_blocks_ n) in
    if negb known && negb (Block_verify block (utxolist_ n) (wallet_ids_ n)) then Ok n
    else
      let n := if known then n else set_verified_blocks ({[blk_hash]} ∪ verified_blocks_ n) n in
      let n := store_signature block blk_hash (getRound msg) n in
      Ok (count_message (type_ msg) block blk_hash n).

Definition updateRecvMessages (msg_list : list Message) (n : Node) : outcome Node :=
  foldM recv_message (set_send_this_round "" n) msg_list.

(** [RunTaskInWait]: [None] while it waits.  The lock of the condition variable is released by hand and
    again when it leaves its scope. *)
Definition RunTaskInWait (server : ChatServiceImpl) (n : Node) : option (outcome (ChatServiceImpl * Node)) :=
  if newConsensusMessages server || negb (should_broadcast_ n) then
    let n := set_mutex_grpc (lock (mutex_grpc_ n)) n in
    let '(server, msg_list, _) := getMessages [] server in
    let n := set_mutex_grpc (unlock (mutex_grpc_ n)) n in
    Some (n ← updateRecvMessages msg_list n;
          Ok (server, set_mutex_grpc (unlock (mutex_grpc_ n)) n))
  else None.

(** * Broadcasting *)

Definition broadcastMessage (type : MsgType) (block : Block) (round : Z) (n : Node) : outcome Node :=
  '(n, block) ← signBlock block n;
  let msg := Message_new type block (node_id_ (config_ n)) round in
  let n := set_mutex_grpc (lock (mutex_grpc_ n)) n in
  '(c, _) ← client_broadcast msg (grpcClient_ n);
  let n := set_grpcClient c n in
  Ok (set_mutex_grpc (unlock (mutex_grpc_ n)) n).

(** [blk_list_[h]]: an absent block is added, empty. *)
Definition block_at (h : string) (n : Node) : Block * Node :=
  match blk_list_ n !! h with
  | Some b => (b, n)
  | None =>
      let b := Block_empty block_memory in (b, set_blk_list (<[h := b]> (blk_list_ n)) n)
  end.

Definition broadcast_ready (h : string) (round : Z) (n : Node) : outcome Node :=
  let '(b, n) := block_at h n in
  n ← broadcastMessage READY b round n;
  Ok (set_ready_sent ({[h]} ∪ ready_sent_ n) n).

(** [floor((n_ + f_ + 1) / 2)], an integer division. *)
Definition echo_threshold (n : Node) : Z := Z.quot (n_ (config_ n) + f_ (config_ n) + 1) 2.

Definition echo_step (n : Node) (e : string * Z) : outcome Node :=
  let '(blk_hash, nb_recv) := e in
  if (echo_threshold n <=? nb_recv) && negb (bool_decide (blk_hash ∈ ready_sent_ n))
  then broadcast_ready blk_hash 2 n else Ok n.

(** The entry is erased before its key is read for [accepted_blocks_]. *)
Definition deliver (blk_hash : string) (n : Node) : outcome Node :=
  let n := set_should_broadcast false n in
  let n := set_voted_hash blk_hash n in
  let n := set_echo_this_round (delete blk_hash (echo_this_round_ n)) n in
  let n := set_ready_this_round (delete blk_hash (ready_this_round_ n)) n in
  key ← stale blk_hash;
  Ok (set_accepted_blocks (accepted_blocks_ n ++ [key]) n).

Definition amplify (n : Node) (e : string * Z) : outcome Node :=
  let '(blk_hash, nb_recv) := e in
  if (f_ (config_ n) + 1 <=? nb_recv) && negb (bool_decide (blk_hash ∈ ready_sent_ n))
  then broadcast_ready blk_hash 3 n else Ok n.

Fixpoint ready_loop (entries : list (string * Z)) (n : Node) : outcome Node :=
  match entries with
  | [] => Ok n
  | e :: entries' =>
      n ← amplify n e;
      if 2 * f_ (config_ n) + 1 <? e.2 then deliver e.1 n else ready_loop entries' n
  end.

Definition broadcastRound (n : Node) : outcome Node :=
  let n := set_should_broadcast true n in
  n ← (if negb (String.eqb (send_this_round_ n) "") then
         let '(b, n) := block_at (send_this_round_ n) n in
         n ← broadcastMessage ECHO b 1 n; Ok (set_send_this_round "" n)
       else Ok n);
  n ← foldM echo_step n (order (echo_this_round_ n));
  ready_loop (order (ready_this_round_ n)) n.

(** * The loop, the leader and the faulty node *)

(** One iteration of [RunProtocol]: [None] when the loop has ended or waits. *)
Definition RunProtocol_step (server : ChatServiceImpl) (n : Node)
    : option (outcome (ChatServiceImpl * Node)) :=
  if should_broadcast_ n then
    match RunTaskInWait server n with
    | None => None
    | Some r => Some ('(server, n) ← r; n ← broadcastRound n; Ok (server, n))
    end
  else None.

Definition Propose (bx : Block) (n : Node) : outcome (Node * Z) :=
  n ← broadcastMessage SEND bx 0 n; Ok (n, 1).

(** The faulty node overrides [broadcastRound] by an empty function. *)
Inductive ByzantineBehavior := NONE | CRASH | DELAY_SEND | PARTIAL_SEND | WRONG_ORDER | IMPERSONATE.
Definition byzantineBehavior2String (b : ByzantineBehavior) : outcome string :=
  match b with
  | CRASH => Ok "crash" | DELAY_SEND => Ok "delay_send" | PARTIAL_SEND => Ok "partial_send"
  | WRONG_ORDER => Ok "wrong_order" | IMPERSONATE => Ok "impersonate"
  | NONE => Throw (invalid_argument "unexpected Byzantine Behavior value")
  end.
Definition fault_start (behaviour : ByzantineBehavior) (n : Node) : outcome Node :=
  _ ← byzantineBehavior2String behaviour;
  Ok (set_should_broadcast (match behaviour with CRASH => false | _ => true end) n).
Definition fault_step (server : ChatServiceImpl) (n : Node)
    : option (outcome (ChatServiceImpl * Node)) :=
  if should_broadcast_ n then RunTaskInWait server n else None.

(** * Reading the results *)

Definition getReceivedBlock (block_hash : string) (n : Node) : Block :=
  default (Block_empty block_memory) (blocks_ n !! block_hash).

(** [blocks_[hash]] of an unknown hash adds an empty block. *)
Definition consensus_block (acc : Node * list Block) (hash : string) : Node * list Block :=
  let '(n, blocks) := acc in
  match blocks_ n !! hash with
  | Some b => (n, blocks ++ [b])
  | None =>
      let b := Block_empty block_memory in
      (set_blocks (<[hash := b]> (blocks_ n)) n, blocks ++ [b])
  end.
Definition getConsensusBlocks (erase : bool) (n : Node) : Node * list Block :=
  let '(n, blocks) := foldl consensus_block (n, []) (accepted_blocks_ n) in
  (if erase then set_should_broadcast false (set_accepted_blocks [] n) else n, blocks).

(** * Keys and signatures *)

(** The device opens and yields bytes every time. *)
Definition device_ok : Prop :=
  forall k, exists reads, dev k = Some reads /\ forall i, reads i <> None.

(** What signing and broadcasting leave alone. *)
Definition view (n : Node) :=
  (config_ n, blk_list_ n, (send_this_round_ n, ready_this_round_ n, echo_this_round_ n, ready_sent_ n),
   (utxolist_ n, wallet_ids_ n, voted_hash_ n, should_broadcast_ n), val_sig_keys_ n,
   verified_blocks_ n, blocks_ n, accepted_blocks_ n).

Lemma view_inv n n' : view n' = view n ->
  config_ n' = config_ n /\ blk_list_ n' = blk_list_ n /\ send_this_round_ n' = send_this_round_ n /\
  ready_this_round_ n' = ready_this_round_ n /\ echo_this_round_ n' = echo_this_round_ n /\
  ready_sent_ n' = ready_sent_ n /\ utxolist_ n' = utxolist_ n /\ wallet_ids_ n' = wallet_ids_ n /\
  val_sig_keys_ n' = val_sig_keys_ n /\ verified_blocks_ n' = verified_blocks_ n /\
  blocks_ n' = blocks_ n /\ accepted_blocks_ n' = accepted_blocks_ n.
Proof. unfold view. intros E. injection E. intros. by split_and!. Qed.

Lemma view_config n n' : view n' = view n -> config_ n' = config_ n.
Proof. intros Hv. by apply view_inv in Hv as [? _]. Qed.

Lemma KeyGen_node_inv opened kp kp' : KeyGen_node opened kp = Ok kp' -> generated KEY_LEN_ kp'.
Proof.
  unfold KeyGen_node. intros Hk.
  pose proof (KeyGen_outcome (fun k => dev (opened + k)%nat) kp) as Ho.
  destruct (KeyGen _ kp) as [s [v|e| |]]; cbn in Hk; [|done..]. injection Hk as <-. by apply Ho.
Qed.

Lemma KeyGen_node_ok opened kp : device_ok -> exists kp', KeyGen_node opened kp = Ok kp'.
Proof.
  intros Hd. unfold KeyGen_node. destruct (KeyGen_total (fun k => dev (opened + k)%nat) kp) as (s & ->).
  - intros k. apply Hd.
  - by eexists.
Qed.

Lemma hex_utf8 s : Forall (fun c => is_hex c = true) (String.list_ascii_of_string s) -> utf8 s.
Proof.
  intros Hs. apply utf8_valid_ascii. eapply Forall_impl; [exact Hs|].
  intros c. by destruct c as [[] [] [] [] [] [] [] []].
Qed.

Lemma generated_full_text s : generated KEY_LEN_ s -> full_text_key (Signature.public_key_ s).
Proof.
  intros (L0 & L1 & P0 & P1 & _). unfold full_text_key, full_key. rewrite P0, P1, !length_map.
  split; [done|]. rewrite <- map_app. apply Forall_map, Forall_forall. intros s' _.
  apply hex_utf8, hash_hex.
Qed.

Lemma print_full key : full_key key -> exists s, print_SigKey key = Ok s.
Proof.
  intros [L0 L1]. unfold print_SigKey.
  destruct (S0 key); [done|]. destruct (S1 key); [done|]. by eexists.
Qed.

Lemma signBlock_inv b n n' b' : signBlock b n = Ok (n', b') ->
  mutable_ b = false /\ same_content b b' /\ view n' = view n /\
  grpcClient_ n' = grpcClient_ n /\ validator_id_ b' = node_id_ (config_ n) /\
  generated KEY_LEN_ (my_next_key_pair_ n') /\
  validator_next_public_key_ b' = Signature.public_key_ (my_next_key_pair_ n') /\
  exists d, Block_getDigest b' = Ok d /\
    Sign d (private_key_ (my_next_key_pair_ n)) = Ok (validator_sig_ b').
Proof.
  unfold signBlock. destruct (KeyGen_node _ _) as [kp| | |] eqn:Ek; cbn [mbind outcome_bind]; [|done..].
  destruct (print_SigKey (Signature.public_key_ (my_next_key_pair_ n))); cbn [mbind outcome_bind]; [|done..].
  destruct (print_SigKey _); cbn [mbind outcome_bind]; [|done..].
  destruct (Block_sign b _ _ _) as [b1| | |] eqn:Es; cbn [mbind outcome_bind]; [|done..].
  destruct (Block_getDigest b1) as [d| | |] eqn:Ed; cbn [mbind outcome_bind]; [|done..].
  destruct (Verify _ _ _) as [v| | |]; cbn [mbind outcome_bind]; [|done..].
  destruct (v =? 0); [done|]. intros [= <- <-].
  destruct (Block_sign_inv _ _ _ _ _ Es) as (Hm & Hc & Hid & Hnext & d' & Hd' & Hs).
  rewrite Ed in Hd'. injection Hd' as <-. split_and!; [done..|by eapply KeyGen_node_inv|done|eauto].
Qed.

Lemma signBlock_ok b n : device_ok -> generated KEY_LEN_ (my_next_key_pair_ n) -> mutable_ b = false ->
  exists n' b', signBlock b n = Ok (n', b').
Proof.
  intros Hd Hg Hm. unfold signBlock.
  destruct (KeyGen_node_ok (opened_ n) (my_next_key_pair_ n) Hd) as [kp Hk]. rewrite Hk.
  cbn [mbind outcome_bind]. apply KeyGen_node_inv in Hk as Hg'.
  destruct (print_full _ (proj1 (generated_full_text _ Hg))) as [? ->].
  destruct (print_full _ (proj1 (generated_full_text _ Hg'))) as [? ->]. cbn [mbind outcome_bind].
  pose proof (generated_pair _ Hg) as Hp.
  destruct (Block_sign_ok b _ _ (Signature.public_key_ kp) (node_id_ (config_ n)) Hp) as (b' & -> & Hv);
    [by right; apply generated_full_text|done|].
  unfold verifySignature in Hv. cbn [mbind outcome_bind].
  destruct (Block_getDigest b') as [d| | |]; cbn [mbind outcome_bind] in Hv |- *; [|done..].
  destruct (Verify d _ _) as [v| | |]; cbn [mbind outcome_bind] in Hv |- *; [|done..].
  destruct (Z.eqb_spec v 0) as [->|]; [done|]. by eexists _, _.
Qed.

Lemma Verify_total m sig pk : exists v, Verify m sig pk = Ok v.
Proof.
  destruct (Verify_iff m sig pk) as [Hbad Hok].
  destruct (decide (full_key pk /\ length sig = KEY_LEN_)) as [[Hf Hl]|Hn]; [|by eexists; apply Hbad].
  destruct (Hok Hf Hl) as [[->| ->] _]; by eexists.
Qed.

(** What a node that receives a signed block does with the signature. *)
Lemma check_signed s s' b b' r :
  signBlock b s = Ok (s', b') -> generated KEY_LEN_ (my_next_key_pair_ s) ->
  let id := node_id_ (config_ s) in
  (forall key, val_sig_keys_ r !! id = Some key -> full_key key) ->
  exists v, checkBlockSig b' r =
      Ok (set_val_sig_keys (<[id := Signature.public_key_ (my_next_key_pair_ s')]> (val_sig_keys_ r)) r, v) /\
    (val_sig_keys_ r !! id = None \/
     val_sig_keys_ r !! id = Some (Signature.public_key_ (my_next_key_pair_ s)) -> v = true).
Proof.
  intros Hs Hg id Hfull.
  destruct (signBlock_inv _ _ _ _ Hs) as (_ & _ & _ & _ & Hid & Hg' & Hnext & d & Hd & Hsig).
  unfold checkBlockSig. rewrite Hid, Hd, Hnext. cbn [mbind outcome_bind].
  destruct (print_full _ (proj1 (generated_full_text _ Hg'))) as [p' Hp']. fold id.
  destruct (val_sig_keys_ r !! id) as [key|] eqn:Ek; cbn [mbind outcome_bind].
  - destruct (Verify_total d (validator_sig_ b') key) as [v Hv].
    destruct (print_full _ (Hfull _ eq_refl)) as [p Hp]. rewrite Hv. cbn [mbind outcome_bind].
    rewrite Hp. cbn [mbind outcome_bind]. rewrite Hp'. cbn [mbind outcome_bind].
    eexists. split; [reflexivity|]. intros [|[= ->]]; [done|].
    destruct (sign_verify d _ _ (generated_pair _ Hg)) as (sig & Hs1 & Hv1).
    rewrite Hsig in Hs1. injection Hs1 as <-. rewrite Hv in Hv1. by injection Hv1 as ->.
  - rewrite Hp'. cbn [mbind outcome_bind]. eexists. by split; [reflexivity|].
Qed.

(** A sequence of blocks signed by one node, and checked by another. *)
Fixpoint signs (bs : list Block) (n : Node) : outcome (Node * list Block) :=
  match bs with
  | [] => Ok (n, [])
  | b :: bs => '(n, b) ← signBlock b n; '(n, bs) ← signs bs n; Ok (n, b :: bs)
  end.
Fixpoint checks (bs : list Block) (n : Node) : outcome (Node * list bool) :=
  match bs with
  | [] => Ok (n, [])
  | b :: bs => '(n, v) ← checkBlockSig b n; '(n, vs) ← checks bs n; Ok (n, v :: vs)
  end.

Lemma signs_cons_inv b bs n n' bs' : signs (b :: bs) n = Ok (n', bs') ->
  exists n1 b1 bs1, signBlock b n = Ok (n1, b1) /\ signs bs n1 = Ok (n', bs1) /\ bs' = b1 :: bs1.
Proof.
  cbn [signs]. destruct (signBlock b n) as [[n1 b1]| | |]; cbn [mbind outcome_bind]; [|done..].
  destruct (signs bs n1) as [[n2 bs1]| | |] eqn:E; cbn [mbind outcome_bind]; [|done..].
  intros [= <- <-]. by exists n1, b1, bs1.
Qed.

Lemma signs_ok bs : forall s, device_ok -> generated KEY_LEN_ (my_next_key_pair_ s) ->
  Forall (fun b => mutable_ b = false) bs -> exists s' bs', signs bs s = Ok (s', bs').
Proof.
  induction bs as [|b bs IH]; intros s Hd Hg Hm; [by eexists _, _|]. apply Forall_cons in Hm as [Hb Hm].
  destruct (signBlock_ok b s Hd Hg Hb) as (s1 & b1 & E1). cbn [signs]. rewrite E1.
  cbn [mbind outcome_bind]. destruct (signBlock_inv _ _ _ _ E1) as (_ & _ & _ & _ & _ & Hg1 & _).
  destruct (IH s1 Hd Hg1 Hm) as (s' & bs' & ->). cbn [mbind outcome_bind]. by eexists _, _.
Qed.

Lemma checks_signed bs : forall s s' bs' r,
  signs bs s = Ok (s', bs') -> generated KEY_LEN_ (my_next_key_pair_ s) ->
  let id := node_id_ (config_ s) in
  val_sig_keys_ r !! id = None \/
    val_sig_keys_ r !! id = Some (Signature.public_key_ (my_next_key_pair_ s)) ->
  exists r', checks bs' r = Ok (r', repeat true (length bs)) /\
    (bs <> [] -> val_sig_keys_ r' !! id = Some (Signature.public_key_ (my_next_key_pair_ s'))).
Proof.
  induction bs as [|b bs IH]; intros s s' bs' r Hs Hg id Hr.
  { injection Hs as <- <-. exists r. by split. }
  apply signs_cons_inv in Hs as (s1 & b1 & bs1 & Hb & Hbs & ->).
  assert (Hfull : forall key, val_sig_keys_ r !! id = Some key -> full_key key).
  { intros key Hk. destruct Hr as [Hr|Hr]; rewrite Hr in Hk; [done|]. injection Hk as <-.
    by apply generated_full_text. }
  destruct (check_signed s s1 b b1 r Hb Hg Hfull) as (v & Hc & Hv). fold id in Hc, Hv.
  specialize (Hv Hr). subst v.
  destruct (signBlock_inv _ _ _ _ Hb) as (_ & _ & Hview & _ & _ & Hg1 & _).
  assert (Hid : node_id_ (config_ s1) = id) by (by rewrite (view_config _ _ Hview)).
  set (r1 := set_val_sig_keys _ r) in Hc.
  assert (Hr1 : val_sig_keys_ r1 !! id = Some (Signature.public_key_ (my_next_key_pair_ s1)))
    by apply lookup_insert_eq.
  destruct (IH s1 s' bs1 r1 Hbs Hg1) as (r' & Hch & Hlast); [rewrite Hid; by right|].
  exists r'. cbn [checks]. rewrite Hc. cbn [mbind outcome_bind]. rewrite Hch.
  split; [done|]. intros _. destruct bs as [|b2 bs2]; [|rewrite <- Hid; by apply Hlast].
  injection Hbs as <- <-. injection Hch as <-. done.
Qed.

(** C13: the chain of one-time keys: whatever a node signs, in whatever order of calls, every other node that
    receives all of it in order accepts each signature, and holds the key for the next one at the end, when
    it knew no key of the node or the right one; when it knew another key, from an earlier message it
    missed, the first signature may be refused but all later ones are accepted. *)
Theorem keys_chain (s s' r : Node) (b : Block) (bs bs' : list Block) :
  signs (b :: bs) s = Ok (s', bs') -> generated KEY_LEN_ (my_next_key_pair_ s) ->
  (forall key, val_sig_keys_ r !! node_id_ (config_ s) = Some key -> full_key key) ->
  exists r' v, checks bs' r = Ok (r', v :: repeat true (length bs)) /\
    val_sig_keys_ r' !! node_id_ (config_ s) = Some (Signature.public_key_ (my_next_key_pair_ s')) /\
    (val_sig_keys_ r !! node_id_ (config_ s) = None \/
     val_sig_keys_ r !! node_id_ (config_ s) = Some (Signature.public_key_ (my_next_key_pair_ s)) ->
     v = true).
Proof.
  intros Hs Hg Hfull. apply signs_cons_inv in Hs as (s1 & b1 & bs1 & Hb & Hbs & ->).
  destruct (check_signed s s1 b b1 r Hb Hg Hfull) as (v & Hc & Hv).
  destruct (signBlock_inv _ _ _ _ Hb) as (_ & _ & Hview & _ & _ & Hg1 & _).
  assert (Hid : node_id_ (config_ s1) = node_id_ (config_ s)) by (by rewrite (view_config _ _ Hview)).
  set (r1 := set_val_sig_keys _ r) in Hc.
  assert (Hr1 : val_sig_keys_ r1 !! node_id_ (config_ s) = Some (Signature.public_key_ (my_next_key_pair_ s1)))
    by apply lookup_insert_eq.
  destruct (checks_signed bs s1 s' bs1 r1 Hbs Hg1) as (r' & Hch & Hlast); [rewrite Hid; by right|].
  exists r', v. cbn [checks]. rewrite Hc. cbn [mbind outcome_bind]. rewrite Hch.
  split_and!; [done| |exact Hv]. destruct bs as [|b2 bs2]; [|rewrite <- Hid; by apply Hlast].
  injection Hbs as <- <-. injection Hch as <-. done.
Qed.

(** * What a node sends and delivers *)

Lemma broadcastMessage_inv type b round n n' :
  broadcastMessage type b round n = Ok n' -> client_ok (grpcClient_ n) ->
  mutable_ b = false /\ view n' = view n /\ client_ok (grpcClient_ n') /\
  client_servers (grpcClient_ n') = client_servers (grpcClient_ n) /\
  exists b', header_ b' = header_ b /\
    forall a, a ∈ client_servers (grpcClient_ n) ->
      client_outbox (grpcClient_ n') a =
        client_outbox (grpcClient_ n) a ++ [Message_new type b' (node_id_ (config_ n)) round].
Proof.
  intros Hb Hok. unfold broadcastMessage in Hb.
  destruct (signBlock b n) as [[n1 b1]| | |] eqn:Es; cbn [mbind outcome_bind] in Hb; [|done..].
  destruct (signBlock_inv _ _ _ _ Es) as (Hm & (Hh & _) & Hv & Hcl & _).
  cbn [grpcClient_ set_mutex_grpc] in Hb. rewrite Hcl in Hb.
  rewrite (view_config _ _ Hv) in Hb.
  destruct (broadcast_spec (Message_new type b1 (node_id_ (config_ n)) round) _ Hok)
    as (c & Ec & Hc & Hsrv & Hout). rewrite Ec in Hb. cbn [mbind outcome_bind] in Hb.
  injection Hb as <-. split_and!; [done|by rewrite <- Hv|done|done|]. by exists b1.
Qed.

Lemma broadcastMessage_ok type b round n :
  device_ok -> generated KEY_LEN_ (my_next_key_pair_ n) -> mutable_ b = false ->
  client_ok (grpcClient_ n) -> exists n', broadcastMessage type b round n = Ok n'.
Proof.
  intros Hd Hg Hm Hok. unfold broadcastMessage.
  destruct (signBlock_ok b n Hd Hg Hm) as (n1 & b1 & Es). rewrite Es. cbn [mbind outcome_bind].
  destruct (signBlock_inv _ _ _ _ Es) as (_ & _ & _ & Hcl & _).
  cbn [grpcClient_ set_mutex_grpc]. rewrite Hcl.
  destruct (broadcast_spec (Message_new type b1 (node_id_ (config_ n1)) round) _ Hok) as (c & -> & _).
  cbn [mbind outcome_bind]. by eexists.
Qed.

(** How many messages of a list have a type and concern a block. *)
Definition about (t : MsgType) (h : string) (m : Message) : Prop :=
  type_ m = t /\ Header_getID (header_ (block_ m)) = h.
#[local] Instance about_dec t h m : Decision (about t h m).
Proof. unfold about. apply _. Defined.
Definition counted (t : MsgType) (h : string) (ms : list Message) : Z :=
  Z.of_nat (length (filter (about t h) ms)).

Lemma counted_app t h l1 l2 : counted t h (l1 ++ l2) = counted t h l1 + counted t h l2.
Proof. unfold counted. rewrite filter_app, length_app. lia. Qed.
Lemma counted_one t h m : counted t h [m] = if decide (about t h m) then 1 else 0.
Proof. unfold counted. rewrite filter_cons. by destruct (decide (about t h m)). Qed.
Lemma counted_nonneg t h l : 0 <= counted t h l.
Proof. unfold counted. lia. Qed.

(** The blocks a server was sent a READY message about. *)
Definition readies (a : string) (n : Node) : list string :=
  map (fun m => Header_getID (header_ (block_ m)))
    (filter (fun m => type_ m = READY) (client_outbox (grpcClient_ n) a)).

(** Why a READY message may be sent, and a block delivered, after the messages [h] were received. *)
Definition may_ready (n : Node) (h : list Message) (x : string) : Prop :=
  echo_threshold n <= counted ECHO x h \/ f_ (config_ n) + 1 <= counted READY x h.
Definition may_deliver (n : Node) (h : list Message) (x : string) : Prop :=
  exists y, stale y = Ok x /\ 2 * f_ (config_ n) + 1 < counted READY y h.

(** The invariant of a node, for one of its servers. *)
Definition sound (a : string) (h : list Message) (n : Node) : Prop :=
  client_ok (grpcClient_ n) /\ a ∈ client_servers (grpcClient_ n) /\
  map_Forall (fun x k => 0 <= k <= counted ECHO x h) (echo_this_round_ n) /\
  map_Forall (fun x k => 0 <= k <= counted READY x h) (ready_this_round_ n) /\
  map_Forall (fun x b => mutable_ b = false -> Header_getID (header_ b) = x) (blk_list_ n) /\
  NoDup (readies a n) /\ (forall x, x ∈ readies a n <-> x ∈ ready_sent_ n) /\
  (forall x, x ∈ ready_sent_ n -> may_ready n h x) /\
  (forall x, x ∈ accepted_blocks_ n -> may_deliver n h x).

(** The invariant looks at these members only. *)
Lemma sound_ext a h n n' :
  config_ n' = config_ n -> grpcClient_ n' = grpcClient_ n -> echo_this_round_ n' = echo_this_round_ n ->
  ready_this_round_ n' = ready_this_round_ n -> blk_list_ n' = blk_list_ n ->
  ready_sent_ n' = ready_sent_ n -> accepted_blocks_ n' = accepted_blocks_ n ->
  sound a h n -> sound a h n'.
Proof.
  intros E1 E2 E3 E4 E5 E6 E7. unfold sound, readies, may_ready, may_deliver, echo_threshold.
  by rewrite E1, E2, E3, E4, E5, E6, E7.
Qed.

(** Receiving more messages keeps it. *)
Lemma sound_mono a h h' n :
  (forall t x, counted t x h <= counted t x h') -> sound a h n -> sound a h' n.
Proof.
  intros Hc (H1 & H2 & He & Hr & Hb & Hn & Hs & Hmr & Hmd). split_and!; try done.
  - intros x k Hx. pose proof (He x k Hx). pose proof (Hc ECHO x). cbn in *. lia.
  - intros x k Hx. pose proof (Hr x k Hx). pose proof (Hc READY x). cbn in *. lia.
  - intros x Hx. destruct (Hmr x Hx) as [|]; [left|right]; (etrans; [done|apply Hc]).
  - intros x Hx. destruct (Hmd x Hx) as (y & Hy & Hlt). exists y. split; [done|].
    eapply Z.lt_le_trans; [done|apply Hc].
Qed.

Lemma checkBlockSig_inv b n n' v : checkBlockSig b n = Ok (n', v) ->
  exists keys, n' = set_val_sig_keys keys n.
Proof.
  unfold checkBlockSig. destruct (Block_getDigest b); cbn [mbind outcome_bind]; [|done..].
  destruct (match val_sig_keys_ n !! validator_id_ b with None => _ | Some _ => _ end);
    cbn [mbind outcome_bind]; [|done..].
  destruct (print_SigKey _); cbn [mbind outcome_bind]; [|done..]. intros [= <- _]. by eexists.
Qed.

Lemma count_bound (f g : string -> Z) h m :
  (forall x, 0 <= f x <= g x) -> f h + 1 <= g h -> map_Forall (fun x k => 0 <= k <= f x) m ->
  map_Forall (fun x k => 0 <= k <= g x) (count h m).
Proof.
  intros Hfg Hh Hm. unfold count.
  assert (Hm' : map_Forall (fun x k => 0 <= k <= g x) m).
  { intros x k Hx. pose proof (Hm x k Hx). pose proof (Hfg x). cbn in *. lia. }
  destruct (m !! h) as [k|] eqn:E; apply map_Forall_insert_2; try done.
  - pose proof (Hm h k E) as Hk. cbn in Hk. unfold u64.
    pose proof (Z.mod_pos_bound (k + 1) (2 ^ 64)). pose proof (Z.mod_le (k + 1) (2 ^ 64)). lia.
  - pose proof (Hfg h). lia.
Qed.

Lemma count_sound a h n m :
  sound a h n ->
  sound a (h ++ [m]) (count_message (type_ m) (block_ m) (Header_getID (header_ (block_ m))) n).
Proof.
  intros Hs. set (x := Header_getID (header_ (block_ m))).
  assert (Hmono : forall t y, counted t y h <= counted t y (h ++ [m])).
  { intros t y. rewrite counted_app. pose proof (counted_nonneg t y [m]). lia. }
  assert (Hown : counted (type_ m) x h + 1 <= counted (type_ m) x (h ++ [m])).
  { rewrite counted_app, counted_one, decide_True; [lia|]. by split. }
  pose proof (sound_mono a h _ n Hmono Hs) as (H1 & H2 & He & Hr & Hb & Hn & Hrs & Hmr & Hmd).
  destruct Hs as (_ & _ & He0 & Hr0 & _). unfold count_message. fold x.
  set (n1 := match blk_list_ n !! x with None => _ | Some _ => n end).
  assert (Hb1 : map_Forall (fun y b => mutable_ b = false -> Header_getID (header_ b) = y) (blk_list_ n1)).
  { unfold n1. destruct (blk_list_ n !! x); [done|]. by apply map_Forall_insert_2. }
  assert (Hs1 : sound a (h ++ [m]) n1).
  { unfold n1 in *. destruct (blk_list_ n !! x); by split_and!. }
  assert (Hc : echo_this_round_ n1 = echo_this_round_ n /\ ready_this_round_ n1 = ready_this_round_ n)
    by (unfold n1; by destruct (blk_list_ n !! x)).
  destruct Hc as [Ee Er]. clearbody n1. destruct Hs1 as (G1 & G2 & G3 & G4 & G5 & G6 & G7 & G8 & G9).
  assert (Hcount : forall t (c : gmap string Z), t = type_ m ->
    map_Forall (fun y k => 0 <= k <= counted t y h) c ->
    map_Forall (fun y k => 0 <= k <= counted t y (h ++ [m])) (count x c)).
  { intros t c -> Hf. apply (count_bound (fun y => counted (type_ m) y h)); [|exact Hown|exact Hf].
    intros y. split; [apply counted_nonneg|apply Hmono]. }
  destruct (type_ m); split_and!; try done; cbn; rewrite ?Ee, ?Er; by apply Hcount.
Qed.

Lemma recv_sound a h n m n' : sound a h n -> recv_message n m = Ok n' -> sound a (h ++ [m]) n'.
Proof.
  intros Hs. unfold recv_message.
  destruct (checkBlockSig (block_ m) n) as [[n1 v]| | |] eqn:Ec; cbn [mbind outcome_bind]; [|done..].
  apply checkBlockSig_inv in Ec as [keys ->].
  set (n1 := set_val_sig_keys keys n).
  assert (Hs1 : sound a h n1) by (by apply (sound_ext a h n)).
  assert (Hskip : sound a (h ++ [m]) n1).
  { apply (sound_mono a h); [|done]. intros t x. rewrite counted_app.
    pose proof (counted_nonneg t x [m]). lia. }
  destruct v; cbn [negb]; [|intros [= <-]; exact Hskip].
  destruct (_ && _); [intros [= <-]; exact Hskip|]. intros [= <-]. apply count_sound.
  destruct (bool_decide _); by apply (sound_ext a h n1).
Qed.

Lemma recv_config n m n' : recv_message n m = Ok n' -> config_ n' = config_ n.
Proof.
  unfold recv_message.
  destruct (checkBlockSig (block_ m) n) as [[n1 v]| | |] eqn:Ec; cbn [mbind outcome_bind]; [|done..].
  apply checkBlockSig_inv in Ec as [keys ->]. destruct v; cbn [negb]; [|by intros [= <-]].
  destruct (_ && _); [by intros [= <-]|]. intros [= <-]. unfold count_message.
  destruct (bool_decide _); destruct (_ !! _); by destruct (type_ m).
Qed.

Lemma updateRecvMessages_config ms n n' : updateRecvMessages ms n = Ok n' -> config_ n' = config_ n.
Proof.
  unfold updateRecvMessages. change (config_ n) with (config_ (set_send_this_round "" n)).
  generalize (set_send_this_round "" n). clear n.
  induction ms as [|m ms IH]; intros n; cbn [foldM]; [by intros [= <-]|].
  destruct (recv_message n m) as [n1| | |] eqn:E; cbn [mbind outcome_bind]; [|done..].
  rewrite <- (recv_config _ _ _ E). apply IH.
Qed.

Lemma updateRecvMessages_sound a ms : forall h n n',
  sound a h n -> updateRecvMessages ms n = Ok n' -> sound a (h ++ ms) n'.
Proof.
  unfold updateRecvMessages. intros h n n' Hs.
  assert (Hs1 : sound a h (set_send_this_round "" n)) by (by apply (sound_ext a h n)).
  revert Hs1. generalize (set_send_this_round "" n). clear Hs n. revert h.
  induction ms as [|m ms IH]; intros h n Hs; cbn [foldM]; [intros [= <-]; by rewrite app_nil_r|].
  destruct (recv_message n m) as [n1| | |] eqn:E; cbn [mbind outcome_bind]; [|done..]. intros Hf.
  replace (h ++ m :: ms) with ((h ++ [m]) ++ ms) by (by rewrite <- app_assoc).
  eapply IH; [|exact Hf]. by eapply recv_sound.
Qed.

(** ** Broadcasting keeps the invariant *)

Lemma block_at_sound a h x n b n' : sound a h n -> block_at x n = (b, n') ->
  sound a h n' /\ (mutable_ b = false -> Header_getID (header_ b) = x) /\ config_ n' = config_ n /\
  ready_sent_ n' = ready_sent_ n /\ grpcClient_ n' = grpcClient_ n.
Proof.
  intros Hs. unfold block_at. pose proof Hs as (H1 & H2 & He & Hr & Hb & Hrest).
  destruct (blk_list_ n !! x) as [b0|] eqn:E; intros [= <- <-].
  - split_and!; try done. by apply Hb.
  - split; [|by split_and!]. split_and!; try done; apply Hrest || cbn. by apply map_Forall_insert_2.
Qed.

Lemma readies_snoc a n n' m :
  client_outbox (grpcClient_ n') a = client_outbox (grpcClient_ n) a ++ [m] ->
  readies a n' = readies a n ++
    (if decide (type_ m = READY) then [Header_getID (header_ (block_ m))] else []).
Proof.
  intros E. unfold readies. rewrite E, filter_app, map_app, filter_cons. by destruct (decide _).
Qed.

(** A broadcast that is not a READY message. *)
Lemma broadcast_sound a h type b round n n' : type <> READY -> sound a h n ->
  broadcastMessage type b round n = Ok n' -> sound a h n' /\ view n' = view n.
Proof.
  intros Ht Hs Hb. pose proof Hs as (H1 & H2 & He & Hr & Hbl & Hn & Hrs & Hmr & Hmd).
  destruct (broadcastMessage_inv _ _ _ _ _ Hb H1) as (_ & Hv & Hok & Hsrv & b' & _ & Hout).
  split; [|done]. pose proof (readies_snoc a n n' _ (Hout a H2)) as Hready.
  cbn [type_ Message_new] in Hready. rewrite decide_False, app_nil_r in Hready by done.
  apply view_inv in Hv as (Ec & Eb & _ & Er & Ee & Es & _ & _ & _ & _ & _ & Ea).
  unfold sound, may_ready, may_deliver, echo_threshold. by rewrite Hready, Ec, Eb, Er, Ee, Es, Ea, Hsrv.
Qed.

(** A READY message about a block that may be sent and was not sent yet. *)
Lemma broadcast_ready_sound a h x round n n' : sound a h n -> x ∉ ready_sent_ n -> may_ready n h x ->
  broadcast_ready x round n = Ok n' ->
  sound a h n' /\ config_ n' = config_ n.
Proof.
  intros Hs Hx Hmay. unfold broadcast_ready. destruct (block_at x n) as [b n1] eqn:Eb.
  destruct (block_at_sound _ _ _ _ _ _ Hs Eb) as (Hs1 & Hid & Ec1 & Er1 & _).
  destruct (broadcastMessage READY b round n1) as [n2| | |] eqn:E2; cbn [mbind outcome_bind]; [|done..].
  intros [= <-]. pose proof Hs1 as (H1 & H2 & He & Hr & Hbl & Hn & Hrs & Hmr & Hmd).
  destruct (broadcastMessage_inv _ _ _ _ _ E2 H1) as (Hm & Hv & Hok & Hsrv & b' & Hh & Hout).
  pose proof (readies_snoc a n1 n2 _ (Hout a H2)) as Hready.
  cbn [type_ Message_new block_] in Hready. rewrite decide_True, Hh, (Hid Hm) in Hready by done.
  apply view_inv in Hv as (Ec & Ebl & _ & Er & Ee & Es & _ & _ & _ & _ & _ & Ea).
  split; [|cbn; by rewrite Ec].
  change (readies a n2) with (readies a (set_ready_sent ({[x]} ∪ ready_sent_ n2) n2)) in Hready.
  unfold sound. rewrite Hready. unfold may_ready, may_deliver, echo_threshold. cbn.
  rewrite Ec, Ebl, Er, Ee, Es, Ea, Hsrv, Er1. rewrite Er1 in Hrs, Hmr. split_and!; try done.
  - apply NoDup_app. split_and!; [done| |by apply NoDup_singleton].
    intros y Hy Hyx. apply Hrs in Hy. set_solver.
  - intros y. rewrite elem_of_app, Hrs. set_solver.
  - intros y Hy. apply elem_of_union in Hy as [->%elem_of_singleton|Hy]; [|by apply Hmr].
    unfold may_ready, echo_threshold in Hmay. by rewrite Ec1.
Qed.

(** ** A round *)

(** A walk over a table visits its entries. *)
Definition order_ok : Prop := forall m, order m ≡ₚ map_to_list m.

Lemma order_entries m (P : string -> Z -> Prop) : order_ok -> map_Forall P m ->
  Forall (fun e => P e.1 e.2) (order m).
Proof.
  intros Ho Hm. rewrite (Ho m). apply Forall_forall. intros [x k] Hx%elem_of_map_to_list. by apply Hm.
Qed.

Lemma echo_step_sound a h n n' x k : sound a h n -> 0 <= k <= counted ECHO x h ->
  echo_step n (x, k) = Ok n' -> sound a h n' /\ config_ n' = config_ n.
Proof.
  intros Hs Hk. unfold echo_step. destruct (Z.leb_spec (echo_threshold n) k) as [Hle|]; cbn [andb];
    [|by intros [= <-]].
  case_bool_decide as Hin; cbn [negb]; [by intros [= <-]|]. intros Hb.
  eapply broadcast_ready_sound; [done|done| |done]. left. lia.
Qed.

Lemma echo_loop_sound a h es : forall n n', sound a h n ->
  Forall (fun e => 0 <= e.2 <= counted ECHO e.1 h) es -> foldM echo_step n es = Ok n' ->
  sound a h n' /\ config_ n' = config_ n.
Proof.
  induction es as [|[x k] es IH]; intros n n' Hs Hes; cbn [foldM]; [by intros [= <-]|].
  apply Forall_cons in Hes as [Hk Hes].
  destruct (echo_step n (x, k)) as [n1| | |] eqn:E; cbn [mbind outcome_bind]; [|done..].
  destruct (echo_step_sound a h n n1 x k Hs Hk E) as [Hs1 <-]. by apply IH.
Qed.

Lemma deliver_sound a h x n n' : sound a h n -> 2 * f_ (config_ n) + 1 < counted READY x h ->
  deliver x n = Ok n' -> sound a h n' /\ config_ n' = config_ n.
Proof.
  intros (H1 & H2 & He & Hr & Hb & Hn & Hrs & Hmr & Hmd) Hx. unfold deliver.
  destruct (stale x) as [key| | |] eqn:Ek; cbn [mbind outcome_bind]; [|done..]. intros [= <-].
  split; [|done]. unfold sound, readies. cbn. split_and!; try done.
  - by apply map_Forall_delete.
  - by apply map_Forall_delete.
  - intros y [Hy|Hy]%elem_of_app; [by apply Hmd|]. exists x. by assert (y = key) as -> by set_solver.
Qed.

Lemma ready_loop_sound a h es : forall n n', sound a h n ->
  Forall (fun e => 0 <= e.2 <= counted READY e.1 h) es -> ready_loop es n = Ok n' ->
  sound a h n' /\ config_ n' = config_ n.
Proof.
  induction es as [|[x k] es IH]; intros n n' Hs Hes; cbn [ready_loop]; [by intros [= <-]|].
  apply Forall_cons in Hes as [Hk Hes]. cbn in Hk.
  destruct (amplify n (x, k)) as [n1| | |] eqn:Ea; cbn [mbind outcome_bind fst snd]; [|done..].
  assert (Hs1 : sound a h n1 /\ config_ n1 = config_ n).
  { unfold amplify in Ea. destruct (Z.leb_spec (f_ (config_ n) + 1) k); cbn [andb] in Ea;
      [|by injection Ea as <-].
    case_bool_decide as Hin; cbn [negb] in Ea; [by injection Ea as <-|].
    eapply broadcast_ready_sound; [done|done| |done]. right. lia. }
  destruct Hs1 as [Hs1 Ec]. destruct (Z.ltb_spec (2 * f_ (config_ n1) + 1) k).
  - intros Hd. rewrite <- Ec. eapply deliver_sound; [done| |done]. lia.
  - intros Hr. rewrite <- Ec. by apply IH.
Qed.

Lemma broadcastRound_sound a h n n' : order_ok -> sound a h n -> broadcastRound n = Ok n' ->
  sound a h n' /\ config_ n' = config_ n.
Proof.
  intros Ho Hs. unfold broadcastRound. set (n0 := set_should_broadcast true n).
  assert (Hs0 : sound a h n0) by (by apply (sound_ext a h n)).
  change (config_ n) with (config_ n0). clearbody n0. clear Hs n.
  match goal with |- context [mbind _ ?e] => assert (He : forall n1, e = Ok n1 ->
    sound a h n1 /\ config_ n1 = config_ n0); [|destruct e as [n1| | |]; cbn [mbind outcome_bind]; [|done..]] end.
  { intros n1. destruct (negb _); [|by intros [= <-]].
    destruct (block_at (send_this_round_ n0) n0) as [b n2] eqn:Eb.
    destruct (block_at_sound _ _ _ _ _ _ Hs0 Eb) as (Hs2 & _ & Ec & _).
    destruct (broadcastMessage ECHO b 1 n2) as [n3| | |] eqn:E3; cbn [mbind outcome_bind]; [|done..].
    intros [= <-]. destruct (broadcast_sound a h ECHO b 1 n2 n3) as [Hs3 Hv]; [done..|].
    split; [by apply (sound_ext a h n3)|]. cbn. by rewrite (view_config _ _ Hv). }
  destruct (He n1 eq_refl) as [Hs1 Ec1]. rewrite <- Ec1. clear He.
  destruct (foldM echo_step n1 _) as [n2| | |] eqn:E2; cbn [mbind outcome_bind]; [|done..].
  destruct (echo_loop_sound a h (order (echo_this_round_ n1)) n1 n2 Hs1) as [Hs2 Ec2];
    [apply (order_entries _ (fun x k => 0 <= k <= counted ECHO x h)); [done|apply Hs1]|done|].
  rewrite <- Ec2. apply ready_loop_sound; [done|].
  apply (order_entries _ (fun x k => 0 <= k <= counted READY x h)); [done|apply Hs2].
Qed.

(** ** Runs of a node *)

(** What can happen to a node, with the messages it received, in order: turns of its loop, the calls of
    the validator it belongs to, and reads of its results. *)
Inductive node_run (n0 : Node) : list Message -> Node -> Prop :=
| node_start : node_run n0 [] n0
| node_wait h server server' n n' : node_run n0 h n ->
    RunTaskInWait server n = Some (Ok (server', n')) -> node_run n0 (h ++ mq_ server) n'
| node_round h n n' : node_run n0 h n -> broadcastRound n = Ok n' -> node_run n0 h n'
| node_propose h n b n' v : node_run n0 h n -> Propose b n = Ok (n', v) -> node_run n0 h n'
| node_running h n b : node_run n0 h n -> node_run n0 h (set_should_broadcast b n)
| node_utxos h n u w : node_run n0 h n -> node_run n0 h (node_setUTXOlists u w n)
| node_clear h n : node_run n0 h n -> node_run n0 h (node_clearUTXOlists n)
| node_results h n erase : node_run n0 h n -> node_run n0 h (getConsensusBlocks erase n).1.

(** A node that did nothing yet. *)
Definition fresh (n : Node) : Prop :=
  client_ok (grpcClient_ n) /\
  (forall a, a ∈ client_servers (grpcClient_ n) -> client_outbox (grpcClient_ n) a = []) /\
  echo_this_round_ n = ∅ /\ ready_this_round_ n = ∅ /\ blk_list_ n = ∅ /\ ready_sent_ n = ∅ /\
  accepted_blocks_ n = [].

Lemma fresh_sound n a : fresh n -> a ∈ client_servers (grpcClient_ n) -> sound a [] n.
Proof.
  intros (Hok & Hout & He & Hr & Hb & Hs & Ha) Hin. unfold sound, readies.
  rewrite (Hout a Hin), He, Hr, Hb, Hs, Ha. split_and!; try done; [|set_solver..]. constructor.
Qed.

Lemma consensus_blocks_inv l : forall n bs,
  exists m, (foldl consensus_block (n, bs) l).1 = set_blocks m n.
Proof.
  induction l as [|x l IH]; intros n bs; cbn [foldl consensus_block].
  { exists (blocks_ n). by destruct n. }
  destruct (blocks_ n !! x); [apply IH|].
  destruct (IH (set_blocks (<[x := Block_empty block_memory]> (blocks_ n)) n)
    (bs ++ [Block_empty block_memory])) as [m ->]. by exists m.
Qed.

Lemma getConsensusBlocks_sound a h erase n : sound a h n -> sound a h (getConsensusBlocks erase n).1.
Proof.
  intros Hs. unfold getConsensusBlocks.
  destruct (consensus_blocks_inv (accepted_blocks_ n) n []) as [m Hm].
  destruct (foldl _ _ _) as [n1 bs]. cbn in Hm. subst n1. destruct erase; cbn [fst].
  - destruct Hs as (H1 & H2 & He & Hr & Hb & Hn & Hrs & Hmr & Hmd). split_and!; try done.
    cbn. set_solver.
  - by apply (sound_ext a h n).
Qed.


Lemma RunTaskInWait_sound a h server n server' n' : sound a h n ->
  RunTaskInWait server n = Some (Ok (server', n')) ->
  sound a (h ++ mq_ server) n' /\ config_ n' = config_ n.
Proof.
  intros Hs. unfold RunTaskInWait. destruct (_ || _); [|done].
  rewrite getMessages_spec. cbn [app]. set (n1 := set_mutex_grpc _ (set_mutex_grpc _ n)).
  assert (Hs1 : sound a h n1) by (by apply (sound_ext a h n)).
  destruct (updateRecvMessages (mq_ server) n1) as [n2| | |] eqn:E; cbn [mbind outcome_bind];
    intros [= _ <-].
  split; [apply (sound_ext a _ n2); [done..|by eapply updateRecvMessages_sound]|].
  cbn. by rewrite (updateRecvMessages_config _ _ _ E).
Qed.

Lemma node_run_sound a n0 h n : order_ok -> fresh n0 -> a ∈ client_servers (grpcClient_ n0) ->
  node_run n0 h n -> sound a h n /\ config_ n = config_ n0.
Proof.
  intros Ho Hf Ha Hrun. induction Hrun as [|h server server' n n' _ [IH Ec] Hw|h n n' _ [IH Ec] Hb|
    h n b n' v _ [IH Ec] Hp|h n b _ [IH Ec]|h n u w _ [IH Ec]|h n _ [IH Ec]|h n erase _ [IH Ec]].
  - split; [by apply fresh_sound|done].
  - rewrite <- Ec. by eapply RunTaskInWait_sound.
  - rewrite <- Ec. by eapply broadcastRound_sound.
  - unfold Propose in Hp.
    destruct (broadcastMessage SEND b 0 n) as [n1| | |] eqn:E; cbn [mbind outcome_bind] in Hp; [|done..].
    injection Hp as <- _. destruct (broadcast_sound a h SEND b 0 n n1) as [Hs Hv]; [done..|].
    by rewrite (view_config _ _ Hv).
  - split; [by apply (sound_ext a h n)|done].
  - split; [by apply (sound_ext a h n)|done].
  - split; [by apply (sound_ext a h n)|done].
  - split; [by apply getConsensusBlocks_sound|]. rewrite <- Ec. unfold getConsensusBlocks.
    destruct (consensus_blocks_inv (accepted_blocks_ n) n []) as [m Hm].
    destruct (foldl _ _ _) as [n1 bs]. cbn in Hm. subst n1. by destruct erase.
Qed.

(** C4: the rules of the broadcast, in every run of a node from its start, with everything that can happen
    to it in between: it sends every server at most one READY message about a block; it sends one only
    when it received at least [(n + f + 1) / 2] ECHO messages or [f + 1] READY messages about the block;
    and it delivers a block only after more than [2 f + 1] READY messages about it. *)
Theorem broadcast_rules (n0 n : Node) (h : list Message) (a : string) :
  order_ok -> fresh n0 -> a ∈ client_servers (grpcClient_ n0) -> node_run n0 h n ->
  NoDup (readies a n) /\
  (forall x, x ∈ readies a n ->
    Z.quot (n_ (config_ n0) + f_ (config_ n0) + 1) 2 <= counted ECHO x h \/
    f_ (config_ n0) + 1 <= counted READY x h) /\
  (forall x, x ∈ accepted_blocks_ n ->
    exists y, stale y = Ok x /\ 2 * f_ (config_ n0) + 1 < counted READY y h).
Proof.
  intros Ho Hf Ha Hrun. destruct (node_run_sound a n0 h n Ho Hf Ha Hrun) as [Hs <-].
  destruct Hs as (_ & _ & _ & _ & _ & Hn & Hrs & Hmr & Hmd). split_and!; [done| |exact Hmd].
  intros x Hx. by apply Hmr, Hrs.
Qed.

(** ** Counting messages instead of validators *)

(** What receiving a READY message about [x] changes, beyond the keys, the stored blocks and
    signatures, and the verified blocks. *)
Definition counted_ready (x : string) (r r' : Node) : Prop :=
  config_ r' = config_ r /\ grpcClient_ r' = grpcClient_ r /\
  my_next_key_pair_ r' = my_next_key_pair_ r /\ send_this_round_ r' = send_this_round_ r /\
  echo_this_round_ r' = echo_this_round_ r /\ ready_sent_ r' = ready_sent_ r /\
  accepted_blocks_ r' = accepted_blocks_ r /\ utxolist_ r' = utxolist_ r /\
  wallet_ids_ r' = wallet_ids_ r /\
  (exists b, blk_list_ r' !! x = Some b /\ (mutable_ b = false \/ blk_list_ r !! x = Some b)).

Lemma Block_verify_content b b' l w : same_content b b' -> Block_verify b' l w = Block_verify b l w.
Proof. intros (_ & Ht & _). unfold Block_verify. by rewrite Ht. Qed.

Lemma recv_signed b s s' b' r : signBlock b s = Ok (s', b') -> generated KEY_LEN_ (my_next_key_pair_ s) ->
  let id := node_id_ (config_ s) in let x := Header_getID (header_ b) in
  val_sig_keys_ r !! id = None \/
    val_sig_keys_ r !! id = Some (Signature.public_key_ (my_next_key_pair_ s)) ->
  Block_verify b (utxolist_ r) (wallet_ids_ r) = true ->
  exists r', recv_message r (Message_new READY b' id 3) = Ok r' /\ counted_ready x r r' /\
    val_sig_keys_ r' !! id = Some (Signature.public_key_ (my_next_key_pair_ s')) /\
    ready_this_round_ r' = count x (ready_this_round_ r).
Proof.
  intros Hs Hg id x Hr Hv.
  assert (Hfull : forall key, val_sig_keys_ r !! id = Some key -> full_key key).
  { intros key Hk. destruct Hr as [Hr|Hr]; rewrite Hr in Hk; [done|]. injection Hk as <-.
    by apply generated_full_text. }
  destruct (check_signed s s' b b' r Hs Hg Hfull) as (v & Hc & Hok). fold id in Hc, Hok.
  specialize (Hok Hr). subst v.
  destruct (signBlock_inv _ _ _ _ Hs) as (Hm & Hcont & _). pose proof Hcont as (Hh & _ & _ & Hmut).
  unfold recv_message. cbn [block_ Message_new type_]. rewrite Hc. cbn [mbind outcome_bind negb].
  cbn [utxolist_ wallet_ids_ set_val_sig_keys].
  rewrite (Block_verify_content _ _ _ _ Hcont), Hv, andb_false_r.
  eexists. split; [reflexivity|]. rewrite Hh. fold x.
  unfold count_message, store_signature, counted_ready. cbn [verified_blocks_ set_val_sig_keys].
  destruct (bool_decide (x ∈ verified_blocks_ r)); cbn [blk_list_ set_blocks set_verified_blocks set_val_sig_keys];
    (destruct (blk_list_ r !! x) as [b0|] eqn:Eb;
     [split; [split_and!; try done; exists b0; split; [done|by right]|
              split; [by apply lookup_insert_eq|done]]
     |split; [split_and!; try done; exists b'; cbn; split; [by apply lookup_insert_eq|left; by rewrite Hmut]|
              split; [by apply lookup_insert_eq|done]]]).
Qed.

(** A counter after [k] messages, the first of which creates it. *)
Definition counter (x : string) (k : Z) : gmap string Z := if k =? 0 then ∅ else {[ x := k ]}.

Lemma count_counter x k : 0 <= k < 2 ^ 64 - 1 -> count x (counter x k) = counter x (k + 1).
Proof.
  intros Hk. unfold count, counter. destruct (Z.eqb_spec (k + 1) 0); [lia|].
  destruct (Z.eqb_spec k 0) as [->|Hne].
  - by rewrite lookup_empty, insert_empty.
  - rewrite lookup_singleton_eq, insert_singleton, decide_True by done.
    unfold u64. by rewrite Z.mod_small by lia.
Qed.

Lemma recv_all_signed x bs : forall s s' bs' r k,
  signs bs s = Ok (s', bs') -> generated KEY_LEN_ (my_next_key_pair_ s) ->
  let id := node_id_ (config_ s) in
  val_sig_keys_ r !! id = None \/
    val_sig_keys_ r !! id = Some (Signature.public_key_ (my_next_key_pair_ s)) ->
  Forall (fun b => Header_getID (header_ b) = x /\ Block_verify b (utxolist_ r) (wallet_ids_ r) = true) bs ->
  ready_this_round_ r = counter x k -> 0 <= k -> k + Z.of_nat (length bs) < 2 ^ 64 -> bs <> [] ->
  exists r', foldM recv_message r (map (fun b => Message_new READY b id 3) bs') = Ok r' /\
    counted_ready x r r' /\ ready_this_round_ r' = counter x (k + Z.of_nat (length bs)).
Proof.
  induction bs as [|b bs IH]; intros s s' bs' r k Hs Hg id Hr Hbs Hk Hk0 Hlen Hne; [done|].
  apply signs_cons_inv in Hs as (s1 & b1 & bs1 & Hb & Hs1 & ->).
  apply Forall_cons in Hbs as [[Hx Hv] Hbs]. cbn [length] in Hlen.
  destruct (recv_signed b s s1 b1 r Hb Hg Hr Hv) as (r1 & E1 & Hc1 & Hkey & Hready). fold id in E1, Hkey.
  rewrite Hx in Hc1, Hready. rewrite Hk, count_counter in Hready by lia.
  destruct (signBlock_inv _ _ _ _ Hb) as (_ & _ & Hview & _ & _ & Hg1 & _).
  assert (Hid : node_id_ (config_ s1) = id) by (by rewrite (view_config _ _ Hview)).
  cbn [map foldM]. rewrite E1. cbn [mbind outcome_bind].
  destruct bs as [|b2 bs2].
  { injection Hs1 as <- <-. exists r1. split_and!; [done..|]. rewrite Hready. f_equal. }
  pose proof Hc1 as (C1 & C2 & C3 & C4 & C5 & C6 & C7 & C8 & C9 & C10).
  destruct (IH s1 s' bs1 r1 (k + 1) Hs1 Hg1) as (r' & Er & Hc & Hfin); try done || lia.
  - rewrite Hid. by right.
  - by rewrite C8, C9.
  - rewrite Hid in Er. exists r'. split; [exact Er|]. split.
    + destruct Hc as (D1 & D2 & D3 & D4 & D5 & D6 & D7 & D8 & D9 & b' & Hb' & Hmut).
      unfold counted_ready. rewrite D1, D2, D3, D4, D5, D6, D7, D8, D9. split_and!; try done.
      exists b'. split; [done|]. destruct Hmut as [|Hmut]; [by left|].
      destruct C10 as (b'' & Hb'' & Hmut''). rewrite Hb'' in Hmut. injection Hmut as ->. done.
    + rewrite Hfin. f_equal. cbn [length]. lia.
Qed.

(** A round in which only READY messages about one block have been counted. *)
Lemma ready_only_round n x c : order_ok -> send_this_round_ n = "" -> echo_this_round_ n = ∅ ->
  ready_this_round_ n = {[x := c]} ->
  broadcastRound n = ready_loop [(x, c)] (set_should_broadcast true n).
Proof.
  intros Ho Hs He Hr. unfold broadcastRound. cbn [send_this_round_ set_should_broadcast]. rewrite Hs.
  cbn [String.eqb negb mbind outcome_bind echo_this_round_ set_should_broadcast]. rewrite He.
  assert (order ∅ = []) as -> by (apply Permutation_nil; by rewrite (Ho ∅), map_to_list_empty).
  cbn [foldM mbind outcome_bind ready_this_round_ set_should_broadcast]. rewrite Hr.
  assert (order {[x := c]} = [(x, c)]) as ->; [|done].
  apply Permutation_singleton_r. by rewrite (Ho _), map_to_list_singleton.
Qed.

(** Enough READY messages make a node send its own, which leaves what it has accepted. *)
Lemma amplify_sends n x c b : device_ok -> client_ok (grpcClient_ n) -> generated KEY_LEN_ (my_next_key_pair_ n) ->
  f_ (config_ n) + 1 <= c -> x ∉ ready_sent_ n -> blk_list_ n !! x = Some b -> mutable_ b = false ->
  exists n', amplify n (x, c) = Ok n' /\ config_ n' = config_ n /\ accepted_blocks_ n' = accepted_blocks_ n.
Proof.
  intros Hd Hok Hg Hc Hx Hb Hm. unfold amplify.
  rewrite (proj2 (Z.leb_le _ _) Hc), bool_decide_eq_false_2 by done. cbn [andb negb].
  unfold broadcast_ready, block_at. rewrite Hb.
  destruct (broadcastMessage_ok READY b 3 n Hd) as [n' En]; [done..|]. rewrite En. cbn [mbind outcome_bind].
  eexists. split; [reflexivity|]. cbn. destruct (broadcastMessage_inv _ _ _ _ _ En) as (_ & Hvw & _); [done|].
  by apply view_inv in Hvw as (-> & _ & _ & _ & _ & _ & _ & _ & _ & _ & _ & ->).
Qed.

(** More than [2 f + 1] READY messages about one block, and the round delivers it. *)
Lemma ready_round_delivers n x c b : order_ok -> device_ok -> stale x = Ok x -> client_ok (grpcClient_ n) ->
  generated KEY_LEN_ (my_next_key_pair_ n) -> send_this_round_ n = "" -> echo_this_round_ n = ∅ ->
  ready_this_round_ n = {[x := c]} -> f_ (config_ n) + 1 <= c -> 2 * f_ (config_ n) + 1 < c ->
  x ∉ ready_sent_ n -> blk_list_ n !! x = Some b -> mutable_ b = false ->
  exists n', broadcastRound n = Ok n' /\ accepted_blocks_ n' = accepted_blocks_ n ++ [x] /\
    should_broadcast_ n' = false.
Proof.
  intros Ho Hd Hst Hok Hg Hs He Hr Hc1 Hc2 Hx Hb Hm. rewrite (ready_only_round n x c) by done.
  destruct (amplify_sends (set_should_broadcast true n) x c b) as (n1 & En & Ec & Ea); [done..|].
  cbn [ready_loop]. rewrite En. cbn [mbind outcome_bind fst snd]. rewrite Ec. cbn [config_ set_should_broadcast].
  rewrite (proj2 (Z.ltb_lt _ _) Hc2). unfold deliver. rewrite Hst. cbn [mbind outcome_bind accepted_blocks_].
  eexists. split; [reflexivity|]. cbn. by rewrite Ea.
Qed.


(** A signature is stored with the key announced for the next one, not with the key that verifies it. *)
Lemma stored_signature_key n msg n' : recv_message n msg = Ok n' ->
  let b := block_ msg in let x := Header_getID (header_ b) in
  blocks_ n' = blocks_ n \/
  exists b' sig, blocks_ n' = <[x := addValidatorSignature b' sig]> (blocks_ n) /\
    sig_signature sig = validator_sig_ b /\ sig_public_key sig = validator_next_public_key_ b.
Proof.
  intros Hr b x. unfold recv_message in Hr. fold b in Hr.
  destruct (checkBlockSig b n) as [[n1 v]| | |] eqn:Ec; cbn [mbind outcome_bind] in Hr; [|done..].
  assert (Hn1 : n1 = set_val_sig_keys (<[validator_id_ b := validator_next_public_key_ b]> (val_sig_keys_ n)) n).
  { unfold checkBlockSig in Ec. destruct (Block_getDigest b); cbn [mbind outcome_bind] in Ec; [|done..].
    destruct (match val_sig_keys_ n !! validator_id_ b with None => _ | Some _ => _ end);
      cbn [mbind outcome_bind] in Ec; [|done..].
    destruct (print_SigKey _); cbn [mbind outcome_bind] in Ec; [|done..]. by injection Ec as <- _. }
  subst n1. destruct v; cbn [negb] in Hr; [|injection Hr as <-; by left].
  destruct (_ && _); [injection Hr as <-; by left|]. injection Hr as <-. right.
  unfold count_message, store_signature. fold x.
  destruct (bool_decide _); destruct (blk_list_ _ !! x); destruct (type_ msg); cbn;
    (eexists _, _; split; [reflexivity|]; cbn; by rewrite lookup_insert_eq).
Qed.
End Node.

(** * Silent nodes *)

Section Silent.
Context `{Hash} {C : Type} `{!Client C}.

(** A node that runs the program from its start, and what it sent to the server [a]. *)
Definition correct_node (a : string) (p : Node) : Prop :=
  exists dev order stale block_memory p0 h,
    order_ok order /\ fresh p0 /\ a ∈ client_servers (grpcClient_ p0) /\
    node_run dev order stale block_memory p0 h p.

Lemma about_readies x l :
  length (filter (about READY x) l) =
  length (filter (fun y => y = x) (map (fun m => Header_getID (header_ (block_ m)))
    (filter (fun m => type_ m = READY) l))).
Proof.
  induction l as [|m l IH]; [done|]. rewrite !filter_cons. unfold about at 1.
  destruct (decide (type_ m = READY)) as [Ht|Ht].
  - cbn [map]. rewrite filter_cons. destruct (decide (Header_getID (header_ (block_ m)) = x)).
    + rewrite decide_True by done. cbn. by rewrite IH.
    + rewrite decide_False by (by intros []). done.
  - rewrite decide_False by (by intros []). done.
Qed.

Lemma NoDup_filter_eq (x : string) l : NoDup l -> (length (filter (fun y => y = x) l) <= 1)%nat.
Proof.
  induction 1 as [|y l Hy Hl IH]; [cbn; lia|]. rewrite filter_cons. destruct (decide (y = x)) as [->|]; [|done].
  cbn. destruct (filter (fun y => y = x) l) as [|z l'] eqn:E; [cbn; lia|].
  assert (Hz : z ∈ filter (fun y => y = x) l) by (rewrite E; by left).
  by apply list_elem_of_filter in Hz as [-> Hz].
Qed.

Lemma correct_node_sends a p x : correct_node a p -> counted READY x (client_outbox (grpcClient_ p) a) <= 1.
Proof.
  intros (dev & order & stale & bm & p0 & h & Ho & Hf & Ha & Hrun).
  destruct (node_run_sound dev order stale bm a p0 h p Ho Hf Ha Hrun) as [(_ & _ & _ & _ & _ & Hn & _) _].
  unfold counted. rewrite about_readies. pose proof (NoDup_filter_eq x _ Hn). unfold readies in *. lia.
Qed.

Lemma counted_received t x l : counted t x (map received l) = counted t x l.
Proof.
  induction l as [|m l IH]; [done|]. change (m :: l) with ([m] ++ l). rewrite map_app, !counted_app, IH.
  f_equal. change (map received [m]) with [received m]. by rewrite !counted_one.
Qed.

Lemma counted_submseteq t x l l' : l ⊆+ l' -> counted t x l <= counted t x l'.
Proof.
  intros [k Hk]%submseteq_Permutation. unfold counted. rewrite Hk, filter_app, length_app. lia.
Qed.

(** C12: silent nodes stop the broadcast: among [3 f + 1] validators of which the [f] faulty ones say
    nothing, and with a network that delivers only what was sent, no node ever delivers a block,
    whatever the others propose and in whatever order things happen, because delivery waits for more
    READY messages than there are validators left. *)
Theorem silent_nodes_block_delivery (dev : device) (order : gmap string Z -> list (string * Z))
    (stale : string -> outcome string) (block_memory : Z) (n0 n : Node) (h : list Message) (a : string)
    (others : list Node) :
  order_ok order -> fresh n0 -> a ∈ client_servers (grpcClient_ n0) ->
  node_run dev order stale block_memory n0 h n ->
  n_ (config_ n0) = 3 * f_ (config_ n0) + 1 ->
  Forall (correct_node a) others -> Z.of_nat (length others) = n_ (config_ n0) - f_ (config_ n0) ->
  h ⊆+ map received (concat (map (fun p => client_outbox (grpcClient_ p) a) others)) ->
  accepted_blocks_ n = [].
Proof.
  intros Ho Hf Ha Hrun Hn Hpeers Hlen Hnet.
  destruct (node_run_sound dev order stale block_memory a n0 h n Ho Hf Ha Hrun) as [Hs Hc].
  destruct (accepted_blocks_ n) as [|x l] eqn:Eacc; [done|exfalso].
  destruct Hs as (_ & _ & _ & _ & _ & _ & _ & _ & Hmd).
  destruct (Hmd x) as (y & _ & Hy); [rewrite Eacc; by left|].
  pose proof (counted_submseteq READY y _ _ Hnet) as Hle. rewrite counted_received in Hle.
  assert (Hsum : counted READY y (concat (map (fun p => client_outbox (grpcClient_ p) a) others))
    <= Z.of_nat (length others)); [|rewrite Hc in Hy; lia].
  clear - Hpeers. induction Hpeers as [|p ps Hp _ IH]; [done|]. cbn [map concat length].
  rewrite counted_app. pose proof (correct_node_sends a p y Hp). lia.
Qed.
End Silent.

(** * Witnesses *)

#[local] Existing Instance test_hash.

Definition secret : string := "0123456789abcdef0123456789abcdef".
Definition example_pair : Signature :=
  let sk := mkSigKey (repeat secret 256) (repeat secret 256) in
  mkSignature (mkSigKey (map hash (S0 sk)) (map hash (S1 sk))) sk.
Definition example_device : device := fun _ => Some (fun _ => Some 0).
Definition table_order : gmap string Z -> list (string * Z) := fun m => map_to_list m.
Definition example_node (id n f : Z) : Node :=
  mkNode (mkConfig "node" id false 5000 true n f) example_client mutex_new ∅ "" ∅ ∅ ∅ [] [] "" true
    SigKey_empty SigKey_empty example_pair ∅ ∅ ∅ [] 0.

Lemma example_generated : generated KEY_LEN_ example_pair.
Proof.
  unfold generated. split_and!; try reflexivity. apply Forall_app.
  split; apply Forall_forall; intros s Hs; apply list_elem_of_In, repeat_spec in Hs as ->; reflexivity.
Qed.

Lemma example_device_ok : device_ok example_device.
Proof. intros k. by eexists. Qed.

Lemma example_fresh id n f : fresh (example_node id n f).
Proof.
  destruct (startThreads_wired ["a:1"; "b:2"] "a:1") as (c & E & Hw & _ & _ & Hq & Ht & _);
    [repeat constructor; set_solver|cbn; lia|].
  assert (Hc : c = example_client) by (unfold example_client; by rewrite E).
  subst c. unfold fresh. split_and!; try done. intros a Ha.
  change (a ∈ ["a:1"; "b:2"]) in Ha.
  assert (a = "a:1" \/ a = "b:2") as [-> | ->] by set_solver; reflexivity.
Qed.

Lemma keys_chain_witness :
  exists s' bs' r' v, signs example_device [finalized_block; finalized_block] (example_node 3 4 1) = Ok (s', bs') /\
    checks bs' (example_node 2 4 1) = Ok (r', v :: [true]) /\
    val_sig_keys_ r' !! 3 = Some (Signature.public_key_ (my_next_key_pair_ s')) /\ v = true.
Proof.
  destruct (signs_ok example_device [finalized_block; finalized_block] (example_node 3 4 1))
    as (s' & bs' & Hs); [exact example_device_ok|exact example_generated|repeat constructor|].
  destruct (keys_chain example_device (example_node 3 4 1) s' (example_node 2 4 1) finalized_block
    [finalized_block] bs' Hs example_generated) as (r' & v & Hc & Hk & Hv); [intros key Hkey; discriminate Hkey|].
  exists s', bs', r', v. split_and!; [exact Hs|exact Hc|exact Hk|]. apply Hv. left. reflexivity.
Defined.

Lemma broadcast_rules_witness :
  exists n, Propose example_device finalized_block (example_node 3 4 1) = Ok (n, 1) /\
    NoDup (readies "b:2" n) /\ accepted_blocks_ n = [].
Proof.
  destruct (broadcastMessage_ok example_device SEND finalized_block 0 (example_node 3 4 1)) as [n Hn];
    [exact example_device_ok|exact example_generated|reflexivity|apply example_fresh|].
  assert (Hp : Propose example_device finalized_block (example_node 3 4 1) = Ok (n, 1))
    by (unfold Propose; rewrite Hn; reflexivity).
  exists n. split; [exact Hp|].
  destruct (broadcast_rules example_device table_order Ok 0 (example_node 3 4 1) n [] "b:2")
    as (H1 & _ & H3).
  - intros m. reflexivity.
  - apply example_fresh.
  - by right; left.
  - eapply node_propose; [apply node_start|exact Hp].
  - split; [exact H1|]. destruct (accepted_blocks_ n) as [|x l]; [done|].
    destruct (H3 x) as (y & _ & Hy); [by left|]. discriminate Hy.
Defined.


Lemma silent_nodes_block_delivery_witness :
  exists p, Propose example_device finalized_block (example_node 3 4 1) = Ok (p, 1) /\
    accepted_blocks_ (set_should_broadcast true (example_node 2 4 1)) = [].
Proof.
  destruct (broadcastMessage_ok example_device SEND finalized_block 0 (example_node 3 4 1)) as [p Hn];
    [exact example_device_ok|exact example_generated|reflexivity|apply example_fresh|].
  assert (Hp : Propose example_device finalized_block (example_node 3 4 1) = Ok (p, 1))
    by (unfold Propose; rewrite Hn; reflexivity).
  exists p. split; [exact Hp|].
  assert (Hc : correct_node "b:2" p).
  { exists example_device, table_order, Ok, 0, (example_node 3 4 1), []. split; [intros m; reflexivity|].
    split; [apply example_fresh|]. split; [by right; left|].
    eapply node_propose; [apply node_start|exact Hp]. }
  apply (silent_nodes_block_delivery example_device table_order Ok 0 (example_node 2 4 1)
    (set_should_broadcast true (example_node 2 4 1)) [] "b:2" [p; p; p]).
  - intros m. reflexivity.
  - apply example_fresh.
  - by right; left.
  - apply node_running, node_start.
  - reflexivity.
  - by repeat constructor.
  - reflexivity.
  - apply submseteq_nil_l.
Defined.
