(* ===== verification/Validator.v ===== *)
(** The validator (src/include/cryptowallet/validator.h, src/lib/cryptowallet/validator.cc): the coins and
    keys of the wallets, the transactions received, the blocks created and agreed on, and the event
    handler whose thread runs the registered tasks. *)
From S2P Require Import Prelude Sha256 Json JsonRoundTrip Signature Transaction Block Message Database Comms Node.
Local Open Scope Z_scope.

(** * The event handler *)

Inductive Event := Event_NONE | Event_SYNC | Event_TX | Event_PROPOSE | Event_DBSTORE.
#[export] Instance Event_eq_dec : EqDecision Event.
Proof. solve_decision. Defined.

Section EventHandler.
Context {task : Type}.

(** A subscriber: the pointer it was registered with, and what it runs. *)
Record EventSubscriberNode := mkSubscriber { this_ : Z; func : task }.

Record EventHandler := mkHandler {
  publist : list Event;
  subsMap_ : Event -> list EventSubscriberNode
}.
Definition EventHandler_new : EventHandler := mkHandler [] (fun _ => []).

Definition SubscriberEvent (event : Event) (node : EventSubscriberNode) (h : EventHandler) : EventHandler :=
  mkHandler (publist h) (fun e => if decide (e = event) then subsMap_ h e ++ [node] else subsMap_ h e).

Definition releaseSubscriberEvent (event : Event) (node : EventSubscriberNode) (h : EventHandler)
    : EventHandler :=
  mkHandler (publist h) (fun e =>
    if decide (e = event) then filter (fun n => this_ n <> this_ node) (subsMap_ h e) else subsMap_ h e).

Definition PublishEvent (event : Event) (h : EventHandler) : EventHandler :=
  mkHandler (publist h ++ [event]) (subsMap_ h).

(** [runInLoop] publishes first; the thread of the handler can take the event before the task is there.
    The pointer of the new node has no value. *)
Definition runInLoop (memory : Z) (event : Event) (t : task) (h : EventHandler) : EventHandler :=
  SubscriberEvent event (mkSubscriber memory t) (PublishEvent event h).

(** One turn of [EventProcess] that finds an event: the tasks it runs.  Nothing ever removes a task. *)
Definition EventProcess (h : EventHandler) : option (EventHandler * list task) :=
  match publist h with
  | [] => None
  | cur :: rest => Some (mkHandler rest (subsMap_ h), map func (subsMap_ h cur))
  end.
End EventHandler.
Arguments EventSubscriberNode : clear implicits.
Arguments EventHandler : clear implicits.

(** * The validator *)

Section Validator.
Context `{Hash}.
Variables (block_memory : Z).

(** The members that are used after the construction; those that tie the validator to its server, node and
    threads are the parts of [System.World]. *)
Record Validator := mkValidator {
  validator_id_of : Z;                     (** [id_] *)
  ipaddr_ : string;
  validator_port_ : Z;
  wallets_ids_ : list Z;
  pk_sets_ : gmap Z SigKey;
  utxo_sets_ : gmap Z UTXOlist;
  memory_pool_ : list Transaction;
  blist_ : list Block;
  db_ : Database;
  mutex_of_grpc : mutex                    (** [_mutex_grpc] *)
}.

Definition set_pk_sets (x : gmap Z SigKey) (v : Validator) : Validator :=
  mkValidator (validator_id_of v) (ipaddr_ v) (validator_port_ v) (wallets_ids_ v) x (utxo_sets_ v)
    (memory_pool_ v) (blist_ v) (db_ v) (mutex_of_grpc v).
Definition set_utxo_sets (x : gmap Z UTXOlist) (v : Validator) : Validator :=
  mkValidator (validator_id_of v) (ipaddr_ v) (validator_port_ v) (wallets_ids_ v) (pk_sets_ v) x
    (memory_pool_ v) (blist_ v) (db_ v) (mutex_of_grpc v).
Definition set_memory_pool (x : list Transaction) (v : Validator) : Validator :=
  mkValidator (validator_id_of v) (ipaddr_ v) (validator_port_ v) (wallets_ids_ v) (pk_sets_ v) (utxo_sets_ v)
    x (blist_ v) (db_ v) (mutex_of_grpc v).
Definition set_blist (x : list Block) (v : Validator) : Validator :=
  mkValidator (validator_id_of v) (ipaddr_ v) (validator_port_ v) (wallets_ids_ v) (pk_sets_ v) (utxo_sets_ v)
    (memory_pool_ v) x (db_ v) (mutex_of_grpc v).
Definition set_mutex_of_grpc (x : mutex) (v : Validator) : Validator :=
  mkValidator (validator_id_of v) (ipaddr_ v) (validator_port_ v) (wallets_ids_ v) (pk_sets_ v) (utxo_sets_ v)
    (memory_pool_ v) (blist_ v) (db_ v) x.

Definition Validator_new (memory : Z * Z) (id : Z) (settings : Settings.Settings) (wids : list Z) (fs : files)
    : outcome Validator :=
  let info := (Settings.getValidatorInfo settings id).1 in
  db ← Database_new memory block_memory ("../../database" +:+ pretty id +:+ ".json") fs;
  Ok (mkValidator id (Settings.address info) (Settings.port info) wids ∅ ∅ [] [] db mutex_new).

(** The move constructor: [blist_] is not moved. *)
Definition Validator_move (v : Validator) : Validator := set_blist [] v.

Definition SaveBlockchain (filename : string) (v : Validator) (fs : files) : Validator * files * outcome unit :=
  let '(db, fs, r) := save block_memory (db_ v) filename fs in
  (mkValidator (validator_id_of v) (ipaddr_ v) (validator_port_ v) (wallets_ids_ v) (pk_sets_ v) (utxo_sets_ v)
     (memory_pool_ v) (blist_ v) db (mutex_of_grpc v), fs, r).

(** [utxo_sets_[id]]: an absent list is added, empty. *)
Definition utxos (id : Z) (v : Validator) : UTXOlist := default [] (utxo_sets_ v !! id).
Definition touch (id : Z) (v : Validator) : Validator :=
  match utxo_sets_ v !! id with
  | Some _ => v
  | None => set_utxo_sets (<[id := []]> (utxo_sets_ v)) v
  end.

(** ** The first coins *)

(** One turn of the loop of [InitializeCoins]. *)
Definition initialize_wallet (coins : Z) (acc : gmap Z UTXOlist * UTXOlist * Z) (id : Z)
    : gmap Z UTXOlist * UTXOlist * Z :=
  let '(utxo_sets, init_utxolist, initTX_id) := acc in
  let utxo := mkUTXO initTX_id 0 (mkOutput coins id) in
  (<[id := default [] (utxo_sets !! id) ++ [utxo]]> utxo_sets, init_utxolist ++ [utxo], u32 (initTX_id + 1)).

(** The validator, its server, and the coins its node is given. *)
Definition InitializeCoins (coins : Z) (v : Validator) (server : ChatServiceImpl)
    : Validator * ChatServiceImpl * UTXOlist :=
  let '(utxo_sets, init_utxolist, _) :=
    foldl (initialize_wallet coins) (utxo_sets_ v, [], 0) (wallets_ids_ v) in
  (set_utxo_sets utxo_sets v, setUTXOlists utxo_sets server, init_utxolist).

(** ** Receiving transactions *)

Definition UpdateKeys (sender_id : Z) (tx : Transaction) (v : Validator) : Validator :=
  set_pk_sets (<[sender_id := public_key_ tx]> (pk_sets_ v)) v.

(** The key the signature is checked with is the one that the transaction itself has just stored. *)
Definition OnRecvTx (tx : Transaction) (v : Validator) : outcome (Validator * Z) :=
  let wallet_id := senderID_ tx in
  let v := UpdateKeys wallet_id tx v in
  valid ← Verify (getDigest tx) (senderSig_ tx) (default SigKey_empty (pk_sets_ v !! wallet_id));
  let v := touch wallet_id v in
  if negb (valid =? 1) || negb (checkSpendingConditions tx (utxos wallet_id v) (wallets_ids_ v))
  then Ok (v, 0)
  else Ok (set_memory_pool (memory_pool_ v ++ [tx]) v, 1).

(** [OnTxReply]: what it does, and its value, which no [return] gives. *)
Definition OnTxReply (txlist : list Transaction) (v : Validator) : outcome Validator * outcome Z :=
  (foldM (fun v tx => '(v, _) ← OnRecvTx tx v; Ok v) v txlist, Undef missing_return).

(** ** Creating a block *)

(** One turn of the loop of [CreateBlk], on the transaction taken from the end of the pool. *)
Definition create_step (acc : Validator * Block) (cur_tx : Transaction) : outcome (Validator * Block) :=
  let '(v, bx) := acc in
  let wallet_id := senderID_ cur_tx in
  let v := touch wallet_id v in
  if negb (checkSpendingConditions cur_tx (utxos wallet_id v) (wallets_ids_ v)) then Ok (v, bx)
  else if negb (verifyTxConsist bx cur_tx) then Ok (v, bx)
  else bx ← addTransaction bx cur_tx; Ok (v, bx).

Definition CreateBlk (is_leader : bool) (bx : Block) (v : Validator) : outcome (Validator * Block * Z) :=
  if negb is_leader then Throw assertion_failed
  else
    match memory_pool_ v with
    | [] => Ok (v, bx, 0)
    | pool =>
        '(v, bx) ← foldM create_step (set_memory_pool [] v, bx) (rev pool);
        bx ← finalize bx;
        Ok (v, bx, 1)
    end.

(** ** Agreed blocks *)

(** One turn of the inner loop of [OnAgreeBlk]: the index is looked up in [ulist], a copy of the list
    from before the loop, and used on the list itself; the new entry is dropped. *)
Definition agree_input (tx : Transaction) (ulist : UTXOlist) (v : Validator) (e : nat * Input)
    : outcome Validator :=
  let '(i, cur_in) := e in
  let idx := UTXOlist_index ulist cur_in in
  if idx =? -1 then Ok v
  else
    l ← UTXOlist_erase (utxos (senderID_ tx) v) idx;
    _ ← getOutputAt tx i;
    Ok (set_utxo_sets (<[senderID_ tx := l]> (utxo_sets_ v)) v).

Definition agree_tx (v : Validator) (cur_tx : Transaction) : outcome Validator :=
  let v := touch (senderID_ cur_tx) v in
  let ulist := utxos (senderID_ cur_tx) v in
  foldM (agree_input cur_tx ulist) v (imap pair (inputs_ cur_tx)).

Definition OnAgreeBlk (bx : Block) (v : Validator) : outcome (Validator * Z) :=
  v ← foldM agree_tx v (txs_ bx); Ok (v, 1).

(** [OnSyncReply]: what it does, and its missing value. *)
Definition OnSyncReply (v : Validator) (server : ChatServiceImpl) : ChatServiceImpl * outcome Z :=
  (setUTXOlists (utxo_sets_ v) server, Undef missing_return).

(** * Receiving transactions *)

Lemma utxos_touch id id' v : utxos id' (touch id v) = utxos id' v.
Proof.
  unfold touch. destruct (utxo_sets_ v !! id) eqn:E; [done|]. unfold utxos. cbn.
  destruct (decide (id' = id)) as [->|Hne]; [by rewrite lookup_insert_eq, E|by rewrite lookup_insert_ne].
Qed.

Lemma touch_same id v :
  wallets_ids_ (touch id v) = wallets_ids_ v /\ memory_pool_ (touch id v) = memory_pool_ v /\
  pk_sets_ (touch id v) = pk_sets_ v.
Proof. unfold touch. by destruct (utxo_sets_ v !! id). Qed.

(** The verdict on a transaction: its own key, and the coins of its sender. *)
Definition accepts (v : Validator) (tx : Transaction) : Prop :=
  Verify (getDigest tx) (senderSig_ tx) (public_key_ tx) = Ok 1 /\
  checkSpendingConditions tx (utxos (senderID_ tx) v) (wallets_ids_ v) = true.

Lemma OnRecvTx_cases tx v :
  exists v' r, OnRecvTx tx v = Ok (v', r) /\
    (r = 1 /\ accepts v tx /\ memory_pool_ v' = memory_pool_ v ++ [tx] \/
     r = 0 /\ ~ accepts v tx /\ memory_pool_ v' = memory_pool_ v) /\
    pk_sets_ v' = <[senderID_ tx := public_key_ tx]> (pk_sets_ v) /\
    wallets_ids_ v' = wallets_ids_ v /\ forall w, utxos w v' = utxos w v.
Proof.
  unfold OnRecvTx, accepts. cbn [pk_sets_ UpdateKeys set_pk_sets]. rewrite lookup_insert_eq.
  cbn [default from_option id]. destruct (Verify_total (getDigest tx) (senderSig_ tx) (public_key_ tx)) as [r Hr].
  rewrite Hr. cbn [mbind outcome_bind]. set (v1 := UpdateKeys (senderID_ tx) tx v).
  rewrite utxos_touch. destruct (touch_same (senderID_ tx) v1) as (-> & Hp & Hk).
  change (utxos (senderID_ tx) v1) with (utxos (senderID_ tx) v). change (wallets_ids_ v1) with (wallets_ids_ v).
  assert (Hut : forall w, utxos w (touch (senderID_ tx) v1) = utxos w v) by (intros w; by rewrite utxos_touch).
  destruct (touch_same (senderID_ tx) v1) as (Hw & _).
  destruct (Z.eqb_spec r 1) as [->|Hne]; cbn [negb orb].
  - destruct (checkSpendingConditions _ _ _) eqn:Hc; cbn [negb].
    + exists (set_memory_pool (memory_pool_ (touch (senderID_ tx) v1) ++ [tx]) (touch (senderID_ tx) v1)), 1.
      split_and!; try done. left. split_and!; [done..|]. cbn. by rewrite Hp.
    + exists (touch (senderID_ tx) v1), 0. split_and!; try done. right.
      split_and!; [done| |done]. by intros [_ ?].
  - exists (touch (senderID_ tx) v1), 0. split_and!; try done. right.
    split_and!; [done| |done]. intros [? _]. simplify_eq.
Qed.

(** C9: what a validator does with a transaction: it always replaces the key of the sender by the one the
    transaction brings; it puts the transaction into its pool, and returns 1, exactly if the signature
    verifies under that same key and the coins of the sender meet the spending conditions; it returns 0
    and keeps the pool otherwise, and it never changes the coins. *)
Theorem OnRecvTx_spec (tx : Transaction) (v : Validator) :
  exists v' r, OnRecvTx tx v = Ok (v', r) /\ (r = 0 \/ r = 1) /\
    (r = 1 <-> Verify (getDigest tx) (senderSig_ tx) (public_key_ tx) = Ok 1 /\
       checkSpendingConditions tx (utxos (senderID_ tx) v) (wallets_ids_ v) = true) /\
    memory_pool_ v' = (if r =? 1 then memory_pool_ v ++ [tx] else memory_pool_ v) /\
    pk_sets_ v' = <[senderID_ tx := public_key_ tx]> (pk_sets_ v) /\
    forall w, utxos w v' = utxos w v.
Proof.
  destruct (OnRecvTx_cases tx v) as (v' & r & E & Hr & Hk & _ & Hu). exists v', r. unfold accepts in Hr.
  destruct Hr as [(-> & Ha & Hp)|(-> & Ha & Hp)]; split_and!; try done; [by right|by left].
Qed.

(** C24: anyone can spend the coins of any wallet: whatever key a wallet is known by, a transaction in its name
    that meets the spending conditions is accepted when it brings a key pair of the attacker's own and is
    signed with it. *)
Theorem forged_tx_accepted (t : Transaction) (pk sk : SigKey) (v : Validator) :
  key_pair pk sk ->
  checkSpendingConditions t (utxos (senderID_ t) v) (wallets_ids_ v) = true ->
  exists sig v', Sign (getDigest t) sk = Ok sig /\
    let t' := setSenderSig (setPublicKey t pk) sig in
    OnRecvTx t' v = Ok (v', 1) /\ memory_pool_ v' = memory_pool_ v ++ [t'] /\
    pk_sets_ v' !! senderID_ t = Some pk.
Proof.
  intros Hp Hc. destruct (sign_verify (getDigest t) pk sk Hp) as (sig & Hs & Hv).
  destruct (OnRecvTx_cases (setSenderSig (setPublicKey t pk) sig) v) as (v' & r & E & Hr & Hk & _).
  exists sig, v'. split; [done|]. cbn zeta.
  assert (Ha : accepts v (setSenderSig (setPublicKey t pk) sig)) by (by split).
  destruct Hr as [(-> & _ & Hm)|(_ & Hn & _)]; [|by destruct (Hn Ha)].
  split_and!; [done|done|]. rewrite Hk. apply lookup_insert_eq.
Qed.

(** * Creating blocks *)

(** What the loop keeps: the transactions of the block come from the pool and may be spent, and no two of
    them share an input. *)
Definition consistent (pool : list Transaction) (v0 : Validator) (v : Validator) (bx : Block) : Prop :=
  mutable_ bx = true /\ (forall w, utxos w v = utxos w v0) /\ wallets_ids_ v = wallets_ids_ v0 /\
  memory_pool_ v = [] /\
  Forall (fun t => t ∈ pool /\ checkSpendingConditions t (utxos (senderID_ t) v0) (wallets_ids_ v0) = true)
    (txs_ bx) /\
  (Forall (fun t => NoDup (inputs_ t)) pool -> NoDup (all_inputs (txs_ bx))).

Lemma Input_eqb_true a b : Input_eqb a b = true <-> a = b.
Proof.
  unfold Input_eqb. rewrite andb_true_iff, !Z.eqb_eq. destruct a, b; cbn. split; [by intros [-> ->]|].
  by intros [= -> ->].
Qed.

Lemma verifyTxConsist_spec b tx :
  verifyTxConsist b tx = true <-> forall i, i ∈ all_inputs (txs_ b) -> i ∉ inputs_ tx.
Proof.
  unfold verifyTxConsist, all_inputs. rewrite forallb_forall. split.
  - intros Hf i Hi Hin. apply list_elem_of_In, in_concat in Hi as (l & Hl & Hi).
    apply in_map_iff in Hl as (t & <- & Ht). specialize (Hf t Ht). rewrite forallb_forall in Hf.
    specialize (Hf i Hi). apply negb_true_iff, not_true_iff_false in Hf. apply Hf, existsb_exists.
    exists i. split; [by apply list_elem_of_In|by apply Input_eqb_true].
  - intros Hf t Ht. apply forallb_forall. intros i Hi. apply negb_true_iff, not_true_iff_false.
    intros (j & Hj & E)%existsb_exists. apply Input_eqb_true in E as <-.
    apply (Hf i); [|by apply list_elem_of_In].
    apply list_elem_of_In, in_concat. exists (inputs_ t). split; [by apply in_map|done].
Qed.

Lemma create_step_consistent pool v0 v bx tx : tx ∈ pool -> consistent pool v0 v bx ->
  exists v' bx', create_step (v, bx) tx = Ok (v', bx') /\ consistent pool v0 v' bx'.
Proof.
  intros Hin (Hm & Hu & Hw & Hp & Hf & Hn). unfold create_step.
  destruct (touch_same (senderID_ tx) v) as (Hwt & Hpt & _). rewrite utxos_touch, Hwt, Hu, Hw.
  assert (Hkeep : consistent pool v0 (touch (senderID_ tx) v) bx).
  { repeat split; try done; [|by rewrite Hwt|by rewrite Hpt]. intros w. by rewrite utxos_touch. }
  destruct (checkSpendingConditions _ _ _) eqn:Hc; cbn [negb]; [|by eexists _, _].
  destruct (verifyTxConsist bx tx) eqn:Ht; cbn [negb]; [|by eexists _, _].
  unfold addTransaction. rewrite Hm. cbn [mbind outcome_bind]. eexists _, _. split; [reflexivity|].
  split_and!; try done; cbn [txs_]; try apply Hkeep.
  - apply Forall_app. split; [done|]. by repeat constructor.
  - intros Hpool. unfold all_inputs. rewrite map_app, concat_app. cbn. rewrite app_nil_r.
    apply NoDup_app. split_and!; [by apply Hn| |].
    + by apply verifyTxConsist_spec.
    + by apply (proj1 (Forall_forall _ _) Hpool).
Qed.

Lemma create_loop_consistent pool v0 txs : forall v bx, Forall (fun t => t ∈ pool) txs ->
  consistent pool v0 v bx ->
  exists v' bx', foldM create_step (v, bx) txs = Ok (v', bx') /\ consistent pool v0 v' bx'.
Proof.
  induction txs as [|t txs IH]; intros v bx Hin Hc; [by eexists _, _|]. apply Forall_cons in Hin as [Ht Hin].
  destruct (create_step_consistent pool v0 v bx t Ht Hc) as (v1 & bx1 & E & Hc1). cbn [foldM]. rewrite E.
  cbn [mbind outcome_bind]. by apply IH.
Qed.

(** C10: the block a leader creates from a pool that is not empty: creating it succeeds, empties the pool and
    leaves the coins; the block is immutable, holds the Merkle root of its transactions, and each of
    them comes from the pool and may be spent by its sender; and if no transaction repeats an input of
    its own, the block verifies against every list of coins that each of its transactions may be
    spent from. *)
Theorem created_block_verifies (v : Validator) :
  memory_pool_ v <> [] ->
  exists v' b, CreateBlk true (Block_empty block_memory) v = Ok (v', b, 1) /\ memory_pool_ v' = [] /\
    (forall w, utxos w v' = utxos w v) /\ mutable_ b = false /\
    merkle_root (txs_ b) = Ok (merkleRoot_ (header_ b)) /\
    Forall (fun t => t ∈ memory_pool_ v /\
      checkSpendingConditions t (utxos (senderID_ t) v) (wallets_ids_ v) = true) (txs_ b) /\
    (Forall (fun t => NoDup (inputs_ t)) (memory_pool_ v) ->
     forall l, Forall (fun t => checkSpendingConditions t l (wallets_ids_ v) = true) (txs_ b) ->
       Z.of_nat (length (all_inputs (txs_ b))) < 2 ^ 31 -> Block_verify b l (wallets_ids_ v) = true).
Proof.
  intros Hne. unfold CreateBlk. cbn [negb].
  destruct (create_loop_consistent (memory_pool_ v) v (rev (memory_pool_ v)) (set_memory_pool [] v)
    (Block_empty block_memory)) as (v' & bx & E & Hm & Hu & Hw & Hp & Hf & Hn).
  - apply Forall_forall. intros t Ht. rewrite list_elem_of_In, <- in_rev, <- list_elem_of_In in Ht. done.
  - repeat split; try done. intros _. constructor.
  - destruct (memory_pool_ v) as [|t0 pool] eqn:Ep; [done|]. rewrite <- Ep in *. rewrite E.
    cbn [mbind outcome_bind]. unfold finalize, calculateMerkleRoot. rewrite Hm. cbn [negb].
    destruct (merkle_root_total (txs_ bx)) as [r Hr]. rewrite Hr. cbn [mbind outcome_bind].
    eexists _, _. split; [reflexivity|]. cbn. split_and!; try done.
    intros Hpool l Hl Hlen. apply Block_verify_iff; [done|]. split; [done|by apply Hn].
Qed.

(** * Agreed blocks *)

Lemma UTXOlist_index_from_range i l : forall k, 0 <= k ->
  UTXOlist_index_from k l i = -1 \/ k <= UTXOlist_index_from k l i < k + Z.of_nat (length l).
Proof.
  induction l as [|u l IH]; intros k Hk; cbn [UTXOlist_index_from length]; [by left|].
  destruct (refers i u); [right; lia|]. destruct (IH (k + 1)) as [E|E]; [lia|by left|right; lia].
Qed.

Lemma UTXOlist_index_range i l :
  UTXOlist_index l i = -1 \/ 0 <= UTXOlist_index l i < Z.of_nat (length l).
Proof. apply (UTXOlist_index_from_range i l 0). lia. Qed.

Lemma UTXOlist_erase_ok l k : 0 <= k < Z.of_nat (length l) -> UTXOlist_erase l k = Ok (delete (Z.to_nat k) l).
Proof.
  intros Hk. unfold UTXOlist_erase. by rewrite (proj2 (Z.leb_le 0 k)), (proj2 (Z.ltb_lt k _)) by lia.
Qed.

(** What spending an input does to a list of coins: the first entry it refers to goes. *)
Definition spend (l : UTXOlist) (i : Input) : UTXOlist :=
  let idx := UTXOlist_index l i in if idx =? -1 then l else delete (Z.to_nat idx) l.
(** The inputs that the transactions of wallet [w] spend. *)
Definition spent_by (w : Z) (txs : list Transaction) : list Input :=
  mjoin (map inputs_ (filter (fun t => senderID_ t = w) txs)).

Lemma utxos_insert w id l v :
  utxos w (set_utxo_sets (<[id := l]> (utxo_sets_ v)) v) = if decide (w = id) then l else utxos w v.
Proof.
  unfold utxos. cbn. destruct (decide (w = id)) as [->|Hne]; [by rewrite lookup_insert_eq|].
  by rewrite lookup_insert_ne.
Qed.

Lemma spend_sublist l i : spend l i `sublist_of` l.
Proof. unfold spend. destruct (_ =? _); [done|apply sublist_delete]. Qed.

(** A transaction with at most one input, and an output for it. *)
Definition simple (t : Transaction) : Prop := (length (inputs_ t) <= 1)%nat /\ outputs_ t <> [].

Lemma agree_tx_simple t v : simple t ->
  exists v', agree_tx v t = Ok v' /\ memory_pool_ v' = memory_pool_ v /\ pk_sets_ v' = pk_sets_ v /\
    forall w, utxos w v' = foldl spend (utxos w v) (spent_by w [t]).
Proof.
  intros [Hl Ho]. unfold agree_tx, spent_by. destruct (touch_same (senderID_ t) v) as (_ & Hp & Hk).
  assert (Hsp : forall w, mjoin (map inputs_ (filter (fun t => senderID_ t = w) [t])) =
    if decide (w = senderID_ t) then inputs_ t else []).
  { intros w. rewrite filter_cons, filter_nil. destruct (decide (senderID_ t = w)) as [<-|].
    - rewrite decide_True by done. apply app_nil_r.
    - by rewrite decide_False by congruence. }
  destruct (inputs_ t) as [|i [|]] eqn:Ei; cbn in Hl; [| |lia].
  - eexists. split; [reflexivity|]. split_and!; [done..|]. intros w. rewrite Hsp, utxos_touch.
    by destruct (decide _).
  - cbn [imap foldM]. unfold agree_input. rewrite utxos_touch.
    destruct (Z.eqb_spec (UTXOlist_index (utxos (senderID_ t) v) i) (-1)) as [E|E]; cbn [mbind outcome_bind].
    + eexists. split; [reflexivity|]. split_and!; [done..|]. intros w. rewrite Hsp, utxos_touch.
      destruct (decide _) as [->|]; [|done]. cbn. unfold spend. by rewrite E.
    + destruct (UTXOlist_index_range i (utxos (senderID_ t) v)) as [?|Hr]; [done|].
      rewrite UTXOlist_erase_ok by done. cbn [mbind outcome_bind]. unfold getOutputAt, read.
      destruct (outputs_ t) as [|o os]; [done|]. cbn [lookup list_lookup mbind outcome_bind compose].
      eexists. split; [reflexivity|]. split_and!; [done..|]. intros w.
      rewrite utxos_insert, Hsp, utxos_touch. destruct (decide _) as [->|]; [|done]. cbn. unfold spend.
      by rewrite (proj2 (Z.eqb_neq _ _) E).
Qed.

Lemma spent_by_cons w t txs : spent_by w (t :: txs) = spent_by w [t] ++ spent_by w txs.
Proof.
  unfold spent_by. rewrite !(filter_cons _ t), filter_nil. destruct (decide _); [|done]. cbn.
  by rewrite app_nil_r.
Qed.

Lemma agree_loop_simple txs : forall v, Forall simple txs ->
  exists v', foldM agree_tx v txs = Ok v' /\ memory_pool_ v' = memory_pool_ v /\ pk_sets_ v' = pk_sets_ v /\
    forall w, utxos w v' = foldl spend (utxos w v) (spent_by w txs).
Proof.
  induction txs as [|t txs IH]; intros v Hs; [by exists v|]. apply Forall_cons in Hs as [Ht Hs].
  destruct (agree_tx_simple t v Ht) as (v1 & E & Hp & Hk & Hu).
  destruct (IH v1 Hs) as (v2 & E2 & Hp2 & Hk2 & Hu2). exists v2. cbn [foldM]. rewrite E.
  split_and!; [exact E2|by rewrite Hp2|by rewrite Hk2|]. intros w. by rewrite Hu2, Hu, (spent_by_cons w t txs), foldl_app.
Qed.

(** C25: what an agreed block does to the coins, when its transactions have at most one input each: the
    call returns 1, and from the list of each wallet exactly the entries go that the transactions of
    that wallet spend, in the order of the block.  The outputs of the transactions reach no list: the
    coins that are spent disappear. *)
Theorem agreed_block_erases (bx : Block) (v : Validator) :
  Forall simple (txs_ bx) ->
  exists v', OnAgreeBlk bx v = Ok (v', 1) /\
    memory_pool_ v' = memory_pool_ v /\ pk_sets_ v' = pk_sets_ v /\
    forall w, utxos w v' = foldl spend (utxos w v) (spent_by w (txs_ bx)) /\
      utxos w v' `sublist_of` utxos w v.
Proof.
  intros Hs. destruct (agree_loop_simple (txs_ bx) v Hs) as (v' & E & Hp & Hk & Hu). exists v'.
  unfold OnAgreeBlk. rewrite E. split_and!; [done..|]. intros w. split; [done|]. rewrite Hu.
  generalize (utxos w v). induction (spent_by w (txs_ bx)) as [|i ins IH]; intros l; [done|]. cbn.
  transitivity (spend l i); [apply IH|apply spend_sublist].
Qed.

Lemma agree_input_found tx ulist v i cur_in : UTXOlist_index ulist cur_in <> -1 ->
  agree_input tx ulist v (i, cur_in) =
    (l ← UTXOlist_erase (utxos (senderID_ tx) v) (UTXOlist_index ulist cur_in);
     _ ← getOutputAt tx i; Ok (set_utxo_sets (<[senderID_ tx := l]> (utxo_sets_ v)) v)).
Proof. intros Hne. unfold agree_input. by rewrite (proj2 (Z.eqb_neq _ _) Hne). Qed.

(** An agreed block whose first transaction has two inputs, the second of which refers to the last coin of
    the sender: its position comes from the list before the first coin was erased, and erasing it is
    undefined behaviour. *)
Theorem second_input_undefined (bx : Block) (v : Validator) (t : Transaction) (txs : list Transaction)
    (i1 i2 : Input) (inputs : list Input) :
  txs_ bx = t :: txs -> inputs_ t = i1 :: i2 :: inputs ->
  UTXOlist_index (utxos (senderID_ t) v) i1 <> -1 ->
  UTXOlist_index (utxos (senderID_ t) v) i2 = Z.of_nat (length (utxos (senderID_ t) v)) - 1 ->
  OnAgreeBlk bx v = Undef out_of_bounds.
Proof.
  intros Etx Ein H1 H2. unfold OnAgreeBlk. rewrite Etx. cbn [foldM]. unfold agree_tx. rewrite Ein.
  cbn [imap foldM]. rewrite agree_input_found, !utxos_touch by (by rewrite utxos_touch).
  destruct (UTXOlist_index_range i1 (utxos (senderID_ t) v)) as [?|Hr]; [done|].
  rewrite UTXOlist_erase_ok by done. cbn [mbind outcome_bind].
  destruct (getOutputAt t 0) as [o|?|u|] eqn:Eo; unfold getOutputAt, read in Eo;
    destruct (outputs_ t !! 0%nat); try discriminate; cbn [mbind outcome_bind]; [|by injection Eo as <-].
  cbn [compose]. rewrite agree_input_found, H2, utxos_insert, decide_True by (done || lia). unfold UTXOlist_erase. rewrite length_delete.
  2: { apply lookup_lt_is_Some. lia. }
  rewrite (proj2 (Z.ltb_ge _ _)) by lia. by rewrite andb_false_r.
Qed.

(** * The first coins *)

Definition coin (coins : Z) (k : Z) (id : Z) : UTXO := mkUTXO k 0 (mkOutput coins id).
(** One coin for each wallet of the list; the identifiers count from [k]. *)
Fixpoint first_coins (coins k : Z) (ids : list Z) : UTXOlist :=
  match ids with [] => [] | id :: ids' => coin coins k id :: first_coins coins (k + 1) ids' end.
Definition received (id : Z) (l : UTXOlist) : UTXOlist :=
  filter (fun u => Output_receiverID (output_ u) = id) l.

Lemma initialize_loop coins ids : forall m l k, 0 <= k -> k + Z.of_nat (length ids) <= 2 ^ 32 ->
  exists m' k', foldl (initialize_wallet coins) (m, l, k) ids = (m', l ++ first_coins coins k ids, k') /\
    forall id, default [] (m' !! id) = default [] (m !! id) ++ received id (first_coins coins k ids).
Proof.
  induction ids as [|id ids IH]; intros m l k Hk Hl; cbn [foldl first_coins].
  { eexists _, _. rewrite app_nil_r. split; [reflexivity|]. intros id. by rewrite app_nil_r. }
  cbn [length] in Hl. cbn [initialize_wallet]. change (mkUTXO k 0 (mkOutput coins id)) with (coin coins k id).
  destruct ids as [|id2 ids2] eqn:Eids.
  { cbn [foldl first_coins]. eexists _, _. split; [reflexivity|]. intros id'. unfold received. rewrite filter_cons, filter_nil. cbn.
    destruct (decide (id = id')) as [<-|Hne]; [by rewrite lookup_insert_eq|].
    by rewrite lookup_insert_ne, app_nil_r. }
  rewrite <- Eids in *. assert (Hn : u32 (k + 1) = k + 1).
  { apply u32_small. unfold is_u32. subst ids. cbn [length] in Hl. lia. }
  rewrite Hn. destruct (IH (<[id := default [] (m !! id) ++ [coin coins k id]]> m) (l ++ [coin coins k id]) (k + 1))
    as (m' & k' & E & Hm); [lia..|].
  exists m', k'. rewrite E, <- app_assoc. split; [done|]. intros id'. rewrite Hm. unfold received.
  rewrite (filter_cons _ (coin _ _ _)). cbn [coin output_ Output_receiverID].
  destruct (decide (id = id')) as [<-|Hne]; [by rewrite lookup_insert_eq; cbn; rewrite <- app_assoc|].
  by rewrite lookup_insert_ne.
Qed.

Lemma first_coins_lookup coins ids : forall k i id, ids !! i = Some id ->
  first_coins coins k ids !! i = Some (coin coins (k + Z.of_nat i) id).
Proof.
  induction ids as [|id0 ids IH]; intros k [|i] id; cbn; try done.
  - intros [= ->]. by rewrite Z.add_0_r.
  - intros Hi. rewrite (IH _ _ _ Hi). do 2 f_equal. lia.
Qed.

(** The first coins: wallet number k of the list gets one coin with the identifier k and output index 0,
    which is added to the wallet's own list; the server of the validator gets the same lists, and the
    list for the node holds the coins of all wallets. *)
Theorem InitializeCoins_spec (coins : Z) (v : Validator) (server : ChatServiceImpl) :
  Z.of_nat (length (wallets_ids_ v)) <= 2 ^ 32 ->
  let '(v', server', l) := InitializeCoins coins v server in
  (forall k id, wallets_ids_ v !! k = Some id ->
     l !! k = Some (mkUTXO (Z.of_nat k) 0 (mkOutput coins id))) /\
  length l = length (wallets_ids_ v) /\
  (forall id, utxos id v' = utxos id v ++ filter (fun u => Output_receiverID (output_ u) = id) l) /\
  utxolists_ server' = utxo_sets_ v' /\ memory_pool_ v' = memory_pool_ v.
Proof.
  intros Hl. unfold InitializeCoins.
  destruct (initialize_loop coins (wallets_ids_ v) (utxo_sets_ v) [] 0) as (m & k & E & Hm); [lia..|].
  rewrite E. cbn [app]. split_and!; [|clear| |done..].
  - intros i id Hi. rewrite (first_coins_lookup _ _ _ _ _ Hi). by rewrite Z.add_0_l.
  - generalize 0. induction (wallets_ids_ v) as [|id ids IH]; intros j; cbn; [done|]. by rewrite IH.
  - intros id. unfold utxos. cbn. apply Hm.
Qed.
End Validator.

(** * Witnesses *)

#[local] Existing Instance test_hash.

Definition example_tx : Transaction :=
  mkTransaction [mkInput 0 0] [mkOutput 100 8] [] 7 100 SigKey_empty.
Definition example_validator (pool : list Transaction) : Validator :=
  mkValidator 0 "127.0.0.1" 5000 [7; 8] ∅ {[ 7 := [coin 100 0 7] ]} pool [] (mkDatabase ∅ [] "db.json") mutex_new.
Definition example_agreed (txs : list Transaction) : Block :=
  mkBlock (Header_new "") txs [] [] 0 SigKey_empty 0 false false.

Lemma forged_tx_accepted_witness :
  exists sig v', Sign (getDigest example_tx) test_sk = Ok sig /\
    let t' := setSenderSig (setPublicKey example_tx test_pk) sig in
    OnRecvTx t' (example_validator []) = Ok (v', 1) /\ memory_pool_ v' = [t'] /\
    pk_sets_ v' !! 7 = Some test_pk.
Proof. apply (forged_tx_accepted example_tx test_pk test_sk (example_validator [])); [repeat split|reflexivity]. Defined.

Lemma created_block_verifies_witness :
  let v := example_validator [example_tx] in
  exists v' b, CreateBlk true (Block_empty 0) v = Ok (v', b, 1) /\ memory_pool_ v' = [] /\
    (forall w, utxos w v' = utxos w v) /\ mutable_ b = false /\
    merkle_root (txs_ b) = Ok (merkleRoot_ (header_ b)) /\
    Forall (fun t => t ∈ [example_tx] /\ checkSpendingConditions t (utxos (senderID_ t) v) [7; 8] = true) (txs_ b) /\
    (Forall (fun t => NoDup (inputs_ t)) [example_tx] ->
     forall l, Forall (fun t => checkSpendingConditions t l [7; 8] = true) (txs_ b) ->
       Z.of_nat (length (all_inputs (txs_ b))) < 2 ^ 31 -> Block_verify b l [7; 8] = true).
Proof. intros v. apply (created_block_verifies 0 v). discriminate. Defined.

Lemma agreed_block_erases_witness :
  let v := example_validator [] in
  exists v', OnAgreeBlk (example_agreed [example_tx]) v = Ok (v', 1) /\
    memory_pool_ v' = [] /\ pk_sets_ v' = ∅ /\
    forall w, utxos w v' = foldl spend (utxos w v) (spent_by w [example_tx]) /\
      utxos w v' `sublist_of` utxos w v.
Proof.
  intros v. apply (agreed_block_erases (example_agreed [example_tx]) v).
  constructor; [|constructor]. split; [cbn; lia|discriminate].
Defined.

Lemma second_input_undefined_witness :
  OnAgreeBlk (example_agreed [mkTransaction [mkInput 0 0; mkInput 0 0] [mkOutput 200 8] [] 7 100 SigKey_empty])
    (example_validator []) = Undef out_of_bounds.
Proof.
  apply (second_input_undefined (example_agreed [mkTransaction [mkInput 0 0; mkInput 0 0] [mkOutput 200 8] [] 7
    100 SigKey_empty]) (example_validator []) (mkTransaction [mkInput 0 0; mkInput 0 0] [mkOutput 200 8] [] 7
    100 SigKey_empty) [] (mkInput 0 0) (mkInput 0 0) []); [reflexivity|reflexivity|discriminate|reflexivity].
Defined.

Lemma InitializeCoins_spec_witness :
  let '(v', server', l) := InitializeCoins 50 (example_validator []) ChatServiceImpl_new in
  (forall k id, [7; 8] !! k = Some id -> l !! k = Some (mkUTXO (Z.of_nat k) 0 (mkOutput 50 id))) /\
  length l = 2%nat /\
  (forall id, utxos id v' = utxos id (example_validator []) ++ filter (fun u => Output_receiverID (output_ u) = id) l) /\
  utxolists_ server' = utxo_sets_ v' /\ memory_pool_ v' = [].
Proof. apply (InitializeCoins_spec 50 (example_validator []) ChatServiceImpl_new). cbn. lia. Defined.
