(* ===== verification/System.v ===== *)
(** A validator process: its server, its node, its event handler and the threads that listen for
    transactions, propose blocks and look for agreed blocks (src/include/cryptowallet/validator.h,
    src/lib/cryptowallet/validator.cc), as steps on one state. *)
From S2P Require Import Prelude Sha256 Json JsonRoundTrip Signature Transaction Block Message Database Comms Node Validator.
Local Open Scope Z_scope.

Section System.
Context `{Hash} {C : Type} `{!Client C}.
(** The parameters of the node; [memory] is the pointer that [runInLoop] leaves without a value. *)
Variables (dev : device) (order : gmap string Z -> list (string * Z)) (stale : string -> outcome string)
  (block_memory memory : Z).

(** * The state *)

(** The tasks that the threads register.  A [TxTask] holds a reference to the list [tx_list] of one
    iteration of [Listen]: its number. *)
Inductive task := TxTask (local : nat) | ProposeTask | DBTask.

(** Where the threads are. *)
Inductive listen_pc := Listening | Tx_published | Tx_subscribed | Tx_unlocked.
Inductive propose_pc := Proposing | Propose_published.
Inductive db_pc := Looking | Db_found | Db_published.

(** [locals]: the lists [tx_list] of the iterations of [Listen]; [None] once the iteration has ended. *)
Record World := mkWorld {
  validator : Validator;
  server : ChatServiceImpl;
  node : Node (C := C);
  handler : EventHandler task;
  locals : list (option (list Transaction));
  listen : listen_pc;
  proposing : propose_pc;
  storing : db_pc
}.

Definition set_validator (x : Validator) (w : World) : World :=
  mkWorld x (server w) (node w) (handler w) (locals w) (listen w) (proposing w) (storing w).
Definition set_server (x : ChatServiceImpl) (w : World) : World :=
  mkWorld (validator w) x (node w) (handler w) (locals w) (listen w) (proposing w) (storing w).
Definition set_node (x : Node) (w : World) : World :=
  mkWorld (validator w) (server w) x (handler w) (locals w) (listen w) (proposing w) (storing w).
Definition set_handler (x : EventHandler task) (w : World) : World :=
  mkWorld (validator w) (server w) (node w) x (locals w) (listen w) (proposing w) (storing w).
Definition set_locals (x : list (option (list Transaction))) (w : World) : World :=
  mkWorld (validator w) (server w) (node w) (handler w) x (listen w) (proposing w) (storing w).
Definition set_listen (x : listen_pc) (w : World) : World :=
  mkWorld (validator w) (server w) (node w) (handler w) (locals w) x (proposing w) (storing w).
Definition set_proposing (x : propose_pc) (w : World) : World :=
  mkWorld (validator w) (server w) (node w) (handler w) (locals w) (listen w) x (storing w).
Definition set_storing (x : db_pc) (w : World) : World :=
  mkWorld (validator w) (server w) (node w) (handler w) (locals w) (listen w) (proposing w) x.

(** [Run]: the threads start. *)
Definition Run (v : Validator) (s : ChatServiceImpl) (n : Node) : World :=
  mkWorld v s n EventHandler_new [] Listening Proposing Looking.

(** [InitializeCoins] as a whole, the node included, and then [Run]. *)
Definition start (coins : Z) (v : Validator) (s : ChatServiceImpl) (n : Node) : World :=
  let '(v, s, l) := InitializeCoins coins v s in Run v s (node_setUTXOlists l (wallets_ids_ v) n).

Definition is_leader (w : World) : bool := is_lead_ (config_ (node w)).

(** * The tasks *)

(** The task of [OnRequest]: [getTransactions] writes into the list the task refers to, unless the queue
    of the server is empty. *)
Definition run_TxTask (k : nat) (w : World) : outcome World :=
  if newRequests (server w) then
    match locals w !! k with
    | Some (Some tx_list) =>
        let '(s, tx_list, _) := getTransactions tx_list (server w) in
        v ← (OnTxReply tx_list (validator w)).1;
        Ok (set_locals (<[k := Some tx_list]> (locals w)) (set_validator v (set_server s w)))
    | _ => Undef dangling_read
    end
  else Ok w.

(** [Validator::Propose]. *)
Definition Validator_Propose (blk : Block) (w : World) : outcome (World * Z) :=
  if negb (is_leader w) then Throw assertion_failed
  else '(n, r) ← Propose dev blk (node w); Ok (set_node n w, r).

(** The task of [ProposeProcess]. *)
Definition run_ProposeTask (w : World) : outcome World :=
  '(v, blk, r) ← CreateBlk (is_leader w) (Block_empty block_memory) (validator w);
  let w := set_validator v w in
  if r =? 0 then Ok w else '(w, _) ← Validator_Propose blk w; Ok w.

(** The task of [DBProcess]. *)
Definition run_DBTask (w : World) : outcome World :=
  v ← foldM (fun v blk => '(v, _) ← OnAgreeBlk blk v; Ok v) (validator w) (blist_ (validator w));
  Ok (set_server (OnSyncReply v (server w)).1 (set_validator (set_blist [] v) w)).

Definition run_task (w : World) (t : task) : outcome World :=
  match t with
  | TxTask k => run_TxTask k w
  | ProposeTask => run_ProposeTask w
  | DBTask => run_DBTask w
  end.

(** * The steps *)

Definition lock_grpc (w : World) : World :=
  set_validator (set_mutex_of_grpc (lock (mutex_of_grpc (validator w))) (validator w)) w.
Definition unlock_grpc (w : World) : World :=
  set_validator (set_mutex_of_grpc (unlock (mutex_of_grpc (validator w))) (validator w)) w.

(** The steps of [Listen]: the wait ends with the mutex held and a new list, and the event is published; the
    task is registered; the mutex is released by hand; the list dies, and the lock releases the mutex
    again. *)
Definition Listen (w : World) : option World :=
  match listen w with
  | Listening =>
      if newRequests (server w) && negb (held (mutex_of_grpc (validator w))) then
        let w := lock_grpc w in
        let w := set_locals (locals w ++ [Some []]) w in
        Some (set_listen Tx_published (set_handler (PublishEvent Event_TX (handler w)) w))
      else None
  | Tx_published =>
      let t := mkSubscriber memory (TxTask (length (locals w) - 1)) in
      Some (set_listen Tx_subscribed (set_handler (SubscriberEvent Event_TX t (handler w)) w))
  | Tx_subscribed => Some (set_listen Tx_unlocked (unlock_grpc w))
  | Tx_unlocked =>
      let w := set_locals (<[(length (locals w) - 1)%nat := None]> (locals w)) w in
      Some (set_listen Listening (unlock_grpc w))
  end.

(** The steps of [ProposeProcess], a thread of the leader only. *)
Definition ProposeProcess (w : World) : option World :=
  if is_leader w then
    match proposing w with
    | Proposing => Some (set_proposing Propose_published (set_handler (PublishEvent Event_PROPOSE (handler w)) w))
    | Propose_published =>
        Some (set_proposing Proposing
          (set_handler (SubscriberEvent Event_PROPOSE (mkSubscriber memory ProposeTask) (handler w)) w))
    end
  else None.

(** The steps of [DBProcess]: the agreed blocks replace those that wait in [blist_]. *)
Definition DBProcess (w : World) : option World :=
  match storing w with
  | Looking =>
      if isConsensus (node w) then
        let '(n, blist) := getConsensusBlocks block_memory true (node w) in
        let w := set_validator (set_blist blist (validator w)) (set_node n w) in
        Some (set_storing (match blist with [] => Looking | _ => Db_found end) w)
      else None
  | Db_found => Some (set_storing Db_published (set_handler (PublishEvent Event_DBSTORE (handler w)) w))
  | Db_published =>
      Some (set_storing Looking
        (set_handler (SubscriberEvent Event_DBSTORE (mkSubscriber memory DBTask) (handler w)) w))
  end.

(** A turn of the event handler; the task of [DBProcess] waits for the mutex. *)
Definition Event_turn (w : World) : option (outcome World) :=
  match EventProcess (handler w) with
  | None => None
  | Some (h, tasks) =>
      if match publist (handler w) with Event_DBSTORE :: _ => held (mutex_of_grpc (validator w)) | _ => false end
      then None else Some (foldM run_task (set_handler h w) tasks)
  end.

(** The completion queue yields object [tag]: a call of its kind arrived, or its answer was sent. *)
Definition Rpc (m : message_memory) (tag : nat) (r : request) (w : World) : option (outcome World) :=
  match calls (server w) !! tag with
  | Some (Some (mkCallData k START_PROCESS)) =>
      if match k, request_kind r with
         | Talk_call, Talk_call | NewTx_call, NewTx_call | Sync_call, Sync_call => true | _, _ => false end
      then Some (s ← Proceed m tag r (server w); Ok (set_server s w)) else None
  | Some (Some (mkCallData _ FINISH)) => Some (s ← Proceed m tag r (server w); Ok (set_server s w))
  | _ => None
  end.

(** [ConsensusProcess]: an iteration of the loop of the node. *)
Definition ConsensusProcess (w : World) : option (outcome World) :=
  match RunProtocol_step dev order stale block_memory (server w) (node w) with
  | None => None
  | Some r => Some ('(s, n) ← r; Ok (set_node n (set_server s w)))
  end.

Inductive action := Listen_act | Propose_act | DB_act | Event_act | Consensus_act
  | Rpc_act (m : message_memory) (tag : nat) (r : request).

(** [None]: the thread waits. *)
Definition step (a : action) (w : World) : option (outcome World) :=
  match a with
  | Listen_act => Ok <$> Listen w
  | Propose_act => Ok <$> ProposeProcess w
  | DB_act => Ok <$> DBProcess w
  | Event_act => Event_turn w
  | Consensus_act => ConsensusProcess w
  | Rpc_act m tag r => Rpc m tag r w
  end.

Inductive reachable (w0 : World) : World -> Prop :=
| reach_start : reachable w0 w0
| reach_step a w w' : reachable w0 w -> step a w = Some (Ok w') -> reachable w0 w'.

(** * What never changes *)

(** The configuration of the node and the coins it checks blocks against. *)
Definition fixed (n : Node (C := C)) : config * UTXOlist * list Z := (config_ n, utxolist_ n, wallet_ids_ n).

Lemma view_fixed n n' : view n' = view n -> fixed n' = fixed n.
Proof. intros Hv. apply view_inv in Hv as (E1 & _ & _ & _ & _ & _ & E2 & E3 & _). unfold fixed. congruence. Qed.

Lemma broadcastMessage_fixed type b round n n' : broadcastMessage dev type b round n = Ok n' -> fixed n' = fixed n.
Proof.
  intros ([n1 b1] & Es & (p & _ & Ec)%bind_Ok)%bind_Ok.
  destruct (signBlock_inv _ _ _ _ _ Es) as (_ & _ & Hv & _). apply view_fixed in Hv. rewrite <- Hv.
  destruct p as [c r]. by injection Ec as <-.
Qed.

Lemma block_at_fixed h n : fixed (block_at block_memory h n).2 = fixed n.
Proof. unfold block_at. by destruct (_ !! _). Qed.

Lemma broadcast_ready_fixed h round n n' :
  broadcast_ready dev block_memory h round n = Ok n' -> fixed n' = fixed n.
Proof.
  unfold broadcast_ready. pose proof (block_at_fixed h n) as Hb. destruct (block_at _ h n) as [b n1].
  intros (n2 & E & [= <-])%bind_Ok. apply broadcastMessage_fixed in E. cbn in Hb. by rewrite <- Hb, <- E.
Qed.

Lemma deliver_fixed h n n' : deliver stale h n = Ok n' -> fixed n' = fixed n.
Proof. intros (k & _ & [= <-])%bind_Ok. done. Qed.

Lemma echo_step_fixed n e n' : echo_step dev block_memory n e = Ok n' -> fixed n' = fixed n.
Proof. destruct e as [h k]. unfold echo_step. destruct (_ && _); [apply broadcast_ready_fixed|by intros [= <-]]. Qed.

Lemma amplify_fixed n e n' : amplify dev block_memory n e = Ok n' -> fixed n' = fixed n.
Proof. destruct e as [h k]. unfold amplify. destruct (_ && _); [apply broadcast_ready_fixed|by intros [= <-]]. Qed.

Lemma ready_loop_fixed l : forall n n', ready_loop dev stale block_memory l n = Ok n' -> fixed n' = fixed n.
Proof.
  induction l as [|e l IH]; intros n n'; cbn [ready_loop]; [by intros [= <-]|].
  intros (n1 & E & Hl)%bind_Ok. apply amplify_fixed in E. rewrite <- E.
  destruct (_ <? _); [by eapply deliver_fixed|by apply IH].
Qed.

Lemma broadcastRound_fixed n n' : broadcastRound dev order stale block_memory n = Ok n' -> fixed n' = fixed n.
Proof.
  unfold broadcastRound. set (n0 := set_should_broadcast true n). change (fixed n) with (fixed n0).
  intros (n1 & E & (n2 & E2 & Hl)%bind_Ok)%bind_Ok.
  assert (Hn1 : fixed n1 = fixed n0).
  { destruct (negb _); [|by injection E as <-]. pose proof (block_at_fixed (send_this_round_ n0) n0) as Hb.
    destruct (block_at _ _ n0) as [b n3]. apply bind_Ok in E as (n4 & E & [= <-]).
    apply broadcastMessage_fixed in E. cbn in Hb. by rewrite <- Hb, <- E. }
  rewrite (ready_loop_fixed _ _ _ Hl), <- Hn1.
  revert E2. apply (foldM_inv (fun n => fixed n = fixed n1)); [|done].
  intros m e m' <- Hm. by eapply echo_step_fixed.
Qed.

Lemma recv_fixed n m n' : recv_message n m = Ok n' -> fixed n' = fixed n.
Proof.
  unfold recv_message. intros ([n1 v] & Ec & Hr)%bind_Ok. apply checkBlockSig_inv in Ec as [keys ->].
  destruct v; cbn [negb] in Hr; [|by injection Hr as <-].
  destruct (_ && _); injection Hr as <-; [done|]. unfold count_message.
  destruct (bool_decide _); destruct (_ !! _); by destruct (type_ m).
Qed.

Lemma RunTaskInWait_fixed s n s' n' : RunTaskInWait s n = Some (Ok (s', n')) ->
  fixed n' = fixed n /\ utxolists_ s' = utxolists_ s.
Proof.
  unfold RunTaskInWait. destruct (_ || _); [|done]. rewrite getMessages_spec. intros [= Hr].
  apply bind_Ok in Hr as (n1 & E & [= <- <-]). split; [|done].
  set (n0 := set_mutex_grpc _ (set_mutex_grpc _ n)) in E. change (fixed n1 = fixed n0).
  revert E. unfold updateRecvMessages. apply (foldM_inv (fun n => fixed n = fixed n0)); [|done].
  intros m e m' <- Hm. by eapply recv_fixed.
Qed.

Lemma RunProtocol_step_fixed s n s' n' :
  RunProtocol_step dev order stale block_memory s n = Some (Ok (s', n')) ->
  fixed n' = fixed n /\ utxolists_ s' = utxolists_ s.
Proof.
  unfold RunProtocol_step. destruct (should_broadcast_ n); [|done].
  destruct (RunTaskInWait s n) as [r|] eqn:E; [|done]. intros [= Hr].
  apply bind_Ok in Hr as ([s1 n1] & -> & (n2 & E2 & [= <- <-])%bind_Ok).
  destruct (RunTaskInWait_fixed _ _ _ _ E) as [Hn Hs]. split; [|done].
  by rewrite (broadcastRound_fixed _ _ E2).
Qed.

Lemma Propose_fixed b n n' r : Propose dev b n = Ok (n', r) -> fixed n' = fixed n.
Proof. intros (n1 & E & [= <- <-])%bind_Ok. by eapply broadcastMessage_fixed. Qed.

Lemma getConsensusBlocks_fixed n : fixed (getConsensusBlocks block_memory true n).1 = fixed n.
Proof.
  unfold getConsensusBlocks. destruct (consensus_blocks_inv block_memory (accepted_blocks_ n) n []) as [m Hm].
  destruct (foldl _ _ _) as [n1 bs]. cbn in Hm. by subst n1.
Qed.

(** * The coins *)

Lemma OnTxReply_utxos l v v' : (OnTxReply l v).1 = Ok v' -> forall id, utxos id v' = utxos id v.
Proof.
  apply (foldM_inv (fun v' => forall id, utxos id v' = utxos id v)); [|done].
  intros v1 tx v2 Hu ([v3 r] & E & [= <-])%bind_Ok. destruct (OnRecvTx_cases tx v1) as (v4 & r' & E' & _ & _ & _ & Hu').
  rewrite E in E'. injection E' as -> ->. intros id. by rewrite Hu'.
Qed.

Lemma CreateBlk_utxos lead bx v v' bx' r : CreateBlk lead bx v = Ok (v', bx', r) ->
  forall id, utxos id v' = utxos id v.
Proof.
  unfold CreateBlk. destruct lead; cbn [negb]; [|done]. destruct (memory_pool_ v); [by intros [= <- _ _]|].
  intros ([v1 bx1] & E & (bx2 & _ & [= <- _ _])%bind_Ok)%bind_Ok. change v1 with (v1, bx1).1.
  revert E. apply (foldM_inv (fun a => forall id, utxos id a.1 = utxos id v)); [|done].
  intros [v2 b2] tx [v3 b3] Hu. unfold create_step.
  assert (Ht : forall id, utxos id (touch (senderID_ tx) v2) = utxos id v)
    by (intros id; rewrite utxos_touch; apply Hu).
  destruct (negb _); [by intros [= <- <-]|]. destruct (negb _); [by intros [= <- <-]|].
  by intros (b4 & _ & [= <- <-])%bind_Ok.
Qed.

Lemma UTXOlist_erase_sublist l k l' : UTXOlist_erase l k = Ok l' -> l' `sublist_of` l.
Proof. unfold UTXOlist_erase. destruct (_ && _); [|done]. intros [= <-]. apply sublist_delete. Qed.

Lemma OnAgreeBlk_sublist bx v v' r : OnAgreeBlk bx v = Ok (v', r) ->
  forall id, utxos id v' `sublist_of` utxos id v.
Proof.
  intros (v1 & E & [= <- _])%bind_Ok. revert E.
  apply (foldM_inv (fun v' => forall id, utxos id v' `sublist_of` utxos id v)); [|done].
  intros v2 tx v3 Hs. unfold agree_tx.
  apply (foldM_inv (fun v' => forall id, utxos id v' `sublist_of` utxos id v)).
  - clear v3. intros v3 [i cur_in] v4 Hs3. unfold agree_input. destruct (_ =? _); [by intros [= <-]|].
    intros (l & El & (o & _ & [= <-])%bind_Ok)%bind_Ok id. rewrite utxos_insert.
    destruct (decide _) as [->|]; [|done]. etransitivity; [by eapply UTXOlist_erase_sublist|done].
  - intros id. rewrite utxos_touch. apply Hs.
Qed.

Lemma Proceed_utxolists m tag r s s' : Proceed m tag r s = Ok s' -> utxolists_ s' = utxolists_ s.
Proof.
  unfold Proceed. destruct (calls s !! tag) as [[[k []]|]|]; cbn; [by intros [= <-]| |by intros [= <-]|done..].
  intros ([s1 rep] & E & [= <-])%bind_Ok. cbn. destruct r; cbn in E.
  - apply bind_Ok in E as (x & _ & [= <- _]). done.
  - apply bind_Ok in E as (x & _ & [= <- _]). done.
  - injection E as <- _. done.
Qed.

(** The coins of a wallet are among those that the server shows, and these are among those of [v0]. *)
Definition coins_below (v0 : Validator) (w : World) : Prop := forall id,
  utxos id (validator w) `sublist_of` default [] (utxolists_ (server w) !! id) /\
  default [] (utxolists_ (server w) !! id) `sublist_of` utxos id v0.

Lemma coins_below_same v0 w w' : utxolists_ (server w') = utxolists_ (server w) ->
  (forall id, utxos id (validator w') = utxos id (validator w)) -> coins_below v0 w -> coins_below v0 w'.
Proof. intros Es Eu Hb id. rewrite Es, Eu. apply Hb. Qed.

(** What the tasks and the steps keep. *)
Definition kept (v0 : Validator) (f0 : config * UTXOlist * list Z) (w : World) : Prop :=
  coins_below v0 w /\ fixed (node w) = f0.

Lemma run_task_kept v0 f0 t w w' : kept v0 f0 w -> run_task w t = Ok w' -> kept v0 f0 w'.
Proof.
  intros [Hb Hf]. destruct t as [k| |]; cbn [run_task].
  - unfold run_TxTask. destruct (newRequests _); [|by intros [= <-]].
    destruct (locals w !! k) as [[l|]|]; [|done..]. rewrite getTransactions_spec.
    intros (v & E & [= <-])%bind_Ok. split; [|done]. eapply coins_below_same, Hb; [done|].
    by eapply OnTxReply_utxos.
  - intros ([[v b] r] & E & Hr)%bind_Ok. pose proof (CreateBlk_utxos _ _ _ _ _ _ E) as Hu.
    assert (Hb' : coins_below v0 (set_validator v w)) by (eapply coins_below_same, Hb; [done|exact Hu]).
    destruct (r =? 0); [by injection Hr as <-|]. apply bind_Ok in Hr as ([w1 r1] & E1 & [= <-]).
    unfold Validator_Propose in E1. destruct (negb _); [done|].
    apply bind_Ok in E1 as ([n r2] & E2 & [= <- _]). split; [exact Hb'|].
    cbn. by rewrite (Propose_fixed _ _ _ _ E2).
  - intros (v & E & [= <-])%bind_Ok. split; [|done].
    assert (Hs : forall id, utxos id v `sublist_of` utxos id (validator w)).
    { revert E. apply (foldM_inv (fun v => forall id, utxos id v `sublist_of` utxos id (validator w))); [|done].
      intros v1 b v2 Hs ([v3 r] & E & [= <-])%bind_Ok id.
      etransitivity; [by eapply OnAgreeBlk_sublist|done]. }
    intros id. cbn. change (default [] (utxo_sets_ v !! id)) with (utxos id v). split; [done|].
    destruct (Hb id) as [H1 H2]. etransitivity; [apply Hs|]. by etransitivity.
Qed.

Lemma Event_inv w w' : Event_turn w = Some (Ok w') ->
  exists h ts, EventProcess (handler w) = Some (h, ts) /\ foldM run_task (set_handler h w) ts = Ok w'.
Proof.
  unfold Event_turn. destruct (EventProcess (handler w)) as [[h ts]|]; [|done].
  destruct (match publist (handler w) with [] => _ | _ => _ end); [done|]. intros [= Hr]. by exists h, ts.
Qed.

Lemma Rpc_inv m tag r w w' : Rpc m tag r w = Some (Ok w') ->
  exists s, w' = set_server s w /\ utxolists_ s = utxolists_ (server w).
Proof.
  unfold Rpc. destruct (calls (server w) !! tag) as [[[k []]|]|]; try done.
  - destruct (match k, request_kind r with Talk_call, Talk_call => _ | _, _ => _ end); [|done]. intros [= Hr].
    apply bind_Ok in Hr as (s & E & [= <-]). exists s. split; [done|by eapply Proceed_utxolists].
  - intros [= Hr]. apply bind_Ok in Hr as (s & E & [= <-]). exists s. split; [done|by eapply Proceed_utxolists].
Qed.

Lemma step_kept v0 f0 a w w' : kept v0 f0 w -> step a w = Some (Ok w') -> kept v0 f0 w'.
Proof.
  intros Hk. destruct a as [| | | | |m tag r]; cbn [step].
  - unfold Listen. destruct (listen w); [destruct (_ && _); [|done]|..]; by intros [= <-].
  - unfold ProposeProcess. destruct (is_leader w); [|done]. destruct (proposing w); by intros [= <-].
  - unfold DBProcess. destruct (storing w); [|by intros [= <-]..]. destruct (isConsensus _); [|done].
    pose proof (getConsensusBlocks_fixed (node w)) as Hf. destruct (getConsensusBlocks _ _ _) as [n bs].
    intros [= <-]. destruct Hk as [Hb <-]. split; [exact Hb|]. cbn in Hf. by destruct bs.
  - intros (h & ts & _ & Hr)%Event_inv. revert Hr.
    apply (foldM_inv (kept v0 f0)); [|done]. intros w1 t w2. apply run_task_kept.
  - unfold ConsensusProcess. destruct (RunProtocol_step _ _ _ _ _ _) as [o|] eqn:E; [|done]. intros [= Hr].
    apply bind_Ok in Hr as ([s n] & -> & [= <-]). destruct (RunProtocol_step_fixed _ _ _ _ E) as [Hn Hs].
    destruct Hk as [Hb <-]. split; [|done]. eapply coins_below_same, Hb; [exact Hs|done].
  - intros (s & -> & Hs)%Rpc_inv. destruct Hk as [Hb Hf]. split; [|done].
    eapply coins_below_same, Hb; [exact Hs|done].
Qed.

Lemma reachable_kept v0 f0 w0 w : kept v0 f0 w0 -> reachable w0 w -> kept v0 f0 w.
Proof. intros H0. induction 1; [done|]. by eapply step_kept. Qed.

Lemma start_kept coins v s n :
  kept (validator (start coins v s n)) (fixed (node (start coins v s n))) (start coins v s n).
Proof.
  unfold start, Run, InitializeCoins. destruct (foldl _ _ _) as [[m l] k]. cbn.
  split; [|done]. intros id. cbn. done.
Qed.

(** C8: no step of a validator process makes a coin: at every moment the coins a validator keeps for a wallet
    are among those its server shows to the wallet, and these are among the first coins; and the node
    checks every block against the first coins, however many of them were spent since. *)
Theorem coins_never_appear (coins : Z) (v : Validator) (s : ChatServiceImpl) (n : Node) (w : World) :
  let w0 := start coins v s n in
  reachable w0 w ->
  (forall id, utxos id (validator w) `sublist_of` default [] (utxolists_ (server w) !! id) /\
     default [] (utxolists_ (server w) !! id) `sublist_of` utxos id (validator w0)) /\
  utxolist_ (node w) = utxolist_ (node w0) /\ wallet_ids_ (node w) = wallet_ids_ (node w0) /\
  config_ (node w) = config_ n.
Proof.
  intros w0 Hr. destruct (reachable_kept _ _ _ _ (start_kept coins v s n) Hr) as [Hb Hf].
  injection Hf as Ec Eu Ew. split_and!; [exact Hb|done..|]. rewrite Ec. unfold w0, start.
  by destruct (InitializeCoins coins v s) as [[? ?] ?].
Qed.

Lemma in_first_coins coins u ids : forall k, u ∈ first_coins coins k ids ->
  exists i id, ids !! i = Some id /\ u = coin coins (k + Z.of_nat i) id.
Proof.
  induction ids as [|id ids IH]; intros k; cbn; [by intros ?%elem_of_nil|].
  intros [->|Hu]%elem_of_cons; [exists 0%nat, id; by rewrite Z.add_0_r|].
  destruct (IH _ Hu) as (i & id' & Hi & ->). exists (S i), id'. split; [done|]. f_equal. lia.
Qed.

(** C22: the outputs of transactions can never be spent: every input of a block that a node finds valid, at any
    moment, is one of the first coins: its transaction is the number of a wallet in the list, its index 0. *)
Theorem only_first_coins_spendable (coins : Z) (v : Validator) (s : ChatServiceImpl) (n : Node) (w : World)
    (b : Block) (i : Input) :
  Z.of_nat (length (wallets_ids_ v)) <= 2 ^ 32 -> reachable (start coins v s n) w ->
  Z.of_nat (length (all_inputs (txs_ b))) < 2 ^ 31 ->
  Block_verify b (utxolist_ (node w)) (wallet_ids_ (node w)) = true ->
  i ∈ all_inputs (txs_ b) ->
  0 <= Input_txID i < Z.of_nat (length (wallets_ids_ v)) /\ Input_outputIndex i = 0.
Proof.
  intros Hl Hr Hn Hv Hi. destruct (reachable_kept _ _ _ _ (start_kept coins v s n) Hr) as [_ Hf].
  injection Hf as _ Eu _. apply Block_verify_iff in Hv as [Hv _]; [|done].
  assert (El : utxolist_ (node w) = first_coins coins 0 (wallets_ids_ v)).
  { rewrite Eu. unfold start, Run, InitializeCoins.
    destruct (initialize_loop coins (wallets_ids_ v) (utxo_sets_ v) [] 0) as (m & k & -> & _); [lia..|]. done. }
  rewrite El in Hv. apply list_elem_of_In, in_concat in Hi as (ins & Hins & Hi).
  apply in_map_iff in Hins as (t & <- & Ht). apply list_elem_of_In in Ht.
  pose proof (proj1 (Forall_forall _ _) Hv t Ht) as Hc. cbn in Hc.
  apply checkSpendingConditions_iff in Hc as (us & Hus & _); [|intros E; by rewrite E in Hi].
  apply list_elem_of_In, list_elem_of_lookup in Hi as (j & Hj).
  destruct (Forall2_lookup_l _ _ _ _ _ Hus Hj) as (u & _ & Hfu).
  apply List.find_some in Hfu as [Hu Href]. apply list_elem_of_In, in_first_coins in Hu as (k & id & Hk & ->).
  unfold refers in Href. apply andb_prop in Href as [H1%Z.eqb_eq H2%Z.eqb_eq]. cbn in H1, H2.
  apply lookup_lt_Some in Hk. split; [lia|by rewrite <- H2].
Qed.

(** * The loop of the node ends *)

Lemma Event_tasks_broadcast t w w' : run_task w t = Ok w' ->
  should_broadcast_ (node w') = should_broadcast_ (node w).
Proof.
  destruct t as [k| |]; cbn [run_task].
  - unfold run_TxTask. destruct (newRequests _); [|by intros [= <-]].
    destruct (locals w !! k) as [[l|]|]; [|done..]. rewrite getTransactions_spec.
    by intros (v & E & [= <-])%bind_Ok.
  - intros ([[v b] r] & E & Hr)%bind_Ok.
    destruct (r =? 0); [by injection Hr as <-|]. apply bind_Ok in Hr as ([w1 r1] & E1 & [= <-]).
    unfold Validator_Propose in E1. destruct (negb _); [done|].
    apply bind_Ok in E1 as ([n r2] & E2 & [= <- _]). unfold Propose in E2.
    apply bind_Ok in E2 as (n1 & E2 & [= -> _]). cbn.
    destruct (bind_Ok _ _ _ E2) as ([n2 b2] & Es & (p & _ & Ep)%bind_Ok).
    destruct (signBlock_inv _ _ _ _ _ Es) as (_ & _ & Hv & _). destruct p as [c r3]. injection Ep as <-. cbn.
    injection Hv. congruence.
  - by intros (v & E & [= <-])%bind_Ok.
Qed.

(** C23: there is at most one agreement: once a node has delivered a block its loop has ended, and no step of any
    thread starts it again. *)
Theorem first_agreement_is_last (w w' : World) :
  isConsensus (node w) = true -> reachable w w' ->
  isConsensus (node w') = true /\ step Consensus_act w' = None.
Proof.
  unfold isConsensus. rewrite negb_true_iff. intros H0 Hr.
  enough (Hs : should_broadcast_ (node w') = false).
  { split; [by rewrite Hs|]. cbn. unfold ConsensusProcess, RunProtocol_step. by rewrite Hs. }
  induction Hr as [|a w1 w2 Hr IH Hstep]; [done|]. destruct a as [| | | | |m tag r]; cbn [step] in Hstep.
  - unfold Listen in Hstep. destruct (listen w1); [destruct (_ && _); [|done]|..]; by injection Hstep as <-.
  - unfold ProposeProcess in Hstep. destruct (is_leader w1); [|done].
    destruct (proposing w1); by injection Hstep as <-.
  - unfold DBProcess in Hstep. destruct (storing w1); [|by injection Hstep as <-..].
    destruct (isConsensus _); [|done]. unfold getConsensusBlocks in Hstep.
    destruct (foldl _ _ _) as [n bs]. injection Hstep as <-. by destruct bs.
  - apply Event_inv in Hstep as (h & ts & _ & Hrun).
    revert Hrun. apply (foldM_inv (fun w => should_broadcast_ (node w) = false)); [|done].
    intros x t y Hx E. by rewrite (Event_tasks_broadcast _ _ _ E).
  - unfold ConsensusProcess, RunProtocol_step in Hstep. by rewrite IH in Hstep.
  - by apply Rpc_inv in Hstep as (s & -> & _).
Qed.

(** * The requests of the wallets *)

(** The lists of ended iterations are dead, the list of the current one is alive; and every iteration
    has left its task with the handler. *)
Definition lists_ok (pc : listen_pc) (ls : list (option (list Transaction))) : Prop :=
  match pc with
  | Listening => Forall (fun x => x = None) ls
  | _ => exists ended l, ls = ended ++ [Some l] /\ Forall (fun x => x = None) ended
  end.
Definition registered (pc : listen_pc) (iterations : nat) : nat :=
  match pc with Tx_published => iterations - 1 | _ => iterations end.
Definition tasks_ok (w : World) : Prop :=
  lists_ok (listen w) (locals w) /\
  subsMap_ (handler w) Event_TX =
    map (fun k => mkSubscriber memory (TxTask k)) (seq 0 (registered (listen w) (length (locals w)))).

(** Tasks leave the handler and the threads alone, and write only to lists that are alive. *)
Lemma run_task_frame t w w' : run_task w t = Ok w' ->
  handler w' = handler w /\ listen w' = listen w /\
  (locals w' = locals w \/ exists k l l', locals w !! k = Some (Some l) /\ locals w' = <[k := Some l']> (locals w)).
Proof.
  destruct t as [k| |]; cbn [run_task].
  - unfold run_TxTask. destruct (newRequests _); [|by intros [= <-]; split_and!; [..|left]].
    destruct (locals w !! k) as [[l|]|] eqn:El; [|done..]. rewrite getTransactions_spec.
    intros (v & E & [= <-])%bind_Ok. split_and!; [done..|right]. by exists k, l, (l ++ txq_ (server w)).
  - intros ([[v b] r] & E & Hr)%bind_Ok.
    destruct (r =? 0); [injection Hr as <-; by split_and!; [..|left]|].
    apply bind_Ok in Hr as ([w1 r1] & E1 & [= <-]). unfold Validator_Propose in E1.
    destruct (negb _); [done|]. apply bind_Ok in E1 as ([n r2] & E2 & [= <- _]). by split_and!; [..|left].
  - intros (v & E & [= <-])%bind_Ok. by split_and!; [..|left].
Qed.

Lemma lists_ok_insert pc ls k l l' : ls !! k = Some (Some l) -> lists_ok pc ls ->
  lists_ok pc (<[k := Some l']> ls).
Proof.
  unfold lists_ok. intros Hk. destruct pc.
  { intros Hn. by pose proof (Forall_lookup_1 _ _ _ _ Hn Hk). }
  all: intros (ended & l0 & -> & Hn); exists ended.
  all: assert (k = length ended) as -> by
    (apply lookup_app_Some in Hk as [Hk|[Hk1 Hk2]];
      [by pose proof (Forall_lookup_1 _ _ _ _ Hn Hk)|apply lookup_lt_Some in Hk2; cbn in Hk2; lia]).
  all: exists l'; split; [|done]; rewrite insert_app_r_alt, Nat.sub_diag by lia; done.
Qed.

Lemma run_task_ok t w w' : tasks_ok w -> run_task w t = Ok w' -> tasks_ok w'.
Proof.
  intros [Hok Hs] E. unfold tasks_ok. destruct (run_task_frame _ _ _ E) as (-> & -> & [->|(k & l & l' & Hk & ->)]).
  - done.
  - rewrite length_insert. split; [by eapply lists_ok_insert|done].
Qed.

Lemma map_seq_snoc {B} (f : nat -> B) n : map f (seq 0 n) ++ [f n] = map f (seq 0 (n + 1)).
Proof. by rewrite Nat.add_1_r, seq_S, map_app. Qed.

Lemma Listen_ok w w' : tasks_ok w -> Listen w = Some w' -> tasks_ok w'.
Proof.
  intros [Hok Hs]. unfold Listen. destruct (listen w) eqn:El.
  - destruct (_ && _); [|done]. intros [= <-]. split; cbn; [by exists (locals w), []|].
    rewrite Hs, length_app. cbn. by rewrite Nat.add_sub.
  - intros [= <-]. split; [exact Hok|]. cbn. rewrite Hs. cbn [registered].
    destruct Hok as (ended & l & -> & _). rewrite length_app. cbn [length].
    rewrite decide_True by done. rewrite (map_seq_snoc (fun k => mkSubscriber memory (TxTask k))).
    by rewrite Nat.sub_add by lia.
  - by intros [= <-].
  - intros [= <-]. split; cbn.
    + destruct Hok as (ended & l & -> & Hn). rewrite length_app. cbn [length].
      rewrite Nat.add_sub, insert_app_r_alt, Nat.sub_diag by lia. apply Forall_app. by repeat constructor.
    + by rewrite length_insert.
Qed.

Lemma step_ok a w w' : tasks_ok w -> step a w = Some (Ok w') -> tasks_ok w'.
Proof.
  intros Hk. destruct a as [| | | | |m tag r]; cbn [step].
  - destruct (Listen w) eqn:E; [|done]. intros [= <-]. by eapply Listen_ok.
  - unfold ProposeProcess. destruct (is_leader w); [|done]. destruct (proposing w); by intros [= <-].
  - unfold DBProcess. destruct (storing w); [|by intros [= <-]..]. destruct (isConsensus _); [|done].
    destruct (getConsensusBlocks _ _ _) as [n bs]. intros [= <-]. by destruct bs.
  - intros (h & ts & Eh & Hr)%Event_inv. revert Hr.
    apply (foldM_inv tasks_ok); [intros x t y; apply run_task_ok|]. unfold EventProcess in Eh.
    destruct (publist (handler w)); [done|]. by injection Eh as <- _.
  - unfold ConsensusProcess. destruct (RunProtocol_step _ _ _ _ _ _) as [o|]; [|done]. intros [= Hr].
    by apply bind_Ok in Hr as ([s n] & _ & [= <-]).
  - by intros (s & -> & _)%Rpc_inv.
Qed.

Lemma reachable_ok w0 w : tasks_ok w0 -> reachable w0 w -> tasks_ok w.
Proof. intros H0. induction 1; [done|]. by eapply step_ok. Qed.

(** C7: once an iteration of [Listen] has ended, the next event for transactions is fatal: whenever the handler
    takes such an event and the server has a transaction, the first task it runs is that of the first
    iteration, which writes into a list that no longer exists. *)
Theorem second_request_undefined (coins : Z) (v : Validator) (s : ChatServiceImpl) (n : Node) (w : World)
    (events : list Event) :
  reachable (start coins v s n) w -> None ∈ locals w -> publist (handler w) = Event_TX :: events ->
  newRequests (server w) = true ->
  step Event_act w = Some (Undef dangling_read).
Proof.
  intros Hr Hd Hp Hq. assert (Hok : tasks_ok w).
  { eapply reachable_ok, Hr. unfold start. destruct (InitializeCoins _ _ _) as [[? ?] ?]. split; [constructor|done]. }
  destruct Hok as [Hl Hs]. apply list_elem_of_lookup in Hd as [j Hj].
  assert (H0 : locals w !! 0%nat = Some None /\ (0 < registered (listen w) (length (locals w)))%nat).
  { pose proof (lookup_lt_Some _ _ _ Hj) as Hlt. destruct (listen w); cbn [lists_ok registered] in *.
    { destruct (locals w) as [|x ls]; [done|]. apply Forall_cons in Hl as [-> _]. cbn. split; [done|lia]. }
    all: destruct Hl as (ended & l & El & Hn); rewrite El in *.
    all: destruct ended as [|x ended]; [by destruct j as [|j]|].
    all: apply Forall_cons in Hn as [-> _]; split; [done|]; rewrite length_app; cbn; lia. }
  destruct H0 as [H0 Hpos]. cbn [step]. unfold Event_turn, EventProcess. rewrite Hp, Hs.
  destruct (registered _ _) as [|m]; [lia|]. cbn [seq map func foldM run_task]. unfold run_TxTask.
  cbn [server set_handler locals]. by rewrite Hq, H0.
Qed.

(** ** The first request *)

(** A schedule. *)
Fixpoint steps (l : list action) (w : World) : option (outcome World) :=
  match l with
  | [] => Some (Ok w)
  | a :: l' => match step a w with Some (Ok w') => steps l' w' | r => r end
  end.

Lemma steps_reachable l : forall w w', steps l w = Some (Ok w') -> reachable w w'.
Proof.
  induction l as [|a l IH]; intros w w'; cbn [steps]; [intros [= <-]; constructor|].
  destruct (step a w) as [[w1| | |]|] eqn:E; try done. intros Hr%IH. clear IH.
  induction Hr as [|b x y _ IH Hs]; [by apply (reach_step _ a w); [constructor|]|by eapply reach_step].
Qed.

#[export] Instance accepts_dec v tx : Decision (accepts v tx).
Proof. unfold accepts. apply _. Defined.

Lemma accepts_ext v v' tx : (forall id, utxos id v' = utxos id v) -> wallets_ids_ v' = wallets_ids_ v ->
  accepts v' tx <-> accepts v tx.
Proof. intros Hu Hw. unfold accepts. by rewrite Hu, Hw. Qed.

Lemma OnTxReply_pool l : forall v, exists v', (OnTxReply l v).1 = Ok v' /\
  memory_pool_ v' = memory_pool_ v ++ filter (accepts v) l.
Proof.
  induction l as [|tx l IH]; intros v; cbn [OnTxReply fst foldM]; [exists v; by rewrite app_nil_r|].
  destruct (OnRecvTx_cases tx v) as (v1 & r & E & Hc & _ & Hw & Hu). rewrite E. cbn [mbind outcome_bind].
  destruct (IH v1) as (v' & E' & Hp). exists v'. split; [exact E'|]. rewrite Hp, filter_cons.
  rewrite (list_filter_iff (accepts v1) (accepts v)) by (intros; by apply accepts_ext).
  destruct Hc as [(_ & Ha & ->)|(_ & Ha & ->)].
  - by rewrite decide_True, <- app_assoc by done.
  - by rewrite decide_False by done.
Qed.

Lemma run_TxTask_pool k l w : newRequests (server w) = true -> locals w !! k = Some (Some l) ->
  exists w', run_TxTask k w = Ok w' /\ txq_ (server w') = [] /\
    memory_pool_ (validator w') =
      memory_pool_ (validator w) ++ filter (accepts (validator w)) (l ++ txq_ (server w)).
Proof.
  intros Hq Hk. unfold run_TxTask. rewrite Hq, Hk, getTransactions_spec.
  destruct (OnTxReply_pool (l ++ txq_ (server w)) (validator w)) as (v' & -> & Hp).
  eexists. split; [reflexivity|]. by split.
Qed.

(** The first event for transactions is handled when the handler takes it before the iteration of [Listen]
    ends: the queue of the server is emptied, and of its transactions, in order, exactly those that the
    validator accepts enter the pool. *)
Theorem first_request_handled (w : World) :
  handler w = EventHandler_new -> locals w = [] -> listen w = Listening ->
  held (mutex_of_grpc (validator w)) = false -> newRequests (server w) = true ->
  exists w', steps [Listen_act; Listen_act; Event_act] w = Some (Ok w') /\ txq_ (server w') = [] /\
    memory_pool_ (validator w') =
      memory_pool_ (validator w) ++ filter (accepts (validator w)) (txq_ (server w)).
Proof.
  intros Hh Hl Hp Hm Hq.
  set (w1 := set_listen Tx_published (set_handler (PublishEvent Event_TX (handler w))
    (set_locals (locals w ++ [Some []]) (lock_grpc w)))).
  set (w2 := set_listen Tx_subscribed
    (set_handler (SubscriberEvent Event_TX (mkSubscriber memory (TxTask 0)) (handler w1)) w1)).
  assert (E1 : Listen w = Some w1) by (unfold Listen; by rewrite Hp, Hq, Hm).
  assert (E2 : Listen w1 = Some w2) by (unfold Listen; cbn; by rewrite Hl).
  destruct (run_TxTask_pool 0 [] (set_handler (mkHandler [] (subsMap_ (handler w2))) w2)) as (w' & E & Ht & Hpool);
    [exact Hq|cbn; by rewrite Hl|].
  exists w'. split; [|split; [exact Ht|]].
  - cbn [steps step]. rewrite E1. cbn [fmap option_fmap option_map]. rewrite E2. cbn [fmap option_fmap option_map].
    assert (Et : Event_turn w2 = Some (foldM run_task (set_handler (mkHandler [] (subsMap_ (handler w2))) w2)
      [TxTask 0])).
    { unfold Event_turn, EventProcess. cbn. rewrite Hh. cbn. by rewrite decide_True by done. }
    rewrite Et. cbn [foldM run_task]. by rewrite E.
  - rewrite Hpool. cbn. by f_equal.
Qed.
End System.

(** * Witnesses *)

#[local] Existing Instance test_hash.

Definition example_server : ChatServiceImpl := mkServer [] [example_tx] ∅ [] [].
Definition example_world : World := start 100 (example_validator []) example_server (example_node 0 4 1).

Lemma coins_never_appear_witness : exists w,
  step example_device table_order Ok 0 0 Listen_act example_world = Some (Ok w) /\
  (forall id, utxos id (validator w) `sublist_of` default [] (utxolists_ (server w) !! id) /\
     default [] (utxolists_ (server w) !! id) `sublist_of` utxos id (validator example_world)) /\
  utxolist_ (node w) = utxolist_ (node example_world) /\ wallet_ids_ (node w) = [7; 8] /\
  config_ (node w) = config_ (example_node 0 4 1).
Proof.
  eexists. split; [reflexivity|].
  apply (coins_never_appear example_device table_order Ok 0 0 100 (example_validator []) example_server
    (example_node 0 4 1)). eapply (reach_step _ _ _ _ _ _ Listen_act); [apply reach_start|reflexivity].
Defined.

Lemma only_first_coins_spendable_witness :
  0 <= Input_txID (mkInput 0 0) < 2 /\ Input_outputIndex (mkInput 0 0) = 0.
Proof.
  apply (only_first_coins_spendable example_device table_order Ok 0 0 100 (example_validator []) example_server
    (example_node 0 4 1) example_world (example_agreed [example_tx])).
  - cbn. lia.
  - apply reach_start.
  - reflexivity.
  - reflexivity.
  - left.
Defined.

Lemma first_agreement_is_last_witness :
  let w := set_node (set_should_broadcast false (example_node 0 4 1)) example_world in
  isConsensus (node w) = true /\ step example_device table_order Ok 0 0 Consensus_act w = None.
Proof.
  intros w. apply (first_agreement_is_last example_device table_order Ok 0 0 w w); [reflexivity|apply reach_start].
Defined.

Lemma second_request_undefined_witness : exists w,
  steps example_device table_order Ok 0 0 [Listen_act; Listen_act; Listen_act; Listen_act] example_world
    = Some (Ok w) /\
  step example_device table_order Ok 0 0 Event_act w = Some (Undef dangling_read).
Proof.
  eexists. split; [reflexivity|].
  apply (second_request_undefined example_device table_order Ok 0 0 100 (example_validator []) example_server
    (example_node 0 4 1) _ []).
  - apply (steps_reachable _ _ _ _ _ [Listen_act; Listen_act; Listen_act; Listen_act]). reflexivity.
  - cbn. left.
  - reflexivity.
  - reflexivity.
Defined.

Lemma first_request_handled_witness : exists w',
  steps example_device table_order Ok 0 0 [Listen_act; Listen_act; Event_act] example_world = Some (Ok w') /\
  txq_ (server w') = [] /\
  memory_pool_ (validator w') = filter (accepts (validator example_world)) [example_tx].
Proof.
  apply (first_request_handled example_device table_order Ok 0 0 example_world); reflexivity.
Defined.
