(* ===== verification/Network.v ===== *)
(** Several validator processes and the connections between them: what each hands to the stub for
    another arrives there in order, or is lost, and becomes a message of the other's server.  The theorems
    hold for all interleavings of all threads of all processes. *)
From S2P Require Import Prelude Sha256 Json JsonRoundTrip Signature Transaction Block Message Database Comms Node Validator System.
Local Open Scope Z_scope.

(** * The traffic of one node

    What a node sends, compared with what arrived at its server. *)
Section Traffic.
Context `{Hash} {C : Type} `{!Client C}.
Variables (dev : device) (order : gmap string Z -> list (string * Z)) (stale : string -> outcome string)
  (block_memory memory : Z) (addresses : list string).
Hypothesis Horder : order_ok order.

(** The type of a message and the block it is about. *)
Definition kind (m : Message) : MsgType * string := (type_ m, Header_getID (header_ (block_ m))).

(** The round a node starts in is about a block it was sent, and so is every ECHO it sends; only leaders
    send SEND; [K] holds the kinds of all messages that arrived, some of which wait in [q]. *)
Definition node_inv (K : list (MsgType * string)) (q : list Message) (n : Node) : Prop :=
  exists h, map kind (h ++ q) ⊆+ K /\ client_servers (grpcClient_ n) = addresses /\
    client_ok (grpcClient_ n) /\ (forall a, a ∈ addresses -> sound stale a h n) /\
    (send_this_round_ n = "" \/ (SEND, send_this_round_ n) ∈ map kind h) /\
    forall a m, a ∈ addresses -> m ∈ client_outbox (grpcClient_ n) a ->
      match type_ m with
      | SEND => is_lead_ (config_ n) = true
      | ECHO => (SEND, (kind m).2) ∈ map kind h
      | READY => True
      end.

(** [n'] has sent more than [n], all of it of the form [R]. *)
Definition extends (R : Message -> Prop) (n n' : Node) : Prop :=
  client_ok (grpcClient_ n') /\ client_servers (grpcClient_ n') = client_servers (grpcClient_ n) /\
  config_ n' = config_ n /\
  forall a, a ∈ client_servers (grpcClient_ n) -> exists l,
    client_outbox (grpcClient_ n') a = client_outbox (grpcClient_ n) a ++ l /\ Forall R l.

Lemma extends_client R n n' :
  client_ok (grpcClient_ n) -> grpcClient_ n' = grpcClient_ n -> config_ n' = config_ n -> extends R n n'.
Proof. intros Hok E Ec. unfold extends. rewrite E. split_and!; [done..|]. intros a _. exists []. by rewrite app_nil_r. Qed.

Lemma extends_trans R n1 n2 n3 : extends R n1 n2 -> extends R n2 n3 -> extends R n1 n3.
Proof.
  intros (_ & S1 & C1 & O1) (K2 & S2 & C2 & O2). split_and!; [done|congruence..|]. intros a Ha.
  destruct (O1 a Ha) as (l1 & E1 & F1). destruct (O2 a) as (l2 & E2 & F2); [by rewrite S1|].
  exists (l1 ++ l2). rewrite E2, E1, app_assoc. split; [done|]. by apply Forall_app.
Qed.

Lemma extends_weaken (R R' : Message -> Prop) n n' :
  (forall m, R m -> R' m) -> extends R n n' -> extends R' n n'.
Proof.
  intros HR (K & S & C' & O). split_and!; [done..|]. intros a Ha. destruct (O a Ha) as (l & E & F).
  exists l. split; [done|]. by eapply Forall_impl.
Qed.

Lemma broadcastMessage_extends t b round n n' :
  broadcastMessage dev t b round n = Ok n' -> client_ok (grpcClient_ n) ->
  extends (fun m => type_ m = t /\ header_ (block_ m) = header_ b) n n' /\ view n' = view n /\
  mutable_ b = false.
Proof.
  intros Hb Hok. destruct (broadcastMessage_inv _ _ _ _ _ _ Hb Hok) as (Hm & Hv & Hok' & Hs & b' & Hh & Ho).
  split; [|done]. split_and!; [done|done|by apply view_config|]. intros a Ha.
  rewrite (Ho a Ha). eexists. split; [done|]. by repeat constructor.
Qed.

Lemma block_at_client x (n : Node (C := C)) : grpcClient_ (block_at block_memory x n).2 = grpcClient_ n /\
  config_ (block_at block_memory x n).2 = config_ n /\
  send_this_round_ (block_at block_memory x n).2 = send_this_round_ n.
Proof. unfold block_at. by destruct (blk_list_ n !! x). Qed.

(** READY messages leave the round alone. *)
Definition readied (n n' : Node) : Prop :=
  extends (fun m => type_ m = READY) n n' /\ send_this_round_ n' = send_this_round_ n.

Lemma readied_trans n1 n2 n3 : readied n1 n2 -> readied n2 n3 -> readied n1 n3.
Proof. intros [H1 E1] [H2 E2]. split; [by eapply extends_trans|congruence]. Qed.

Lemma broadcast_ready_readied x round n n' :
  client_ok (grpcClient_ n) -> broadcast_ready dev block_memory x round n = Ok n' -> readied n n'.
Proof.
  intros Hok. unfold broadcast_ready. pose proof (block_at_client x n) as (Hc & Hf & Hr).
  destruct (block_at block_memory x n) as [b n1]. cbn in Hc, Hf, Hr. intros (n2 & E & [= <-])%bind_Ok.
  apply broadcastMessage_extends in E as (E & Hv & _); [|by rewrite Hc].
  apply view_inv in Hv as (_ & _ & Es & _). split; [|cbn; congruence].
  apply (extends_trans _ _ n1); [by apply extends_client|].
  eapply extends_weaken, E. by intros m [].
Qed.

Lemma echo_step_readied n e n' :
  client_ok (grpcClient_ n) -> echo_step dev block_memory n e = Ok n' -> readied n n'.
Proof.
  intros Hok. destruct e as [x k]. unfold echo_step. destruct (_ && _); [by apply broadcast_ready_readied|].
  intros [= <-]. split; [by apply extends_client|done].
Qed.

Lemma amplify_readied n e n' :
  client_ok (grpcClient_ n) -> amplify dev block_memory n e = Ok n' -> readied n n'.
Proof.
  intros Hok. destruct e as [x k]. unfold amplify. destruct (_ && _); [by apply broadcast_ready_readied|].
  intros [= <-]. split; [by apply extends_client|done].
Qed.

Lemma deliver_readied x n n' :
  client_ok (grpcClient_ n) -> deliver stale x n = Ok n' -> readied n n'.
Proof. intros Hok (key & _ & [= <-])%bind_Ok. split; [by apply extends_client|done]. Qed.

Lemma ready_loop_readied es : forall n n',
  client_ok (grpcClient_ n) -> ready_loop dev stale block_memory es n = Ok n' -> readied n n'.
Proof.
  induction es as [|e es IH]; intros n n' Hok; cbn [ready_loop].
  { intros [= <-]. split; [by apply extends_client|done]. }
  intros (n1 & E & Hl)%bind_Ok. apply amplify_readied in E; [|done]. eapply readied_trans; [exact E|].
  destruct E as [(Hok1 & _) _]. destruct (_ <? _); [by eapply deliver_readied|by apply IH].
Qed.

(** A round: an ECHO for the block of the round, if there is one, and READY messages. *)
Lemma broadcastRound_extends a h n n' :
  sound stale a h n -> broadcastRound dev order stale block_memory n = Ok n' ->
  extends (fun m => type_ m = READY \/
    (kind m = (ECHO, send_this_round_ n) /\ send_this_round_ n <> "")) n n' /\
  send_this_round_ n' = "".
Proof.
  intros Hs. pose proof Hs as (Hok & _ & _ & _ & Hblk & _). unfold broadcastRound.
  set (n0 := set_should_broadcast true n). intros (n1 & E1 & (n2 & E2 & Hl)%bind_Ok)%bind_Ok.
  set (R := fun m => type_ m = READY \/ (kind m = (ECHO, send_this_round_ n) /\ send_this_round_ n <> "")).
  assert (H1 : extends R n n1 /\ send_this_round_ n1 = "").
  { destruct (String.eqb_spec (send_this_round_ n0) "") as [He|He]; cbn [negb] in E1.
    { injection E1 as <-. split; [by apply extends_client|done]. }
    pose proof (block_at_client (send_this_round_ n0) n0) as (Hc & Hf & _).
    assert (Hid : let b := (block_at block_memory (send_this_round_ n0) n0).1 in
      mutable_ b = false -> Header_getID (header_ b) = send_this_round_ n).
    { unfold block_at. destruct (blk_list_ n0 !! _) as [b|] eqn:Eb; [|done]. by apply Hblk. }
    destruct (block_at block_memory (send_this_round_ n0) n0) as [b n3]. cbn in Hc, Hf, Hid.
    apply bind_Ok in E1 as (n4 & E1 & [= <-]).
    apply broadcastMessage_extends in E1 as (E1 & _ & Hm); [|by rewrite Hc]. split; [|done].
    apply (extends_trans _ _ n3); [by apply extends_client|].
    apply (extends_weaken _ R) in E1; [done|]. intros m [Ht Hh]. right. split; [|done].
    unfold kind. by rewrite Ht, Hh, Hid. }
  assert (H2 : readied n1 n2).
  { revert E2. apply (foldM_inv (readied n1)); [|split; [by apply extends_client; [apply H1|..]|done]].
    intros m e m' [Hr Es] E. eapply readied_trans; [by split|]. eapply echo_step_readied; [apply Hr|done]. }
  pose proof (ready_loop_readied _ _ _ (proj1 (proj1 H2)) Hl) as H3.
  destruct (readied_trans _ _ _ H2 H3) as [H4 E4]. destruct H1 as [H1 E]. split; [|congruence].
  eapply extends_trans; [exact H1|]. eapply extends_weaken, H4. by left.
Qed.

(** Receiving changes the round only. *)
Lemma recv_round (n : Node (C := C)) m n' : recv_message n m = Ok n' ->
  grpcClient_ n' = grpcClient_ n /\
  (send_this_round_ n' = send_this_round_ n \/ kind m = (SEND, send_this_round_ n')).
Proof.
  unfold recv_message. intros ([n1 v] & Ec & Hr)%bind_Ok. apply checkBlockSig_inv in Ec as [keys ->].
  destruct v; cbn [negb] in Hr; [|injection Hr as <-; by split; [|left]].
  destruct (_ && _); injection Hr as <-; [by split; [|left]|]. unfold count_message, kind.
  destruct (bool_decide _); destruct (_ !! _); destruct (type_ m); (split; [done|]); first [by left | by right].
Qed.

Lemma recv_all_round ms : forall (n n' : Node (C := C)), foldM recv_message n ms = Ok n' ->
  grpcClient_ n' = grpcClient_ n /\
  (send_this_round_ n' = send_this_round_ n \/ (SEND, send_this_round_ n') ∈ map kind ms).
Proof.
  induction ms as [|m ms IH]; intros n n'; cbn [foldM map]; [intros [= <-]; by split; [|left]|].
  intros (n1 & E & Hf)%bind_Ok. apply recv_round in E as [Ec Es]. apply IH in Hf as [Ec' Hs].
  split; [congruence|]. destruct Hs as [Hs|Hs]; [|by right; right].
  destruct Es as [Es|Es]; [left; congruence|]. right. rewrite Hs, <- Es. by left.
Qed.

Lemma updateRecv_round ms (n n' : Node (C := C)) : updateRecvMessages ms n = Ok n' ->
  grpcClient_ n' = grpcClient_ n /\
  (send_this_round_ n' = "" \/ (SEND, send_this_round_ n') ∈ map kind ms).
Proof. apply (recv_all_round ms (set_send_this_round "" n)). Qed.

Lemma node_inv_same K q (n n' : Node (C := C)) :
  grpcClient_ n' = grpcClient_ n -> config_ n' = config_ n -> send_this_round_ n' = send_this_round_ n ->
  (forall a h, sound stale a h n -> sound stale a h n') -> node_inv K q n -> node_inv K q n'.
Proof.
  intros Ec Ef Er Hs (h & Hh & Ha & Hok & Hso & Hro & Hm). exists h. rewrite Ec, Ef, Er. by split_and!; auto.
Qed.

(** A change that sends: what is new has an origin, by [R]. *)
Lemma node_inv_extends K h q R n n' :
  map kind (h ++ q) ⊆+ K -> client_servers (grpcClient_ n) = addresses ->
  (forall a, a ∈ addresses -> sound stale a h n') ->
  (send_this_round_ n' = "" \/ (SEND, send_this_round_ n') ∈ map kind h) -> extends R n n' ->
  (forall m, R m -> match type_ m with
    | SEND => is_lead_ (config_ n) = true | ECHO => (SEND, (kind m).2) ∈ map kind h | READY => True end) ->
  (forall a m, a ∈ addresses -> m ∈ client_outbox (grpcClient_ n) a ->
      match type_ m with
      | SEND => is_lead_ (config_ n) = true
      | ECHO => (SEND, (kind m).2) ∈ map kind h
      | READY => True
      end) ->
  node_inv K q n'.
Proof.
  intros Hh Ha Hs Hr (Hok & Es & Ec & Ho) HR Hm. exists h. rewrite Es, Ec. split_and!; [done..|].
  intros a m Hin. destruct (Ho a) as (l & -> & Hl); [by rewrite Ha|].
  intros [Hml|Hml]%elem_of_app; [by apply (Hm a)|]. apply HR. by eapply Forall_forall in Hl.
Qed.

Lemma some_address : addresses <> [] -> exists a, a ∈ addresses.
Proof. destruct addresses as [|a l]; [done|]. exists a. by left. Qed.

Lemma broadcastRound_inv K q n n' :
  node_inv K q n -> addresses <> [] -> broadcastRound dev order stale block_memory n = Ok n' -> node_inv K q n'.
Proof.
  intros (h & Hh & Ha & Hok & Hs & Hr & Hm) Hne E. destruct (some_address Hne) as [a0 Ha0].
  destruct (broadcastRound_extends a0 h n n') as [Hx Hr']; [by apply Hs|done|].
  eapply node_inv_extends; [exact Hh|exact Ha| |by left|exact Hx| |exact Hm].
  - intros a Hin. eapply broadcastRound_sound; [done|by apply Hs|done].
  - intros m [->|[Hk Hne']]; [done|]. destruct Hr as [Hr|Hr]; [done|].
    rewrite Hk. cbn [snd]. by injection Hk as -> _.
Qed.

Lemma Propose_inv K q n b n' v :
  node_inv K q n -> is_lead_ (config_ n) = true -> Propose dev b n = Ok (n', v) -> node_inv K q n'.
Proof.
  intros (h & Hh & Ha & Hok & Hs & Hr & Hm) Hl (n1 & E & [= <- _])%bind_Ok.
  pose proof (broadcastMessage_extends _ _ _ _ _ E Hok) as (Hx & Hv & _).
  eapply node_inv_extends; [exact Hh|exact Ha| | |exact Hx| |exact Hm].
  - intros a Hin. eapply broadcast_sound; [|by apply Hs|exact E]. done.
  - apply view_inv in Hv as (_ & _ & -> & _). done.
  - by intros m [-> _].
Qed.

Lemma getConsensusBlocks_inv K q n erase :
  node_inv K q n -> node_inv K q (getConsensusBlocks block_memory erase n).1.
Proof.
  assert (E : grpcClient_ (getConsensusBlocks block_memory erase n).1 = grpcClient_ n /\
    config_ (getConsensusBlocks block_memory erase n).1 = config_ n /\
    send_this_round_ (getConsensusBlocks block_memory erase n).1 = send_this_round_ n).
  { unfold getConsensusBlocks. destruct (consensus_blocks_inv block_memory (accepted_blocks_ n) n []) as [m Hm].
    destruct (foldl _ _ _) as [n1 bs]. cbn in Hm. subst n1. by destruct erase. }
  destruct E as (Ec & Ef & Er). apply node_inv_same; [done..|]. intros a h. apply getConsensusBlocks_sound.
Qed.

Lemma RunTaskInWait_inv K server n server' n' :
  node_inv K (mq_ server) n -> RunTaskInWait server n = Some (Ok (server', n')) ->
  node_inv K (mq_ server') n'.
Proof.
  intros (h & Hh & Ha & Hok & Hs & Hr & Hm) E.
  assert (Hs' : forall a, a ∈ addresses -> sound stale a (h ++ mq_ server) n' /\ config_ n' = config_ n)
    by (intros a Hin; eapply RunTaskInWait_sound; [by apply Hs|done]).
  unfold RunTaskInWait in E. destruct (_ || _); [|done]. rewrite getMessages_spec in E. cbn [app] in E.
  injection E as E. apply bind_Ok in E as (n1 & E & [= <- <-]). cbn [mq_].
  pose proof (updateRecvMessages_config _ _ _ E) as Hc.
  apply updateRecv_round in E as [Ec Er]. cbn in Ec, Hc. exists (h ++ mq_ server). cbn.
  rewrite app_nil_r, Ec, Hc. split_and!; [done..| | |].
  - intros a Hin. by apply Hs'.
  - rewrite map_app. destruct Er as [Er|Er]; [by left|right]. apply elem_of_app. by right.
  - intros a m Hin Hml. specialize (Hm a m Hin Hml). destruct (type_ m); try done.
    rewrite map_app. apply elem_of_app. by left.
Qed.

(** * The traffic of a validator process *)

Definition world_inv (K : list (MsgType * string)) (w : World) : Prop :=
  node_inv K (mq_ (server w)) (node w).

(** Nothing that was sent is taken back. *)
Definition grew (n n' : Node (C := C)) : Prop :=
  config_ n' = config_ n /\
  forall a, a ∈ addresses -> client_outbox (grpcClient_ n) a `prefix_of` client_outbox (grpcClient_ n') a.

Lemma grew_trans n1 n2 n3 : grew n1 n2 -> grew n2 n3 -> grew n1 n3.
Proof. intros [E1 G1] [E2 G2]. split; [congruence|]. intros a Ha. etransitivity; [by apply G1|by apply G2]. Qed.

Lemma grew_client (n n' : Node (C := C)) :
  grpcClient_ n' = grpcClient_ n -> config_ n' = config_ n -> grew n n'.
Proof. intros E Ec. split; [done|]. by rewrite E. Qed.

Lemma extends_grew R n n' : client_servers (grpcClient_ n) = addresses -> extends R n n' -> grew n n'.
Proof.
  intros Ha (_ & _ & Ec & Ho). split; [done|]. intros a Hin. destruct (Ho a) as (l & -> & _); [by rewrite Ha|].
  by apply prefix_app_r.
Qed.

(** An action that is not the start of a [Talk] call. *)
Definition is_local (a : action) (w : World (C := C)) : bool :=
  match a with
  | Rpc_act _ tag _ =>
      match calls (server w) !! tag with
      | Some (Some (mkCallData Talk_call START_PROCESS)) => false
      | _ => true
      end
  | _ => true
  end.

Lemma process_mq m r s s' rep : request_kind r <> Talk_call -> process m r s = Ok (s', rep) -> mq_ s' = mq_ s.
Proof.
  destruct r; cbn; [done|..]; intros _.
  - by intros (t & _ & [= <- _])%bind_Ok.
  - by intros [= <- _].
Qed.

Lemma Rpc_mq m tag r w w' : is_local (Rpc_act m tag r) w = true -> Rpc m tag r w = Some (Ok w') ->
  node w' = node w /\ mq_ (server w') = mq_ (server w).
Proof.
  unfold Rpc. cbn [is_local]. destruct (calls (server w) !! tag) as [[[k []]|]|] eqn:Ec; try done.
  - intros Hl. destruct (match k, request_kind r with Talk_call, Talk_call => _ | _, _ => _ end) eqn:Ek; [|done].
    intros [= E]. apply bind_Ok in E as (s & E & [= <-]). split; [done|]. cbn.
    unfold Proceed in E. rewrite Ec in E. cbn [status_ kind_] in E.
    apply bind_Ok in E as ([s1 rep] & E & [= <-]). cbn.
    apply process_mq in E; [by rewrite E|]. by destruct k; destruct (request_kind r).
  - intros _ [= E]. apply bind_Ok in E as (s & E & [= <-]). split; [done|]. cbn.
    unfold Proceed in E. rewrite Ec in E. by injection E as <-.
Qed.

Lemma run_task_inv K t w w' :
  world_inv K w -> run_task dev block_memory w t = Ok w' -> world_inv K w' /\ grew (node w) (node w').
Proof.
  intros Hw. destruct t as [k| |]; cbn [run_task].
  - unfold run_TxTask. destruct (newRequests _); [|intros [= <-]; split; [done|by apply grew_client]].
    destruct (locals w !! k) as [[l|]|]; [|done..]. rewrite getTransactions_spec.
    intros (v & _ & [= <-])%bind_Ok. split; [done|by apply grew_client].
  - intros ([[v b] r] & _ & Hr)%bind_Ok.
    destruct (r =? 0); [injection Hr as <-; split; [done|by apply grew_client]|].
    apply bind_Ok in Hr as ([w1 r1] & E1 & [= <-]). unfold Validator_Propose in E1.
    destruct (negb _) eqn:El; [done|]. apply negb_false_iff in El.
    apply bind_Ok in E1 as ([n r2] & E2 & [= <- _]). split; [by eapply Propose_inv|].
    pose proof Hw as (h & _ & Ha & Hok & _). pose proof E2 as (n1 & E & [= <- _])%bind_Ok.
    eapply extends_grew; [exact Ha|]. by eapply broadcastMessage_extends.
  - intros (v & _ & [= <-])%bind_Ok. split; [done|by apply grew_client].
Qed.

(** What a process does by itself keeps the invariant: it needs no further messages. *)
Lemma step_inv K a w w' :
  addresses <> [] -> world_inv K w -> is_local a w = true ->
  step dev order stale block_memory memory a w = Some (Ok w') -> world_inv K w' /\ grew (node w) (node w').
Proof.
  intros Hne Hw Hl. destruct (some_address Hne) as [a0 Ha0]. destruct a as [| | | | |m tag r]; cbn [step].
  - unfold Listen. destruct (listen w); [destruct (_ && _); [|done]|..]; intros [= <-];
      (split; [done|by apply grew_client]).
  - unfold ProposeProcess. destruct (is_leader w); [|done].
    destruct (proposing w); intros [= <-]; (split; [done|by apply grew_client]).
  - unfold DBProcess. destruct (storing w); [|intros [= <-]; (split; [done|by apply grew_client])..].
    destruct (isConsensus _); [|done]. pose proof (getConsensusBlocks_inv K _ (node w) true Hw) as Hn.
    assert (Hg : grew (node w) (getConsensusBlocks block_memory true (node w)).1).
    { unfold getConsensusBlocks.
      destruct (consensus_blocks_inv block_memory (accepted_blocks_ (node w)) (node w) []) as [m Hm].
      destruct (foldl _ _ _) as [n1 bs]. cbn in Hm. subst n1. by apply grew_client. }
    destruct (getConsensusBlocks _ _ _) as [n bs]. intros [= <-]. by destruct bs.
  - intros (h & ts & _ & Hr)%Event_inv. revert Hr.
    apply (foldM_inv (fun w1 => world_inv K w1 /\ grew (node w) (node w1))).
    + intros w1 t w2 [H1 G1] E. destruct (run_task_inv K t w1 w2 H1 E) as [H2 G2].
      split; [done|by eapply grew_trans].
    + split; [done|by apply grew_client].
  - unfold ConsensusProcess, RunProtocol_step. destruct (should_broadcast_ (node w)); [|done].
    destruct (RunTaskInWait (server w) (node w)) as [o|] eqn:E; [|done]. intros [= Hr].
    apply bind_Ok in Hr as ([s1 n1] & Hr & [= <-]). apply bind_Ok in Hr as ([s2 n2] & -> & Hr).
    apply bind_Ok in Hr as (n3 & Hr & [= <- <-]).
    pose proof (RunTaskInWait_inv _ _ _ _ _ Hw E) as H2.
    pose proof (broadcastRound_inv _ _ _ _ H2 Hne Hr) as H3. split; [exact H3|].
    assert (G2 : grew (node w) n2).
    { destruct Hw as (h & _ & _ & _ & Hs & _).
      destruct (RunTaskInWait_sound stale a0 h (server w) (node w) s2 n2) as [_ Hc];
        [by apply Hs|done|]. apply grew_client; [|done].
      unfold RunTaskInWait in E. destruct (_ || _); [|done]. rewrite getMessages_spec in E.
      injection E as E. apply bind_Ok in E as (n4 & E & [= _ <-]). apply updateRecv_round in E as [Eg _]. exact Eg. }
    eapply grew_trans; [exact G2|]. cbn. destruct H2 as (h & _ & Ha & _ & Hs & _).
    eapply extends_grew; [exact Ha|]. eapply (broadcastRound_extends a0 h); [by apply Hs|done].
  - intros E. destruct (Rpc_mq m tag r w w' Hl E) as [En Eq]. split; [|apply grew_client; by rewrite En].
    unfold world_inv. by rewrite En, Eq.
Qed.
End Traffic.

(** * The sending threads change nothing that a client was given to send *)

Lemma to_address_queues a (f : string -> list Message) l : NoDup l ->
  to_address a (concat (map (fun b => map (pair b) (f b)) l)) = if decide (a ∈ l) then f a else [].
Proof.
  assert (Hone : forall b ms, to_address a (map (pair b) ms) = if decide (b = a) then ms else []).
  { intros b ms. induction ms as [|m ms IH]; cbn [map]; [by destruct (decide (b = a))|].
    change ((b, m) :: map (pair b) ms) with ([(b, m)] ++ map (pair b) ms).
    rewrite to_address_app, to_address_one, IH. by destruct (decide (b = a)). }
  induction 1 as [|b l Hb Hl IH]; [done|]. cbn [map concat]. rewrite to_address_app, Hone, IH.
  destruct (decide (b = a)) as [->|Hne].
  - rewrite decide_False by done. by rewrite decide_True, app_nil_r by (by left).
  - destruct (decide (a ∈ l)); [by rewrite decide_True by (by right)|].
    rewrite decide_False; [done|]. intros [->|]%elem_of_cons; done.
Qed.

Lemma wired_outbox c i a q : wired c -> servers_ c !! i = Some a -> queues c !! i = Some q ->
  client_outbox c a = to_address a (talked c) ++ q.
Proof. intros (_ & _ & _ & Hq & _) Ha Hi. cbn. by rewrite (Hq _ _ Ha), Hi. Qed.

Lemma wired_faithful c : wired c -> exists h, faithful h c /\
  forall a, a ∈ servers_ c -> to_address a h = client_outbox c a.
Proof.
  intros Hw. set (queue a := match message_queues_ c !! a with
    Some i => default [] (queues c !! i) | None => [] end).
  exists (talked c ++ concat (map (fun b => map (pair b) (queue b)) (servers_ c))).
  assert (Hh : forall a, a ∈ servers_ c ->
    to_address a (talked c ++ concat (map (fun b => map (pair b) (queue b)) (servers_ c)))
    = client_outbox c a).
  { intros a Ha. rewrite to_address_app, to_address_queues, decide_True by (done || apply Hw). done. }
  split; [|exact Hh]. split; [done|]. intros i a q Ha Hq.
  rewrite (Hh a) by (by eapply list_elem_of_lookup_2). by rewrite (wired_outbox c i a q).
Qed.

Lemma RunThread_outbox k c c' : wired c -> RunThread_ k c = Some (Ok c') ->
  wired c' /\ servers_ c' = servers_ c /\
  forall a, a ∈ servers_ c -> client_outbox c' a = client_outbox c a.
Proof.
  intros Hw Hr. destruct (wired_faithful c Hw) as (h & Hf & Hh).
  pose proof (faithful_thread h c k c' Hf Hr) as [Hw' Hf'].
  assert (Hs : servers_ c' = servers_ c).
  { unfold RunThread_, SendMessage_ in Hr. destruct (thread_pool_ c !! k) as [t|]; [|done].
    destruct (pc t); [by injection Hr as <-| |done]. destruct (queues c !! mq t) as [[|msg rest]|].
    - destruct (stop_threads_ c); [by injection Hr as <-|done].
    - cbn in Hr. destruct (Talk msg); [by injection Hr as <-|done..].
    - destruct (stop_threads_ c); [by injection Hr as <-|done]. }
  split_and!; [done|done|]. intros a Ha. rewrite <- (Hh a Ha). rewrite <- Hs in Ha.
  apply list_elem_of_lookup in Ha as [i Hi].
  destruct (lookup_lt_is_Some_2 (queues c') i) as [q Hq].
  { destruct Hw' as (_ & -> & _). by eapply lookup_lt_Some. }
  by rewrite (wired_outbox c' i a q), (Hf' i a q).
Qed.

(** * The network *)

Section Network.
Context `{Hash}.
(** The parameters of each process. *)
Variables (dev : nat -> device) (order : nat -> gmap string Z -> list (string * Z))
  (stale : nat -> string -> outcome string) (block_memory memory : nat -> Z).
(** The addresses at which the processes listen, by their numbers. *)
Variable addresses : list string.

Abbreviation process := (World (C := ValidatorClientImpl)).

(** [passed]: how many of the messages that process [i] handed to its stub for [j] arrived, or were
    lost. *)
Record Network := mkNetwork { processes : list process; passed : gmap (nat * nat) nat }.

Definition set_process (j : nat) (w : process) (net : Network) : Network :=
  mkNetwork (<[j := w]> (processes net)) (passed net).
Definition passed_at (i j : nat) (net : Network) : nat := default 0%nat (passed net !! (i, j)).
Definition pass (i j : nat) (net : Network) : Network :=
  mkNetwork (processes net) (<[(i, j) := S (passed_at i j net)]> (passed net)).

(** What process [i] handed to its stub for the address of [j], in order. *)
Definition handed (i j : nat) (net : Network) : list Message :=
  match processes net !! i, addresses !! j with
  | Some w, Some a => to_address a (talked (grpcClient_ (node w)))
  | _, _ => []
  end.

(** A step of a process, of one of its sending threads, or of the connection from [i] to [j]: the next
    message arrives at a call object that waits for it, or is lost. *)
Inductive net_action :=
| Local (j : nat) (a : action)
| Sending (i k : nat)
| Arrive (i j : nat) (m : message_memory) (tag : nat)
| Lose (i j : nat).

Definition net_step (x : net_action) (net : Network) : option (outcome Network) :=
  match x with
  | Local j a =>
      w ← processes net !! j;
      if is_local a w then
        r ← step (dev j) (order j) (stale j) (block_memory j) (memory j) a w;
        Some (w ← r; Ok (set_process j w net))
      else None
  | Sending i k =>
      w ← processes net !! i;
      r ← RunThread_ k (grpcClient_ (node w));
      Some (c ← r; Ok (set_process i (set_node (set_grpcClient c (node w)) w) net))
  | Arrive i j m tag =>
      w ← processes net !! j;
      msg ← handed i j net !! passed_at i j net;
      match toProtoMessage msg with
      | Ok p =>
          if is_local (Rpc_act m tag (Send_request p)) w then None
          else r ← Rpc m tag (Send_request p) w; Some (w ← r; Ok (pass i j (set_process j w net)))
      | _ => None
      end
  | Lose i j =>
      _ ← handed i j net !! passed_at i j net; Some (Ok (pass i j net))
  end.

Inductive net_reachable (net0 : Network) : Network -> Prop :=
| net_here : net_reachable net0 net0
| net_next x net net' : net_reachable net0 net -> net_step x net = Some (Ok net') ->
    net_reachable net0 net'.

Lemma net_reachable_trans net0 net1 net2 : net_reachable net0 net1 -> net_reachable net1 net2 ->
  net_reachable net0 net2.
Proof. intros H1 H2. induction H2 as [|x net net' _ IH Hs]; [done|]. by eapply net_next. Qed.

(** Processes that have just been started with the addresses of all. *)
Definition net_start (net : Network) : Prop :=
  passed net = ∅ /\ length (processes net) = length addresses /\ addresses <> [] /\
  forall j w, processes net !! j = Some w ->
    fresh (node w) /\ servers_ (grpcClient_ (node w)) = addresses /\
    send_this_round_ (node w) = "" /\ mq_ (server w) = [] /\
    0 <= f_ (config_ (node w)) /\ 1 <= n_ (config_ (node w)).

(** ** What is under way *)

Definition outbox (j : nat) (w : process) : list (MsgType * string) :=
  match addresses !! j with
  | Some a => map kind (client_outbox (grpcClient_ (node w)) a)
  | None => []
  end.

(** The kinds of the messages that passed the connections to [j]. *)
Definition arrived (j : nat) (net : Network) : list (MsgType * string) :=
  concat (imap (fun i w => take (passed_at i j net) (outbox j w)) (processes net)).

(** A leader sent a SEND message about the block. *)
Definition origin (net : Network) (x : string) : Prop :=
  exists i w a m, processes net !! i = Some w /\ is_leader w = true /\ a ∈ addresses /\
    m ∈ client_outbox (grpcClient_ (node w)) a /\ kind m = (SEND, x).

Definition net_inv (net : Network) : Prop :=
  length (processes net) = length addresses /\
  (forall j w, processes net !! j = Some w ->
    world_inv (stale j) addresses (arrived j net) w /\
    0 <= f_ (config_ (node w)) /\ 1 <= n_ (config_ (node w))) /\
  (forall i j w, processes net !! i = Some w -> (passed_at i j net <= length (outbox j w))%nat) /\
  (forall i w a m, processes net !! i = Some w -> a ∈ addresses ->
    m ∈ client_outbox (grpcClient_ (node w)) a -> type_ m = READY -> origin net (kind m).2).

Lemma arrived_elem k j net : k ∈ arrived j net ->
  exists i w, processes net !! i = Some w /\ k ∈ outbox j w.
Proof.
  unfold arrived. intros (l & Hl & Hk)%list_elem_of_In%in_concat. apply list_elem_of_In in Hl, Hk.
  apply list_elem_of_lookup in Hl as [i Hi]. rewrite list_lookup_imap in Hi.
  destruct (processes net !! i) as [w|] eqn:Ew; [|done]. injection Hi as <-.
  exists i, w. split; [done|]. rewrite <- (take_drop (passed_at i j net) (outbox j w)).
  apply elem_of_app. by left.
Qed.

Lemma outbox_elem k j w : k ∈ outbox j w ->
  exists a m, a ∈ addresses /\ m ∈ client_outbox (grpcClient_ (node w)) a /\ kind m = k.
Proof.
  unfold outbox. destruct (addresses !! j) as [a|] eqn:Ea; [|by intros ?%elem_of_nil].
  intros (m & -> & Hm)%list_elem_of_fmap. exists a, m. split; [by eapply list_elem_of_lookup_2|done].
Qed.

(** Two networks in which the same messages passed. *)
Lemma arrived_same j net net' :
  length (processes net') = length (processes net) ->
  (forall i w w', processes net !! i = Some w -> processes net' !! i = Some w' ->
    take (passed_at i j net') (outbox j w') = take (passed_at i j net) (outbox j w)) ->
  arrived j net' = arrived j net.
Proof.
  intros Hl Ht. unfold arrived. f_equal. apply list_eq. intros i. rewrite !list_lookup_imap.
  destruct (processes net !! i) as [w|] eqn:Ew; destruct (processes net' !! i) as [w'|] eqn:Ew'; cbn.
  - f_equal. by apply Ht.
  - apply lookup_lt_Some in Ew. apply lookup_ge_None_1 in Ew'. lia.
  - apply lookup_lt_Some in Ew'. apply lookup_ge_None_1 in Ew. lia.
  - done.
Qed.

Lemma grew_outbox j w w' : grew addresses (node w) (node w') ->
  exists l, outbox j w' = outbox j w ++ l.
Proof.
  intros [_ Hg]. unfold outbox. destruct (addresses !! j) as [a|] eqn:Ea; [|by exists []].
  destruct (Hg a) as [l Hl]; [by eapply list_elem_of_lookup_2|]. exists (map kind l). by rewrite Hl, map_app.
Qed.

Lemma world_inv_mono st K K' w : K ⊆+ K' -> world_inv st addresses K w -> world_inv st addresses K' w.
Proof. intros HK (h & Hh & Hr). exists h. split; [by etransitivity|done]. Qed.

Lemma set_process_lookup j w net i w1 :
  processes (set_process j w net) !! i = Some w1 ->
  (i = j /\ w1 = w) \/ (i <> j /\ processes net !! i = Some w1).
Proof.
  cbn. intros Hi. destruct (decide (i = j)) as [->|Hne].
  - left. split; [done|]. apply list_lookup_insert_Some in Hi as [(_ & -> & _)|[]]; done.
  - right. by rewrite list_lookup_insert_ne in Hi.
Qed.

(** A process that goes on while the others stand still. *)
Lemma set_process_arrived j0 w w' j net :
  processes net !! j0 = Some w -> grew addresses (node w) (node w') ->
  (forall i w, processes net !! i = Some w -> (passed_at i j net <= length (outbox j w))%nat) ->
  arrived j (set_process j0 w' net) = arrived j net.
Proof.
  intros Hw Hg Hp. apply arrived_same; [apply length_insert|]. intros i w1 w2 H1 H2.
  change (passed_at i j (set_process j0 w' net)) with (passed_at i j net).
  apply set_process_lookup in H2 as [[-> ->]|[Hne H2]]; [|congruence].
  rewrite Hw in H1. injection H1 as ->. destruct (grew_outbox j _ _ Hg) as [l ->].
  apply take_app_le. by apply Hp.
Qed.

Lemma origin_mono net net' x :
  (forall i w, processes net !! i = Some w ->
    exists w', processes net' !! i = Some w' /\ grew addresses (node w) (node w')) ->
  origin net x -> origin net' x.
Proof.
  intros Hg (i & w & a & m & Hi & Hl & Ha & Hm & Hk). destruct (Hg i w Hi) as (w' & Hi' & [Ec G]).
  exists i, w', a, m. split_and!; [done| |done| |done].
  - unfold is_leader in *. by rewrite Ec.
  - destruct (G a Ha) as [l ->]. apply elem_of_app. by left.
Qed.

Lemma grew_refl (n : Node (C := ValidatorClientImpl)) : grew addresses n n.
Proof. by apply grew_client. Qed.

Lemma set_process_grew j w w' net :
  processes net !! j = Some w -> grew addresses (node w) (node w') ->
  forall i w1, processes net !! i = Some w1 ->
    exists w2, processes (set_process j w' net) !! i = Some w2 /\ grew addresses (node w1) (node w2).
Proof.
  intros Hw Hg i w1 Hi. cbn. destruct (decide (i = j)) as [->|Hne].
  - rewrite Hw in Hi. injection Hi as <-. exists w'. split; [|done].
    apply list_lookup_insert_eq. by eapply lookup_lt_Some.
  - exists w1. rewrite list_lookup_insert_ne by done. split; [done|apply grew_refl].
Qed.

(** Whatever a process was sent comes from a leader in the end. *)
Lemma counted_cons t x m h :
  counted t x (m :: h) = (if decide (kind m = (t, x)) then 1 else 0) + counted t x h.
Proof.
  change (m :: h) with ([m] ++ h). rewrite counted_app, counted_one. unfold kind, about. f_equal.
  destruct (decide (_ /\ _)) as [[<- <-]|Hn]; [by rewrite decide_True|].
  rewrite decide_False; [done|]. intros [= E1 E2]. by apply Hn.
Qed.

Lemma counted_kind t x h : 0 < counted t x h -> (t, x) ∈ map kind h.
Proof.
  induction h as [|m h IH]; [done|]. rewrite counted_cons. cbn [map].
  destruct (decide (kind m = (t, x))) as [<-|Hn]; intros Hc; [by left|]. right. apply IH. lia.
Qed.

Lemma arrived_origin net j t x : net_inv net -> (t, x) ∈ arrived j net -> origin net x.
Proof.
  intros (_ & Hw & _ & Hr) Hk. apply arrived_elem in Hk as (i & w & Hi & Hk).
  apply outbox_elem in Hk as (a & m & Ha & Hm & Hk).
  destruct (Hw i w Hi) as [(h & Hh & _ & _ & _ & _ & Ho) _].
  pose proof (Ho a m Ha Hm) as Hom. injection Hk as Ht Hx.
  destruct t; rewrite Ht in Hom.
  - cbn in Hom. rewrite Hx in Hom.
    assert (Hs : (SEND, x) ∈ arrived i net).
    { eapply elem_of_submseteq; [|exact Hh]. rewrite map_app. apply elem_of_app. by left. }
    apply arrived_elem in Hs as (i' & w' & Hi' & Hs). apply outbox_elem in Hs as (a' & m' & Ha' & Hm' & Hk').
    exists i', w', a', m'. split_and!; try done.
    destruct (Hw i' w' Hi') as [(h' & _ & _ & _ & _ & _ & Ho') _]. specialize (Ho' a' m' Ha' Hm').
    injection Hk' as Ht' _. by rewrite Ht' in Ho'.
  - exists i, w, a, m. split_and!; try done. unfold kind. by rewrite Ht, Hx.
  - rewrite <- Hx. by apply (Hr i w a m).
Qed.

(** A READY message was sent for messages that arrived. *)
Lemma ready_origin net j w a m :
  net_inv net -> world_inv (stale j) addresses (arrived j net) w ->
  0 <= f_ (config_ (node w)) -> 1 <= n_ (config_ (node w)) -> a ∈ addresses ->
  m ∈ client_outbox (grpcClient_ (node w)) a -> type_ m = READY -> origin net (kind m).2.
Proof.
  intros Hn (h & Hh & _ & _ & Hs & _) Hf Hn1 Ha Hm Ht.
  destruct (Hs a Ha) as (_ & _ & _ & _ & _ & _ & Hrs & Hmr & _).
  assert (Hx : (kind m).2 ∈ ready_sent_ (node w)).
  { apply Hrs. unfold readies. apply list_elem_of_fmap. exists m. split; [done|].
    by apply list_elem_of_filter. }
  assert (Hin : exists t, (t, (kind m).2) ∈ map kind h).
  { destruct (Hmr _ Hx) as [Hc|Hc]; [exists ECHO|exists READY]; apply counted_kind; [|lia].
    unfold echo_threshold in Hc. rewrite Z.quot_div_nonneg in Hc by lia.
    assert (1 <= (n_ (config_ (node w)) + f_ (config_ (node w)) + 1) / 2)
      by (apply Z.div_le_lower_bound; lia). lia. }
  destruct Hin as [t Hin]. apply (arrived_origin net j t); [done|].
  eapply elem_of_submseteq; [|exact Hh]. rewrite map_app. apply elem_of_app. by left.
Qed.

(** ** Every step keeps the invariant *)

Lemma advance_inv net j w w' :
  net_inv net -> processes net !! j = Some w -> world_inv (stale j) addresses (arrived j net) w' ->
  grew addresses (node w) (node w') -> net_inv (set_process j w' net).
Proof.
  intros Hn Hj Hw' Hg. pose proof Hn as (Hl & Hw & Hp & Hr).
  assert (Ha : forall j', arrived j' (set_process j w' net) = arrived j' net)
    by (intros j'; apply (set_process_arrived j w w'); [done|done|]; intros i w1; apply Hp).
  pose proof (set_process_grew j w w' net Hj Hg) as Hgrew.
  destruct (Hw j w Hj) as (_ & Hf & Hn1). destruct Hg as [Ec Hg]. split_and!.
  - cbn. by rewrite length_insert.
  - intros j1 w1 H1. rewrite Ha.
    apply set_process_lookup in H1 as [[-> ->]|[_ H1]]; [by rewrite Ec|by apply Hw].
  - intros i j1 w1 H1. change (passed_at i j1 (set_process j w' net)) with (passed_at i j1 net).
    apply set_process_lookup in H1 as [[-> ->]|[_ H1]]; [|by apply Hp].
    destruct (grew_outbox j1 w w') as [l ->]; [done|]. rewrite length_app.
    specialize (Hp j j1 w Hj). lia.
  - intros i w1 a m H1 Hin Hm Ht. apply (origin_mono net); [exact Hgrew|].
    apply set_process_lookup in H1 as [[-> ->]|[_ H1]]; [|by apply (Hr i w1 a m)].
    by apply (ready_origin net j w' a m); rewrite ?Ec.
Qed.

Lemma handed_outbox i j net msg w :
  processes net !! i = Some w -> handed i j net !! passed_at i j net = Some msg ->
  outbox j w !! passed_at i j net = Some (kind msg).
Proof.
  unfold handed, outbox. intros ->. destruct (addresses !! j) as [a|]; [|done]. intros Hm.
  rewrite list_lookup_fmap. cbn [client_outbox validator_client].
  by rewrite lookup_app_l, Hm by (by eapply lookup_lt_Some).
Qed.

Lemma handed_process i j net k msg : handed i j net !! k = Some msg -> exists w, processes net !! i = Some w.
Proof. unfold handed. destruct (processes net !! i) as [w|]; [|done]. by exists w. Qed.

Lemma passed_at_pass i j i' j' net :
  passed_at i' j' (pass i j net)
  = if decide ((i', j') = (i, j)) then S (passed_at i j net) else passed_at i' j' net.
Proof.
  unfold passed_at at 1, pass. cbn [passed]. destruct (decide ((i', j') = (i, j))) as [E|E].
  - rewrite E, lookup_insert_eq. done.
  - by rewrite lookup_insert_ne.
Qed.

Lemma pass_arrived_other i j j' net : j' <> j -> arrived j' (pass i j net) = arrived j' net.
Proof.
  intros Hne. apply arrived_same; [done|]. intros i' w w' H1 H2. cbn in H2. rewrite H1 in H2.
  injection H2 as ->. by rewrite passed_at_pass, decide_False by congruence.
Qed.

(** One more entry of one of several lists. *)
Lemma concat_snoc {A} (L L' : list (list A)) i l x :
  length L' = length L -> L !! i = Some l -> L' !! i = Some (l ++ [x]) ->
  (forall i', i' <> i -> L' !! i' = L !! i') -> concat L' ≡ₚ concat L ++ [x].
Proof.
  intros Hlen Hi Hi' Ho. assert (L' = <[i := l ++ [x]]> L) as ->.
  { apply list_eq. intros i'. destruct (decide (i' = i)) as [->|Hne].
    - rewrite Hi', list_lookup_insert_eq; [done|]. by eapply lookup_lt_Some.
    - by rewrite Ho, list_lookup_insert_ne by done. }
  pose proof (lookup_lt_Some _ _ _ Hi) as Hlt. rewrite insert_take_drop by done.
  rewrite <- (take_drop_middle L i l Hi) at 3. rewrite !concat_app. cbn [concat].
  rewrite <- !app_assoc. do 2 f_equiv. apply Permutation_app_comm.
Qed.

Lemma pass_arrived i j net w k :
  processes net !! i = Some w -> outbox j w !! passed_at i j net = Some k ->
  arrived j (pass i j net) ≡ₚ arrived j net ++ [k].
Proof.
  intros Hi Hk. unfold arrived. apply (concat_snoc _ _ i (take (passed_at i j net) (outbox j w))).
  - by rewrite !length_imap.
  - by rewrite list_lookup_imap, Hi.
  - rewrite list_lookup_imap. cbn [processes pass]. rewrite Hi. cbn.
    rewrite passed_at_pass, decide_True by done. f_equal. by apply take_S_r.
  - intros i' Hne. rewrite !list_lookup_imap. cbn [processes pass].
    destruct (processes net !! i'); [|done]. cbn. by rewrite passed_at_pass, decide_False by congruence.
Qed.

Lemma pass_inv net i j msg :
  net_inv net -> handed i j net !! passed_at i j net = Some msg -> net_inv (pass i j net).
Proof.
  intros (Hl & Hw & Hp & Hr) Hm. destruct (handed_process _ _ _ _ _ Hm) as [w Hi].
  pose proof (handed_outbox i j net msg w Hi Hm) as Hk. split_and!; [done| | |exact Hr].
  - intros j1 w1 H1. destruct (Hw j1 w1 H1) as [Hinv Hc]. split; [|done].
    destruct (decide (j1 = j)) as [->|Hne]; [|by rewrite pass_arrived_other].
    eapply world_inv_mono, Hinv. rewrite (pass_arrived i j net w (kind msg) Hi Hk).
    apply submseteq_inserts_r. done.
  - intros i1 j1 w1 H1. rewrite passed_at_pass. case_decide as E; [|by apply Hp].
    injection E as -> ->. cbn in H1. rewrite Hi in H1. injection H1 as ->.
    by apply lookup_lt_Some in Hk.
Qed.

(** ** Arrivals *)

Lemma transmitted_kind msg p held m :
  toProtoMessage msg = Ok p -> Message_from_proto held p = Ok m -> kind m = kind msg.
Proof.
  unfold toProtoMessage, Message_from_proto. destruct held as [[t0 tm] v].
  intros (b & Eb & [= <-])%bind_Ok (b' & Eb' & [= <-])%bind_Ok. cbn [type block] in *.
  unfold toProtoBlock in Eb. destruct (mutable_ (block_ msg)); [done|].
  apply bind_Ok in Eb as (txs & _ & (key & _ & [= <-])%bind_Ok).
  unfold fromProtoBlock in Eb'. apply bind_Ok in Eb' as (txs' & _ & (key' & _ & [= <-])%bind_Ok).
  unfold kind. cbn. by destruct (type_ msg).
Qed.

Lemma Rpc_talk m tag p (w w' : process) : is_local (Rpc_act m tag (Send_request p)) w = false ->
  Rpc m tag (Send_request p) w = Some (Ok w') ->
  exists msg, Message_from_proto m p = Ok msg /\ node w' = node w /\
    mq_ (server w') = mq_ (server w) ++ [msg].
Proof.
  cbn [is_local]. unfold Rpc. destruct (calls (server w) !! tag) as [[[k []]|]|] eqn:Ec; try done;
    destruct k; try done.
  intros _ [= E]. apply bind_Ok in E as (s & E & [= <-]).
  unfold Proceed in E. rewrite Ec in E. cbn [status_ kind_] in E.
  apply bind_Ok in E as ([s1 rep] & E & [= <-]). cbn in E.
  apply bind_Ok in E as (msg & E & [= <- _]). by exists msg.
Qed.

Lemma sound_client st a h (n : Node (C := ValidatorClientImpl)) c :
  client_ok c -> client_servers c = client_servers (grpcClient_ n) ->
  client_outbox c a = client_outbox (grpcClient_ n) a -> sound st a h n -> sound st a h (set_grpcClient c n).
Proof.
  intros Hc Hs Ho (H1 & H2 & H3). unfold sound, readies in *. cbn [grpcClient_ set_grpcClient].
  by rewrite Hs, Ho.
Qed.

Lemma sending_inv st K (n : Node (C := ValidatorClientImpl)) q k c :
  node_inv st addresses K q n -> RunThread_ k (grpcClient_ n) = Some (Ok c) ->
  node_inv st addresses K q (set_grpcClient c n) /\ grew addresses n (set_grpcClient c n).
Proof.
  intros (h & Hh & Ha & Hok & Hs & Hr & Hm) E.
  destruct (RunThread_outbox k _ c Hok E) as (Hc & Es & Ho).
  change (client_servers (grpcClient_ n)) with (servers_ (grpcClient_ n)) in Ha. rewrite Ha in Ho.
  split; [|split; [done|]; intros a Hin; cbn [grpcClient_ set_grpcClient]; by rewrite Ho].
  exists h. split_and!; [done|by rewrite <- Ha|done| |done|].
  - intros a Hin. apply sound_client; [done|done|by apply Ho|by apply Hs].
  - intros a m Hin. cbn [grpcClient_ set_grpcClient]. rewrite Ho by done. by apply Hm.
Qed.

Hypothesis Horder : forall j, order_ok (order j).
Hypothesis Haddresses : addresses <> [].

Lemma net_step_inv x net net' : net_inv net -> net_step x net = Some (Ok net') -> net_inv net'.
Proof.
  intros Hn. pose proof Hn as (_ & Hw & _). destruct x as [j a|i k|i j m tag|i j]; cbn [net_step].
  - destruct (processes net !! j) as [w|] eqn:Ej; [|done]. cbn [mbind option_bind].
    destruct (is_local a w) eqn:El; [|done]. destruct (step _ _ _ _ _ a w) as [r|] eqn:Es; [|done].
    intros [= E]. apply bind_Ok in E as (w' & -> & [= <-]). destruct (Hw j w Ej) as [Hinv _].
    destruct (step_inv (dev j) (order j) (stale j) (block_memory j) (memory j) addresses (Horder j) _ a w w'
      Haddresses Hinv El Es) as [Hinv' Hg]. by eapply advance_inv.
  - destruct (processes net !! i) as [w|] eqn:Ei; [|done]. cbn [mbind option_bind].
    destruct (RunThread_ k _) as [r|] eqn:Er; [|done]. intros [= E].
    apply bind_Ok in E as (c & -> & [= <-]). destruct (Hw i w Ei) as [Hinv _].
    destruct (sending_inv _ _ _ _ _ _ Hinv Er) as [Hinv' Hg].
    by eapply advance_inv; [done|exact Ei|exact Hinv'|exact Hg].
  - destruct (processes net !! j) as [w|] eqn:Ej; [|done]. cbn [mbind option_bind].
    destruct (handed i j net !! _) as [msg|] eqn:Em; [|done]. cbn [mbind option_bind].
    destruct (toProtoMessage msg) as [p| | |] eqn:Ep; [|done..].
    destruct (is_local _ w) eqn:El; [done|].
    destruct (Rpc m tag (Send_request p) w) as [r|] eqn:Er; [|done]. intros [= E].
    apply bind_Ok in E as (w' & -> & [= <-]).
    destruct (Rpc_talk _ _ _ _ _ El Er) as (msg' & Em' & En & Eq).
    pose proof (transmitted_kind _ _ _ _ Ep Em') as Hk.
    pose proof (pass_inv net i j msg Hn Em) as Hn1.
    change (net_inv (set_process j w' (pass i j net))).
    destruct (Hw j w Ej) as [(h & Hh & Hrest) _].
    apply (advance_inv (pass i j net) j w w'); [done|exact Ej| |rewrite En; apply grew_refl].
    exists h. rewrite En, Eq. split; [|exact Hrest].
    destruct (handed_process _ _ _ _ _ Em) as [wi Hi].
    rewrite (pass_arrived i j net wi (kind msg) Hi (handed_outbox i j net msg wi Hi Em)).
    rewrite app_assoc, map_app. cbn [map]. rewrite Hk. by apply submseteq_skips_r.
  - destruct (handed i j net !! _) as [msg|] eqn:Em; [|done]. cbn [mbind option_bind].
    intros [= <-]. by eapply pass_inv.
Qed.

Lemma net_start_inv net : net_start net -> net_inv net.
Proof.
  intros (Hp & Hl & _ & Hw). split_and!; [done| | |].
  - intros j w Hj. destruct (Hw j w Hj) as (Hf & Ha & Hr & Hq & Hc). split; [|done].
    pose proof Hf as (Hok & Hout & _). change (servers_ ?c) with (client_servers c) in Ha.
    exists []. rewrite Hq. split_and!; [apply submseteq_nil_l|done|done| |by left|].
    + intros a Hin. apply fresh_sound; [done|by rewrite Ha].
    + intros a m Hin. rewrite Hout by (by rewrite Ha). by intros ?%elem_of_nil.
  - intros i j w _. unfold passed_at. rewrite Hp, lookup_empty. cbn. lia.
  - intros i w a m Hi Hin. destruct (Hw i w Hi) as (Hf & Ha & _). destruct Hf as (_ & Hout & _).
    change (servers_ ?c) with (client_servers c) in Ha.
    rewrite Hout by (by rewrite Ha). by intros ?%elem_of_nil.
Qed.

Lemma net_reachable_inv net0 net : net_start net0 -> net_reachable net0 net -> net_inv net.
Proof.
  intros H0 Hr. induction Hr as [|x net net' _ IH Hs]; [by apply net_start_inv|]. by eapply net_step_inv.
Qed.

(** ** Quorums *)

(** A READY message about the block was sent, or waits to be sent, to every process. *)
Definition ready_everywhere (y : string) (w : process) : Prop :=
  Forall (fun a => y ∈ readies a (node w)) addresses.
#[local] Instance ready_everywhere_dec y w : Decision (ready_everywhere y w).
Proof. unfold ready_everywhere. apply _. Defined.

Definition kind_count (k : MsgType * string) (l : list (MsgType * string)) : nat :=
  length (filter (fun k' => k' = k) l).

Lemma kind_count_submseteq k l l' : l ⊆+ l' -> (kind_count k l <= kind_count k l')%nat.
Proof.
  intros [l1 Hl]%submseteq_Permutation. unfold kind_count. rewrite Hl, filter_app, length_app. lia.
Qed.

Lemma counted_kind_count t y h : counted t y h = Z.of_nat (kind_count (t, y) (map kind h)).
Proof.
  induction h as [|m h IH]; [done|]. rewrite counted_cons, IH. unfold kind_count. cbn [map].
  rewrite filter_cons. destruct (decide (kind m = (t, y))); cbn [length]; lia.
Qed.

Lemma kind_count_readies y l :
  kind_count (READY, y) (map kind l) =
  length (filter (fun x => x = y) (map (fun m => Header_getID (header_ (block_ m)))
    (filter (fun m => type_ m = READY) l))).
Proof.
  unfold kind_count. induction l as [|m l IH]; [done|]. cbn [map]. rewrite !filter_cons.
  destruct (decide (type_ m = READY)) as [Ht|Ht]; cbn [map].
  - rewrite filter_cons. destruct (decide (Header_getID (header_ (block_ m)) = y)) as [Hy|Hy].
    + rewrite decide_True by (unfold kind; by rewrite Ht, Hy). cbn [length]. by rewrite IH.
    + rewrite decide_False by (unfold kind; congruence). done.
  - rewrite decide_False by (unfold kind; congruence). done.
Qed.

Lemma outbox_ready_count st K y j w :
  world_inv st addresses K w -> (kind_count (READY, y) (outbox j w) <= if decide (ready_everywhere y w) then 1 else 0)%nat.
Proof.
  intros (h & _ & _ & _ & Hs & _). unfold outbox.
  destruct (addresses !! j) as [a|] eqn:Ea; [|apply Nat.le_0_l].
  apply list_elem_of_lookup_2 in Ea.
  assert (Hc : kind_count (READY, y) (map kind (client_outbox (grpcClient_ (node w)) a))
    = length (filter (fun x => x = y) (readies a (node w)))) by apply kind_count_readies.
  destruct (Hs a Ea) as (_ & _ & _ & _ & _ & Hn & Hrs & _). case_decide as Hr.
  - pose proof (NoDup_filter_eq y _ Hn). lia.
  - assert (filter (fun x => x = y) (readies a (node w)) = []) as E; [|rewrite Hc, E; cbn; lia].
    destruct (filter _ _) as [|x l] eqn:E; [done|]. exfalso. apply Hr.
    assert (Hx : x ∈ filter (fun x => x = y) (readies a (node w))) by (rewrite E; by left).
    apply list_elem_of_filter in Hx as [-> Hx]. apply Forall_forall. intros a' Ha'.
    apply (proj2 ((proj1 (proj2 (proj2 (proj2 (proj2 (proj2 (proj2 (Hs a' Ha')))))))) y)). by apply Hrs.
Qed.

Lemma passed_ready_count y j l : forall p : nat -> nat,
  Forall (fun w => exists st K, world_inv st addresses K w) l ->
  (kind_count (READY, y) (concat (imap (fun i w => take (p i) (outbox j w)) l))
   <= length (filter (ready_everywhere y) l))%nat.
Proof.
  induction l as [|w l IH]; intros p Hall; [done|]. apply Forall_cons in Hall as [(st & K & Hi) Hall].
  cbn [imap concat]. unfold kind_count. rewrite filter_app, length_app, filter_cons.
  specialize (IH (p ∘ S) Hall). unfold kind_count in IH.
  assert (Hle : (kind_count (READY, y) (take (p 0%nat) (outbox j w)) <= kind_count (READY, y) (outbox j w))%nat).
  { apply kind_count_submseteq. rewrite <- (take_drop (p 0%nat) (outbox j w)) at 2.
    by apply submseteq_inserts_r. }
  pose proof (outbox_ready_count st K y j w Hi) as Ho. unfold kind_count in Hle, Ho.
  unfold compose in *. destruct (decide (ready_everywhere y w)); cbn [length]; lia.
Qed.

Lemma arrived_ready_count net y j :
  net_inv net -> (kind_count (READY, y) (arrived j net) <= length (filter (ready_everywhere y) (processes net)))%nat.
Proof.
  intros (_ & Hw & _). apply (passed_ready_count y j _ (fun i => passed_at i j net)), Forall_forall.
  intros w [j1 Hj]%list_elem_of_lookup. destruct (Hw j1 w Hj) as [Hinv _]. eauto.
Qed.

(** C6: nothing is invented: over all interleavings of all threads of all processes of a network that delays
    and loses messages, every message a process ever sends to another is about a block that a leader
    proposed, and only leaders propose. *)
Theorem messages_have_origin (net0 net : Network) (i : nat) (w : process) (a : string) (m : Message) :
  net_start net0 -> net_reachable net0 net -> processes net !! i = Some w -> a ∈ addresses ->
  m ∈ client_outbox (grpcClient_ (node w)) a ->
  exists i' w' a' m', processes net !! i' = Some w' /\ is_leader w' = true /\ a' ∈ addresses /\
    m' ∈ client_outbox (grpcClient_ (node w')) a' /\ type_ m' = SEND /\
    Header_getID (header_ (block_ m')) = Header_getID (header_ (block_ m)).
Proof.
  intros H0 Hr Hi Ha Hm. pose proof (net_reachable_inv net0 net H0 Hr) as Hn.
  pose proof Hn as (_ & Hw & _ & Hrd). destruct (Hw i w Hi) as [(h & Hh & _ & _ & _ & _ & Ho) _].
  assert (Ho' : origin net (kind m).2).
  { specialize (Ho a m Ha Hm). destruct (type_ m) eqn:Et.
    - apply (arrived_origin net i SEND); [done|]. eapply elem_of_submseteq; [|exact Hh].
      rewrite map_app. apply elem_of_app. by left.
    - exists i, w, a, m. split_and!; try done. unfold kind. by rewrite Et.
    - by apply (Hrd i w a m). }
  destruct Ho' as (i' & w' & a' & m' & H1 & H2 & H3 & H4 & [= H5 H6]).
  exists i', w', a', m'. by split_and!.
Qed.

(** C1: agreement and validity in a network of correct processes that delays and loses messages: a block is
    delivered at one process only if a leader proposed it and more than [2 f + 1] different processes have
    handed a READY message about it to the connection with every process, so that every other process
    receives enough READY messages to deliver it too, unless they are lost. *)
Theorem delivery_has_quorum (net0 net : Network) (j : nat) (w : process) (x : string) :
  net_start net0 -> net_reachable net0 net -> processes net !! j = Some w ->
  x ∈ accepted_blocks_ (node w) ->
  exists y, stale j y = Ok x /\ origin net y /\
    2 * f_ (config_ (node w)) + 1 < Z.of_nat (length (filter (ready_everywhere y) (processes net))).
Proof.
  intros H0 Hr Hj Hx. pose proof (net_reachable_inv net0 net H0 Hr) as Hn.
  pose proof Hn as (_ & Hw & _). destruct (Hw j w Hj) as [(h & Hh & _ & _ & Hs & _) [Hf _]].
  destruct (some_address addresses Haddresses) as [a Ha].
  destruct (Hs a Ha) as (_ & _ & _ & _ & _ & _ & _ & _ & Hmd). destruct (Hmd x Hx) as (y & Hy & Hc).
  exists y. split_and!; [done| |].
  - apply (arrived_origin net j READY); [done|]. eapply elem_of_submseteq; [|exact Hh].
    rewrite map_app. apply elem_of_app. left. apply counted_kind. lia.
  - rewrite counted_kind_count in Hc. pose proof (arrived_ready_count net y j Hn).
    assert (kind_count (READY, y) (map kind h) <= kind_count (READY, y) (arrived j net))%nat; [|lia].
    apply kind_count_submseteq. etransitivity; [|exact Hh]. rewrite map_app. by apply submseteq_inserts_r.
Qed.
End Network.
