(* ===== verification/Bracha.v ===== *)
(** The broadcast of one block, without keys, signatures, texts and threads, and the proof that the
    network of processes can follow each of its runs: the protocol that src/lib/bracha/node.cc and
    src/lib/comms/ implement, as one would write it down. *)
From S2P Require Import Prelude Sha256 Json JsonRoundTrip Signature Transaction Block Message Database Comms Node Validator System Network.
Local Open Scope Z_scope.

(** * The protocol *)

(** What a process knows of the block: whether it was sent the block since its last round, how many ECHO
    and READY messages it counted, whether it sent its own READY message, and whether it delivered.
    [sent]: the messages it sent to all.  [inbox]: those that arrived and wait, by their sender and their
    position in what it sent.  [known]: for each sender, the position of the message whose signature can be
    checked. *)
Record party := mkParty {
  in_round : bool; echo_count : Z; sent_ready : bool; ready_count : Z; delivered : bool;
  sent : list MsgType; inbox : list (nat * nat); known : gmap nat nat
}.
Definition party_new : party := mkParty false 0 false 0 false [] [] ∅.

(** The parties, and how many messages passed from one to the other. *)
Record sketch := mkSketch { parties : list party; links : gmap (nat * nat) nat }.

Section Protocol.
Variables (n f : Z).

Definition say (t : MsgType) (p : party) : party :=
  mkParty (in_round p) (echo_count p) (sent_ready p) (ready_count p) (delivered p) (sent p ++ [t]) (inbox p) (known p).
Definition say_ready (p : party) : party :=
  let p := say READY p in
  mkParty (in_round p) (echo_count p) true (ready_count p) (delivered p) (sent p) (inbox p) (known p).
Definition set_round (b : bool) (p : party) : party :=
  mkParty b (echo_count p) (sent_ready p) (ready_count p) (delivered p) (sent p) (inbox p) (known p).
Definition set_inbox (l : list (nat * nat)) (p : party) : party :=
  mkParty (in_round p) (echo_count p) (sent_ready p) (ready_count p) (delivered p) (sent p) l (known p).
Definition set_known (k : gmap nat nat) (p : party) : party :=
  mkParty (in_round p) (echo_count p) (sent_ready p) (ready_count p) (delivered p) (sent p) (inbox p) k.
Definition conclude (p : party) : party :=
  mkParty (in_round p) (echo_count p) (sent_ready p) (ready_count p) true (sent p) (inbox p) (known p).

(** A message is counted; counters have 64 bits. *)
Definition hear (t : MsgType) (p : party) : option party :=
  match t with
  | SEND => Some (set_round true p)
  | ECHO =>
      if echo_count p <? 2 ^ 64 - 1
      then Some (mkParty (in_round p) (echo_count p + 1) (sent_ready p) (ready_count p) (delivered p) (sent p) (inbox p) (known p))
      else None
  | READY =>
      if ready_count p <? 2 ^ 64 - 1
      then Some (mkParty (in_round p) (echo_count p) (sent_ready p) (ready_count p + 1) (delivered p) (sent p) (inbox p) (known p))
      else None
  end.

(** The [k]-th message of party [i], of type [t]: its signature is checked with the key that came with the
    message before, or not at all when it is the first of [i] that arrives. *)
Definition accept (i k : nat) (t : MsgType) (p : party) : option party :=
  if bool_decide (default k (known p !! i) = k) then hear t (set_known (<[i := S k]> (known p)) p) else None.

Definition accept_from (ps : list party) (o : option party) (e : nat * nat) : option party :=
  p ← o; q ← ps !! e.1; t ← sent q !! e.2; accept e.1 e.2 t p.

Definition echo_part (p : party) : party := if in_round p then set_round false (say ECHO p) else p.
Definition ready_part (p : party) : party :=
  if (0 <? echo_count p) && (Z.quot (n + f + 1) 2 <=? echo_count p) && negb (sent_ready p) then say_ready p else p.
Definition amplify_part (p : party) : party :=
  if (0 <? ready_count p) && (f + 1 <=? ready_count p) && negb (sent_ready p) then say_ready p else p.
Definition deliver_part (p : party) : party :=
  if (0 <? ready_count p) && (2 * f + 1 <? ready_count p) then conclude p else p.
Definition round_of (p : party) : party := deliver_part (amplify_part (ready_part (echo_part p))).

(** A process works through its messages; a message arrives; a message is lost. *)
Inductive sketch_action := Take (i : nat) | Carry (i j : nat) | Drop (i j : nat).

Definition link (i j : nat) (s : sketch) : nat := default 0%nat (links s !! (i, j)).

Definition sketch_step (a : sketch_action) (s : sketch) : option sketch :=
  match a with
  | Take i =>
      p ← parties s !! i;
      if delivered p || match inbox p with [] => true | _ => false end then None
      else
        p' ← foldl (accept_from (parties s)) (Some (set_inbox [] (set_round false p))) (inbox p);
        Some (mkSketch (<[i := round_of p']> (parties s)) (links s))
  | Carry i j =>
      p ← parties s !! i; q ← parties s !! j;
      if (link i j s <? length (sent p))%nat then
        Some (mkSketch (<[j := set_inbox (inbox q ++ [(i, link i j s)]) q]> (parties s))
                (<[(i, j) := S (link i j s)]> (links s)))
      else None
  | Drop i j =>
      p ← parties s !! i; _ ← parties s !! j;
      if (link i j s <? length (sent p))%nat
      then Some (mkSketch (parties s) (<[(i, j) := S (link i j s)]> (links s))) else None
  end.

Definition sketch_run (l : list sketch_action) (s : sketch) : option sketch :=
  foldl (fun o a => s ← o; sketch_step a s) (Some s) l.
End Protocol.

(** An ordinary run: four processes, none faulty, the first of them a leader who has proposed. *)
Definition all_to_all (a : nat -> nat -> sketch_action) (l : list nat) : list sketch_action :=
  concat (map (fun i => map (a i) [0; 1; 2; 3]%nat) l).
Example four_parties_deliver :
  let p := say SEND party_new in
  let l := all_to_all Carry [0]%nat ++ map Take [0; 1; 2; 3]%nat ++ all_to_all Carry [0; 1; 2; 3]%nat ++
    map Take [0; 1; 2; 3]%nat ++ all_to_all Carry [0; 1; 2; 3]%nat ++ map Take [0; 1; 2; 3]%nat in
  (map delivered ∘ parties) <$> sketch_run 4 0 l (mkSketch [p; party_new; party_new; party_new] ∅)
  = Some [true; true; true; true].
Proof. vm_compute. reflexivity. Qed.

(** * The nodes follow the protocol *)

Section Following.
Context `{Hash} {C : Type} `{!Client C}.
Variables (dev : device) (order : gmap string Z -> list (string * Z)) (stale : string -> outcome string)
  (block_memory : Z).
(** The block, the coins it is checked against, the addresses of all and the numbers of all and of the
    faulty. *)
Variables (blk : Block) (coins : UTXOlist) (wallets : list Z) (addresses : list string) (N f : Z).
Let x : string := Header_getID (header_ blk).

Hypothesis Hblk : mutable_ blk = false.
Hypothesis Hverify : Block_verify blk coins wallets = true.
Hypothesis Htxs : Forall (fun t => is_u16 (senderID_ t) /\ key_wf (public_key_ t)) (txs_ blk).
Hypothesis Hdev : device_ok dev.
Hypothesis Horder : order_ok order.
Hypothesis Hstale : stale x = Ok x.
Hypothesis Hname : x <> "".
(** A client keeps running when it is given a message. *)
Variable alive : C -> Prop.
Hypothesis Halive : forall m c c' r, client_ok c -> alive c -> client_broadcast m c = Ok (c', r) -> alive c'.

(** Signed by process [i] with the key that [key] belongs to; the next one comes with it. *)
Definition signed (i : nat) (key next : SigKey) (m : Message) : Prop :=
  same_content blk (block_ m) /\ validator_id_ (block_ m) = Z.of_nat i /\
  validator_next_public_key_ (block_ m) = next /\ sender_id_ m = Z.of_nat i /\ is_u32 (round_ m) /\
  exists d, Block_getDigest (block_ m) = Ok d /\ Verify d (validator_sig_ (block_ m)) key = Ok 1.

(** All that process [i] sent, and the keys, the first of them that of its first message. *)
Definition chained (i : nat) (M : list Message) (keys : list SigKey) : Prop :=
  length keys = S (length M) /\ Forall full_text_key keys /\
  forall k m, M !! k = Some m -> exists key next,
    keys !! k = Some key /\ keys !! S k = Some next /\ signed i key next m.

(** The sending half of a node. *)
Definition speaks (i : nat) (p : party) (M : list Message) (keys : list SigKey) (nd : Node (C := C)) : Prop :=
  node_id_ (config_ nd) = Z.of_nat i /\ is_u16 (Z.of_nat i) /\
  client_ok (grpcClient_ nd) /\ alive (grpcClient_ nd) /\ client_servers (grpcClient_ nd) = addresses /\
  (forall a, a ∈ addresses -> client_outbox (grpcClient_ nd) a = M) /\ map type_ M = sent p /\
  chained i M keys /\ generated KEY_LEN_ (my_next_key_pair_ nd) /\
  keys !! length M = Some (Signature.public_key_ (my_next_key_pair_ nd)).

(** The block that collects the signatures is there once a READY message has been counted. *)
Definition stored (p : party) (nd : Node (C := C)) : Prop :=
  match blocks_ nd !! x with
  | Some b => same_content blk b
  | None => delivered p = false /\ ready_count p = 0
  end.

(** The receiving half, and what was counted. *)
Definition counts (p : party) (nd : Node (C := C)) : Prop :=
  n_ (config_ nd) = N /\ f_ (config_ nd) = f /\ utxolist_ nd = coins /\ wallet_ids_ nd = wallets /\
  should_broadcast_ nd = negb (delivered p) /\ accepted_blocks_ nd = (if delivered p then [x] else []) /\
  stored p nd /\
  (delivered p = false ->
    send_this_round_ nd = (if in_round p then x else "") /\ echo_this_round_ nd = counter x (echo_count p) /\
    ready_this_round_ nd = counter x (ready_count p) /\ ready_sent_ nd = (if sent_ready p then {[x]} else ∅) /\
    0 <= echo_count p < 2 ^ 64 /\ 0 <= ready_count p < 2 ^ 64 /\
    match blk_list_ nd !! x with
    | Some b => same_content blk b
    | None => in_round p = false /\ echo_count p = 0 /\ ready_count p = 0
    end).
Definition knows (all_keys : nat -> list SigKey) (p : party) (nd : Node (C := C)) : Prop :=
  forall j, match known p !! j with
    | None => val_sig_keys_ nd !! Z.of_nat j = None
    | Some k => exists key, all_keys j !! k = Some key /\ val_sig_keys_ nd !! Z.of_nat j = Some key
    end.

Lemma counts_view p (nd nd' : Node (C := C)) : view nd' = view nd -> counts p nd -> counts p nd'.
Proof.
  unfold counts, stored, view. intros E. injection E as -> -> -> -> -> -> -> -> _ -> _ _ -> ->. done.
Qed.
Lemma knows_view keys p (nd nd' : Node (C := C)) : view nd' = view nd -> knows keys p nd -> knows keys p nd'.
Proof. unfold knows, view. intros E. by injection E as _ _ _ _ _ _ _ _ _ _ -> _ _ _. Qed.

Lemma chained_snoc i M keys next m key :
  chained i M keys -> keys !! length M = Some key -> full_text_key next -> signed i key next m ->
  chained i (M ++ [m]) (keys ++ [next]).
Proof.
  intros (Hl & Hk & Hs) Hkey Hn Hm. split_and!.
  - rewrite !length_app, Hl. cbn. lia.
  - apply Forall_app. split; [done|by apply Forall_singleton].
  - intros k m' [Hin|[Hge Hin]]%lookup_app_Some.
    + destruct (Hs k m' Hin) as (key' & next' & H1 & H2 & H3). exists key', next'.
      by split_and!; [apply lookup_app_l_Some..|].
    + apply list_lookup_singleton_Some in Hin as [Hz <-]. assert (k = length M) as -> by lia.
      exists key, next. split_and!; [by apply lookup_app_l_Some| |done].
      rewrite lookup_app_r by lia. by rewrite Hl, Nat.sub_diag.
Qed.

(** ** Broadcasts *)

Lemma broadcast_says t r p i M keys nd b :
  speaks i p M keys nd -> same_content blk b -> is_u32 r ->
  exists nd' m key, broadcastMessage dev t b r nd = Ok nd' /\ view nd' = view nd /\
    speaks i (say t p) (M ++ [m]) (keys ++ [key]) nd'.
Proof.
  intros (Hid & Hi & Hok & Hal & Hsrv & Hout & Hty & Hch & Hg & Hkey) Hb Hr.
  assert (Hm : mutable_ b = false) by (destruct Hb as (_ & _ & _ & ->); done).
  unfold broadcastMessage. destruct (signBlock_ok dev b nd Hdev Hg Hm) as (n1 & b1 & Es).
  rewrite Es. cbn [mbind outcome_bind].
  destruct (signBlock_inv _ _ _ _ _ Es) as (_ & Hc & Hv & Hcl & Hvid & Hg1 & Hnext & d & Hd & Hsig).
  set (m := Message_new t b1 (node_id_ (config_ n1)) r). cbn [grpcClient_ set_mutex_grpc].
  destruct (broadcast_spec m (grpcClient_ n1)) as (c & Ec & Hc' & Hsrv' & Hout'); [by rewrite Hcl|].
  rewrite Ec. cbn [mbind outcome_bind]. eexists _, m, _. split; [reflexivity|]. split; [done|].
  apply Halive in Ec as Hal'; [|by rewrite Hcl..].
  rewrite Hcl in Hsrv', Hout'. unfold speaks. cbn.
  rewrite (view_config _ _ Hv), Hsrv', length_app, map_app, Hty. split_and!; try done.
  - intros a Ha. by rewrite Hout', Hout by (by rewrite ?Hsrv).
  - eapply chained_snoc; [exact Hch|exact Hkey|by apply generated_full_text|].
    unfold signed, m. cbn. rewrite Hvid, (view_config _ _ Hv), Hid. split_and!; try done; [by etrans|].
    exists d. split; [done|]. destruct (sign_verify d _ _ (generated_pair _ Hg)) as (sig & Hs1 & Hv1).
    rewrite Hsig in Hs1. by injection Hs1 as <-.
  - cbn. rewrite Nat.add_1_r. rewrite lookup_app_r by (rewrite (proj1 Hch); lia).
    by rewrite (proj1 Hch), Nat.sub_diag.
Qed.

(** ** Receiving *)

Lemma signed_received i key next m : signed i key next m -> signed i key next (Message.received m).
Proof.
  intros ((H1 & H2 & H3 & H4) & H5 & H6 & H7 & H8 & d & Hd & Hv). unfold signed, Message.received. cbn.
  split_and!; try done.
  exists d. split; [|done]. revert Hd. unfold Block_getDigest. cbn. by rewrite H4, Hblk.
Qed.

Lemma signed_sendable i key next m : is_u16 (Z.of_nat i) -> full_text_key next -> signed i key next m ->
  sendable (block_ m).
Proof.
  intros Hi Hk ((H1 & H2 & H3 & H4) & H5 & H6 & H7 & _). unfold sendable. rewrite H2, H4, H5, H6. done.
Qed.

Lemma check_known p nd i k all_keys key next m :
  knows all_keys p nd -> default k (known p !! i) = k -> all_keys i !! k = Some key ->
  all_keys i !! S k = Some next -> full_key key -> full_key next -> signed i key next m ->
  exists nd', checkBlockSig (block_ m) nd = Ok (nd', true) /\
    nd' = set_val_sig_keys (<[Z.of_nat i := next]> (val_sig_keys_ nd)) nd /\
    knows all_keys (set_known (<[i := S k]> (known p)) p) nd'.
Proof.
  intros Hk Hd Ekey Enext Fkey Fnext (_ & Hvid & Hnext & _ & _ & d & Hdg & Hv).
  eexists. split; [|split; [reflexivity|]].
  - unfold checkBlockSig. rewrite Hvid, Hnext, Hdg. cbn [mbind outcome_bind]. specialize (Hk i).
    destruct (print_full _ Fkey) as [s1 P1], (print_full _ Fnext) as [s2 P2].
    destruct (known p !! i) as [k'|]; cbn in Hd, Hk |- *.
    + subst k'. destruct Hk as (key' & Ekey' & ->). rewrite Ekey in Ekey'. injection Ekey' as <-.
      rewrite Hv. cbn. rewrite P1. cbn. by rewrite P2.
    + rewrite Hk. cbn. by rewrite P2.
  - intros j. cbn. destruct (decide (j = i)) as [->|Hne].
    + rewrite !lookup_insert_eq. by exists next.
    + rewrite !lookup_insert_ne by lia. apply Hk.
Qed.

(** What sending needs of a node. *)
Definition voice (nd : Node (C := C)) := (config_ nd, grpcClient_ nd, my_next_key_pair_ nd).

Lemma speaks_voice i p p' M keys nd nd' : voice nd' = voice nd -> sent p' = sent p ->
  speaks i p M keys nd -> speaks i p' M keys nd'.
Proof. unfold speaks, voice. intros [= -> -> ->] ->. done. Qed.

Lemma count_message_counts t p p' b nd :
  delivered p = false -> counts p nd -> blocks_ nd !! x <> None -> same_content blk b -> hear t p = Some p' ->
  counts p' (count_message t b x nd) /\ voice (count_message t b x nd) = voice nd /\
  val_sig_keys_ (count_message t b x nd) = val_sig_keys_ nd /\ known p' = known p /\
  sent p' = sent p /\ delivered p' = false /\ inbox p' = inbox p.
Proof.
  intros Hd (E1 & E2 & E3 & E4 & E5 & E6 & E7 & Hc) Hs Hb Hh. unfold stored in E7.
  destruct (Hc Hd) as (D1 & D2 & D3 & D4 & D5 & D6 & D7). unfold count_message.
  set (nd1 := match blk_list_ nd !! x with None => _ | Some _ => _ end).
  assert (Hn : exists b', same_content blk b' /\ blk_list_ nd1 !! x = Some b' /\
    nd1 = set_blk_list (blk_list_ nd1) nd).
  { unfold nd1. destruct (blk_list_ nd !! x) as [b'|] eqn:Eb.
    - exists b'. split_and!; [done|done|]. by destruct nd.
    - exists b. split_and!; [done|by apply lookup_insert_eq|by destruct nd]. }
  destruct Hn as (b' & Hb' & Eb & En). clearbody nd1. rewrite En.
  destruct t; cbn [hear] in Hh.
  2: injection Hh as <-.
  1: destruct (Z.ltb_spec (echo_count p) (2 ^ 64 - 1)) as [Hlt|]; [|done]; injection Hh as <-.
  3: destruct (Z.ltb_spec (ready_count p) (2 ^ 64 - 1)) as [Hlt|]; [|done]; injection Hh as <-.
  all: split; [|done]; unfold counts, stored; cbn; rewrite Eb, ?D2, ?D3; rewrite ?count_counter by lia.
  all: split_and!; [done..|by destruct (blocks_ nd !! x)|]; intros _; split_and!; try done; lia.
Qed.

Lemma store_signature_counts p nd b r : counts p nd -> same_content blk b ->
  counts p (store_signature b x r nd) /\ voice (store_signature b x r nd) = voice nd /\
  val_sig_keys_ (store_signature b x r nd) = val_sig_keys_ nd /\ blocks_ (store_signature b x r nd) !! x <> None.
Proof.
  intros (E1 & E2 & E3 & E4 & E5 & E6 & E7 & Hc) Hb. unfold store_signature. split_and!; try done.
  - unfold counts, stored. cbn. rewrite lookup_insert_eq. split_and!; try done.
    unfold stored in E7. destruct (blocks_ nd !! x); done.
  - cbn. by rewrite lookup_insert_eq.
Qed.

Lemma recv_counts all_keys p p' nd i k t key next m :
  knows all_keys p nd -> counts p nd -> delivered p = false -> accept i k t p = Some p' ->
  type_ m = t -> all_keys i !! k = Some key -> all_keys i !! S k = Some next ->
  full_key key -> full_key next -> signed i key next m ->
  exists nd', recv_message nd m = Ok nd' /\ knows all_keys p' nd' /\ counts p' nd' /\
    voice nd' = voice nd /\ sent p' = sent p /\ delivered p' = false /\ inbox p' = inbox p.
Proof.
  intros Hk Hc Hd Ha Ht Ekey Enext Fkey Fnext Hs. unfold accept in Ha.
  destruct (bool_decide_reflect (default k (known p !! i) = k)) as [Hdef|]; [|done].
  destruct (check_known p nd i k all_keys key next m Hk Hdef Ekey Enext Fkey Fnext Hs) as (nd1 & E1 & En1 & Hk1).
  set (p1 := set_known (<[i := S k]> (known p)) p) in *.
  pose proof Hs as (Hcont & _). pose proof Hcont as (Hhd & _).
  unfold recv_message. rewrite E1. cbn [mbind outcome_bind negb]. rewrite Hhd. fold x.
  assert (Hv : Block_verify (block_ m) (utxolist_ nd1) (wallet_ids_ nd1) = true).
  { destruct Hc as (_ & _ & Hu & Hw & _). rewrite En1. cbn. rewrite Hu, Hw.
    by rewrite (Block_verify_content _ _ _ _ Hcont). }
  rewrite Hv, andb_false_r. rewrite Ht.
  set (nd2 := if bool_decide (x ∈ verified_blocks_ nd1) then nd1 else set_verified_blocks _ nd1).
  set (nd3 := store_signature (block_ m) x (getRound m) nd2).
  assert (H2 : counts p1 nd2 /\ voice nd2 = voice nd /\ val_sig_keys_ nd2 = val_sig_keys_ nd1)
    by (unfold nd2; rewrite En1; by case_bool_decide).
  destruct H2 as (C2 & V2 & K2).
  destruct (store_signature_counts p1 nd2 (block_ m) (getRound m) C2 Hcont) as (C3 & V3 & K3 & B3).
  fold nd3 in C3, V3, K3, B3.
  destruct (count_message_counts t p1 p' (block_ m) nd3 Hd C3 B3 Hcont Ha) as (C4 & V4 & K4 & Ek & Es & Ed & Ei).
  eexists. split; [reflexivity|]. split; [|split; [exact C4|split; [by rewrite V4, V3|done]]].
  intros j. rewrite K4, K3, K2, Ek. apply Hk1.
Qed.

(** ** Rounds *)

(** A node of a process, with the keys of all others. *)
Definition adheres (all_keys : nat -> list SigKey) (i : nat) (p : party) (M : list Message)
    (keys : list SigKey) (nd : Node) : Prop :=
  speaks i p M keys nd /\ counts p nd /\ knows all_keys p nd.

Lemma follows_broadcast t r b all_keys i p M keys nd :
  adheres all_keys i p M keys nd -> same_content blk b -> is_u32 r ->
  exists nd' m key, broadcastMessage dev t b r nd = Ok nd' /\ view nd' = view nd /\
    adheres all_keys i (say t p) (M ++ [m]) (keys ++ [key]) nd'.
Proof.
  intros (Hs & Hc & Hk) Hb Hr.
  destruct (broadcast_says t r p i M keys nd b Hs Hb Hr) as (nd' & m & key & E & Hv & Hs').
  exists nd', m, key. split; [done|]. split; [done|]. split; [done|]. split.
  - by apply (counts_view p nd).
  - by apply (knows_view all_keys p nd).
Qed.

(** What a node has sent only grows. *)
Definition going_on (all_keys : nat -> list SigKey) (i : nat) (p : party) (M : list Message)
    (keys : list SigKey) (nd : Node) : Prop :=
  exists M' keys', adheres all_keys i p (M ++ M') (keys ++ keys') nd.

Lemma going_on_here all_keys i p M keys nd : adheres all_keys i p M keys nd -> going_on all_keys i p M keys nd.
Proof. exists [], []. by rewrite !app_nil_r. Qed.

Lemma broadcast_ready_going r all_keys i p M keys nd b :
  going_on all_keys i p M keys nd -> delivered p = false -> is_u32 r -> blk_list_ nd !! x = Some b ->
  same_content blk b ->
  exists nd', broadcast_ready dev block_memory x r nd = Ok nd' /\ view nd' = view (set_ready_sent (ready_sent_ nd') nd) /\
    going_on all_keys i (say_ready p) M keys nd'.
Proof.
  intros (M' & keys' & Hg) Hd Hr Hb Hc. unfold broadcast_ready, block_at. rewrite Hb.
  destruct (follows_broadcast READY r b _ _ _ _ _ _ Hg Hc Hr) as (nd' & m & key & E & Hv & Hs & Hct & Hk).
  rewrite E. cbn [mbind outcome_bind]. eexists. split; [reflexivity|]. split.
  { unfold view in Hv |- *. cbn. congruence. }
  exists (M' ++ [m]), (keys' ++ [key]). rewrite !app_assoc. split_and!; [done| |done].
  destruct Hct as (E1 & E2 & E3 & E4 & E5 & E6 & E7 & Hct). unfold counts. split_and!; [done..|].
  intros Hd'. destruct (Hct Hd') as (D1 & D2 & D3 & D4 & D5). split_and!; try done; [|cbn; apply D5..].
  cbn. rewrite D4. destruct (sent_ready _); [apply union_idemp_L|apply union_empty_r_L].
Qed.

Lemma order_counter k : order (counter x k) = if k =? 0 then [] else [(x, k)].
Proof.
  unfold counter. destruct (k =? 0).
  - apply Permutation_nil. by rewrite (Horder ∅), map_to_list_empty.
  - apply Permutation_singleton_r. by rewrite (Horder _), map_to_list_singleton.
Qed.

Lemma sent_ready_decide p (nd : Node (C := C)) : ready_sent_ nd = (if sent_ready p then {[x]} else ∅) ->
  negb (bool_decide (x ∈ ready_sent_ nd)) = negb (sent_ready p).
Proof. intros ->. f_equal. destruct (sent_ready p); [by apply bool_decide_eq_true_2, elem_of_singleton_2|done]. Qed.

Lemma view_ready_counts (nd nd' : Node (C := C)) :
  view nd' = view (set_ready_sent (ready_sent_ nd') nd) ->
  echo_this_round_ nd' = echo_this_round_ nd /\ ready_this_round_ nd' = ready_this_round_ nd /\
  blk_list_ nd' = blk_list_ nd.
Proof. unfold view. cbn. intros E. by injection E. Qed.

Lemma known_block p nd : counts p nd -> delivered p = false ->
  in_round p = true \/ 0 < echo_count p \/ 0 < ready_count p ->
  exists b, blk_list_ nd !! x = Some b /\ same_content blk b.
Proof.
  intros (_ & _ & _ & _ & _ & _ & _ & Hc) Hd Hk. destruct (Hc Hd) as (_ & _ & _ & _ & _ & _ & Hb).
  destruct (blk_list_ nd !! x) as [b|]; [by exists b|]. destruct Hb as (E1 & E2 & E3).
  destruct Hk as [Hk|[Hk|Hk]]; [congruence|lia..].
Qed.

(** The four parts of a round. *)
Lemma echo_part_going all_keys i p M keys nd :
  adheres all_keys i p M keys nd -> delivered p = false ->
  exists nd', (if negb (String.eqb (send_this_round_ nd) "") then
      let '(b, nd) := block_at block_memory (send_this_round_ nd) nd in
      nd ← broadcastMessage dev ECHO b 1 nd; Ok (set_send_this_round "" nd)
    else Ok nd) = Ok nd' /\ going_on all_keys i (echo_part p) M keys nd'.
Proof.
  intros Hg Hd. pose proof Hg as (_ & Hc & _). pose proof Hc as (_ & _ & _ & _ & _ & _ & _ & Hct).
  destruct (Hct Hd) as (D1 & _). rewrite D1. unfold echo_part. destruct (in_round p) eqn:Er.
  - destruct (String.eqb_spec x "") as [He|_]; [done|]. cbn [negb]. unfold block_at.
    destruct (known_block p nd Hc Hd) as (b & -> & Hb); [by left|].
    destruct (follows_broadcast ECHO 1 b _ _ _ _ _ _ Hg Hb) as (nd' & m & key & E & Hv & Hs & Hc' & Hk);
      [by split|].
    rewrite E. cbn [mbind outcome_bind]. eexists. split; [reflexivity|]. exists [m], [key].
    split_and!; [done| |done]. destruct Hc' as (E1 & E2 & E3 & E4 & E5 & E6 & E7 & Hc'). unfold counts.
    split_and!; [done..|]. intros Hd'. destruct (Hc' Hd') as (_ & D2 & D3 & D4 & D5 & D6 & D7).
    split_and!; try done; [by apply D5..|by apply D6|by apply D6|]. cbn in D7 |- *.
    destruct (blk_list_ nd' !! x); [done|]. by destruct D7 as (? & ? & ?).
  - exists nd. split; [done|]. by apply going_on_here.
Qed.

Lemma ready_part_going all_keys i p M keys nd :
  going_on all_keys i p M keys nd -> delivered p = false ->
  exists nd', foldM (echo_step dev block_memory) nd (order (echo_this_round_ nd)) = Ok nd' /\
    going_on all_keys i (ready_part N f p) M keys nd'.
Proof.
  intros Hg Hd. pose proof Hg as (M' & keys' & _ & Hc & _).
  pose proof Hc as (EN & Ef & _ & _ & _ & _ & _ & Hct). destruct (Hct Hd) as (_ & D2 & _ & D4 & D5 & _ & D7).
  rewrite D2, order_counter. unfold ready_part. destruct (Z.eqb_spec (echo_count p) 0) as [->|Hne].
  { exists nd. by split. }
  destruct (Z.ltb_spec 0 (echo_count p)); [|lia]. cbn [foldM andb].
  unfold echo_step, echo_threshold. rewrite EN, Ef, (sent_ready_decide p) by done.
  destruct (_ && _); cbn [mbind outcome_bind]; [|by exists nd].
  destruct (known_block p nd Hc Hd) as (b & Hb & Hcb); [by right; left|].
  destruct (broadcast_ready_going 2 _ _ _ _ _ _ b Hg Hd) as (nd' & -> & _ & Hg'); [by split|done..|].
  by exists nd'.
Qed.

Lemma amplify_part_going all_keys i p M keys nd :
  going_on all_keys i p M keys nd -> delivered p = false -> 0 < ready_count p ->
  exists nd', amplify dev block_memory nd (x, ready_count p) = Ok nd' /\
    going_on all_keys i (amplify_part f p) M keys nd'.
Proof.
  intros Hg Hd Hr. pose proof Hg as (M' & keys' & _ & Hc & _).
  pose proof Hc as (EN & Ef & _ & _ & _ & _ & _ & Hct). destruct (Hct Hd) as (_ & _ & _ & D4 & _).
  unfold amplify, amplify_part. rewrite Ef, (sent_ready_decide p) by done.
  destruct (Z.ltb_spec 0 (ready_count p)); [|lia]. cbn [andb].
  destruct (_ && _); [|by exists nd].
  destruct (known_block p nd Hc Hd) as (b & Hb & Hcb); [by right; right|].
  destruct (broadcast_ready_going 3 _ _ _ _ _ _ b Hg Hd) as (nd' & -> & _ & Hg'); [by split|done..|].
  by exists nd'.
Qed.

Lemma deliver_going all_keys i p M keys nd :
  going_on all_keys i p M keys nd -> delivered p = false -> 0 < ready_count p ->
  exists nd', deliver stale x nd = Ok nd' /\ going_on all_keys i (conclude p) M keys nd'.
Proof.
  intros (M' & keys' & Hs & Hc & Hk) Hd Hr. unfold deliver. rewrite Hstale. cbn [mbind outcome_bind].
  eexists. split; [reflexivity|]. exists M', keys'. split_and!; [exact Hs| |exact Hk].
  destruct Hc as (E1 & E2 & E3 & E4 & E5 & E6 & E7 & _). unfold counts. cbn. rewrite E6, Hd.
  split_and!; try done. unfold stored in *. cbn. destruct (blocks_ nd !! x); [done|]. destruct E7. lia.
Qed.

Lemma parts_delivered p : delivered (echo_part p) = delivered p /\ delivered (ready_part N f p) = delivered p /\
  delivered (amplify_part f p) = delivered p /\ ready_count (echo_part p) = ready_count p /\
  ready_count (ready_part N f p) = ready_count p /\ ready_count (amplify_part f p) = ready_count p.
Proof.
  unfold echo_part, ready_part, amplify_part. destruct (in_round p), (_ && _ && negb _), (_ && _ && negb _);
    by split_and!.
Qed.

(** A round of a node is a round of the protocol. *)
Lemma broadcastRound_going all_keys i p M keys nd :
  adheres all_keys i p M keys nd -> delivered p = false ->
  exists nd', broadcastRound dev order stale block_memory nd = Ok nd' /\
    going_on all_keys i (round_of N f p) M keys nd'.
Proof.
  intros Hg Hd. unfold broadcastRound, round_of.
  assert (Hg0 : adheres all_keys i p M keys (set_should_broadcast true nd)).
  { destruct Hg as (Hs & (E1 & E2 & E3 & E4 & E5 & E6 & E7 & Hc) & Hk). split; [done|]. split; [|done].
    unfold counts. cbn. rewrite Hd in E6 |- *. split_and!; [done..|]. intros _. by apply Hc. }
  destruct (echo_part_going _ _ _ _ _ _ Hg0 Hd) as (n1 & E1 & H1). rewrite E1. cbn [mbind outcome_bind].
  pose proof (parts_delivered p) as (Hd1 & _). rewrite Hd in Hd1. set (p1 := echo_part p) in *.
  destruct (ready_part_going _ _ _ _ _ _ H1 Hd1) as (n2 & E2 & H2). rewrite E2. cbn [mbind outcome_bind].
  set (p2 := ready_part N f p1) in *. pose proof (parts_delivered p1) as (_ & Hd2 & _).
  fold p2 in Hd2. rewrite Hd1 in Hd2.
  pose proof H2 as (M' & keys' & _ & Hc & _). destruct Hc as (_ & Ef & _ & _ & _ & _ & _ & Hc).
  destruct (Hc Hd2) as (_ & _ & D3 & _ & _ & Hr & _).
  rewrite D3, order_counter. destruct (Z.eqb_spec (ready_count p2) 0) as [Hz|Hne].
  { exists n2. split; [done|]. unfold deliver_part.
    assert (amplify_part f p2 = p2) as -> by (unfold amplify_part; by rewrite Hz).
    by rewrite Hz. }
  destruct (amplify_part_going _ _ _ _ _ _ H2 Hd2) as (n3 & E3 & H3); [lia|]. cbn [ready_loop].
  rewrite E3. cbn [mbind outcome_bind fst snd]. set (p3 := amplify_part f p2) in *.
  pose proof (parts_delivered p2) as (_ & _ & Hd3 & _ & _ & Hr3). fold p3 in Hd3, Hr3. rewrite Hd2 in Hd3.
  pose proof H3 as (M3 & keys3 & _ & (_ & Ef3 & _) & _). rewrite Ef3. unfold deliver_part. rewrite Hr3.
  destruct (Z.ltb_spec 0 (ready_count p2)); [|lia]. cbn [andb].
  destruct (2 * f + 1 <? ready_count p2); [apply deliver_going; [done..|lia]|by exists n3].
Qed.

(** ** Turns *)

(** What the parties sent, with the keys of each. *)
Definition told (all_sent : nat -> list Message) (all_keys : nat -> list SigKey) (ps : list party) : Prop :=
  forall i q, ps !! i = Some q -> map type_ (all_sent i) = sent q /\ chained i (all_sent i) (all_keys i).

(** The message at a position of what a party sent, as it arrives. *)
Definition arrived_as (all_sent : nat -> list Message) (e : nat * nat) (m : Message) : Prop :=
  exists m0, all_sent e.1 !! e.2 = Some m0 /\ m = Message.received m0.

Lemma accept_from_None ps es : foldl (accept_from ps) None es = None.
Proof. by induction es. Qed.

Lemma recv_all_counts all_sent all_keys ps : told all_sent all_keys ps ->
  forall es ms p p' nd, knows all_keys p nd -> counts p nd -> delivered p = false ->
  Forall2 (arrived_as all_sent) es ms -> foldl (accept_from ps) (Some p) es = Some p' ->
  exists nd', foldM recv_message nd ms = Ok nd' /\ knows all_keys p' nd' /\ counts p' nd' /\
    voice nd' = voice nd /\ sent p' = sent p /\ delivered p' = false /\ inbox p' = inbox p.
Proof.
  intros Htold es. induction es as [|[i k] es IH]; intros ms p p' nd Hk Hc Hd Hms Hp.
  { apply Forall2_nil_inv_l in Hms as ->. injection Hp as <-. by exists nd. }
  apply Forall2_cons_inv_l in Hms as (m & ms' & (m0 & Hm0 & ->) & Hms & ->). cbn [fst snd] in Hm0.
  cbn [foldl] in Hp. destruct (accept_from ps (Some p) (i, k)) as [p1|] eqn:Ea;
    [|by rewrite accept_from_None in Hp].
  unfold accept_from in Ea. cbn in Ea. destruct (ps !! i) as [q|] eqn:Eq; [|done]. cbn in Ea.
  destruct (Htold i q Eq) as [Hty (_ & Hfull & Hch)].
  destruct (Hch k m0 Hm0) as (key & next & Ekey & Enext & Hs).
  rewrite <- Hty, list_lookup_fmap, Hm0 in Ea. cbn in Ea.
  rewrite Forall_lookup in Hfull.
  destruct (recv_counts all_keys p p1 nd i k (type_ m0) key next (Message.received m0)) as
    (n1 & E1 & Hk1 & Hc1 & V1 & S1 & D1 & I1); try done.
  - by apply (Hfull k).
  - by apply (Hfull (S k)).
  - by apply signed_received.
  - destruct (IH ms' p1 p' n1 Hk1 Hc1 D1 Hms Hp) as (nd' & E & H1 & H2 & H3 & H4 & H5 & H6).
    exists nd'. cbn [foldM]. rewrite E1. cbn [mbind outcome_bind]. split_and!; try done; congruence.
Qed.

Lemma mutex_follows m all_keys i p M keys nd :
  adheres all_keys i p M keys nd -> adheres all_keys i p M keys (set_mutex_grpc m nd).
Proof. by destruct nd. Qed.

Lemma round_of_inbox p : inbox (round_of N f p) = inbox p.
Proof.
  unfold round_of, deliver_part. case_match; unfold amplify_part; case_match; unfold ready_part; case_match;
    unfold echo_part; by case_match.
Qed.

(** A turn of a process: it takes what arrived, and a round follows. *)
Lemma turn_going all_sent all_keys ps i p p' server nd :
  told all_sent all_keys ps -> adheres all_keys i p (all_sent i) (all_keys i) nd -> delivered p = false ->
  inbox p <> [] -> Forall2 (arrived_as all_sent) (inbox p) (mq_ server) ->
  foldl (accept_from ps) (Some (set_inbox [] (set_round false p))) (inbox p) = Some p' ->
  exists nd', RunProtocol_step dev order stale block_memory server nd =
      Some (Ok (mkServer [] (txq_ server) (utxolists_ server) (calls server) (replies server), nd')) /\
    going_on all_keys i (round_of N f p') (all_sent i) (all_keys i) nd' /\ inbox (round_of N f p') = [].
Proof.
  intros Htold (Hs & Hc & Hk) Hd Hne Hms Hp. unfold RunProtocol_step.
  pose proof Hc as (_ & _ & _ & _ & Hsb & _). rewrite Hsb, Hd. cbn [negb].
  unfold RunTaskInWait. assert (newConsensusMessages server = true) as ->.
  { unfold newConsensusMessages. destruct (mq_ server); [|done].
    apply Forall2_nil_inv_r in Hms. by rewrite Hms in Hne. }
  cbn [orb]. rewrite getMessages_spec. cbn [app].
  set (n0 := set_mutex_grpc _ (set_mutex_grpc _ nd)). unfold updateRecvMessages.
  destruct (recv_all_counts all_sent all_keys ps Htold (inbox p) (mq_ server)
    (set_inbox [] (set_round false p)) p' (set_send_this_round "" n0)) as (n1 & E1 & Hk1 & Hc1 & V1 & S1 & D1 & I1);
    try done.
  - destruct Hc as (E1 & E2 & E3 & E4 & E5 & E6 & E7 & Hc). unfold counts. split_and!; [done..|].
    intros Hd'. destruct (Hc Hd') as (_ & F2 & F3 & F4 & F5 & F6 & F7). cbn.
    split_and!; try done; [apply F5|apply F5|apply F6|apply F6|].
    destruct (blk_list_ nd !! x); [done|]. by destruct F7 as (_ & ? & ?).
  - rewrite E1. cbn [mbind outcome_bind].
    assert (Hf1 : adheres all_keys i p' (all_sent i) (all_keys i) (set_mutex_grpc (unlock (mutex_grpc_ n1)) n1)).
    { apply mutex_follows. split; [|done]. by apply (speaks_voice i p p' _ _ nd n1). }
    destruct (broadcastRound_going _ _ _ _ _ _ Hf1 D1) as (nd' & E2 & Hg). rewrite E2. cbn [mbind outcome_bind].
    exists nd'. by rewrite round_of_inbox.
Qed.
End Following.

(** * The network follows the protocol *)

(** ** Sending *)

Definition lively (c : ValidatorClientImpl) : Prop :=
  wired c /\ stop_threads_ c = false /\ Forall (fun t => pc t <> Finished) (thread_pool_ c).

(** A client whose threads have just started. *)
Lemma started_client servers leader : NoDup servers -> (length servers <= 255)%nat ->
  exists c, startThreads_ (client_members servers leader) = Ok c /\ lively c /\ servers_ c = servers /\
    forall a, client_outbox c a = [].
Proof.
  intros Hn Hl. destruct (startThreads_wired servers leader Hn Hl) as (c & E & Hw & Hs & _ & Hq & Ht & _ & Hst & Hp).
  exists c. split_and!; [exact E| |done|].
  - split; [done|]. split; [done|]. eapply Forall_impl; [exact Hp|]. by intros t ->.
  - intros a. cbn. rewrite Ht. cbn. destruct (message_queues_ c !! a) as [k|]; [|done].
    destruct (queues c !! k) as [q|] eqn:Eq; [|done]. rewrite Forall_lookup in Hq. cbn. by apply (Hq k).
Qed.

Definition sends (c c' : ValidatorClientImpl) : Prop := exists k, RunThread_ k c = Some (Ok c').
Definition talkable (m : Message) : Prop := exists p, toProtoMessage m = Ok p.

Lemma lively_broadcast m c c' r : client_ok c -> lively c -> client_broadcast m c = Ok (c', r) -> lively c'.
Proof.
  intros Hw (_ & Hs & Hp). change (client_broadcast m c) with (Broadcast m c). rewrite Broadcast_wired by done. intros [= <- _]. split; [|done].
  by apply wired_queues; [apply length_map|].
Qed.

Lemma lively_alter k p c : p <> Finished -> Forall (fun t => pc t <> Finished) (thread_pool_ c) ->
  Forall (fun t => pc t <> Finished)
    (alter (fun t => mkThread (server_address t) (mq t) p) k (thread_pool_ c)).
Proof. intros Hp Hf. apply Forall_alter; [done|]. by intros. Qed.

(** A thread with nothing in its way hands all that its queue holds to the stub. *)
Lemma queue_drains k q : forall c, lively c -> queues c !! k = Some q -> Forall talkable q ->
  exists c', rtc sends c c' /\ lively c' /\ queues c' !! k = Some [].
Proof.
  induction q as [|m q IH]; intros c Hl Hq Ht; [by exists c|]. apply Forall_cons in Ht as [[p Hp] Ht].
  pose proof Hl as (Hw & Hs & Hpc). pose proof Hw as (_ & Hlq & Hlt & _).
  destruct (lookup_lt_is_Some_2 (thread_pool_ c) k) as [t Et].
  { rewrite Hlt, <- Hlq. by eapply lookup_lt_Some. }
  (* The thread waits, perhaps after another look at the stop flag. *)
  assert (Hwait : exists c1 t1, rtc sends c c1 /\ lively c1 /\ queues c1 = queues c /\
    thread_pool_ c1 !! k = Some t1 /\ pc t1 = Waiting).
  { destruct (pc t) eqn:Ep.
    - exists (set_pc k Waiting c). eexists. split_and!.
      + apply rtc_once. exists k. unfold RunThread_. by rewrite Et, Ep, Hs.
      + split_and!; [by apply wired_pc|done|by apply lively_alter].
      + done.
      + cbn. rewrite list_lookup_alter, decide_True, Et by done. done.
      + done.
    - by exists c, t.
    - rewrite Forall_lookup in Hpc. by destruct (Hpc k t Et). }
  destruct Hwait as (c1 & t1 & Hr & (Hw1 & Hs1 & Hp1) & Hq1 & Et1 & Ew).
  rewrite <- Hq1 in Hq. pose proof (RunThread_send k c1 t1 m q p Hw1 Et1 Ew Hq Hp) as Hsend.
  destruct (RunThread_outbox k c1 _ Hw1 Hsend) as (Hw2 & _).
  match type of Hsend with _ = Some (Ok ?c2) => destruct (IH c2) as (c' & Hr' & Hl' & Hq') end.
  - split_and!; [exact Hw2|done|by apply lively_alter].
  - cbn. apply list_lookup_insert_eq. by eapply lookup_lt_Some.
  - done.
  - exists c'. split_and!; [|done|done]. etrans; [exact Hr|]. eapply rtc_l; [by exists k|exact Hr'].
Qed.

Lemma sends_outbox c c' : rtc sends c c' -> wired c -> wired c' /\ servers_ c' = servers_ c /\
  forall a, a ∈ servers_ c -> client_outbox c' a = client_outbox c a.
Proof.
  induction 1 as [c|c c1 c' [k Hk] _ IH]; intros Hw; [done|].
  destruct (RunThread_outbox k c c1 Hw Hk) as (Hw1 & Es & Ho). destruct (IH Hw1) as (Hw' & Es' & Ho').
  split_and!; [done|congruence|]. intros a Ha. by rewrite Ho', Ho by congruence.
Qed.

(** All that a client was given for a server can be handed over. *)
Lemma all_talked c a : lively c -> a ∈ servers_ c -> Forall talkable (client_outbox c a) ->
  exists c', rtc sends c c' /\ lively c' /\ servers_ c' = servers_ c /\
    (forall a', a' ∈ servers_ c -> client_outbox c' a' = client_outbox c a') /\
    to_address a (talked c') = client_outbox c a.
Proof.
  intros Hl Ha Ht. pose proof Hl as (Hw & _). pose proof Hw as (_ & Hlq & _).
  pose proof Ha as [k Hk]%list_elem_of_lookup.
  destruct (lookup_lt_is_Some_2 (queues c) k) as [q Hq]; [rewrite Hlq; by eapply lookup_lt_Some|].
  rewrite (wired_outbox c k a q) in Ht |- * by done. apply Forall_app in Ht as [_ Ht].
  destruct (queue_drains k q c Hl Hq Ht) as (c' & Hr & Hl' & Hq').
  destruct (sends_outbox c c' Hr Hw) as (Hw' & Es & Ho). exists c'. split_and!; try done.
  rewrite <- (wired_outbox c k a q), <- Ho by done. rewrite (wired_outbox c' k a []) by (by rewrite ?Es).
  by rewrite app_nil_r.
Qed.

(** ** The simulation *)

Section Simulation.
Context `{Hash}.
Variables (dev : nat -> device) (order : nat -> gmap string Z -> list (string * Z))
  (stale : nat -> string -> outcome string) (block_memory memory : nat -> Z).
Variables (blk : Block) (coins : UTXOlist) (wallets : list Z) (addresses : list string) (N f : Z).
Let x : string := Header_getID (header_ blk).
Abbreviation process := (World (C := ValidatorClientImpl)).

Hypothesis Hblk : mutable_ blk = false.
Hypothesis Hverify : Block_verify blk coins wallets = true.
Hypothesis Htxs : Forall (fun t => is_u16 (senderID_ t) /\ key_wf (public_key_ t)) (txs_ blk).
Hypothesis Hdev : forall i, device_ok (dev i).
Hypothesis Horder : forall i, order_ok (order i).
Hypothesis Hstale : forall i, stale i x = Ok x.
Hypothesis Hname : x <> "".

Abbreviation adheres := (adheres blk coins wallets addresses N f lively).

Definition process_follows (all_sent : nat -> list Message) (all_keys : nat -> list SigKey) (i : nat)
    (p : party) (w : process) : Prop :=
  adheres all_keys i p (all_sent i) (all_keys i) (node w) /\
  Forall2 (arrived_as all_sent) (inbox p) (mq_ (server w)) /\ exists tag, waits (server w) Talk_call tag.

(** A network of processes whose nodes know of one block only, and where its broadcast stands. *)
Definition stands_by (all_sent : nat -> list Message) (all_keys : nat -> list SigKey) (s : sketch)
    (net : Network) : Prop :=
  length (parties s) = length addresses /\ length (processes net) = length addresses /\
  (forall i j, passed_at i j net = link i j s) /\
  forall i p w, parties s !! i = Some p -> processes net !! i = Some w ->
    process_follows all_sent all_keys i p w.
Definition stands (s : sketch) (net : Network) : Prop :=
  exists all_sent all_keys, stands_by all_sent all_keys s net.

Lemma stands_process s net i p : length (parties s) = length addresses ->
  length (processes net) = length addresses -> parties s !! i = Some p -> exists w, processes net !! i = Some w.
Proof. intros H1 H2 Hp. apply lookup_lt_is_Some_2. apply lookup_lt_Some in Hp. lia. Qed.

(** What a process sent can be handed over, and read on arrival. *)
Lemma follows_roundtrip all_keys i p M keys nd : adheres all_keys i p M keys nd ->
  forall k m, M !! k = Some m ->
  exists pm, toProtoMessage m = Ok pm /\ Message_from_proto (SEND, (0, 0), 0) pm = Ok (Message.received m).
Proof.
  intros ((_ & Hi & _ & _ & _ & _ & _ & (_ & Hfull & Hch) & _) & _) k m Hm.
  destruct (Hch k m Hm) as (key & next & Ekey & Enext & Hs).
  rewrite Forall_lookup in Hfull. apply (Hfull (S k)) in Enext as Hnext.
  apply Message_proto_roundtrip.
  - by eapply signed_sendable.
  - destruct Hs as (_ & _ & _ & -> & _). unfold is_u16, is_u64 in *. lia.
  - apply Hs.
Qed.

Lemma follows_talkable all_keys i p M keys nd : adheres all_keys i p M keys nd -> Forall talkable M.
Proof.
  intros Hfo. apply Forall_lookup. intros k m Hm.
  destruct (follows_roundtrip _ _ _ _ _ _ Hfo k m Hm) as (pm & Hpm & _). by exists pm.
Qed.

Lemma server_takes s tag pm m : waits s Talk_call tag -> Message_from_proto (SEND, (0, 0), 0) pm = Ok m ->
  exists s', Proceed (SEND, (0, 0), 0) tag (Send_request pm) s = Ok s' /\ mq_ s' = mq_ s ++ [m] /\
    exists tag', waits s' Talk_call tag'.
Proof.
  intros Hw Hm.
  assert (E : exists s', Proceed (SEND, (0, 0), 0) tag (Send_request pm) s = Ok s').
  { unfold Proceed. unfold waits in Hw. rewrite Hw. cbn [status_ kind_ Comms.process]. rewrite Hm. by eexists. }
  destruct E as [s' E]. exists s'. split; [done|].
  destruct (Proceed_call _ tag (Send_request pm) _ _ Hw E) as (s1 & rep & Ep & ->). cbn [Comms.process] in Ep.
  rewrite Hm in Ep. cbn in Ep. injection Ep as <- _. cbn [mq_]. split; [done|].
  exists (length (calls s)). unfold waits. cbn [calls].
  rewrite lookup_app_r by (rewrite length_insert; lia). by rewrite length_insert, Nat.sub_diag.
Qed.

(** What the others hold stays true when one process sends more. *)
Lemma more_sent all_sent all_keys i M' keys' j p w :
  let all_sent' k := if decide (k = i) then all_sent i ++ M' else all_sent k in
  let all_keys' k := if decide (k = i) then all_keys i ++ keys' else all_keys k in
  j <> i -> process_follows all_sent all_keys j p w -> process_follows all_sent' all_keys' j p w.
Proof.
  intros S' K' Hne ((Hs & Hc & Hk) & Hi & Ht).
  assert (S' j = all_sent j /\ K' j = all_keys j) as [ES EK] by (unfold S', K'; by rewrite !decide_False).
  split; [|split; [|done]].
  - rewrite ES, EK. split_and!; [done|done|]. intros j'. specialize (Hk j').
    destruct (known p !! j') as [k|]; [|done]. destruct Hk as (key & Ek & Ev). exists key. split; [|done].
    unfold K'. destruct (decide (j' = i)) as [->|]; [by apply lookup_app_l_Some|done].
  - eapply Forall2_impl; [exact Hi|]. intros [j' k] m (m0 & Em & ->). exists m0. split; [|done].
    unfold S'. cbn [fst snd] in *. destruct (decide (j' = i)) as [->|]; [by apply lookup_app_l_Some|done].
Qed.

Lemma more_known all_keys i keys' p (nd : Node (C := ValidatorClientImpl)) :
  knows all_keys p nd -> knows (fun k => if decide (k = i) then all_keys i ++ keys' else all_keys k) p nd.
Proof.
  intros Hk j'. specialize (Hk j'). destruct (known p !! j') as [k|]; [|done].
  destruct Hk as (key & Ek & Ev). exists key. split; [|done].
  destruct (decide (j' = i)) as [->|]; [by apply lookup_app_l_Some|done].
Qed.

(** ** Quiet runs

    Runs in which only certain processes act, and they only broadcast. *)

Abbreviation net_step := (net_step dev order stale block_memory memory addresses).

Definition quiet (P : nat -> Prop) (a : net_action) : Prop :=
  match a with
  | Local j Consensus_act => P j
  | Local _ _ => False
  | Sending i _ => P i
  | Arrive _ j _ _ => P j
  | Lose _ _ => True
  end.

Inductive quiet_reachable (P : nat -> Prop) (net0 : Network) : Network -> Prop :=
| quiet_here : quiet_reachable P net0 net0
| quiet_next a net net' : quiet_reachable P net0 net -> quiet P a -> net_step a net = Some (Ok net') ->
    quiet_reachable P net0 net'.

Lemma quiet_trans P net0 net1 net2 :
  quiet_reachable P net0 net1 -> quiet_reachable P net1 net2 -> quiet_reachable P net0 net2.
Proof. intros H1 H2. induction H2 as [|a net net' _ IH Hq Hs]; [done|]. by eapply quiet_next. Qed.

Lemma quiet_net P net0 net : quiet_reachable P net0 net ->
  net_reachable dev order stale block_memory memory addresses net0 net.
Proof. induction 1 as [|a net net' _ IH _ Hs]; [apply net_here|]. by eapply net_next. Qed.

(** What the broadcast leaves alone in a process. *)
Definition frame (w : process) :=
  (validator w, handler w, locals w, (listen w, proposing w, storing w), txq_ (server w), utxolists_ (server w)).

Lemma Consensus_frame i w w' :
  step (dev i) (order i) (stale i) (block_memory i) (memory i) Consensus_act w = Some (Ok w') -> frame w' = frame w.
Proof.
  cbn [step]. unfold ConsensusProcess, RunProtocol_step. destruct (should_broadcast_ (node w)); [|done].
  unfold RunTaskInWait. destruct (_ || _); [|done]. rewrite getMessages_spec. intros [= E].
  apply bind_Ok in E as ([s n] & E & [= <-]).
  apply bind_Ok in E as ([s1 n1] & (n2 & _ & [= <- <-])%bind_Ok & (n3 & _ & [= <- <-])%bind_Ok). done.
Qed.

Lemma Arrive_frame m tag pm w w' : Rpc m tag (Send_request pm) w = Some (Ok w') -> frame w' = frame w.
Proof.
  unfold Rpc, Proceed. destruct (calls (server w) !! tag) as [[[k []]|]|]; try done; cbn [status_ kind_ request_kind].
  - destruct k; try done. intros [= E].
    apply bind_Ok in E as (s & ([s1 rep] & (m' & _ & [= <- <-])%bind_Ok & [= <-])%bind_Ok & [= <-]). done.
  - by intros [= <-].
Qed.

Lemma insert_same_frame (l : list process) i w w' : l !! i = Some w -> frame w' = frame w ->
  map frame (<[i := w']> l) = map frame l.
Proof.
  intros Hw E. change (frame <$> <[i := w']> l = frame <$> l).
  rewrite list_fmap_insert, E. apply list_insert_id. by rewrite list_lookup_fmap, Hw.
Qed.

Lemma quiet_step_frame P a net net' : quiet P a -> net_step a net = Some (Ok net') ->
  map frame (processes net') = map frame (processes net) /\
  forall k, ~ P k -> processes net' !! k = processes net !! k.
Proof.
  intros Hq. destruct a as [j [| | | | |]|i k|i j m tag|i j]; try done; cbn [Network.net_step].
  - destruct (processes net !! j) as [w|] eqn:Ew; [|done]. cbn [mbind option_bind is_local].
    destruct (step _ _ _ _ _ Consensus_act w) as [r|] eqn:E; [|done]. intros [= Hr].
    apply bind_Ok in Hr as (w' & -> & [= <-]). apply Consensus_frame in E. split; [by eapply insert_same_frame|].
    intros k Hk. cbn. apply list_lookup_insert_ne. by intros ->.
  - destruct (processes net !! i) as [w|] eqn:Ew; [|done]. cbn [mbind option_bind].
    destruct (RunThread_ k _) as [r|] eqn:E; [|done]. intros [= Hr].
    apply bind_Ok in Hr as (c & -> & [= <-]). split; [by eapply insert_same_frame|].
    intros k' Hk. cbn. apply list_lookup_insert_ne. by intros ->.
  - destruct (processes net !! j) as [w|] eqn:Ew; [|done]. cbn [mbind option_bind].
    destruct (handed addresses i j net !! passed_at i j net) as [msg|]; [|done]. cbn [mbind option_bind].
    destruct (toProtoMessage msg) as [pm| | |]; try done.
    destruct (is_local _ _); [done|]. destruct (Rpc m tag _ w) as [r|] eqn:E; [|done]. intros [= Hr].
    apply bind_Ok in Hr as (w' & -> & [= <-]). apply Arrive_frame in E. split; [by eapply insert_same_frame|].
    intros k Hk. cbn. apply list_lookup_insert_ne. by intros ->.
  - destruct (_ !! _); [|done]. by intros [= <-].
Qed.

Lemma quiet_frame P net0 net : quiet_reachable P net0 net ->
  map frame (processes net) = map frame (processes net0) /\
  forall k, ~ P k -> processes net !! k = processes net0 !! k.
Proof.
  induction 1 as [|a net net' _ [IH1 IH2] Hq Hs]; [done|]. destruct (quiet_step_frame _ _ _ _ Hq Hs) as [E1 E2].
  split; [by rewrite E1|]. intros k Hk. by rewrite E2, IH2.
Qed.

(** Who acts in the protocol. *)
Definition acts (P : nat -> Prop) (a : sketch_action) : Prop :=
  match a with Take i => P i | Carry i j => P i /\ P j | Drop i _ => P i end.
Variable P : nat -> Prop.

(** A process takes its turn. *)
Lemma take_followed i s s' net : P i -> stands s net -> sketch_step N f (Take i) s = Some s' ->
  exists net', quiet_reachable P net net' /\ stands s' net'.
Proof.
  intros HP (all_sent & all_keys & Hlp & Hln & Hl & Hpf) Hstep. cbn in Hstep.
  destruct (parties s !! i) as [p|] eqn:Ep; [|done]. cbn in Hstep.
  destruct (delivered p) eqn:Ed; [done|]. cbn [orb] in Hstep.
  destruct (match inbox p with [] => true | _ => false end) eqn:Ei; [done|].
  assert (Hne : inbox p <> []) by (by destruct (inbox p)). clear Ei.
  destruct (foldl _ _ (inbox p)) as [p'|] eqn:Ef; [|done]. cbn in Hstep. injection Hstep as <-.
  destruct (stands_process s net i p) as [w Ew]; [done..|].
  destruct (Hpf i p w Ep Ew) as (Hfo & Hin & tag & Htag).
  assert (Htold : told blk all_sent all_keys (parties s)).
  { intros j q Eq. destruct (stands_process s net j q) as [wj Ewj]; [done..|].
    destruct (Hpf j q wj Eq Ewj) as (((_ & _ & _ & _ & _ & _ & Hty & Hch & _) & _) & _). done. }
  destruct (turn_going (dev i) (order i) (stale i) (block_memory i) blk coins wallets addresses N f Hblk Hverify
    (Hdev i) (Horder i) (Hstale i) Hname lively lively_broadcast all_sent all_keys (parties s) i p p' (server w)
    (node w) Htold Hfo Ed Hne Hin Ef) as (nd' & E & (M' & keys' & Hs' & Hc' & Hk') & Hib).
  set (w' := set_node nd' (set_server (mkServer [] (txq_ (server w)) (utxolists_ (server w)) (calls (server w))
    (replies (server w))) w)).
  exists (set_process i w' net). split.
  { apply (quiet_next P _ (Local i Consensus_act) net); [apply quiet_here|done|]. cbn [Network.net_step].
    rewrite Ew. cbn [mbind option_bind is_local step]. unfold ConsensusProcess. by rewrite E. }
  set (all_sent' k := if decide (k = i) then all_sent i ++ M' else all_sent k).
  set (all_keys' k := if decide (k = i) then all_keys i ++ keys' else all_keys k).
  exists all_sent', all_keys'. unfold stands_by. cbn [parties set_process processes]. rewrite !length_insert.
  split_and!; [done|done|exact Hl|]. intros j q wj Hq [[-> ->]|[Hji Hwj]]%set_process_lookup.
  - rewrite list_lookup_insert_eq in Hq by (by eapply lookup_lt_Some). injection Hq as <-.
    split; [|split; [|by exists tag]].
    + unfold all_sent', all_keys'. rewrite !decide_True by done. split_and!; [done|done|].
      by apply more_known.
    + cbn [w' server set_node set_server mq_].
      rewrite Hib. constructor.
  - rewrite list_lookup_insert_ne in Hq by done.
    by apply more_sent; [|apply Hpf].
Qed.

(** The sending threads work. *)
Lemma sending_reachable i c c' : P i -> rtc sends c c' -> forall net (w : process), processes net !! i = Some w ->
  grpcClient_ (node w) = c ->
  quiet_reachable P net (set_process i (set_node (set_grpcClient c' (node w)) w) net).
Proof.
  intros HP. induction 1 as [c|c c1 c' [k Hk] _ IH]; intros net w Hw Hc.
  { assert (set_process i (set_node (set_grpcClient c (node w)) w) net = net) as ->; [|apply quiet_here].
    assert (set_node (set_grpcClient c (node w)) w = w) as ->
      by (subst c; by destruct w as [? ? [] ? ? ? ?]).
    unfold set_process. rewrite list_insert_id by done. by destruct net. }
  set (w1 := set_node (set_grpcClient c1 (node w)) w).
  apply (quiet_trans P _ (set_process i w1 net)).
  - apply (quiet_next P _ (Sending i k) net); [apply quiet_here|done|]. cbn [Network.net_step].
    rewrite Hw. cbn [mbind option_bind]. by rewrite Hc, Hk.
  - specialize (IH (set_process i w1 net) w1). 
    assert (set_process i (set_node (set_grpcClient c' (node w)) w) net
      = set_process i (set_node (set_grpcClient c' (node w1)) w1) (set_process i w1 net)) as ->.
    { unfold set_process. cbn [processes passed]. by rewrite list_insert_insert_eq. }
    apply IH; [|done]. apply list_lookup_insert_eq. by eapply lookup_lt_Some.
Qed.

Lemma handed_over all_sent all_keys s net i j p : P i ->
  stands_by all_sent all_keys s net -> parties s !! i = Some p -> (j < length addresses)%nat ->
  exists net', quiet_reachable P net net' /\
    stands_by all_sent all_keys s net' /\ handed addresses i j net' = all_sent i.
Proof.
  intros HP (Hlp & Hln & Hl & Hpf) Ep Hj. destruct (stands_process s net i p) as [w Ew]; [done..|].
  destruct (Hpf i p w Ep Ew) as ((Hs & Hc & Hk) & Hin & Ht).
  pose proof Hs as (Hid & Hi & Hok & Hal & Hsrv & Hout & Hrest).
  destruct (lookup_lt_is_Some_2 addresses j Hj) as [a Ea]. apply list_elem_of_lookup_2 in Ea as Ha.
  destruct (all_talked (grpcClient_ (node w)) a) as (c' & Hr & Hal' & Hsrv' & Hout' & Ht'); [done| | |].
  - change (servers_ ?c) with (client_servers c). by rewrite Hsrv.
  - rewrite Hout by done. eapply follows_talkable. by split_and!.
  - set (w' := set_node (set_grpcClient c' (node w)) w). exists (set_process i w' net).
    split; [by apply (sending_reachable i _ c' HP Hr)|]. split.
    + split; [done|]. split; [cbn; by rewrite length_insert|]. split; [done|].
      intros k q wk Hq [[-> ->]|[Hki Hwk]]%set_process_lookup; [|by apply Hpf].
      rewrite Ep in Hq. injection Hq as <-. split; [|done]. split_and!; [|done|done].
      change (servers_ ?c) with (client_servers c) in Hsrv', Hout'.
      unfold speaks. cbn [w' node set_node config_ grpcClient_ set_grpcClient my_next_key_pair_].
      split_and!; try done; [apply Hal'|by rewrite Hsrv'| |apply Hrest..].
      intros a' Ha'. rewrite Hout', Hout; [done..|by rewrite Hsrv].
    + unfold handed. cbn [set_process processes]. rewrite Ea.
      assert (<[i:=w']> (processes net) !! i = Some w') as ->
        by (apply list_lookup_insert_eq; by eapply lookup_lt_Some).
      cbn [w' node set_node grpcClient_ set_grpcClient]. by rewrite Ht', Hout.
Qed.

(** A message is lost. *)
Lemma passed_pass i j s net ps : (forall i j, passed_at i j net = link i j s) ->
  forall i' j', passed_at i' j' (pass i j net) = link i' j' (mkSketch ps (<[(i, j) := S (link i j s)]> (links s))).
Proof.
  intros Hl i' j'. rewrite passed_at_pass. unfold link at 1. cbn [links].
  destruct (decide ((i', j') = (i, j))) as [E|Hne].
  - rewrite E, lookup_insert_eq. cbn. by rewrite Hl.
  - rewrite lookup_insert_ne by done. apply Hl.
Qed.

Lemma next_message all_sent all_keys s net i p w k :
  stands_by all_sent all_keys s net -> parties s !! i = Some p -> processes net !! i = Some w ->
  (k < length (sent p))%nat -> exists m, all_sent i !! k = Some m.
Proof.
  intros (_ & _ & _ & Hpf) Ep Ew Hk. destruct (Hpf i p w Ep Ew) as (((_ & _ & _ & _ & _ & _ & Hty & _) & _) & _).
  apply lookup_lt_is_Some_2. by rewrite <- (length_map type_), Hty.
Qed.

Lemma drop_followed i j s s' net : P i ->
  stands s net -> sketch_step N f (Drop i j) s = Some s' ->
  exists net', quiet_reachable P net net' /\ stands s' net'.
Proof.
  intros HP (all_sent & all_keys & Hs) Hstep. cbn [sketch_step] in Hstep.
  destruct (parties s !! i) as [p|] eqn:Ep; [|done]. cbn [mbind option_bind] in Hstep.
  destruct (parties s !! j) as [q|] eqn:Eq; [|done]. cbn [mbind option_bind] in Hstep.
  assert (Hj : (j < length addresses)%nat) by (rewrite <- (proj1 Hs); by eapply lookup_lt_Some).
  destruct (Nat.ltb_spec (link i j s) (length (sent p))) as [Hlt|]; [|done]. injection Hstep as <-.
  destruct (handed_over _ _ _ _ i j p HP Hs Ep Hj) as (net1 & Hr & Hs1 & Hh).
  pose proof Hs1 as (Hlp & Hln & Hl & Hpf). destruct (stands_process s net1 i p) as [w Ew]; [done..|].
  destruct (next_message _ _ _ _ _ _ _ _ Hs1 Ep Ew Hlt) as [m Hm].
  exists (pass i j net1). split.
  - apply (quiet_next P _ (Lose i j) net1); [exact Hr|done|]. cbn [Network.net_step]. by rewrite Hh, Hl, Hm.
  - exists all_sent, all_keys. split; [done|]. split; [done|]. split; [by apply passed_pass|exact Hpf].
Qed.

(** A message arrives. *)
Lemma carry_followed i j s s' net : P i -> P j ->
  stands s net -> sketch_step N f (Carry i j) s = Some s' ->
  exists net', quiet_reachable P net net' /\ stands s' net'.
Proof.
  intros HPi HPj (all_sent & all_keys & Hs) Hstep. cbn [sketch_step] in Hstep.
  destruct (parties s !! i) as [p|] eqn:Ep; [|done]. cbn [mbind option_bind] in Hstep.
  destruct (parties s !! j) as [q|] eqn:Eq; [|done]. cbn [mbind option_bind] in Hstep.
  assert (Hj : (j < length addresses)%nat) by (rewrite <- (proj1 Hs); by eapply lookup_lt_Some).
  destruct (Nat.ltb_spec (link i j s) (length (sent p))) as [Hlt|]; [|done]. injection Hstep as <-.
  destruct (handed_over _ _ _ _ i j p HPi Hs Ep Hj) as (net1 & Hr & Hs1 & Hh).
  pose proof Hs1 as (Hlp & Hln & Hl & Hpf). destruct (stands_process s net1 i p) as [wi Ewi]; [done..|].
  destruct (stands_process s net1 j q) as [w Ew]; [done..|].
  destruct (next_message _ _ _ _ _ _ _ _ Hs1 Ep Ewi Hlt) as [m Hm].
  destruct (Hpf i p wi Ep Ewi) as (Hfi & _). destruct (Hpf j q w Eq Ew) as (Hfo & Hin & tag & Htag).
  destruct (follows_roundtrip _ _ _ _ _ _ Hfi (link i j s) m Hm) as (pm & Hpm & Hfrom).
  destruct (server_takes (server w) tag pm (Message.received m) Htag Hfrom) as (s1 & E1 & Emq & tag' & Htag').
  exists (pass i j (set_process j (set_server s1 w) net1)). split.
  - apply (quiet_next P _ (Arrive i j (SEND, (0, 0), 0) tag) net1); [exact Hr|done|]. cbn [Network.net_step].
    rewrite Ew. cbn [mbind option_bind]. rewrite Hh, Hl, Hm. cbn [mbind option_bind]. rewrite Hpm.
    cbn [is_local]. unfold Rpc. unfold waits in Htag. rewrite Htag. cbn [request_kind mbind option_bind].
    by rewrite E1.
  - exists all_sent, all_keys. unfold stands_by. cbn [parties pass processes set_process].
    rewrite !length_insert. split; [done|]. split; [done|]. split.
    { intros i' j'. change (passed_at i' j' (pass i j net1)
        = link i' j' (mkSketch (<[j := set_inbox (inbox q ++ [(i, link i j s)]) q]> (parties s))
            (<[(i, j) := S (link i j s)]> (links s)))). by apply passed_pass. }
    intros k r wk Hk [[-> ->]|[Hkj Hwk]]%set_process_lookup.
    + rewrite list_lookup_insert_eq in Hk by (by eapply lookup_lt_Some). injection Hk as <-.
      split; [exact Hfo|]. split; [|by exists tag'].
      cbn [server set_server inbox set_inbox]. rewrite Emq. apply Forall2_app; [done|].
      apply Forall2_cons. split; [by exists m|constructor].
    + rewrite list_lookup_insert_ne in Hk by done. by apply Hpf.
Qed.

(** Each run of the protocol is a run of the network. *)
Lemma run_followed l : Forall (acts P) l -> forall s s' net, stands s net -> sketch_run N f l s = Some s' ->
  exists net', quiet_reachable P net net' /\ stands s' net'.
Proof.
  induction 1 as [|a l Ha _ IH]; intros s s' net Hs; unfold sketch_run; cbn [foldl mbind option_bind].
  { intros [= <-]. exists net. split; [apply quiet_here|done]. }
  destruct (sketch_step N f a s) as [s1|] eqn:E.
  - intros Hrun. assert (exists net1,
      quiet_reachable P net net1 /\ stands s1 net1) as (net1 & Hr & H1).
    { destruct a as [i|i j|i j];
        [by eapply take_followed|destruct Ha as [Hi Hj]; by apply (carry_followed i j s s1 net Hi Hj)|by eapply drop_followed]. }
    destruct (IH s1 s' net1 H1 Hrun) as (net' & Hr' & H'). exists net'. split; [|done].
    by apply (quiet_trans P _ net1).
  - intros Hrun. exfalso. revert Hrun. clear. by induction l.
Qed.
End Simulation.
