(* ===== verification/Delivery.v ===== *)
(** A proposed block is delivered: a schedule of the protocol in which all parties deliver, for any number of
    parties, and with it a run of the network in which a leader creates a block from its memory pool and
    every process delivers it. *)
From S2P Require Import Prelude Sha256 Json JsonRoundTrip Signature Transaction Block Message Database Comms Node Validator System Network Bracha.
Local Open Scope Z_scope.

(** * A schedule of the protocol *)

Section Schedule.
(** The number of parties, how many of them may be faulty, and those that take part: the others do nothing. *)
Variables (count : nat) (f : Z) (live : list nat).
Let N : Z := Z.of_nat count.
Hypothesis Hnodup : NoDup live.
Hypothesis Hlive : forall j, j ∈ live -> (j < count)%nat.

(** All that wait for a message of the [senders] get it, and then all work through what they got. *)
Definition carries (senders receivers : list nat) : list sketch_action :=
  concat (map (fun j => map (fun i => Carry i j) senders) receivers).
Definition exchange (senders : list nat) : list sketch_action :=
  carries senders live ++ map Take live.

(** The block, the ECHO messages, the READY messages. *)
Definition schedule (leader : nat) : list sketch_action :=
  exchange [leader] ++ exchange live ++ exchange live.

(** The live parties and their links in a state. *)
Definition made_of (P : nat -> party) (L : nat -> nat -> nat) (s : sketch) : Prop :=
  length (parties s) = count /\ (forall j, j ∈ live -> parties s !! j = Some (P j)) /\
  forall i j, i ∈ live -> j ∈ live -> link i j s = L i j.

Lemma made_of_insert P L s j p : made_of P L s -> j ∈ live ->
  made_of (fun k => if decide (k = j) then p else P k) L (mkSketch (<[j := p]> (parties s)) (links s)).
Proof.
  intros (Hl & HP & HL) Hj. split; [cbn; by rewrite length_insert|]. split; [|exact HL].
  intros k Hk. cbn. destruct (decide (k = j)) as [->|Hne].
  - apply list_lookup_insert_eq. apply Hlive in Hj. lia.
  - rewrite list_lookup_insert_ne by done. by apply HP.
Qed.

Lemma made_of_ext P P' L L' s : (forall j, j ∈ live -> P j = P' j) ->
  (forall i j, j ∈ live -> L i j = L' i j) ->
  made_of P L s -> made_of P' L' s.
Proof.
  intros HP HL (H1 & H2 & H3). split; [done|]. split; [|by intros; rewrite <- HL, H3].
  intros j Hj. by rewrite <- HP, H2.
Qed.

Lemma run_app l1 l2 s s1 s2 : sketch_run N f l1 s = Some s1 -> sketch_run N f l2 s1 = Some s2 ->
  sketch_run N f (l1 ++ l2) s = Some s2.
Proof. unfold sketch_run. rewrite foldl_app. by intros ->. Qed.

Lemma run_cons a l s s1 s2 : sketch_step N f a s = Some s1 -> sketch_run N f l s1 = Some s2 ->
  sketch_run N f (a :: l) s = Some s2.
Proof. unfold sketch_run. cbn [foldl mbind option_bind]. by intros ->. Qed.

(** ** Messages arrive *)

Definition got (L : nat -> nat -> nat) (senders : list nat) (j : nat) (p : party) : party :=
  set_inbox (inbox p ++ map (fun i => (i, L i j)) senders) p.

Lemma carries_one P L s j senders : made_of P L s -> j ∈ live -> NoDup senders ->
  Forall (fun i => i ∈ live /\ (L i j < length (sent (P i)))%nat) senders ->
  exists s', sketch_run N f (map (fun i => Carry i j) senders) s = Some s' /\
    made_of (fun k => if decide (k = j) then got L senders j (P j) else P k)
      (fun i k => if decide (k = j /\ i ∈ senders) then S (L i k) else L i k) s'.
Proof.
  intros Hs Hj Hnd. revert P L s Hs. induction Hnd as [|i senders Hi Hnd IH]; intros P L s Hs Hall.
  { exists s. split; [done|]. eapply made_of_ext; [| |exact Hs].
    - intros k Hk. destruct (decide _) as [->|]; [|done]. unfold got. cbn. rewrite app_nil_r. by destruct (P j).
    - intros i k _. rewrite decide_False; [done|]. intros [_ Hin]. by apply elem_of_nil in Hin. }
  apply Forall_cons in Hall as [[Hic Hlt] Hall]. pose proof Hs as (Hl & HP & HL).
  set (s1 := mkSketch (<[j := got L [i] j (P j)]> (parties s)) (<[(i, j) := S (L i j)]> (links s))).
  set (P1 := fun k => if decide (k = j) then got L [i] j (P j) else P k).
  set (L1 := fun i' k => if decide ((i', k) = (i, j)) then S (L i j) else L i' k).
  assert (H1 : made_of P1 L1 s1).
  { destruct (made_of_insert P L s j (got L [i] j (P j)) Hs Hj) as (E1 & E2 & _).
    split; [exact E1|]. split; [exact E2|]. intros i' k Hi' Hk. unfold link, L1. cbn [links s1].
    destruct (decide ((i', k) = (i, j))) as [->|Hne]; [by rewrite lookup_insert_eq|].
    rewrite lookup_insert_ne by done. by apply HL. }
  destruct (IH P1 L1 s1 H1) as (s' & Hrun & Hs').
  { rewrite Forall_forall in Hall |- *. intros i' Hin. destruct (Hall i' Hin) as [Hi' Hlt']. split; [done|].
    unfold L1, P1. rewrite decide_False by (intros [= ->]; done). by destruct (decide (i' = j)) as [->|]. }
  exists s'. split.
  - cbn [map]. eapply run_cons; [|exact Hrun]. cbn [sketch_step]. rewrite (HP i Hic), (HP j Hj).
    cbn [mbind option_bind]. rewrite (HL i j) by done. destruct (Nat.ltb_spec (L i j) (length (sent (P i)))); [done|lia].
  - eapply made_of_ext; [| |exact Hs'].
    + intros k Hk. unfold P1. destruct (decide (k = j)) as [->|]; [|done].
      rewrite decide_True by done. unfold got. cbn. rewrite <- app_assoc. cbn.
      assert (map (fun i => (i, L1 i j)) senders = map (fun i => (i, L i j)) senders) as ->; [|done].
      apply map_ext_in. intros i' Hi'%list_elem_of_In. unfold L1. rewrite decide_False; [done|]. by intros [= ->].
    + intros i' k _. cbn beta. unfold L1. destruct (decide (k = j /\ i' ∈ senders)) as [[-> Hin]|Hn].
      * destruct (decide ((i', j) = (i, j))) as [[= ->]|]; [done|].
        by rewrite decide_True by (by split; [|right]).
      * destruct (decide ((i', k) = (i, j))) as [[= -> ->]|Hne].
        { by rewrite decide_True by (by split; [|left]). }
        rewrite decide_False; [done|]. intros [-> [->|Hin]%elem_of_cons]; [done|]. by apply Hn.
Qed.

Lemma carries_all P L s senders receivers : made_of P L s -> NoDup senders -> NoDup receivers ->
  Forall (fun j => j ∈ live /\
    Forall (fun i => i ∈ live /\ (L i j < length (sent (P i)))%nat) senders) receivers ->
  exists s', sketch_run N f (carries senders receivers) s = Some s' /\
    made_of (fun k => if decide (k ∈ receivers) then got L senders k (P k) else P k)
      (fun i k => if decide (k ∈ receivers /\ i ∈ senders) then S (L i k) else L i k) s'.
Proof.
  intros Hs Hnd Hr. revert P L s Hs. induction Hr as [|j receivers Hj Hr IH]; intros P L s Hs Hall.
  { exists s. split; [done|]. eapply made_of_ext; [| |exact Hs].
    - intros k _. by rewrite decide_False by apply not_elem_of_nil.
    - intros i k _. rewrite decide_False; [done|]. by intros [?%elem_of_nil _]. }
  apply Forall_cons in Hall as [[Hjc Hsend] Hall].
  destruct (carries_one P L s j senders Hs Hjc Hnd Hsend) as (s1 & Hrun1 & H1).
  destruct (IH _ _ s1 H1) as (s' & Hrun & Hs').
  { rewrite Forall_forall in Hall |- *. intros k Hk. destruct (Hall k Hk) as [Hkc Hks]. split; [done|].
    eapply Forall_impl; [exact Hks|]. cbn. intros i [Hic Hlt]. split; [done|].
    rewrite decide_False by (intros [-> _]; done). by destruct (decide (i = j)) as [->|]. }
  exists s'. split; [by eapply run_app|]. eapply made_of_ext; [| |exact Hs'].
  - intros k Hk. cbn beta. destruct (decide (k ∈ receivers)) as [Hin|Hn].
    + assert (Hne : k <> j) by (by intros ->). rewrite (decide_True (P := k ∈ j :: receivers)) by (by right).
      rewrite !(decide_False (P := k = j)) by done. unfold got. do 2 f_equal. apply map_ext. intros i.
      by rewrite decide_False by (intros [? _]; done).
    + destruct (decide (k = j)) as [->|Hne].
      * by rewrite (decide_True (P := j ∈ j :: receivers)) by (by left).
      * by rewrite (decide_False (P := k ∈ j :: receivers)) by (intros [?|?]%elem_of_cons; done).
  - intros i k _. cbn beta. destruct (decide (k ∈ receivers /\ i ∈ senders)) as [[Hin Hi]|Hn].
    + rewrite (decide_False (P := k = j /\ _)) by (intros [-> _]; done).
      by rewrite decide_True by (by split; [right|]).
    + destruct (decide (k = j /\ i ∈ senders)) as [[-> Hi]|Hn'].
      * by rewrite decide_True by (by split; [left|]).
      * rewrite decide_False; [done|]. intros [[->|Hin]%elem_of_cons Hi]; [by apply Hn'|by apply Hn].
Qed.

(** ** Turns *)

(** What counting [m] messages of a type does, and what is known of their senders afterwards. *)
Definition hears (t : MsgType) (m : nat) (k : gmap nat nat) (p : party) : party :=
  mkParty (in_round p || match t with SEND => (0 <? m)%nat | _ => false end)
    (echo_count p + match t with ECHO => Z.of_nat m | _ => 0 end) (sent_ready p)
    (ready_count p + match t with READY => Z.of_nat m | _ => 0 end) (delivered p) (sent p) (inbox p) k.
Definition learn (B : nat -> nat) (senders : list nat) (k : gmap nat nat) : gmap nat nat :=
  foldl (fun k i => <[i := S (B i)]> k) k senders.

Lemma learn_lookup B senders : forall k i, NoDup senders ->
  learn B senders k !! i = if decide (i ∈ senders) then Some (S (B i)) else k !! i.
Proof.
  induction senders as [|j senders IH]; intros k i Hnd; cbn [learn foldl]; [done|].
  apply NoDup_cons in Hnd as [Hj Hnd]. change (learn B senders (<[j:=S (B j)]> k) !! i
    = if decide (i ∈ j :: senders) then Some (S (B i)) else k !! i).
  rewrite IH by done. destruct (decide (i ∈ senders)) as [Hin|Hn].
  - by rewrite decide_True by (by right).
  - destruct (decide (i = j)) as [->|Hne].
    + by rewrite lookup_insert_eq, decide_True by (by left).
    + by rewrite lookup_insert_ne, decide_False by (done || by intros [?|?]%elem_of_cons).
Qed.

Lemma accept_all ps t B senders : forall p, NoDup senders ->
  Forall (fun i => exists q, ps !! i = Some q /\ sent q !! B i = Some t /\ default (B i) (known p !! i) = B i)
    senders ->
  echo_count p + Z.of_nat (length senders) < 2 ^ 64 -> ready_count p + Z.of_nat (length senders) < 2 ^ 64 ->
  foldl (accept_from ps) (Some p) (map (fun i => (i, B i)) senders)
  = Some (hears t (length senders) (learn B senders (known p)) p).
Proof.
  induction senders as [|i senders IH]; intros p Hnd Hall He Hr.
  { cbn. unfold hears. destruct p, t; cbn; by rewrite ?orb_false_r, ?Z.add_0_r. }
  apply NoDup_cons in Hnd as [Hi Hnd]. apply Forall_cons in Hall as [(q & Eq & Et & Ed) Hall].
  cbn [map foldl length]. cbn [length] in He, Hr.
  assert (Ha : exists p1, accept_from ps (Some p) (i, B i) = Some p1 /\ known p1 = <[i := S (B i)]> (known p) /\
    p1 = hears t 1 (known p1) p).
  { unfold accept_from. cbn [mbind option_bind fst snd]. rewrite Eq. cbn [mbind option_bind]. rewrite Et.
    cbn [mbind option_bind]. unfold accept. rewrite bool_decide_eq_true_2 by done. unfold hears.
    destruct t; cbn [hear echo_count ready_count set_known].
    - destruct (Z.ltb_spec (echo_count p) (2 ^ 64 - 1)); [|lia]. eexists. split; [reflexivity|]. cbn.
      by rewrite orb_false_r, Z.add_0_r.
    - eexists. split; [reflexivity|]. cbn. by rewrite orb_true_r, !Z.add_0_r.
    - destruct (Z.ltb_spec (ready_count p) (2 ^ 64 - 1)); [|lia]. eexists. split; [reflexivity|]. cbn.
      by rewrite orb_false_r, Z.add_0_r. }
  destruct Ha as (p1 & -> & Ek & Ep1). rewrite (IH p1).
  - rewrite Ep1. cbn [known hears]. rewrite Ek. unfold hears. cbn [in_round echo_count ready_count sent_ready
      delivered sent inbox]. f_equal. f_equal; destruct t; try lia; by destruct (in_round p).
  - done.
  - rewrite Forall_forall in Hall |- *. intros j Hj. destruct (Hall j Hj) as (q' & E1 & E2 & E3).
    exists q'. split_and!; [done..|]. rewrite Ek, lookup_insert_ne; [done|]. by intros ->.
  - rewrite Ep1. cbn. destruct t; lia.
  - rewrite Ep1. cbn. destruct t; lia.
Qed.

Lemma round_of_sent p : exists l, sent (round_of N f p) = sent p ++ l.
Proof.
  assert (Hs : forall p b (q q' : party), (exists l, sent q = sent p ++ l) -> (exists l, sent q' = sent p ++ l) ->
    exists l, sent (if b : bool then q else q') = sent p ++ l) by (by intros p1 []).
  unfold round_of, deliver_part. set (p3 := amplify_part f _).
  assert (H3 : exists l, sent p3 = sent p ++ l); [|by apply Hs].
  unfold p3, amplify_part. set (p2 := ready_part N f _).
  assert (H2 : exists l, sent p2 = sent p ++ l).
  2:{ destruct H2 as [l E]. apply Hs; [|by exists l]. cbn. rewrite E, <- app_assoc. by eexists. }
  unfold p2, ready_part. assert (H1 : exists l, sent (echo_part p) = sent p ++ l).
  2:{ destruct H1 as [l E]. apply Hs; [|by exists l]. cbn. rewrite E, <- app_assoc. by eexists. }
  unfold echo_part. apply Hs; [by eexists|]. exists []. by rewrite app_nil_r.
Qed.

(** The turns of all, one after the other: each works on the same messages. *)
Lemma takes_all P L s t B senders receivers :
  let turn j := round_of N f (hears t (length senders) (learn B senders (known (P j)))
    (set_inbox [] (set_round false (P j)))) in
  made_of P L s -> NoDup senders -> senders <> [] -> NoDup receivers ->
  Forall (fun i => i ∈ live /\ sent (P i) !! B i = Some t) senders ->
  Forall (fun j => j ∈ live /\ inbox (P j) = map (fun i => (i, B i)) senders /\ delivered (P j) = false /\
    Forall (fun i => default (B i) (known (P j) !! i) = B i) senders /\
    echo_count (P j) + Z.of_nat (length senders) < 2 ^ 64 /\
    ready_count (P j) + Z.of_nat (length senders) < 2 ^ 64) receivers ->
  exists s', sketch_run N f (map Take receivers) s = Some s' /\
    made_of (fun k => if decide (k ∈ receivers) then turn k else P k) L s'.
Proof.
  intros turn Hs Hnd Hne Hr. revert P turn s Hs.
  induction Hr as [|j receivers Hj Hr IH]; intros P turn s Hs Hsend Hall.
  { exists s. split; [done|]. eapply made_of_ext; [|done|exact Hs]. intros k _. cbn beta.
    by rewrite decide_False by apply not_elem_of_nil. }
  apply Forall_cons in Hall as [(Hjc & Hib & Hd & Hk & He & Hrc) Hall]. pose proof Hs as (Hl & HP & HL).
  assert (Estep : sketch_step N f (Take j) s = Some (mkSketch (<[j := turn j]> (parties s)) (links s))).
  { cbn [sketch_step]. rewrite (HP j Hjc). cbn [mbind option_bind]. rewrite Hd, Hib. cbn [orb].
    assert (match map (fun i => (i, B i)) senders with [] => true | _ => false end = false) as ->
      by (by destruct senders).
    rewrite (accept_all _ t B senders); [done|done| |exact He|exact Hrc].
    rewrite Forall_forall in Hsend, Hk |- *. intros i Hi. destruct (Hsend i Hi) as [Hic Hb]. exists (P i).
    split; [by apply HP|]. split; [done|]. by apply Hk. }
  pose proof (made_of_insert P L s j (turn j) Hs Hjc) as H1.
  destruct (IH _ _ H1) as (s' & Hrun & Hs').
  - eapply Forall_impl; [exact Hsend|]. cbn. intros i [Hic Hb]. split; [done|].
    destruct (decide (i = j)) as [->|]; [|done].
    destruct (round_of_sent (hears t (length senders) (learn B senders (known (P j)))
      (set_inbox [] (set_round false (P j))))) as [l El].
    unfold turn. rewrite El. cbn. by apply lookup_app_l_Some.
  - rewrite Forall_forall in Hall |- *. intros k Hkr. cbn beta. rewrite decide_False by (by intros ->).
    by apply Hall.
  - exists s'. split; [by eapply run_cons|]. eapply made_of_ext; [|done|exact Hs'].
    intros k Hkc. cbn beta. destruct (decide (k ∈ receivers)) as [Hin|Hn].
    + assert (Hkj : k <> j) by (by intros ->). rewrite (decide_True (P := k ∈ j :: receivers)) by (by right).
      by rewrite (decide_False (P := k = j)) by done.
    + destruct (decide (k = j)) as [->|Hkj].
      * by rewrite (decide_True (P := j ∈ j :: receivers)) by (by left).
      * by rewrite (decide_False (P := k ∈ j :: receivers)) by (intros [?|?]%elem_of_cons; done).
Qed.

(** ** Exchanges *)

(** All are at the same point, and the [senders] have sent one message more than arrived. *)
Lemma exchanged t senders (T : nat -> list MsgType) e sr r K s :
  let U i := T i ++ (if decide (i ∈ senders) then [t] else []) in
  let m := Z.of_nat (length senders) in
  made_of (fun j => mkParty false e sr r false (U j) [] (K j)) (fun i _ => length (T i)) s ->
  NoDup senders -> senders <> [] -> Forall (fun i => i ∈ live) senders ->
  (forall i j, default (length (T i)) (K j !! i) = length (T i)) -> e + m < 2 ^ 64 -> r + m < 2 ^ 64 ->
  exists s' K', sketch_run N f (exchange senders) s = Some s' /\
    made_of (fun j => round_of N f (mkParty (match t with SEND => true | _ => false end)
        (e + match t with ECHO => m | _ => 0 end) sr (r + match t with READY => m | _ => 0 end) false (U j) [] (K' j)))
      (fun i _ => length (U i)) s' /\
    forall i j, default (length (U i)) (K' j !! i) = length (U i).
Proof.
  intros U m Hs Hnd Hne Hall HK He Hr. set (B i := length (T i)).
  rewrite Forall_forall in Hall.
  destruct (carries_all _ _ s senders live Hs Hnd Hnodup) as (s1 & Hrun1 & H1).
  { apply Forall_forall. intros j Hj. split; [done|]. apply Forall_forall. intros i Hi.
    split; [by apply Hall|]. cbn. unfold U. rewrite decide_True by done. rewrite length_app. cbn. lia. }
  apply (made_of_ext _ (fun j => mkParty false e sr r false (U j) (map (fun i => (i, B i)) senders) (K j))
    _ (fun i _ => length (U i))) in H1.
  - destruct (takes_all _ _ s1 t B senders live H1 Hnd Hne Hnodup) as (s2 & Hrun2 & H2).
    + apply Forall_forall. intros i Hi. split; [by apply Hall|]. cbn. unfold U, B. rewrite decide_True by done.
      rewrite lookup_app_r, Nat.sub_diag by lia. done.
    + apply Forall_forall. intros j Hj. split_and!; [done|done|done| |done|done].
      apply Forall_forall. intros i _. apply HK.
    + exists s2, (fun j => learn B senders (K j)). split; [by eapply run_app|]. split.
      * eapply made_of_ext; [|done|exact H2]. intros j Hj. cbn beta. rewrite decide_True by auto.
        unfold hears. cbn. do 3 f_equal. destruct t; try done. destruct senders; done.
      * intros i j. rewrite learn_lookup by done. unfold U. rewrite length_app.
        destruct (decide (i ∈ senders)); cbn; [unfold B; lia|].
        rewrite Nat.add_0_r. apply HK.
  - intros j Hj. cbn beta. by rewrite decide_True by auto.
  - intros i j Hj. cbn beta. unfold U. rewrite length_app. destruct (decide (i ∈ senders)) as [Hi|Hi].
    + rewrite decide_True by auto. cbn. lia.
    + rewrite decide_False by (intros [_ ?]; done). cbn. lia.
Qed.

(** The beginning: the leader has proposed. *)
Definition proposed (leader : nat) (s : sketch) : Prop :=
  made_of (fun j => if decide (j = leader) then say SEND party_new else party_new) (fun _ _ => 0%nat) s.

Hypothesis Hf : 0 <= f.
Hypothesis Hquorum : 2 * f + 1 < Z.of_nat (length live).
Hypothesis Hechoes : Z.quot (N + f + 1) 2 <= Z.of_nat (length live).
Hypothesis Hmax : 2 * Z.of_nat (length live) < 2 ^ 64.

(** With the schedule, all that are live deliver. *)
Lemma schedule_delivers leader s : leader ∈ live -> proposed leader s ->
  exists s', sketch_run N f (schedule leader) s = Some s' /\ length (parties s') = count /\
    forall j, j ∈ live -> exists p, parties s' !! j = Some p /\ delivered p = true.
Proof.
  intros Hlead Hs. set (T0 := fun _ : nat => @nil MsgType). set (M := Z.of_nat (length live)) in *.
  assert (Hallc : Forall (fun i => i ∈ live) live) by (by apply Forall_forall).
  assert (Hne : live <> []) by (intros E; by rewrite E, elem_of_nil in Hlead).
  destruct (exchanged SEND [leader] T0 0 false 0 (fun _ => ∅) s) as (s1 & K1 & R1 & H1 & D1).
  { eapply made_of_ext; [|done|exact Hs]. intros j Hj. cbn beta. destruct (decide (j = leader)) as [->|Hn].
    - by rewrite decide_True by (by left).
    - by rewrite decide_False by (by intros ?%list_elem_of_singleton). }
  { apply NoDup_singleton. } { done. } { by apply Forall_singleton. } { intros i j. by rewrite lookup_empty. }
  { cbn. lia. } { cbn. lia. }
  set (S0 := fun i => T0 i ++ (if decide (i ∈ [leader]) then [SEND] else [])) in *.
  destruct (exchanged ECHO live S0 0 false 0 K1 s1) as (s2 & K2 & R2 & H2 & D2);
    [|exact Hnodup|exact Hne|exact Hallc|exact D1|lia|lia|].
  { eapply made_of_ext; [|done|exact H1]. intros j Hj. cbn beta. by rewrite (decide_True (P := j ∈ live)). }
  set (S1 := fun i => S0 i ++ (if decide (i ∈ live) then [ECHO] else [])) in *.
  destruct (exchanged READY live S1 M true 0 K2 s2) as (s3 & K3 & R3 & H3 & D3);
    [|exact Hnodup|exact Hne|exact Hallc|exact D2|lia|lia|].
  { eapply made_of_ext; [|done|exact H2]. intros j Hj. cbn beta. unfold S1.
    rewrite !(decide_True (P := j ∈ live)) by done. fold M. rewrite Z.add_0_l. unfold round_of, echo_part.
    cbn [in_round]. unfold ready_part. cbn [echo_count sent_ready].
    rewrite (proj2 (Z.leb_le _ M) Hechoes). destruct (Z.ltb_spec 0 M); [done|lia]. }
  exists s3. split.
  - unfold schedule. eapply run_app; [exact R1|]. by eapply run_app.
  - destruct H3 as (Hl & HP & _). split; [exact Hl|]. intros j Hj. eexists. split; [by apply HP|].
    fold M. rewrite !Z.add_0_r, Z.add_0_l. unfold round_of, echo_part. cbn [in_round]. unfold ready_part.
    cbn [echo_count sent_ready negb]. rewrite andb_false_r. unfold amplify_part. cbn [ready_count sent_ready negb].
    rewrite andb_false_r. unfold deliver_part. cbn [ready_count].
    destruct (Z.ltb_spec 0 M); [|lia]. destruct (Z.ltb_spec (2 * f + 1) M); [done|lia].
Qed.

(** Only those that are live act. *)
Lemma exchange_acts senders : Forall (fun i => i ∈ live) senders ->
  Forall (acts (fun i => i ∈ live)) (exchange senders).
Proof.
  intros Hs. rewrite Forall_forall in Hs. apply Forall_app. split.
  - apply Forall_concat, Forall_forall. intros l (j & -> & Hj)%list_elem_of_fmap.
    apply Forall_forall. intros a (i & -> & Hi)%list_elem_of_fmap. split; [by apply Hs|done].
  - apply Forall_forall. by intros a (j & -> & Hj)%list_elem_of_fmap.
Qed.

Lemma schedule_acts leader : leader ∈ live -> Forall (acts (fun i => i ∈ live)) (schedule leader).
Proof.
  intros Hl. unfold schedule. rewrite !Forall_app. split_and!; apply exchange_acts;
    [by apply Forall_singleton|by apply Forall_forall..].
Qed.
End Schedule.

(** * From the memory pool of the leader to the agreed block *)

Section Delivery.
Context `{Hash}.
Variables (dev : nat -> device) (order : nat -> gmap string Z -> list (string * Z))
  (stale : nat -> string -> outcome string) (block_memory memory : nat -> Z).
Variables (blk : Block) (coins : UTXOlist) (wallets : list Z) (addresses : list string) (f : Z).
Let x : string := Header_getID (header_ blk).
Let N : Z := Z.of_nat (length addresses).
Abbreviation process := (World (C := ValidatorClientImpl)).
Abbreviation reachable_from := (net_reachable dev order stale block_memory memory addresses).
Abbreviation stands := (stands blk coins wallets addresses N f).
Abbreviation stands_by := (stands_by blk coins wallets addresses N f).

(** The processes after their start: the node has its addresses, its own number, a key pair, no keys of
    others and the coins; its sending threads run; an object waits for the first message. *)
Definition started (i : nat) (w : process) : Prop :=
  fresh (node w) /\ lively (grpcClient_ (node w)) /\ servers_ (grpcClient_ (node w)) = addresses /\
  node_id_ (config_ (node w)) = Z.of_nat i /\ n_ (config_ (node w)) = N /\ f_ (config_ (node w)) = f /\
  utxolist_ (node w) = coins /\ wallet_ids_ (node w) = wallets /\ should_broadcast_ (node w) = true /\
  send_this_round_ (node w) = "" /\ val_sig_keys_ (node w) = ∅ /\ blocks_ (node w) = ∅ /\
  generated KEY_LEN_ (my_next_key_pair_ (node w)) /\ mq_ (server w) = [] /\
  exists tag, waits (server w) Talk_call tag.
Definition all_started (net : Network) : Prop :=
  passed net = ∅ /\ length (processes net) = length addresses /\
  forall i w, processes net !! i = Some w -> started i w.

Hypothesis Hdev : forall i, device_ok (dev i).
Hypothesis Horder : forall i, order_ok (order i).
Hypothesis Hcount : N < 2 ^ 16.

Definition at_start : sketch := mkSketch (replicate (length addresses) party_new) ∅.

Lemma stands_at_start net : all_started net -> stands at_start net.
Proof.
  intros (Hp & Hl & Hw).
  exists (fun _ => []), (fun i => match processes net !! i with
    Some w => [Signature.public_key_ (my_next_key_pair_ (node w))] | None => [] end).
  split; [apply length_replicate|]. split; [done|]. split.
  { intros i j. unfold passed_at, link. by rewrite Hp. }
  intros i p w Hi Ei. apply lookup_replicate in Hi as [-> Hi].
  destruct (Hw i w Ei) as ((Hok & Hout & He & Hr & Hb & Hse & Ha) & Hal & Hsrv & Hid & HNn & Hf & Hu & Hwl & Hsb & Hsr & Hk & Hbs & Hg & Hq & Ht).
  unfold process_follows. cbn beta. rewrite Ei. split; [|split; [rewrite Hq; constructor|done]]. split_and!.
  - change (servers_ ?c) with (client_servers c) in Hsrv. unfold speaks. rewrite Hsrv in Hout.
    assert (is_u16 (Z.of_nat i)) by (unfold is_u16, N in *; lia).
    split_and!; try done. split; [done|]. split; [|by intros].
    by apply Forall_singleton, generated_full_text.
  - unfold counts, stored. rewrite Hsb, Ha, Hbs, lookup_empty. split_and!; try done. intros _. rewrite Hsr, He, Hr, Hse, Hb.
    by split_and!.
  - intros j. cbn. by rewrite lookup_empty, Hk, lookup_empty.
Qed.

(** A step that leaves alone the node and the messages that wait for it. *)
Lemma stands_same_node s net i w w' : stands s net -> processes net !! i = Some w -> node w' = node w ->
  mq_ (server w') = mq_ (server w) -> (forall tag, waits (server w) Talk_call tag -> waits (server w') Talk_call tag) ->
  stands s (set_process i w' net).
Proof.
  intros (all_sent & all_keys & Hlp & Hln & Hl & Hpf) Ew En Es Ht. exists all_sent, all_keys.
  split; [done|]. split; [cbn; by rewrite length_insert|]. split; [done|].
  intros j p wj Ep [[-> ->]|[_ Ewj]]%set_process_lookup; [|by apply Hpf].
  unfold process_follows. rewrite En, Es. destruct (Hpf i p w Ep Ew) as (H1 & H2 & tag & Htag).
  split_and!; [done..|]. exists tag. by apply Ht.
Qed.

(** A leader's proposal. *)
Lemma stands_proposed s net i p w w' nd' : mutable_ blk = false ->
  stands s net -> parties s !! i = Some p -> processes net !! i = Some w ->
  broadcastMessage (dev i) SEND blk 0 (node w) = Ok nd' -> node w' = nd' -> server w' = server w ->
  stands (mkSketch (<[i := say SEND p]> (parties s)) (links s)) (set_process i w' net).
Proof.
  intros Hm (all_sent & all_keys & Hlp & Hln & Hl & Hpf) Ep Ew Eb En Es.
  destruct (Hpf i p w Ep Ew) as (Hfo & Hin & Ht).
  destruct (follows_broadcast (dev i) blk coins wallets addresses N f Hm (Hdev i) lively lively_broadcast SEND 0 blk
    _ _ _ _ _ _ Hfo) as (nd2 & m & key & Eb' & _ & Hs' & Hc' & Hk'); [done|by split|].
  rewrite Eb in Eb'. injection Eb' as <-.
  exists (fun k => if decide (k = i) then all_sent i ++ [m] else all_sent k),
    (fun k => if decide (k = i) then all_keys i ++ [key] else all_keys k).
  split; [cbn; by rewrite length_insert|]. split; [cbn; by rewrite length_insert|]. split; [exact Hl|].
  intros j q wj Hq [[-> ->]|[Hji Ewj]]%set_process_lookup.
  - cbn in Hq. rewrite list_lookup_insert_eq in Hq by (by eapply lookup_lt_Some). injection Hq as <-.
    split; [|split].
    + rewrite !decide_True, En by done. split_and!; [done|done|]. by apply more_known.
    + rewrite Es. cbn. eapply Forall2_impl; [exact Hin|]. intros [j' k] m1 (m0 & Em & ->). exists m0.
      split; [|done]. cbn [fst snd] in *. destruct (decide (j' = i)) as [->|]; [by apply lookup_app_l_Some|done].
    + by rewrite Es.
  - cbn in Hq. rewrite list_lookup_insert_ne in Hq by done. apply more_sent; [done|]. by apply Hpf.
Qed.

Lemma CreateBlk_finalized lead b v v' b' : CreateBlk lead b v = Ok (v', b', 1) -> mutable_ b' = false.
Proof.
  unfold CreateBlk. destruct lead; [|done]. cbn [negb]. destruct (memory_pool_ v); [done|].
  intros ([v1 b1] & _ & (b2 & Hf & [= _ <-])%bind_Ok)%bind_Ok. unfold finalize in Hf.
  destruct (mutable_ b1); [|done]. cbn [negb] in Hf. by apply bind_Ok in Hf as (h & _ & [= <-]).
Qed.

(** The leader's threads: the event, its task, the handler. *)
Definition after_ProposeTask (i : nat) (v' : Validator) (nd' : Node) (w : process) : process :=
  set_node nd' (set_validator v' (set_handler
    (SubscriberEvent Event_PROPOSE (mkSubscriber (memory i) ProposeTask) (handler w)) w)).

Lemma leader_proposes i w v' nd' : is_leader w = true -> publist (handler w) = [] ->
  subsMap_ (handler w) Event_PROPOSE = [] -> proposing w = Proposing ->
  CreateBlk true (Block_empty (block_memory i)) (validator w) = Ok (v', blk, 1) ->
  broadcastMessage (dev i) SEND blk 0 (node w) = Ok nd' ->
  steps (dev i) (order i) (stale i) (block_memory i) (memory i) [Propose_act; Propose_act; Event_act] w
  = Some (Ok (after_ProposeTask i v' nd' w)).
Proof.
  intros Hl Hh Hs Hp Hc Hb. destruct w as [v sv nd [pub subs] lo li pr st]. unfold is_leader in Hl.
  cbn [node handler proposing validator publist subsMap_] in Hl, Hh, Hs, Hp, Hc, Hb. subst pub pr.
  cbn [steps step]. unfold ProposeProcess, is_leader. cbn [node proposing]. rewrite Hl. cbn [fmap option_fmap option_map].
  cbn [node proposing set_proposing set_handler]. rewrite Hl. cbn [fmap option_fmap option_map].
  unfold Event_turn, EventProcess. cbn. rewrite decide_True, Hs by done. cbn [map app func foldM run_task].
  unfold run_ProposeTask, is_leader. cbn [node validator set_handler set_proposing]. rewrite Hl.
  cbn [validator]. rewrite Hc. cbn [mbind outcome_bind]. change (1 =? 0) with false. cbn iota.
  unfold Validator_Propose, is_leader. cbn [node set_validator set_handler set_proposing]. rewrite Hl. cbn [negb].
  unfold Propose. by rewrite Hb.
Qed.

(** Steps of one process are steps of the network. *)
Lemma local_steps i l : Forall (fun a => match a with Rpc_act _ _ _ => False | _ => True end) l ->
  forall w w' net, processes net !! i = Some w ->
  steps (dev i) (order i) (stale i) (block_memory i) (memory i) l w = Some (Ok w') ->
  reachable_from net (set_process i w' net).
Proof.
  induction 1 as [|a l Ha _ IH]; intros w w' net Hw; cbn [steps].
  { intros [= <-]. unfold set_process. rewrite list_insert_id by done. destruct net. apply net_here. }
  destruct (step _ _ _ _ _ a w) as [[w1| | |]|] eqn:E; try done. intros Hl.
  assert (Hlk : processes (set_process i w1 net) !! i = Some w1)
    by (apply list_lookup_insert_eq; by eapply lookup_lt_Some).
  pose proof (IH w1 w' (set_process i w1 net) Hlk Hl) as Hr.
  assert (Hi : set_process i w' (set_process i w1 net) = set_process i w' net)
    by (unfold set_process; cbn; by rewrite list_insert_insert_eq).
  rewrite Hi in Hr. eapply net_reachable_trans, Hr. apply (net_next _ _ _ _ _ _ _ (Local i a) net); [apply net_here|].
  cbn [net_step]. rewrite Hw. cbn [mbind option_bind]. assert (is_local a w = true) as -> by (by destruct a).
  by rewrite E.
Qed.

(** What the run needs: a leader whose memory pool gives the block, a block that all accept, and enough
    processes that go on working. *)
Variables (leader : nat) (live : list nat).
Hypothesis Hverify : Block_verify blk coins wallets = true.
Hypothesis Htxs : Forall (fun t => is_u16 (senderID_ t) /\ key_wf (public_key_ t)) (txs_ blk).
Hypothesis Hstale : forall i, stale i x = Ok x.

Definition proposes (net : Network) (w : process) (v' : Validator) : Prop :=
  stands at_start net /\ processes net !! leader = Some w /\ is_leader w = true /\ publist (handler w) = [] /\
  subsMap_ (handler w) Event_PROPOSE = [] /\ proposing w = Proposing /\
  CreateBlk true (Block_empty (block_memory leader)) (validator w) = Ok (v', blk, 1).

Definition after_proposal : sketch :=
  mkSketch (<[leader := say SEND party_new]> (parties at_start)) (links at_start).

Lemma proposal_run net w v' : proposes net w v' ->
  exists nd', reachable_from net (set_process leader (after_ProposeTask leader v' nd' w) net) /\
    stands after_proposal (set_process leader (after_ProposeTask leader v' nd' w) net).
Proof.
  intros (Hs & Hw & Hlead & Hpub & Hsubs & Hprop & Hcreate). pose proof (CreateBlk_finalized _ _ _ _ _ Hcreate) as Hm.
  pose proof Hs as (all_sent & all_keys & _ & Hlen & _ & Hpf).
  assert (Hp : parties at_start !! leader = Some party_new).
  { apply lookup_replicate_2. rewrite <- Hlen. by eapply lookup_lt_Some. }
  destruct (Hpf leader _ w Hp Hw) as (((_ & _ & Hok & _ & _ & _ & _ & _ & Hg & _) & _) & _).
  destruct (broadcastMessage_ok (dev leader) SEND blk 0 (node w) (Hdev leader) Hg Hm Hok) as [nd' Hb].
  exists nd'. split.
  - eapply local_steps; [|exact Hw|by apply leader_proposes]. by repeat constructor.
  - by eapply stands_proposed.
Qed.

Lemma id_not_empty : x <> "".
Proof.
  intros E. pose proof (hash_length (prevBlockDigest_ (header_ blk) +:+ merkleRoot_ (header_ blk))) as Hl.
  change (String.length x = 64%nat) in Hl. by rewrite E in Hl.
Qed.

Lemma proposal_followed (P : nat -> Prop) (l : list sketch_action) net w v' s : proposes net w v' ->
  Forall (acts P) l -> sketch_run N f l after_proposal = Some s ->
  exists nd' net1 net', reachable_from net net1 /\
    net1 = set_process leader (after_ProposeTask leader v' nd' w) net /\
    quiet_reachable dev order stale block_memory memory addresses P net1 net' /\ stands s net'.
Proof.
  intros Hp Hl Hrun. destruct (proposal_run net w v' Hp) as (nd' & Hr & H1).
  destruct Hp as (_ & _ & _ & _ & _ & _ & Hcreate).
  destruct (run_followed dev order stale block_memory memory blk coins wallets addresses N f
    (CreateBlk_finalized _ _ _ _ _ Hcreate) Hverify Htxs Hdev Horder Hstale id_not_empty P l Hl _ s _ H1 Hrun)
    as (net' & Hr' & Hs'). by eexists nd', _, net'.
Qed.

(** ** All live processes deliver *)

Hypothesis Hnodup : NoDup live.
Hypothesis Hin : forall j, j ∈ live -> (j < length addresses)%nat.
Hypothesis Hleader : leader ∈ live.
Hypothesis Hf : 0 <= f.
Hypothesis Hquorum : 2 * f + 1 < Z.of_nat (length live).
Hypothesis Hechoes : Z.quot (N + f + 1) 2 <= Z.of_nat (length live).

Lemma proposed_after : proposed (length addresses) live leader after_proposal.
Proof.
  split; [cbn; by rewrite length_insert, length_replicate|]. split.
  - intros j Hj. cbn. destruct (decide (j = leader)) as [->|Hn].
    + apply list_lookup_insert_eq. rewrite length_replicate. by apply Hin.
    + rewrite list_lookup_insert_ne by done. by apply lookup_replicate_2, Hin.
  - intros i j _ _. unfold link. cbn. by rewrite lookup_empty.
Qed.

Lemma live_length : (length live <= length addresses)%nat.
Proof.
  rewrite <- (length_seq (length addresses) 0). apply submseteq_length, NoDup_submseteq; [done|].
  intros j Hj%Hin. apply elem_of_seq. lia.
Qed.

(** What a process holds that has delivered the block. *)
Definition has_delivered (w : process) : Prop :=
  accepted_blocks_ (node w) = [x] /\ should_broadcast_ (node w) = false /\
  exists b, blocks_ (node w) !! x = Some b /\ same_content blk b.

(** The run that follows the schedule. *)
Lemma delivery_run net w v' : proposes net w v' ->
  exists nd' net', reachable_from net net' /\ length (processes net') = length addresses /\
    (forall j, j ∈ live -> exists wj, processes net' !! j = Some wj /\ has_delivered wj) /\
    map frame (processes net') = map frame (<[leader := after_ProposeTask leader v' nd' w]> (processes net)) /\
    (forall k, k ∉ live -> processes net' !! k = processes net !! k).
Proof.
  intros Hp. pose proof live_length as Hll.
  destruct (schedule_delivers (length addresses) f live Hnodup Hin Hf Hquorum) with (leader := leader)
    (s := after_proposal) as (s' & Hrun & Hlen & Hdel); [done|unfold N in *; lia|done|apply proposed_after|].
  destruct (proposal_followed (fun i => i ∈ live) _ net w v' s' Hp (schedule_acts live _ Hleader) Hrun)
    as (nd' & net1 & net' & Hr & E1 & Hq & (all_sent & all_keys & _ & Hln & _ & Hpf)).
  destruct (quiet_frame _ _ _ _ _ _ _ _ _ Hq) as [Hfr Hout]. exists nd', net'. split_and!.
  - eapply net_reachable_trans; [exact Hr|by eapply quiet_net].
  - done.
  - intros j Hj. destruct (Hdel j Hj) as (p & Ep & Ed).
    destruct (lookup_lt_is_Some_2 (processes net') j) as [wj Ewj]; [rewrite Hln; by apply Hin|].
    exists wj. split; [done|].
    destruct (Hpf j p wj Ep Ewj) as ((_ & (_ & _ & _ & _ & Hsb & Ha & Hst & _) & _) & _).
    unfold stored in Hst. rewrite Ed in *. split_and!; [done|done|].
    destruct (blocks_ (node wj) !! Header_getID (header_ blk)) as [b|] eqn:Eb; [by exists b|]. by destruct Hst.
  - by rewrite Hfr, E1.
  - intros k Hk. rewrite Hout, E1 by done. apply list_lookup_insert_ne. by intros ->.
Qed.
End Delivery.

(** ** The theorems *)

Section Liveness.
Context `{Hash}.
Variables (dev : nat -> device) (order : nat -> gmap string Z -> list (string * Z))
  (stale : nat -> string -> outcome string) (block_memory memory : nat -> Z).
Variables (blk : Block) (coins : UTXOlist) (wallets : list Z) (addresses : list string) (f : Z).
Let x : string := Header_getID (header_ blk).
Let N : Z := Z.of_nat (length addresses).
Abbreviation process := (World (C := ValidatorClientImpl)).
Abbreviation reachable_from := (net_reachable dev order stale block_memory memory addresses).
Hypothesis Hdev : forall i, device_ok (dev i).
Hypothesis Horder : forall i, order_ok (order i).
Hypothesis Hcount : N < 2 ^ 16.

(** A network just started, with a leader whose memory pool gives the block. *)
Variables (net : Network) (leader : nat) (w : process) (v' : Validator).
Hypothesis Hstart : all_started coins wallets addresses f net.
Hypothesis Hleader : processes net !! leader = Some w.
Hypothesis Hlead : is_leader w = true.
Hypothesis Hhandler : handler w = EventHandler_new.
Hypothesis Hproposing : proposing w = Proposing.
Hypothesis Hcreate : CreateBlk true (Block_empty (block_memory leader)) (validator w) = Ok (v', blk, 1).
Hypothesis Hverify : Block_verify blk coins wallets = true.
Hypothesis Htxs : Forall (fun t => is_u16 (senderID_ t) /\ key_wf (public_key_ t)) (txs_ blk).
Hypothesis Hstale : forall i, stale i x = Ok x.

Lemma start_proposes : proposes block_memory blk coins wallets addresses f leader net w v'.
Proof. unfold proposes. rewrite Hhandler. split_and!; try done. by apply stands_at_start. Qed.


End Liveness.

(** * Witnesses *)

#[local] Existing Instance test_hash.

(** Four processes, the first of them a leader with a transaction in its pool. *)
Definition peers : list string := ["a:1"; "b:2"; "c:3"; "d:4"].
Definition peer_client : ValidatorClientImpl :=
  match startThreads_ (client_members peers "a:1") with Ok c => c | _ => client_members [] "" end.
Definition peer_node (id : Z) : Node :=
  mkNode (mkConfig "node" id false 5000 (id =? 0) 4 0) peer_client mutex_new ∅ "" ∅ ∅ ∅
    [coin 100 0 7] [7; 8] "" true SigKey_empty SigKey_empty example_pair ∅ ∅ ∅ [] 0.
Definition peer (id : Z) : World :=
  Run (example_validator (if id =? 0 then [example_tx] else [])) (HandleRpcs_start ChatServiceImpl_new)
    (peer_node id).
Definition example_net : Network := mkNetwork [peer 0; peer 1; peer 2; peer 3] ∅.
Definition pool_block : Block :=
  match CreateBlk true (Block_empty 0) (example_validator [example_tx]) with Ok (_, b, _) => b | _ => Block_empty 0 end.
Definition after_pool : Validator :=
  match CreateBlk true (Block_empty 0) (example_validator [example_tx]) with
  | Ok (v, _, _) => v | _ => example_validator [] end.

Lemma peers_wired : lively peer_client /\ servers_ peer_client = peers /\
  forall a, client_outbox peer_client a = [].
Proof.
  destruct (started_client peers "a:1") as (c & E & Hl & Hs & Ho); [by apply (bool_decide_unpack _)|cbn; lia|].
  assert (Hc : c = peer_client) by (unfold peer_client; by rewrite E). by rewrite <- Hc.
Qed.

Lemma peer_fresh id : fresh (peer_node id).
Proof.
  destruct peers_wired as ((Hw & _) & _ & Ho). by split_and!.
Qed.

Lemma example_started : all_started [coin 100 0 7] [7; 8] peers 0 example_net.
Proof.
  destruct peers_wired as (Hl & Hs & _). split; [done|]. split; [done|].
  intros i w Hi. do 4 (destruct i as [|i]; [injection Hi as <-; split_and!; try done;
    [apply peer_fresh|exact example_generated|by exists 0%nat]|]). done.
Qed.

Lemma example_net_start : net_start peers example_net.
Proof.
  destruct peers_wired as (Hl & Hs & _). split_and!; [done|done|done|].
  intros i w Hi. do 4 (destruct i as [|i]; [injection Hi as <-; split_and!; try done; apply peer_fresh|]). done.
Qed.

Lemma table_order_ok : order_ok table_order.
Proof. intros m. reflexivity. Qed.

Lemma pool_block_created :
  CreateBlk true (Block_empty 0) (example_validator [example_tx]) = Ok (after_pool, pool_block, 1).
Proof. reflexivity. Qed.
Lemma pool_block_accepted : Block_verify pool_block [coin 100 0 7] [7; 8] = true.
Proof. reflexivity. Qed.
Lemma pool_block_txs : Forall (fun t => is_u16 (senderID_ t) /\ key_wf (public_key_ t)) (txs_ pool_block).
Proof. apply Forall_singleton. split; [split; [discriminate|reflexivity]|by left]. Qed.

Abbreviation example_reachable := (net_reachable (fun _ => example_device) (fun _ => table_order) (fun _ => Ok)
  (fun _ => 0) (fun _ => 0) peers example_net).

Lemma three_live j : j ∈ [0; 1; 3]%nat -> (j < length peers)%nat.
Proof. intros Hj. do 3 (apply elem_of_cons in Hj as [->|Hj]; [cbn; lia|]). by apply elem_of_nil in Hj. Qed.


Lemma example_proposes : proposes (fun _ => 0) pool_block [coin 100 0 7] [7; 8] peers 0 0 example_net (peer 0) after_pool.
Proof.
  apply (start_proposes (fun _ => 0) pool_block [coin 100 0 7] [7; 8] peers 0 eq_refl); try done.
  exact example_started.
Qed.

(** The run of the four processes, and what it shows of each. *)
Lemma example_delivery : exists net w, example_reachable net /\ processes net !! 3%nat = Some w /\
  accepted_blocks_ (node w) = [Header_getID (header_ pool_block)].
Proof.
  destruct (delivery_run (fun _ => example_device) (fun _ => table_order) (fun _ => Ok) (fun _ => 0)
    (fun _ => 0) pool_block [coin 100 0 7] [7; 8] peers 0 (fun _ => example_device_ok) (fun _ => table_order_ok)
    eq_refl 0%nat (seq 0 4)) with (net := example_net) (w := peer 0) (v' := after_pool)
    as (nd & net & Hr & _ & Hd & _); try done.
  - exact pool_block_txs.
  - apply NoDup_seq.
  - intros j Hj%elem_of_seq. cbn. lia.
  - apply elem_of_seq. lia.
  - exact example_proposes.
  - destruct (Hd 3%nat) as (w & Hw & Ha & _); [apply elem_of_seq; lia|]. by exists net, w.
Qed.

Lemma delivery_has_quorum_witness : exists net w y, example_reachable net /\
  processes net !! 3%nat = Some w /\ accepted_blocks_ (node w) = [y] /\ origin peers net y /\
  2 * f_ (config_ (node w)) + 1 < Z.of_nat (length (filter (ready_everywhere peers y) (processes net))).
Proof.
  destruct example_delivery as (net & w & Hr & Hw & Ha).
  destruct (delivery_has_quorum (fun _ => example_device) (fun _ => table_order) (fun _ => Ok) (fun _ => 0)
    (fun _ => 0) peers (fun _ => table_order_ok) ltac:(discriminate) example_net net 3 w
    (Header_getID (header_ pool_block)) example_net_start Hr Hw) as (y & Hy & Ho & Hq).
  - rewrite Ha. left.
  - injection Hy as ->. exists net, w, (Header_getID (header_ pool_block)). split_and!; [done..|exact Hq].
Defined.

Lemma example_proposal : exists net w m, example_reachable net /\ processes net !! 0%nat = Some w /\
  client_outbox (grpcClient_ (node w)) "d:4" = [m].
Proof.
  destruct (proposal_run (fun _ => example_device) (fun _ => table_order) (fun _ => Ok) (fun _ => 0)
    (fun _ => 0) pool_block [coin 100 0 7] [7; 8] peers 0 (fun _ => example_device_ok) 0%nat example_net (peer 0)
    after_pool example_proposes) as (nd & Hr & (all_sent & all_keys & _ & Hln & _ & Hpf)).
  set (net := set_process _ _ _) in *.
  destruct (lookup_lt_is_Some_2 (processes net) 0) as [w Hw]; [rewrite Hln; cbn; lia|].
  destruct (Hpf 0%nat (say SEND party_new) w) as (((_ & _ & _ & _ & _ & Hout & Hty & _) & _) & _); [done..|].
  exists net, w. rewrite Hout by (cbn; set_solver).
  destruct (all_sent 0%nat) as [|m [|m' l]]; [done| |done]. by exists m.
Qed.

Lemma messages_have_origin_witness : exists net w m, example_reachable net /\
  processes net !! 0%nat = Some w /\ client_outbox (grpcClient_ (node w)) "d:4" = [m] /\
  exists i' w' a' m', processes net !! i' = Some w' /\ is_leader w' = true /\ a' ∈ peers /\
    m' ∈ client_outbox (grpcClient_ (node w')) a' /\ type_ m' = SEND /\
    Header_getID (header_ (block_ m')) = Header_getID (header_ (block_ m)).
Proof.
  destruct example_proposal as (net & w & m & Hr & Hw & Ho). exists net, w, m. split_and!; [done..|].
  apply (messages_have_origin (fun _ => example_device) (fun _ => table_order) (fun _ => Ok) (fun _ => 0)
    (fun _ => 0) peers (fun _ => table_order_ok) ltac:(discriminate) example_net net 0 w "d:4" m
    example_net_start Hr Hw).
  - by apply (bool_decide_unpack _).
  - rewrite Ho. left.
Defined.

