(* ===== verification/Wallet.v ===== *)
(** The wallets (src/include/cryptowallet/wallet.h, src/lib/cryptowallet/wallet.cc) and the reader of the
    files that describe transactions (src/include/json/jsonparser.h, src/lib/json/jsonparser.cc). *)
From S2P Require Import Prelude Sha256 Json JsonRoundTrip Signature Transaction Block Message Database Comms Node Validator.
Local Open Scope Z_scope.

(** * The descriptions of transactions *)

(** [Parser()] and [Parser(filename)]: the JSON value of the file, [jf]. *)
Definition open_and_read (path filename : string) (fs : files) : outcome json :=
  match contents fs !! path with
  | None => Throw (runtime_error ("Tx file oppen failed" +:+ filename))
  | Some text => jread text
  end.
Definition Parser_default (fs : files) : outcome json := open_and_read "../../tx.json" "../../tx.json" fs.
Definition Parser_new (filename : string) (fs : files) : outcome json :=
  open_and_read ("../../tx/" +:+ filename) filename fs.

(** [output]: whatever its name argument says, the file is test.json; when it cannot be opened the text goes
    nowhere.  [written] is what has reached the file when the serializer throws. *)
Definition Parser_output (outname : string) (j : json) (written : string) (fs : files) : files * outcome unit :=
  let file := "test.json" in
  let to_file text := if writable fs file then write_file fs file text else fs in
  match jdump j with
  | Ok text => (to_file text, Ok tt)
  | Throw e => (to_file written, Throw e)
  | Undef u => (to_file written, Undef u)
  | Unmodelled => (to_file written, Unmodelled)
  end.

Record TransInfo := mkTransInfo {
  walletid_ : Z;
  out_value_list_ : list Z;
  out_walletID_list_ : list Z;
  in_outIDX_list_ : list Z;
  in_txID_list_ : list Z
}.
(** [walletid_] has no value at first. *)
Definition TransInfo_new (memory : Z) : TransInfo := mkTransInfo memory [] [] [] [].

Definition from_json_in (t : TransInfo) (value : json) : outcome TransInfo :=
  v ← jat value "txID"; txID ← jget_int u32 v;
  v ← jat value "outIDX"; outIDX ← jget_u64 v;
  Ok (mkTransInfo (walletid_ t) (out_value_list_ t) (out_walletID_list_ t)
        (in_outIDX_list_ t ++ [outIDX]) (in_txID_list_ t ++ [txID])).
Definition from_json_out (t : TransInfo) (value : json) : outcome TransInfo :=
  v ← jat value "value"; val ← jget_u64 v;
  v ← jat value "outwalletID"; id ← jget_int u32 v;
  Ok (mkTransInfo (walletid_ t) (out_value_list_ t ++ [val]) (out_walletID_list_ t ++ [id])
        (in_outIDX_list_ t) (in_txID_list_ t)).

Definition TransInfo_from_json (j : json) (t : TransInfo) : outcome TransInfo :=
  v ← jat j "walletID"; id ← jget_int u32 v;
  ins ← jat j "ins";
  t ← foldM from_json_in (mkTransInfo id (out_value_list_ t) (out_walletID_list_ t) (in_outIDX_list_ t)
                            (in_txID_list_ t)) (jelems ins);
  outs ← jat j "outs";
  foldM from_json_out t (jelems outs).

(** [to_json]: its body is commented out. *)
Definition TransInfo_to_json (j : json) (s : TransInfo) : json := j.

(** * The wallet *)

Create HintDb described.

Section Wallet.
Context `{Hash}.
Variable dev : device.

(** [_grpcClient] is the address of the leader; [opened] counts how often the random device was opened. *)
Record Wallet := mkWallet {
  wallet_id : Z;                    (** [id_] *)
  _grpcClient : string;
  wallet_n : Z;                     (** [n_] *)
  _wallets : list Z;                (** the identifiers of the peers *)
  pk_generator_ : Signature;
  pk_ : SigKey;
  sk_ : SigKey;
  local_utxo_ : UTXOlist;
  opened : nat
}.

(** [WalletClientImpl(settings)]. *)
Definition WalletClientImpl_new (s : Settings.Settings) : string := (Settings.getLeaderAddress s).1.

Definition Wallet_UpdateKeys (w : Wallet) : outcome Wallet :=
  kp ← KeyGen_node dev (opened w) (pk_generator_ w);
  Ok (mkWallet (wallet_id w) (_grpcClient w) (wallet_n w) (_wallets w) kp (Signature.public_key_ kp)
        (private_key_ kp) (local_utxo_ w) (opened w + 2 * KEY_LEN_)%nat).

Definition Wallet_new (s : Settings.Settings) (id : Z) (device_opened : nat) : outcome Wallet :=
  Wallet_UpdateKeys (mkWallet id (WalletClientImpl_new s) (Settings.getTotalNumberOfValidators s) []
    (mkSignature SigKey_empty SigKey_empty) SigKey_empty SigKey_empty [] device_opened).

Definition setWalletPeers (wallets : list Z) (w : Wallet) : Wallet :=
  mkWallet (wallet_id w) (_grpcClient w) (wallet_n w) wallets (pk_generator_ w) (pk_ w) (sk_ w)
    (local_utxo_ w) (opened w).
Definition set_local_utxo (l : UTXOlist) (w : Wallet) : Wallet :=
  mkWallet (wallet_id w) (_grpcClient w) (wallet_n w) (_wallets w) (pk_generator_ w) (pk_ w) (sk_ w)
    l (opened w).
Definition GetLocalUTXO (w : Wallet) : UTXOlist := local_utxo_ w.
Definition threshold_ (w : Wallet) : Z := Z.quot (wallet_n w) 2.

(** The loops over the lists of the description. *)
Definition make_input (t : TransInfo) (i : nat) : outcome Input :=
  inTX ← read (in_txID_list_ t) i; inIDX ← read (in_outIDX_list_ t) i; Ok (mkInput inTX inIDX).
Definition make_output (t : TransInfo) (i : nat) : outcome Output :=
  value ← read (out_value_list_ t) i;
  if negb (0 <=? value) then Throw assertion_failed
  else outID ← read (out_walletID_list_ t) i; Ok (mkOutput value outID).

(** The first value of [tx_id_], a counter that all wallets of a process share. *)
Definition tx_id_start : Z := 100.

(** [CreateTx], with the file read: the wallet, the counter and the transaction.  The constructor of
    [Transaction] takes the sender as [uint16_t]. *)
Definition create_from (jf : json) (memory tx_id : Z) (w : Wallet) : outcome (Wallet * Z * Transaction) :=
  t ← TransInfo_from_json jf (TransInfo_new memory);
  inputs ← outcome_mapM (make_input t) (seq 0 (length (in_txID_list_ t)));
  outputs ← outcome_mapM (make_output t) (seq 0 (length (out_value_list_ t)));
  w ← Wallet_UpdateKeys w;
  let tx := Transaction_new inputs outputs (u16 (wallet_id w)) tx_id (pk_ w) in
  sig ← Sign (getDigest tx) (private_key_ (pk_generator_ w));
  Ok (w, u32 (tx_id + 1), setSenderSig tx sig).
Definition CreateTx (filename : string) (fs : files) (memory tx_id : Z) (w : Wallet)
    : outcome (Wallet * Z * Transaction) :=
  jf ← Parser_new filename fs; create_from jf memory tx_id w.

(** [Sync]: [reply] is the list in the reply of the leader, empty when the call fails. *)
Definition Sync (reply : chat.UTXOlistMsg) (w : Wallet) : Wallet * Z :=
  (set_local_utxo (Sync_reply (UTXOlist_clear (local_utxo_ w)) reply) w, 1).

(** [SendTx2Leader]: what goes to the leader, whether or not it arrives. *)
Definition SendTx2Leader (tx : Transaction) : outcome (chat.TransactionMsg * Z) := p ← NewTx tx; Ok (p, 1).

Definition SendTx (filename : string) (fs : files) (reply : chat.UTXOlistMsg) (memory tx_id : Z) (w : Wallet)
    : outcome (Wallet * Z * chat.TransactionMsg * Z) :=
  let '(w, _) := Sync reply w in
  '(w, tx_id, tx) ← CreateTx filename fs memory tx_id w;
  '(p, _) ← SendTx2Leader tx;
  Ok (w, tx_id, p, 1).

(** * Reading descriptions *)

(** A description as the loops build it: its lists are parallel, and hold values of their types. *)
Definition described (t : TransInfo) : Prop :=
  length (in_outIDX_list_ t) = length (in_txID_list_ t) /\
  length (out_walletID_list_ t) = length (out_value_list_ t) /\
  Forall is_u32 (in_txID_list_ t) /\ Forall is_u64 (in_outIDX_list_ t) /\
  Forall is_u64 (out_value_list_ t) /\ Forall is_u32 (out_walletID_list_ t).

Lemma jget_u64_range v z : jget_u64 v = Ok z -> is_u64 z.
Proof. destruct v; try done. intros [= <-]. unfold is_u64, u64. apply Z.mod_pos_bound. lia. Qed.

Lemma jget_u32_range v z : jget_int u32 v = Ok z -> is_u32 z.
Proof. destruct v; try done; intros [= <-]; unfold is_u32, u32; apply Z.mod_pos_bound; lia. Qed.

Lemma snoc_length {A B} (l1 : list A) (l2 : list B) a b : length l1 = length l2 -> length (l1 ++ [a]) = length (l2 ++ [b]).
Proof. intros E. by rewrite !length_app, E. Qed.
Lemma snoc_Forall {A} (P : A -> Prop) l a : Forall P l -> P a -> Forall P (l ++ [a]).
Proof. intros Hl Ha. apply Forall_app. by repeat constructor. Qed.
Hint Resolve snoc_length snoc_Forall jget_u64_range jget_u32_range : described.

Lemma from_json_described j memory t : TransInfo_from_json j (TransInfo_new memory) = Ok t -> described t.
Proof.
  unfold TransInfo_from_json.
  intros (v & _ & (id & _ & (ins & _ & (t1 & E1 & (outs & _ & E2)%bind_Ok)%bind_Ok)%bind_Ok)%bind_Ok)%bind_Ok.
  assert (H1 : described t1).
  { revert E1. apply (foldM_inv described); [|by repeat constructor]. intros s x s' (Hi & Ho & H1 & H2 & H3 & H4).
    intros (v1 & _ & (a & Ea & (v2 & _ & (b & Eb & [= <-])%bind_Ok)%bind_Ok)%bind_Ok)%bind_Ok.
    split_and!; cbn; eauto with described. }
  revert E2. apply (foldM_inv described); [|done]. intros s x s' (Hi & Ho & H2 & H3 & H4 & H5).
  intros (v1 & _ & (a & Ea & (v2 & _ & (b & Eb & [= <-])%bind_Ok)%bind_Ok)%bind_Ok)%bind_Ok.
  split_and!; cbn; eauto with described.
Qed.

(** What [output] writes can be read again, from test.json. *)
Lemma output_read_back outname j written fs : json_wf j = true -> json_utf8 j = true ->
  writable fs "test.json" = true ->
  exists fs', Parser_output outname j written fs = (fs', Ok tt) /\
    open_and_read "test.json" outname fs' = Ok j.
Proof.
  intros Hwf Hu Hw. destruct (jdump_total None j Hwf Hu) as (text & Tt & _ & Rt & _).
  unfold Parser_output, jdump, open_and_read. rewrite Tt, Hw. eexists. split; [done|].
  cbn [contents write_file]. by rewrite lookup_insert_eq.
Qed.

Lemma read_pair {A B R} (l1 : list A) (l2 : list B) (f : A -> B -> R) : length l2 = length l1 ->
  outcome_mapM (fun i => a ← read l1 i; b ← read l2 i; Ok (f a b)) (seq 0 (length l1)) = Ok (zip_with f l1 l2).
Proof.
  revert l2. induction l1 as [|a l1 IH]; intros [|b l2] Hl; try done. cbn [length seq outcome_mapM].
  rewrite <- seq_shift, outcome_mapM_map. cbn. cbn in IH. unfold read in *. cbn. rewrite IH by (cbn in Hl; lia). done.
Qed.

(** Outcomes that the standard gives a meaning. *)
Definition defined {A} (m : outcome A) : Prop := match m with Undef _ => False | _ => True end.

Lemma defined_bind {A B} (m : outcome A) (f : A -> outcome B) :
  defined m -> (forall a, m = Ok a -> defined (f a)) -> defined (m ≫= f).
Proof. destruct m as [a| | |]; cbn; intros Hm Hf; [by apply Hf|done..]. Qed.

Lemma defined_foldM {A S} (f : S -> A -> outcome S) l : (forall s x, defined (f s x)) ->
  forall s, defined (foldM f s l).
Proof.
  intros Hf. induction l as [|x l IH]; intros s; [done|]. apply defined_bind; [apply Hf|]. intros s' _. apply IH.
Qed.

Lemma defined_jat j k : defined (jat j k).
Proof. destruct j; try done. cbn. by destruct (obj_lookup k l). Qed.
Lemma defined_jget_u64 j : defined (jget_u64 j).
Proof. by destruct j. Qed.
Lemma defined_jget_int w j : defined (jget_int w j).
Proof. by destruct j. Qed.

Ltac defined :=
  repeat first [apply defined_jat | apply defined_jget_u64 | apply defined_jget_int | exact I
    | apply defined_bind; [|intros ? _] | apply defined_foldM; intros ? ?].

Lemma from_json_defined j t : defined (TransInfo_from_json j t).
Proof. unfold TransInfo_from_json, from_json_in, from_json_out. defined. Qed.

(** The inputs and outputs that a description lists. *)
Definition described_inputs (t : TransInfo) : list Input := zip_with mkInput (in_txID_list_ t) (in_outIDX_list_ t).
Definition described_outputs (t : TransInfo) : list Output := zip_with mkOutput (out_value_list_ t) (out_walletID_list_ t).

Lemma make_inputs_spec t : described t ->
  outcome_mapM (make_input t) (seq 0 (length (in_txID_list_ t))) = Ok (described_inputs t).
Proof. intros (Hi & _). by apply read_pair. Qed.

Lemma outcome_mapM_ext {A B} (f g : A -> outcome B) l : (forall x, x ∈ l -> f x = g x) ->
  outcome_mapM f l = outcome_mapM g l.
Proof.
  induction l as [|x l IH]; intros Hf; [done|]. cbn. rewrite (Hf x) by left.
  destruct (g x); cbn; [|done..]. rewrite IH; [done|]. intros y Hy. apply Hf. by right.
Qed.

Lemma make_outputs_spec t : described t ->
  outcome_mapM (make_output t) (seq 0 (length (out_value_list_ t))) = Ok (described_outputs t).
Proof.
  intros (_ & Ho & _ & _ & Hv & _). etransitivity; [|by apply read_pair]. apply outcome_mapM_ext. intros i _.
  unfold make_output. destruct (read (out_value_list_ t) i) as [v| | |] eqn:E; cbn; [|done..].
  unfold read in E. destruct (out_value_list_ t !! i) as [v'|] eqn:El; [|done]. injection E as ->.
  pose proof (Forall_lookup_1 _ _ _ _ Hv El) as Hr. by rewrite (proj2 (Z.leb_le 0 v)) by apply Hr.
Qed.

Lemma Wallet_UpdateKeys_inv w w' : Wallet_UpdateKeys w = Ok w' ->
  wallet_id w' = wallet_id w /\ local_utxo_ w' = local_utxo_ w /\ generated KEY_LEN_ (pk_generator_ w') /\
  pk_ w' = Signature.public_key_ (pk_generator_ w').
Proof. intros (kp & E & [= <-])%bind_Ok. apply KeyGen_node_inv in E. by split_and!. Qed.

Lemma Wallet_UpdateKeys_ok w : device_ok dev -> exists w', Wallet_UpdateKeys w = Ok w'.
Proof.
  intros Hd. unfold Wallet_UpdateKeys. destruct (KeyGen_node_ok dev (opened w) (pk_generator_ w) Hd) as [kp ->].
  by eexists.
Qed.

(** The rest of [create_from], once the keys are there. *)
Lemma create_signed (tx : Transaction) (w : Wallet) : generated KEY_LEN_ (pk_generator_ w) ->
  pk_ w = Signature.public_key_ (pk_generator_ w) ->
  exists sig, Sign (getDigest tx) (private_key_ (pk_generator_ w)) = Ok sig /\
    Verify (getDigest tx) sig (pk_ w) = Ok 1.
Proof. intros Hg ->. by apply sign_verify, generated_pair. Qed.

Lemma create_from_ok jf memory tx_id w t w1 : TransInfo_from_json jf (TransInfo_new memory) = Ok t ->
  Wallet_UpdateKeys w = Ok w1 ->
  let tx := mkTransaction (described_inputs t) (described_outputs t) [] (u16 (wallet_id w)) tx_id (pk_ w1) in
  exists sig, create_from jf memory tx_id w = Ok (w1, u32 (tx_id + 1), setSenderSig tx sig) /\
    Verify (getDigest tx) sig (pk_ w1) = Ok 1.
Proof.
  intros Ht Hw tx. pose proof (from_json_described _ _ _ Ht) as Hp. unfold create_from. rewrite Ht.
  cbn [mbind outcome_bind]. rewrite make_inputs_spec, make_outputs_spec, Hw by done. cbn [mbind outcome_bind].
  destruct (Wallet_UpdateKeys_inv _ _ Hw) as (-> & _ & Hg & Hpk). fold tx. unfold Transaction_new. fold tx.
  destruct (create_signed tx w1 Hg Hpk) as (sig & Hs & Hv). exists sig. by rewrite Hs.
Qed.

(** C26: creating a transaction: with a working random device, and whatever the file describes, it succeeds; the
    inputs and outputs are the ones described, in order; the sender is the wallet's number cut to 16 bits;
    the identifier is the counter, which goes up by one modulo 2^32; the wallet has a new pair of keys,
    whose public half is in the transaction and verifies its signature. *)
Theorem CreateTx_spec (filename text : string) (fs : files) (jf : json) (memory tx_id : Z) (w : Wallet)
    (t : TransInfo) :
  device_ok dev -> contents fs !! ("../../tx/" +:+ filename) = Some text -> jread text = Ok jf ->
  TransInfo_from_json jf (TransInfo_new memory) = Ok t ->
  exists w' tx, CreateTx filename fs memory tx_id w = Ok (w', u32 (tx_id + 1), tx) /\
    inputs_ tx = zip_with mkInput (in_txID_list_ t) (in_outIDX_list_ t) /\
    outputs_ tx = zip_with mkOutput (out_value_list_ t) (out_walletID_list_ t) /\
    length (inputs_ tx) = length (in_txID_list_ t) /\ length (outputs_ tx) = length (out_value_list_ t) /\
    senderID_ tx = u16 (wallet_id w) /\ txID_ tx = tx_id /\ public_key_ tx = pk_ w' /\
    Verify (getDigest tx) (senderSig_ tx) (pk_ w') = Ok 1.
Proof.
  intros Hd Hf Hj Ht. destruct (Wallet_UpdateKeys_ok w Hd) as [w' Hw]. unfold CreateTx, Parser_new, open_and_read.
  rewrite Hf, Hj. cbn [mbind outcome_bind].
  destruct (create_from_ok jf memory tx_id w t w' Ht Hw) as (sig & -> & Hv).
  destruct (from_json_described _ _ _ Ht) as (Hi & Ho & _).
  eexists _, _. split; [reflexivity|]. cbn [inputs_ outputs_ senderID_ txID_ public_key_ senderSig_ setSenderSig].
  unfold described_inputs, described_outputs. split_and!; try done; rewrite length_zip_with; lia.
Qed.

(** What [CreateTx] makes is signed with its own key and survives its way to the leader. *)
Lemma created_sendable (jf : json) (memory tx_id : Z) (w w' : Wallet) (next : Z) (tx : Transaction) :
  create_from jf memory tx_id w = Ok (w', next, tx) ->
  is_u16 (senderID_ tx) /\ key_wf (public_key_ tx) /\
  Verify (getDigest tx) (senderSig_ tx) (public_key_ tx) = Ok 1 /\
  exists p, SendTx2Leader tx = Ok (p, 1) /\
    forall received, fromProtoTransaction (Transaction_default received) p = Ok tx.
Proof.
  intros Hc. pose proof Hc as (t & Ht & (ins & _ & (outs & _ & (w1 & Hw & _)%bind_Ok)%bind_Ok)%bind_Ok)%bind_Ok.
  destruct (create_from_ok jf memory tx_id w t w1 Ht Hw) as (sig & E & Hv). rewrite Hc in E.
  injection E as -> _ ->. clear Hc. set (tx := setSenderSig _ sig).
  destruct (Wallet_UpdateKeys_inv _ _ Hw) as (_ & _ & Hg & Hpk).
  assert (H16 : is_u16 (senderID_ tx)) by (unfold is_u16, u16; cbn; apply Z.mod_pos_bound; lia).
  assert (Hk : key_wf (public_key_ tx)) by (right; cbn; rewrite Hpk; by apply generated_full_text).
  split_and!; [done|done|done|]. destruct (Transaction_proto tx (Transaction_default (0, 0)) H16 Hk eq_refl) as (p & Ep & _).
  exists p. unfold SendTx2Leader, NewTx. rewrite Ep. split; [done|]. intros m.
  destruct (Transaction_proto tx (Transaction_default m) H16 Hk eq_refl) as (p' & Ep' & Er).
  rewrite Ep in Ep'. by injection Ep' as <-.
Qed.

(** A transaction on its way from a wallet into the pool of a validator: what [CreateTx] makes arrives
    unchanged, and the validator takes it into its pool exactly if the sender's coins meet the spending
    conditions. *)
Theorem sent_transaction_pooled (jf : json) (memory tx_id : Z) (w w' : Wallet) (next : Z) (tx : Transaction)
    (received : Z * Z) (v : Validator) :
  create_from jf memory tx_id w = Ok (w', next, tx) ->
  exists p, SendTx2Leader tx = Ok (p, 1) /\
    fromProtoTransaction (Transaction_default received) p = Ok tx /\
    exists v' r, OnRecvTx tx v = Ok (v', r) /\
      (r = 1 <-> checkSpendingConditions tx (utxos (senderID_ tx) v) (wallets_ids_ v) = true) /\
      (r = 1 <-> memory_pool_ v' = memory_pool_ v ++ [tx]).
Proof.
  intros Hc. destruct (created_sendable _ _ _ _ _ _ _ Hc) as (_ & _ & Hv & p & Ep & Er).
  exists p. split; [done|]. split; [apply Er|].
  destruct (OnRecvTx_cases tx v) as (v' & r & E & Hr & _). exists v', r. split; [done|].
  unfold accepts in Hr. destruct Hr as [(-> & [_ Ha] & Hm)|(-> & Hn & Hm)]; [by rewrite Ha|].
  split; (split; [done|]).
  - intros Ha. destruct Hn. by split.
  - rewrite Hm. intros E'. apply (f_equal length) in E'. rewrite length_app in E'. cbn in E'. lia.
Qed.

Lemma Wallet_UpdateKeys_defined w : defined (Wallet_UpdateKeys w).
Proof.
  apply defined_bind; [|done]. unfold KeyGen_node.
  pose proof (KeyGen_outcome (fun k => dev (opened w + k)%nat) (pk_generator_ w)) as Ho.
  by destruct (KeyGen _ _) as [s [| | |]].
Qed.

Lemma outcome_mapM_Forall {A B} (P : B -> Prop) (f : A -> outcome B) l : (forall x y, f x = Ok y -> P y) ->
  forall ys, outcome_mapM f l = Ok ys -> Forall P ys.
Proof.
  intros Hf. induction l as [|x l IH]; intros ys; cbn; [intros [= <-]; constructor|].
  intros (y & Ey & (ys' & E & [= <-])%bind_Ok)%bind_Ok. constructor; [by eapply Hf|by apply IH].
Qed.

Lemma read_Forall {A} (P : A -> Prop) l i x : Forall P l -> read l i = Ok x -> P x.
Proof.
  unfold read. intros Hl. destruct (l !! i) as [y|] eqn:E; [|done]. intros [= <-]. by eapply Forall_lookup_1.
Qed.

(** A signature holds secrets of the private key. *)
Lemma Sign_secrets (P : string -> Prop) m sk sig : Forall P (S0 sk ++ S1 sk) -> Sign m sk = Ok sig -> Forall P sig.
Proof.
  intros [H0 H1]%Forall_app. unfold Sign. destruct (_ || _); [intros [= <-]; constructor|].
  intros (bits & _ & E)%bind_Ok. revert E. apply outcome_mapM_Forall. intros i x.
  destruct (nth i bits false); by apply read_Forall.
Qed.

Lemma zip_with_wf {A B R} (f : A -> B -> R) (P : A -> Prop) (Q : B -> Prop) l1 : forall l2,
  Forall P l1 -> Forall Q l2 -> Forall (fun r => exists a b, r = f a b /\ P a /\ Q b) (zip_with f l1 l2).
Proof.
  induction l1 as [|a l1 IH]; intros [|b l2] H1 H2; cbn; [constructor..|].
  apply Forall_cons in H1 as [Ha H1], H2 as [Hb H2]. constructor; [by exists a, b|by apply IH].
Qed.

(** C27: every transaction that a wallet creates is well formed: each number fits the type that holds it, each part
    of the signature is a secret of 32 characters, and the public key is a full key that survives its text. *)
Theorem created_transaction_wf (jf : json) (memory tx_id : Z) (w w' : Wallet) (next : Z) (tx : Transaction) :
  is_u32 tx_id -> create_from jf memory tx_id w = Ok (w', next, tx) -> Transaction_wf tx /\ is_u32 next.
Proof.
  intros Hid (t & Ht & (ins & Ei & (outs & Eo & (w1 & Hw & (sig & Es & [= <- <- <-])%bind_Ok)%bind_Ok)%bind_Ok)%bind_Ok)%bind_Ok.
  pose proof (from_json_described _ _ _ Ht) as Hd. rewrite make_inputs_spec in Ei by done.
  rewrite make_outputs_spec in Eo by done. injection Ei as <-. injection Eo as <-.
  destruct Hd as (_ & _ & H1 & H2 & H3 & H4). destruct (Wallet_UpdateKeys_inv _ _ Hw) as (Eid & _ & Hg & Hpk).
  split; [|unfold is_u32, u32; apply Z.mod_pos_bound; lia]. split_and!; cbn; [..|done|].
  - eapply Forall_impl; [by apply zip_with_wf|]. by intros i (a & b & -> & ? & ?).
  - eapply Forall_impl; [by apply zip_with_wf|]. by intros o (a & b & -> & ? & ?).
  - eapply Sign_secrets, Es. apply Hg.
  - unfold is_u16, u16. apply Z.mod_pos_bound. lia.
  - right. rewrite Hpk. by apply generated_full_text.
Qed.

(** No description makes a wallet read outside of a list: whatever JSON value the file holds and however the
    random device behaves, creating the transaction returns or throws. *)
Theorem create_never_undefined (jf : json) (memory tx_id : Z) (w : Wallet) (u : ub) :
  create_from jf memory tx_id w <> Undef u.
Proof.
  enough (Hd : defined (create_from jf memory tx_id w)) by (intros E; by rewrite E in Hd).
  apply defined_bind; [apply from_json_defined|]. intros t Ht. pose proof (from_json_described _ _ _ Ht) as Hp.
  rewrite make_inputs_spec, make_outputs_spec by done. cbn [mbind outcome_bind].
  apply defined_bind; [apply Wallet_UpdateKeys_defined|]. intros w1 Hw.
  destruct (Wallet_UpdateKeys_inv _ _ Hw) as (_ & _ & Hg & Hpk).
  destruct (create_signed (Transaction_new (described_inputs t) (described_outputs t) (u16 (wallet_id w1)) tx_id
    (pk_ w1)) w1 Hg Hpk) as (sig & Hs & _). by rewrite Hs.
Qed.
End Wallet.

(** * Witnesses *)

#[local] Existing Instance test_hash.

Definition requote (s : string) : string :=
  String.string_of_list_ascii
    (map (fun c => if bool_decide (c = "'"%char) then quote else c) (String.list_ascii_of_string s)).
Definition example_text : string :=
  requote "{'walletID':7,'ins':[{'txID':0,'outIDX':0}],'outs':[{'value':100,'outwalletID':8}]}".
Definition example_json : json :=
  JObj [("ins", JArr [JObj [("outIDX", JInt 0); ("txID", JInt 0)]]);
        ("outs", JArr [JObj [("outwalletID", JInt 8); ("value", JInt 100)]]); ("walletID", JInt 7)].
Definition example_info : TransInfo := mkTransInfo 7 [100] [8] [0] [0].
Definition example_files : files := mkFiles {[ "../../tx/tx.json" := example_text ]} (fun _ => true).
Definition example_wallet : Wallet :=
  mkWallet 7 "127.0.0.1:5000" 4 [] example_pair (Signature.public_key_ example_pair) (private_key_ example_pair) [] 1.

Lemma CreateTx_spec_witness :
  exists w' tx, CreateTx example_device "tx.json" example_files 99 tx_id_start example_wallet = Ok (w', 101, tx) /\
    inputs_ tx = [mkInput 0 0] /\ outputs_ tx = [mkOutput 100 8] /\
    length (inputs_ tx) = 1%nat /\ length (outputs_ tx) = 1%nat /\
    senderID_ tx = 7 /\ txID_ tx = 100 /\ public_key_ tx = pk_ w' /\
    Verify (getDigest tx) (senderSig_ tx) (pk_ w') = Ok 1.
Proof.
  apply (CreateTx_spec example_device "tx.json" example_text example_files example_json 99 100 example_wallet
    example_info); [exact example_device_ok|reflexivity|vm_compute; reflexivity|reflexivity].
Defined.

Lemma sent_transaction_pooled_witness :
  exists w' next tx p, create_from example_device example_json 99 100 example_wallet = Ok (w', next, tx) /\
    SendTx2Leader tx = Ok (p, 1) /\ fromProtoTransaction (Transaction_default (5, 6)) p = Ok tx /\
    exists v' r, OnRecvTx tx (example_validator []) = Ok (v', r) /\
      (r = 1 <-> checkSpendingConditions tx (utxos (senderID_ tx) (example_validator [])) [7; 8] = true) /\
      (r = 1 <-> memory_pool_ v' = [tx]).
Proof.
  destruct (Wallet_UpdateKeys_ok example_device example_wallet example_device_ok) as [w' Hw].
  destruct (create_from_ok example_device example_json 99 100 example_wallet example_info w' eq_refl Hw)
    as (sig & E & _).
  destruct (sent_transaction_pooled example_device example_json 99 100 example_wallet w' _ _ (5, 6)
    (example_validator []) E) as (p & Hp & Hf & Hr).
  eexists w', _, _, p. split_and!; [exact E|exact Hp|exact Hf|exact Hr].
Defined.

Lemma created_transaction_wf_witness :
  exists w' next tx, create_from example_device example_json 99 100 example_wallet = Ok (w', next, tx) /\
    Transaction_wf tx /\ is_u32 next.
Proof.
  destruct (Wallet_UpdateKeys_ok example_device example_wallet example_device_ok) as [w' Hw].
  destruct (create_from_ok example_device example_json 99 100 example_wallet example_info w' eq_refl Hw)
    as (sig & E & _).
  assert (Hid : is_u32 100) by (unfold is_u32; lia).
  pose proof (created_transaction_wf example_device example_json 99 100 example_wallet w' _ _ Hid E) as Hwf.
  eexists w', _, _. split; [exact E|exact Hwf].
Defined.
