(* ===== verification/Programs.v ===== *)
(** The interactive wallet (src/src/wallet_interactive.cc), with what it uses of [std::cin], and the logger
    (src/include/bracha/logging.h). *)
From S2P Require Import Prelude Sha256 Json JsonRoundTrip Signature Transaction Block Message Database Comms Node Validator Wallet.
Local Open Scope Z_scope.

(** * The logger *)

Module Logger.

(** [output_] is the text on the stream so far. *)
Record Logger := mkLogger { output_ : string; enabled_ : bool }.

(** The constructor, on a stream. *)
Definition Logger_new (output : string) : Logger := mkLogger output true.
Definition enable (enable : bool) (l : Logger) : Logger := mkLogger (output_ l) enable.
(** [operator<<], of a value that prints as [v]. *)
Definition log (v : string) (l : Logger) : Logger :=
  if enabled_ l then mkLogger (output_ l +:+ v) (enabled_ l) else l.

(** The global logger [out] writes to [std::cerr]. *)
Definition out : Logger := Logger_new "".

Lemma log_all vs : forall l, foldl (fun l v => log v l) l vs =
  if enabled_ l then mkLogger (output_ l +:+ String.concat "" vs) true else l.
Proof.
  induction vs as [|v vs IH]; intros [t []]; cbn [foldl]; [by rewrite string_app_nil_r|done| |by rewrite IH].
  rewrite IH. cbn. rewrite string_app_assoc. f_equal. destruct vs; [by rewrite string_app_nil_r|done].
Qed.
End Logger.

(** * Reading from [std::cin] *)

Module istream.

(** The characters that are left, and whether the last operations left the stream good. *)
Record istream := mkIstream { rest : list ascii; good : bool }.

Definition space (c : ascii) : bool := (code c =? 32) || ((9 <=? code c) && (code c <=? 13)).
Fixpoint skip_space (s : list ascii) : list ascii :=
  match s with c :: s' => if space c then skip_space s' else s | [] => [] end.

(** The sentry of an extraction: it skips white space, and fails at the end of the input. *)
Definition sentry (i : istream) : option (list ascii) :=
  if good i then match skip_space (rest i) with [] => None | s => Some s end else None.
Definition failed (i : istream) : istream := mkIstream (if good i then skip_space (rest i) else rest i) false.

(** [operator>>(istream&, string&)]: [value] is what the string held.  Reaching the end after some
    characters is no failure, but the stream is not good any more. *)
Fixpoint get_word (s : list ascii) : list ascii * list ascii :=
  match s with
  | c :: s' => if space c then ([], s) else let '(w, r) := get_word s' in (c :: w, r)
  | [] => ([], [])
  end.
Definition nonempty {A} (l : list A) : bool := match l with [] => false | _ => true end.
Definition get_string (value : string) (i : istream) : string * istream :=
  match sentry i with
  | None => (value, failed i)
  | Some s => let '(w, r) := get_word s in (String.string_of_list_ascii w, mkIstream r (nonempty r))
  end.

(** [operator>>(int&)], for decimal numbers: a sign, digits, up to the first other character.  No digits
    give 0, numbers outside of [int] the nearest one, and both fail. *)
Definition is_digit (c : ascii) : bool := (48 <=? code c) && (code c <=? 57).
Fixpoint int_digits (acc : Z) (s : list ascii) : Z * list ascii :=
  match s with
  | c :: s' => if is_digit c then int_digits (10 * acc + (code c - 48)) s' else (acc, s)
  | [] => (acc, [])
  end.
Definition int_sign (s : list ascii) : Z * list ascii :=
  match s with
  | c :: s' => if code c =? 45 then (-1, s') else if code c =? 43 then (1, s') else (1, s)
  | [] => (1, [])
  end.
Definition int_min : Z := - 2 ^ 31.
Definition int_max : Z := 2 ^ 31 - 1.

(** [None] for the value: the variable keeps what it held. *)
Definition get_int (i : istream) : option Z * istream :=
  match sentry i with
  | None => (None, failed i)
  | Some s =>
      let '(sg, s) := int_sign s in
      let '(n, r) := int_digits 0 s in
      if negb (nonempty s && is_digit (default " "%char (head s))) then (Some 0, mkIstream r false)
      else if sg * n <? int_min then (Some int_min, mkIstream r false)
      else if int_max <? sg * n then (Some int_max, mkIstream r false)
      else (Some (sg * n), mkIstream r (nonempty r))
  end.
End istream.

(** * The interactive wallet *)

Definition get_total_coins (utxolist : UTXOlist) : Z :=
  foldl (fun total_coins utxo => add_value total_coins (Output_value (output_ utxo))) 0 utxolist.

(** [Input(utxo.getTransactionId(), utxo.getOutputIndex())]: the [int] becomes a [uint64_t]. *)
Definition input_of (utxo : UTXO) : Input := mkInput (transactionId_ utxo) (u64 (outputIndex_ utxo)).
Definition value_of (utxo : UTXO) : Z := Output_value (output_ utxo).

(** The first loop of [create_tx]: the first coin that covers the amount, which is compared as [uint64_t]. *)
Fixpoint single_coin (amount receiver_id wallet_id : Z) (utxolist : UTXOlist) (tx : Transaction) : Transaction :=
  match utxolist with
  | [] => tx
  | utxo :: utxolist' =>
      let txID := u32 (transactionId_ utxo - u32 amount) in
      let tx' := addOutput (addInput (setSenderID (settxID tx txID) (u16 wallet_id)) (input_of utxo))
                   (mkOutput (u64 amount) (u32 receiver_id)) in
      if u64 amount <? value_of utxo then
        addOutput tx' (mkOutput (u64 (value_of utxo - u64 amount)) wallet_id)
      else if value_of utxo =? u64 amount then tx'
      else single_coin amount receiver_id wallet_id utxolist' tx
  end.

(** [sum - amount], of two [int]s. *)
Definition int_minus (a b : Z) : outcome Z :=
  if (- 2 ^ 31 <=? a - b) && (a - b <? 2 ^ 31) then Ok (a - b) else Undef signed_overflow.

(** The second loop: coins from the front until their [sum] covers the amount. *)
Fixpoint coins_until (amount receiver_id wallet_id : Z) (utxolist : UTXOlist) (sum : Z) (tx : Transaction)
    : outcome (Z * Transaction) :=
  match utxolist with
  | [] => Ok (sum, tx)
  | utxo :: utxolist' =>
      let sum := add_value sum (value_of utxo) in
      let tx := addInput tx (input_of utxo) in
      if amount <? sum then
        d ← int_minus sum amount;
        Ok (sum, addOutput (addOutput tx (mkOutput (u64 d) (u32 receiver_id)))
                   (mkOutput (u64 (value_of utxo - u64 sum + u64 amount)) wallet_id))
      else
        let tx := addOutput tx (mkOutput (value_of utxo) (u32 receiver_id)) in
        if sum =? amount then Ok (sum, tx) else coins_until amount receiver_id wallet_id utxolist' sum tx
  end.

(** [create_tx]: [amount] and [receiver_id] are [int]s; both loops run. *)
Definition create_tx (memory : Z * Z) (amount receiver_id : Z) (utxolist : UTXOlist) (wallet_id : Z)
    : outcome Transaction :=
  let tx := single_coin amount receiver_id wallet_id utxolist (Transaction_default memory) in
  '(sum, tx) ← coins_until amount receiver_id wallet_id utxolist 0 tx;
  Ok (setSenderID (settxID tx (u32 sum)) (u16 wallet_id)).

Section Session.
Context `{Hash}.
Variable dev : device.
(** What the members of a new transaction hold before they get a value. *)
Variable memory : Z * Z.

(** The variables of [main], the messages that went to the leader and the balances that were shown. *)
Record session := mkSession {
  wallet : Wallet;
  next_keypair : Signature;
  sk : SigKey;
  random_opened : nat;     (** how often the random device was opened *)
  cin : istream.istream;
  input : string;
  sent : list chat.TransactionMsg;
  shown : list Z
}.

(** Up to the loop: the settings, the wallet, and the first key, which nobody gets to know. *)
Definition start (in_ : istream.istream) (fs : files) : outcome session :=
  let '(settings_path, in_) := istream.get_string "" in_ in
  settings ← Settings.Settings_from_file settings_path fs;
  w ← Wallet_new dev settings (Settings.my_wallet_id_ settings) 0;
  kp ← KeyGen_node dev (opened w) (mkSignature SigKey_empty SigKey_empty);
  Ok (mkSession w kp (private_key_ kp) (opened w + 2 * KEY_LEN_) in_ "" [] []).

(** What is done with the answer "y". *)
Definition new_transaction (s : session) : outcome session :=
  let '(amount, in_) := istream.get_int (cin s) in
  let '(receiver_id, in_) := istream.get_int in_ in
  match amount, receiver_id with
  | Some amount, Some receiver_id =>
      tx ← create_tx memory amount receiver_id (GetLocalUTXO (wallet s)) (wallet_id (wallet s));
      kp ← KeyGen_node dev (random_opened s) (next_keypair s);
      let tx := setPublicKey tx (Signature.public_key_ kp) in
      signature ← Sign (getDigest tx) (sk s);
      let tx := setSenderSig tx signature in
      '(p, _) ← SendTx2Leader tx;
      Ok (mkSession (wallet s) kp (private_key_ kp) (random_opened s + 2 * KEY_LEN_) in_ (input s)
            (sent s ++ [p]) (shown s))
  | _, _ => Undef uninitialised_read
  end.

(** The body of the loop; [reply] is the list in the reply of the leader, empty when the call fails. *)
Definition turn (reply : chat.UTXOlistMsg) (s : session) : outcome session :=
  let '(w, _) := Sync reply (wallet s) in
  let coins := get_total_coins (GetLocalUTXO w) in
  let '(answer, in_) := istream.get_string (input s) (cin s) in
  let s := mkSession w (next_keypair s) (sk s) (random_opened s) in_ answer (sent s) (shown s ++ [coins]) in
  if bool_decide (answer = "y") then new_transaction s else Ok s.

(** The loop, one turn per reply; [true] when it ends by itself. *)
Fixpoint main_loop (replies : list chat.UTXOlistMsg) (s : session) : outcome (session * bool) :=
  if bool_decide (input s = "q") then Ok (s, true)
  else match replies with
       | [] => Ok (s, false)
       | reply :: replies' => s ← turn reply s; main_loop replies' s
       end.
End Session.

(** * What a payment does *)

(** What a receiver gets of some outputs. *)
Definition paid_to (r : Z) (outs : list Output) : Z :=
  zsum (map Output_value (filter (fun o => Output_receiverID o = r) outs)).

Lemma zsum_app l1 l2 : zsum (l1 ++ l2) = zsum l1 + zsum l2.
Proof. induction l1 as [|x l1 IH]; [done|]. unfold zsum in *. cbn. lia. Qed.

Lemma utxo_total_app l1 l2 : utxo_total (l1 ++ l2) = utxo_total l1 + utxo_total l2.
Proof. unfold utxo_total. by rewrite map_app, zsum_app. Qed.

Lemma utxo_total_cons u l : utxo_total (u :: l) = value_of u + utxo_total l.
Proof. done. Qed.

(** Coins whose values can be counted in an [int]. *)
Definition countable (l : UTXOlist) : Prop := Forall (fun u => 0 <= value_of u) l /\ utxo_total l < 2 ^ 31.

Lemma utxo_total_nonneg l : Forall (fun u => 0 <= value_of u) l -> 0 <= utxo_total l.
Proof. induction 1 as [|u l Hu _ IH]; [done|]. rewrite utxo_total_cons. lia. Qed.

Lemma countable_cons u l : countable (u :: l) -> 0 <= value_of u < 2 ^ 31 /\ countable l.
Proof.
  intros [[Hu Hl]%Forall_cons Hs]. rewrite utxo_total_cons in Hs. pose proof (utxo_total_nonneg l Hl).
  split; [lia|]. split; [done|lia].
Qed.

Lemma add_value_small s v : 0 <= s -> 0 <= v -> s + v < 2 ^ 31 -> add_value s v = s + v.
Proof.
  intros Hs Hv Hsv. replace s with (i32 s) at 1 by (apply Settings.i32_small; lia). rewrite add_value_i32.
  apply Settings.i32_small. lia.
Qed.

Section Payment.
Variables (amount receiver_id wallet_id : Z).
Hypothesis amount_pos : 0 < amount.

(** The outputs of a payment out of a value [v]. *)
Definition pay (v : Z) : list Output :=
  mkOutput amount receiver_id :: if v =? amount then [] else [mkOutput (v - amount) wallet_id].

(** The first coin that covers the amount. *)
Definition covering (l : UTXOlist) : option UTXO := List.find (fun u => amount <=? value_of u) l.

(** [tx'] is [tx] with further inputs and outputs. *)
Definition grows (tx tx' : Transaction) (ins : list Input) (outs : list Output) : Prop :=
  inputs_ tx' = inputs_ tx ++ ins /\ outputs_ tx' = outputs_ tx ++ outs.

Lemma grows_trans tx1 tx2 tx3 i1 i2 o1 o2 : grows tx1 tx2 i1 o1 -> grows tx2 tx3 i2 o2 ->
  grows tx1 tx3 (i1 ++ i2) (o1 ++ o2).
Proof. intros [Hi Ho] [Hi' Ho']. split; [by rewrite Hi', Hi, app_assoc|by rewrite Ho', Ho, app_assoc]. Qed.

Lemma single_coin_grows l tx : is_u32 receiver_id -> amount < 2 ^ 31 -> countable l ->
  grows tx (single_coin amount receiver_id wallet_id l tx)
    (match covering l with Some u => [input_of u] | None => [] end)
    (match covering l with Some u => pay (value_of u) | None => [] end).
Proof.
  intros Hr Ha. assert (Hu : u64 amount = amount) by (apply u64_small; unfold is_u64; lia).
  induction l as [|u l IH]; [intros _; by split; cbn; rewrite app_nil_r|].
  intros (Hv & Hl)%countable_cons. cbn [single_coin covering List.find]. rewrite Hu, (u32_small receiver_id) by done.
  unfold pay. destruct (Z.ltb_spec amount (value_of u)) as [Hlt|Hge].
  - rewrite (proj2 (Z.leb_le amount (value_of u))), (proj2 (Z.eqb_neq (value_of u) amount)) by lia.
    rewrite u64_small by (unfold is_u64; lia). split; cbn; by rewrite <- ?app_assoc.
  - destruct (Z.eqb_spec (value_of u) amount) as [E|Hne].
    + rewrite (proj2 (Z.leb_le amount (value_of u))), (proj2 (Z.eqb_eq (value_of u) amount)) by lia. by split.
    + rewrite (proj2 (Z.leb_gt amount (value_of u))) by lia. by apply IH.
Qed.

(** What the second loop pays out, when it starts with the sum [s]: all of the coins before the one that reaches
    the amount, and then by how much the sum exceeds the amount. *)
Definition payments (s : Z) (pre : UTXOlist) (u : UTXO) : list Output :=
  map (fun v => mkOutput (value_of v) receiver_id) pre ++
  (let sum := s + utxo_total pre + value_of u in
   if sum =? amount then [mkOutput (value_of u) receiver_id]
   else [mkOutput (sum - amount) receiver_id; mkOutput (value_of u - (sum - amount)) wallet_id]).

(** One coin of the second loop. *)
Lemma coins_until_cons u l s tx : is_u32 receiver_id -> is_u32 wallet_id -> amount < 2 ^ 31 ->
  0 <= s < amount -> 0 <= value_of u -> s + value_of u < 2 ^ 31 ->
  if s + value_of u <? amount
  then exists tx', grows tx tx' [input_of u] [mkOutput (value_of u) receiver_id] /\
         coins_until amount receiver_id wallet_id (u :: l) s tx
         = coins_until amount receiver_id wallet_id l (s + value_of u) tx'
  else exists tx', grows tx tx' [input_of u] (payments s [] u) /\
         coins_until amount receiver_id wallet_id (u :: l) s tx = Ok (s + value_of u, tx').
Proof.
  intros Hr Hw Ha Hs Hv Hsv. cbn [coins_until]. rewrite add_value_small, (u32_small receiver_id) by (done || lia).
  destruct (Z.ltb_spec (s + value_of u) amount) as [Hlt|Hge].
  - rewrite (proj2 (Z.ltb_ge amount (s + value_of u))), (proj2 (Z.eqb_neq (s + value_of u) amount)) by lia.
    eexists. split; [|reflexivity]. by split.
  - unfold payments. cbn [map app]. change (utxo_total []) with 0. rewrite Z.add_0_r.
    destruct (Z.eqb_spec (s + value_of u) amount) as [E|Hne].
    + rewrite (proj2 (Z.ltb_ge amount (s + value_of u))) by lia. eexists. split; [|reflexivity]. by split.
    + rewrite (proj2 (Z.ltb_lt amount (s + value_of u))) by lia. unfold int_minus.
      rewrite (proj2 (Z.leb_le (- 2 ^ 31) _)), (proj2 (Z.ltb_lt _ (2 ^ 31))) by lia. cbn [andb mbind outcome_bind].
      rewrite (u64_small (_ - _)), (u64_small (s + _)), (u64_small amount) by (unfold is_u64; lia).
      rewrite u64_small by (unfold is_u64; lia). eexists. split; [|reflexivity]. split; cbn; [done|].
      rewrite <- app_assoc. cbn. by replace (value_of u - (s + value_of u) + amount)
        with (value_of u - (s + value_of u - amount)) by lia.
Qed.

Lemma payments_cons s v pre u :
  payments s (v :: pre) u = mkOutput (value_of v) receiver_id :: payments (s + value_of v) pre u.
Proof. unfold payments. cbn [map app]. by rewrite utxo_total_cons, (Z.add_assoc s). Qed.

Lemma coins_until_reaches l : forall s tx, is_u32 receiver_id -> is_u32 wallet_id -> amount < 2 ^ 31 ->
  0 <= s < amount -> Forall (fun u => 0 <= value_of u) l -> amount <= s + utxo_total l < 2 ^ 31 ->
  exists pre u post tx', l = pre ++ u :: post /\
    s + utxo_total pre < amount <= s + utxo_total pre + value_of u /\
    coins_until amount receiver_id wallet_id l s tx = Ok (s + utxo_total pre + value_of u, tx') /\
    grows tx tx' (map input_of (pre ++ [u])) (payments s pre u).
Proof.
  induction l as [|v l IH]; intros s tx Hr Hw Ha Hs Hl Hsum; [change (utxo_total []) with 0 in Hsum; lia|].
  apply Forall_cons in Hl as [Hv Hl]. rewrite utxo_total_cons in Hsum. pose proof (utxo_total_nonneg l Hl) as H0.
  pose proof (coins_until_cons v l s tx Hr Hw Ha Hs Hv ltac:(lia)) as Hc.
  destruct (Z.ltb_spec (s + value_of v) amount) as [Hlt|Hge]; destruct Hc as (tx1 & Hg & ->).
  - destruct (IH (s + value_of v) tx1) as (pre & u & post & tx' & -> & Hp & E & Hg'); [done..|lia|done|lia|].
    exists (v :: pre), u, post, tx'. rewrite payments_cons, utxo_total_cons, (Z.add_assoc s).
    split_and!; [done|lia..|done|]. by apply (grows_trans _ _ _ _ _ _ _ Hg Hg').
  - exists [], v, l, tx1. change (utxo_total []) with 0. rewrite !Z.add_0_r. split_and!; [done|lia..|done|done].
Qed.
End Payment.

Lemma refers_input_of u v : refers (input_of u) v = true <-> input_of v = input_of u.
Proof.
  unfold refers, input_of. cbn. rewrite andb_true_iff, !Z.eqb_eq. split; [by intros [-> ->]|by intros [= -> ->]].
Qed.

(** A list in which no two coins have the same reference: each coin is found. *)
Lemma find_input_of l u : NoDup (map input_of l) -> u ∈ l -> find_utxo l (input_of u) = Some u.
Proof.
  unfold find_utxo. induction l as [|v l IH]; [by intros _ ?%not_elem_of_nil|].
  cbn [map List.find]. intros [Hn Hd]%NoDup_cons [->|Hu]%elem_of_cons.
  - by rewrite (proj2 (refers_input_of v v)).
  - destruct (refers (input_of u) v) eqn:E; [|by apply IH]. apply refers_input_of in E. destruct Hn.
    rewrite E. by apply list_elem_of_fmap_2.
Qed.

Lemma found_all l us : NoDup (map input_of l) -> us ⊆ l ->
  Forall2 (fun i u => find_utxo l i = Some u) (map input_of us) us.
Proof.
  intros Hd. induction us as [|u us IH]; intros Hs; constructor; [apply find_input_of; set_solver|].
  apply IH. set_solver.
Qed.

Lemma paid_app r l1 l2 : paid_to r (l1 ++ l2) = paid_to r l1 + paid_to r l2.
Proof. unfold paid_to. by rewrite filter_app, map_app, zsum_app. Qed.
Lemma paid_cons r v r' l :
  paid_to r (mkOutput v r' :: l) = (if decide (r' = r) then v else 0) + paid_to r l.
Proof. unfold paid_to. rewrite filter_cons. cbn. by destruct (decide (r' = r)). Qed.
Lemma paid_all r pre : paid_to r (map (fun v => mkOutput (value_of v) r) pre) = utxo_total pre.
Proof.
  induction pre as [|v pre IH]; [done|]. cbn [map]. by rewrite paid_cons, decide_True, IH, utxo_total_cons.
Qed.

Definition all_out (outs : list Output) : Z := zsum (map Output_value outs).
Lemma all_out_app l1 l2 : all_out (l1 ++ l2) = all_out l1 + all_out l2.
Proof. unfold all_out. by rewrite map_app, zsum_app. Qed.
Lemma all_out_values r pre : all_out (map (fun v => mkOutput (value_of v) r) pre) = utxo_total pre.
Proof. induction pre as [|v pre IH]; [done|]. rewrite utxo_total_cons, <- IH. reflexivity. Qed.

(** Both parts of a payment spend what they pay out, and pay only the two wallets. *)
Section Outputs.
Variables (amount r w : Z).
Hypothesis rw : r <> w.

Lemma pay_out v : all_out (pay amount r w v) = v.
Proof.
  unfold pay, all_out. destruct (Z.eqb_spec v amount) as [->|]; cbn; lia.
Qed.
Lemma pay_paid v : paid_to r (pay amount r w v) = amount.
Proof.
  unfold pay. rewrite paid_cons, decide_True by done. destruct (v =? amount); [cbn; lia|].
  rewrite paid_cons, decide_False by done. cbn. lia.
Qed.
Lemma payments_out pre u : all_out (payments amount r w 0 pre u) = utxo_total pre + value_of u.
Proof.
  unfold payments. rewrite all_out_app, all_out_values. destruct (_ =? _); unfold all_out; cbn; lia.
Qed.
Lemma payments_paid pre u : paid_to r (payments amount r w 0 pre u) =
  if utxo_total pre + value_of u =? amount then amount
  else utxo_total pre + (utxo_total pre + value_of u - amount).
Proof.
  unfold payments. rewrite paid_app, paid_all, Z.add_0_l.
  destruct (Z.eqb_spec (utxo_total pre + value_of u) amount) as [E|];
    rewrite paid_cons, decide_True by done; [cbn; lia|]. rewrite paid_cons, decide_False by done. cbn. lia.
Qed.
Lemma two_receivers v pre u :
  Forall (fun o => Output_receiverID o = r \/ Output_receiverID o = w)
    (pay amount r w v ++ payments amount r w 0 pre u).
Proof.
  unfold pay, payments. apply Forall_app. split; [constructor; [by left|]; destruct (_ =? _); repeat constructor; by right|].
  apply Forall_app. split; [|destruct (_ =? _); repeat constructor; (by left) || (by right)].
  apply Forall_forall. intros o (v' & -> & _)%list_elem_of_fmap. by left.
Qed.
End Outputs.

(** A transaction that spends coins of the list and pays out what they are worth, to known receivers. *)
Lemma payment_accepted tx us l ids r w : NoDup (map input_of l) -> us ⊆ l -> us <> [] ->
  inputs_ tx = map input_of us -> all_out (outputs_ tx) = utxo_total us ->
  Forall (fun o => Output_receiverID o = r \/ Output_receiverID o = w) (outputs_ tx) ->
  r ∈ ids -> w ∈ ids -> checkSpendingConditions tx l ids = true.
Proof.
  intros Hd Hs Hne Hi Ho Hf Hr Hw. apply checkSpendingConditions_iff; [rewrite Hi; by destruct us|].
  exists us. split; [rewrite Hi; by apply found_all|]. split.
  - change (total_out tx) with (all_out (outputs_ tx)). by rewrite Ho.
  - eapply Forall_impl; [exact Hf|]. by intros o [-> | ->].
Qed.

Lemma covered_subset amount l us : us ⊆ l -> (if covering amount l is Some c then [c] else []) ++ us ⊆ l.
Proof.
  intros Hs. destruct (covering amount l) as [c|] eqn:E; [|done]. apply find_some in E as [Hc _].
  apply list_elem_of_In in Hc. set_solver.
Qed.


(** * The keys of the interactive wallet *)

Section Keys.
Context `{Hash}.
Variable dev : device.
Variable memory : Z * Z.

(** Two keys that one signature fits agree wherever the message looks. *)
Definition keys_agree (m : string) (k1 k2 : SigKey) : Prop :=
  forall i, (i < KEY_LEN_)%nat -> half k1 (msg_bit m i) !! i = half k2 (msg_bit m i) !! i.

Lemma both_verify m sig k1 k2 : full_key k1 -> full_key k2 -> length sig = KEY_LEN_ ->
  Verify m sig k1 = Ok 1 -> Verify m sig k2 = Ok 1 -> keys_agree m k1 k2.
Proof.
  intros F1 F2 L V1 V2 i Hi. pose proof (proj2 (Verify_iff m sig k1) F1 L) as [_ E1].
  pose proof (proj2 (Verify_iff m sig k2) F2 L) as [_ E2].
  destruct (proj1 E1 V1 i Hi) as (a & Ha & Ka), (proj1 E2 V2 i Hi) as (b & Hb & Kb). unfold msg_bit.
  rewrite Ha in Hb. injection Hb as <-. by rewrite Ka, Kb.
Qed.

(** A message with a transaction that is signed with one key and carries another. *)
Definition mismatched (p : chat.TransactionMsg) : Prop :=
  exists tx old new, generated KEY_LEN_ old /\ generated KEY_LEN_ new /\
    (forall m, fromProtoTransaction (Transaction_default m) p = Ok tx) /\
    public_key_ tx = Signature.public_key_ new /\
    Verify (getDigest tx) (senderSig_ tx) (Signature.public_key_ old) = Ok 1 /\
    forall v v', OnRecvTx tx v = Ok (v', 1) ->
      keys_agree (getDigest tx) (Signature.public_key_ old) (Signature.public_key_ new).

(** The key to sign with is the private half of the last pair, whose public half nobody was told. *)
Definition session_ok (s : session) : Prop :=
  generated KEY_LEN_ (next_keypair s) /\ sk s = private_key_ (next_keypair s) /\ Forall mismatched (sent s).

Lemma signed_mismatch tx sig old new : generated KEY_LEN_ old -> generated KEY_LEN_ new ->
  public_key_ tx = Signature.public_key_ new -> senderSig_ tx = sig ->
  Verify (getDigest tx) sig (Signature.public_key_ old) = Ok 1 ->
  forall v v', OnRecvTx tx v = Ok (v', 1) ->
    keys_agree (getDigest tx) (Signature.public_key_ old) (Signature.public_key_ new).
Proof.
  intros Ho Hn Hk <- Hv v v' Hr. destruct (OnRecvTx_cases tx v) as (v1 & r & E & Hc & _).
  rewrite Hr in E. injection E as <- <-. destruct Hc as [(_ & [Ha _] & _)|(? & _)]; [|done]. rewrite Hk in Ha.
  apply generated_pair, key_pair_full in Ho, Hn. destruct (decide (length (senderSig_ tx) = KEY_LEN_)) as [L|L].
  - by apply (both_verify _ (senderSig_ tx)).
  - rewrite (proj1 (Verify_iff _ _ _)) in Ha; [done|]. by intros [_ ?].
Qed.

(** Sending a transaction: what can be typed is sent, under the old key. *)
Lemma new_transaction_sends s amount receiver_id in1 in2 tx kp : session_ok s ->
  istream.get_int (cin s) = (Some amount, in1) -> istream.get_int in1 = (Some receiver_id, in2) ->
  create_tx memory amount receiver_id (GetLocalUTXO (wallet s)) (wallet_id (wallet s)) = Ok tx ->
  KeyGen_node dev (random_opened s) (next_keypair s) = Ok kp ->
  exists p, mismatched p /\ new_transaction dev memory s =
    Ok (mkSession (wallet s) kp (private_key_ kp) (random_opened s + 2 * KEY_LEN_) in2 (input s) (sent s ++ [p])
          (shown s)).
Proof.
  intros (Hg & Hsk & _) E1 E2 Et Ek. unfold new_transaction. rewrite E1, E2, Et, Hsk. cbn [mbind outcome_bind].
  rewrite Ek. cbn [mbind outcome_bind]. set (tx1 := setPublicKey tx _).
  destruct (sign_verify (getDigest tx1) _ _ (generated_pair _ Hg)) as (sig & -> & Hv). cbn [mbind outcome_bind].
  pose proof (KeyGen_node_inv _ _ _ _ Ek) as Hn. set (tx2 := setSenderSig tx1 sig).
  assert (Hs16 : is_u16 (senderID_ tx2)).
  { unfold create_tx in Et. apply bind_Ok in Et as ([sum t] & _ & [= <-]). unfold is_u16, u16. cbn.
    apply Z.mod_pos_bound. lia. }
  assert (Hwf : key_wf (public_key_ tx2)) by (right; by apply generated_full_text).
  destruct (Transaction_proto tx2 (Transaction_default (0, 0)) Hs16 Hwf eq_refl) as (p & Ep & _).
  unfold SendTx2Leader, NewTx. rewrite Ep. exists p. split; [|done].
  exists tx2, (next_keypair s), kp. split_and!; [done..| |done|exact Hv|].
  - intros m. destruct (Transaction_proto tx2 (Transaction_default m) Hs16 Hwf eq_refl) as (p' & Ep' & Er).
    rewrite Ep in Ep'. injection Ep' as <-. rewrite Er. by destruct tx2.
  - by apply (signed_mismatch tx2 sig).
Qed.

Lemma new_transaction_keeps s s' : session_ok s -> new_transaction dev memory s = Ok s' -> session_ok s'.
Proof.
  intros Hs E. destruct (istream.get_int (cin s)) as [o1 in1] eqn:E1.
  destruct (istream.get_int in1) as [o2 in2] eqn:E2. pose proof E as E0. unfold new_transaction in E0.
  rewrite E1, E2 in E0. destruct o1 as [amount|], o2 as [receiver_id|]; try done.
  apply bind_Ok in E0 as (tx & Et & (kp & Ek & _)%bind_Ok).
  destruct (new_transaction_sends _ _ _ _ _ _ _ Hs E1 E2 Et Ek) as (p & Hp & E').
  rewrite E in E'. injection E' as ->. destruct Hs as (_ & _ & Hf).
  split_and!; cbn; [by eapply KeyGen_node_inv|done|]. apply Forall_app. by repeat constructor.
Qed.

(** A turn in which the answer is "y". *)
Lemma turn_y reply s in_ : istream.get_string (input s) (cin s) = ("y", in_) ->
  turn dev memory reply s = new_transaction dev memory
    (mkSession (Sync reply (wallet s)).1 (next_keypair s) (sk s) (random_opened s) in_ "y" (sent s)
       (shown s ++ [get_total_coins (GetLocalUTXO (Sync reply (wallet s)).1)])).
Proof. intros E. unfold turn, Sync. by rewrite E, bool_decide_true. Qed.

Lemma turn_keeps reply s s' : session_ok s -> turn dev memory reply s = Ok s' -> session_ok s'.
Proof.
  intros Hs. unfold turn, Sync. destruct (istream.get_string (input s) (cin s)) as [answer in_].
  case_bool_decide; [by apply new_transaction_keeps|]. by intros [= <-].
Qed.

Lemma Wallet_new_ok st id k : device_ok dev -> exists w, Wallet_new dev st id k = Ok w /\ wallet_id w = id.
Proof.
  intros Hd. unfold Wallet_new. set (w0 := mkWallet _ _ _ _ _ _ _ _ _).
  destruct (Wallet_UpdateKeys_ok dev w0 Hd) as [w Ew]. exists w. split; [done|].
  by destruct (Wallet_UpdateKeys_inv _ _ _ Ew) as [-> _].
Qed.

(** The start of a session, with a working random device and settings that can be read. *)
Lemma start_runs in_ path in1 fs st : device_ok dev -> istream.get_string "" in_ = (path, in1) ->
  Settings.Settings_from_file path fs = Ok st ->
  exists w kp, wallet_id w = Settings.my_wallet_id_ st /\
    start dev in_ fs = Ok (mkSession w kp (private_key_ kp) (opened w + 2 * KEY_LEN_) in1 "" [] []).
Proof.
  intros Hd E1 E2. destruct (Wallet_new_ok st (Settings.my_wallet_id_ st) 0 Hd) as (w & Ew & Hid).
  destruct (KeyGen_node_ok dev (opened w) (mkSignature SigKey_empty SigKey_empty) Hd) as [kp Ek].
  exists w, kp. split; [done|]. unfold start. rewrite E1, E2. cbn [mbind outcome_bind]. rewrite Ew.
  cbn [mbind outcome_bind]. by rewrite Ek.
Qed.

Lemma start_ok in_ fs s : start dev in_ fs = Ok s -> session_ok s.
Proof.
  unfold start. destruct (istream.get_string "" in_) as [path i].
  intros (st & _ & (w & _ & (kp & Ek & [= <-])%bind_Ok)%bind_Ok)%bind_Ok.
  split_and!; cbn; [by eapply KeyGen_node_inv|done|constructor].
Qed.

Lemma main_loop_keeps replies : forall s s' ended, session_ok s ->
  main_loop dev memory replies s = Ok (s', ended) -> session_ok s'.
Proof.
  induction replies as [|r replies IH]; intros s s' ended Hs; cbn [main_loop]; case_bool_decide;
    [intros E; by simplify_eq..|].
  intros (s1 & E1 & E)%bind_Ok. eapply IH, E. exact (turn_keeps _ _ _ Hs E1).
Qed.


(** The end of the input is no way out of the loop: the answer stays what it was. *)
Lemma turn_at_end reply s : istream.good (cin s) = false -> input s <> "y" ->
  exists s', turn dev memory reply s = Ok s' /\ istream.good (cin s') = false /\ input s' = input s /\
    sent s' = sent s.
Proof.
  intros Hg Hy. unfold turn, Sync, istream.get_string, istream.sentry. rewrite Hg. cbn.
  rewrite bool_decide_false by done. by eexists.
Qed.

Lemma end_of_input_loops replies : forall s, istream.good (cin s) = false -> input s <> "y" -> input s <> "q" ->
  exists s', main_loop dev memory replies s = Ok (s', false) /\ sent s' = sent s.
Proof.
  induction replies as [|r replies IH]; intros s Hg Hy Hq; cbn [main_loop]; rewrite bool_decide_false by done; [by eexists|].
  destruct (turn_at_end r s Hg Hy) as (s1 & -> & Hg1 & Hi1 & Hs1). cbn [mbind outcome_bind].
  destruct (IH s1) as (s' & E & Hs'); rewrite ?Hi1; [done..|]. exists s'. by rewrite Hs', Hs1.
Qed.

(** After the answer "y" the end of the input leaves the amount without a value. *)
Lemma end_of_input_undefined reply s : istream.good (cin s) = false -> input s = "y" ->
  turn dev memory reply s = Undef uninitialised_read.
Proof.
  intros Hg Hy. unfold turn, Sync, istream.get_string, istream.sentry. rewrite Hg, Hy. cbn.
  unfold new_transaction, istream.get_int, istream.sentry, istream.failed. cbn. by rewrite Hg.
Qed.

(** The loop ends with the answer "q", and only so. *)
Lemma loop_ends_with_q replies : forall s s', main_loop dev memory replies s = Ok (s', true) -> input s' = "q".
Proof.
  induction replies as [|r replies IH]; intros s s'; cbn [main_loop]; case_bool_decide as Hq; try done;
    [intros E; by simplify_eq..|]. intros (s1 & _ & E)%bind_Ok. by eapply IH.
Qed.
End Keys.

(** * Witnesses *)

#[local] Existing Instance test_hash.

Definition three_coins : UTXOlist :=
  [mkUTXO 3 0 (mkOutput 40 7); mkUTXO 4 1 (mkOutput 100 7); mkUTXO 5 0 (mkOutput 20 7)].


(** The receiver of a payment of 60 gets 180. *)
Example pays_three_times :
  (fun tx => paid_to 8 (outputs_ tx)) <$> create_tx (0, 0) 60 8 three_coins 7 = Ok 180.
Proof. vm_compute. reflexivity. Qed.

Definition settings_text : string :=
  requote "{'leaderID':0,'validators':[{'id':0,'address':'a','port':1,'faulty':false}],'wallets':[7,8],'myValidatorID':0,'myWalletID':7}".
Definition settings_files : files := mkFiles {[ "s.json" := settings_text ]} (fun _ => true).
Definition typed_settings : Settings.Settings :=
  Settings.mkSettings 0 [(0, Settings.mkAddressInfo 0 "a" 1 false)] [7; 8] 0 7.
Lemma settings_read : Settings.Settings_from_file "s.json" settings_files = Ok typed_settings.
Proof. vm_compute. reflexivity. Qed.
Lemma one_payment : exists tx, create_tx (0, 0) 60 8 [mkUTXO 4 1 (mkOutput 100 7)] 7 = Ok tx.
Proof. vm_compute. by eexists. Qed.
Definition typed : istream.istream :=
  istream.mkIstream (String.list_ascii_of_string "s.json y 60 8 q") true.

(** The session in which the user types this. *)
Lemma typed_session :
  exists s s', start example_device typed settings_files = Ok s /\
    main_loop example_device (0, 0) [[chat.mkUTXO 4 1 100 7]] s = Ok (s', false) /\ length (sent s') = 1%nat.
Proof.
  destruct (start_runs example_device typed "s.json" (istream.mkIstream (String.list_ascii_of_string " y 60 8 q") true)
    settings_files typed_settings example_device_ok eq_refl settings_read) as (w & kp & Hid & Es).
  set (s := mkSession w _ _ _ _ _ _ _) in Es.
  pose proof (turn_y example_device (0, 0) [chat.mkUTXO 4 1 100 7] s
    (istream.mkIstream (String.list_ascii_of_string " 60 8 q") true) eq_refl) as Et1.
  set (s1 := mkSession _ _ _ _ _ _ _ _) in Et1.
  pose proof (start_ok _ _ _ _ Es) as Hs.
  destruct (KeyGen_node_ok example_device (opened w + 2 * KEY_LEN_) kp example_device_ok) as [kp2 Ek2].
  destruct one_payment as [tx Et].
  destruct (new_transaction_sends example_device (0, 0) s1 60 8
    (istream.mkIstream (String.list_ascii_of_string " 8 q") true)
    (istream.mkIstream (String.list_ascii_of_string " q") true) tx kp2) as (p & Hp & E1);
    [exact Hs|reflexivity|reflexivity|cbn; rewrite Hid; exact Et|exact Ek2|].
  assert (El : exists s', main_loop example_device (0, 0) [[chat.mkUTXO 4 1 100 7]] s = Ok (s', false) /\
    length (sent s') = 1%nat).
  { cbn [main_loop]. rewrite bool_decide_false by done. rewrite Et1, E1. cbn [mbind outcome_bind].
    rewrite bool_decide_false by done. eexists. split; [reflexivity|]. cbn. done. }
  destruct El as (s' & El & L). exists s, s'. split_and!; assumption.
Qed.

