(* ===== verification/Payment.v ===== *)
(** A payment from end to end: a wallet's transaction reaches the leader, enters its pool, is proposed and agreed
    on, and every validator that goes on working takes its coin away. *)
From S2P Require Import Prelude Sha256 Json JsonRoundTrip Signature Transaction Block Message Database Comms Node Validator System Network Bracha Delivery Wallet.
Local Open Scope Z_scope.

Section Steps.
Context `{Hash}.
Variables (dev : device) (order : gmap string Z -> list (string * Z)) (stale : string -> outcome string)
  (block_memory memory : Z).
Abbreviation process := (World (C := ValidatorClientImpl)).
Abbreviation steps := (steps dev order stale block_memory memory).

(** * A transaction arrives *)

Lemma transaction_arrives w tag p tx m : waits (server w) NewTx_call tag ->
  fromProtoTransaction (Transaction_default m.1.2) p = Ok tx ->
  exists s, Rpc m tag (NewTransaction_request p) w = Some (Ok (set_server s w : process)) /\
    mq_ s = mq_ (server w) /\ txq_ s = txq_ (server w) ++ [tx] /\ utxolists_ s = utxolists_ (server w) /\
    forall t, waits (server w) Talk_call t -> waits s Talk_call t.
Proof.
  intros Hw Hp. unfold Rpc. pose proof Hw as Ew. unfold waits in Ew. rewrite Ew. cbn [request_kind].
  unfold Proceed. rewrite Ew. cbn [status_ kind_ Comms.process]. rewrite Hp. cbn [mbind outcome_bind].
  eexists. split; [reflexivity|]. cbn. split_and!; [done..|]. intros t Ht. unfold waits in *. cbn.
  assert (Hne : tag <> t) by (intros ->; rewrite Ew in Ht; done).
  rewrite list_lookup_insert_ne by done. apply lookup_lt_Some in Ht as Hlt.
  rewrite list_lookup_insert_ne by lia. by apply lookup_app_l_Some.
Qed.

(** * The transaction is taken into the pool *)

Lemma OnRecvTx_mutex tx v v' r : OnRecvTx tx v = Ok (v', r) -> mutex_of_grpc v' = mutex_of_grpc v.
Proof.
  unfold OnRecvTx. intros (z & _ & E)%bind_Ok.
  assert (Ht : mutex_of_grpc (touch (senderID_ tx) (UpdateKeys (senderID_ tx) tx v)) = mutex_of_grpc v)
    by (unfold touch; by destruct (utxo_sets_ _ !! _)).
  destruct (negb _ || _); by injection E as <- _.
Qed.

(** A process whose threads wait, with no event under way, and whose validator locks nothing. *)
Definition idle (w : process) : Prop :=
  handler w = EventHandler_new /\ locals w = [] /\ listen w = Listening /\ proposing w = Proposing /\
  storing w = Looking /\ held (mutex_of_grpc (validator w)) = false.

Lemma pool_filled w tx : idle w -> memory_pool_ (validator w) = [] -> txq_ (server w) = [tx] ->
  accepts (validator w) tx ->
  exists w', steps [Listen_act; Listen_act; Event_act; Listen_act] w = Some (Ok w') /\
    node w' = node w /\ mq_ (server w') = mq_ (server w) /\ calls (server w') = calls (server w) /\
    utxolists_ (server w') = utxolists_ (server w) /\
    publist (handler w') = [] /\ subsMap_ (handler w') Event_PROPOSE = [] /\
    subsMap_ (handler w') Event_DBSTORE = [] /\ proposing w' = Proposing /\ storing w' = Looking /\
    memory_pool_ (validator w') = [tx] /\ wallets_ids_ (validator w') = wallets_ids_ (validator w) /\
    (forall id, utxos id (validator w') = utxos id (validator w)) /\
    held (mutex_of_grpc (validator w')) = false.
Proof.
  intros (Hh & Hlo & Hl & Hpr & Hst & Hm) Hp Hq Ha. destruct w as [v s nd h lo li pr st].
  cbn [validator server handler locals listen proposing storing] in *. subst h lo li pr st.
  set (v1 := set_mutex_of_grpc (lock (mutex_of_grpc v)) v).
  destruct (OnRecvTx_cases tx v1) as (v2 & r & E & Hc & _ & Hw2 & Hu2).
  assert (Ha1 : accepts v1 tx) by done. destruct Hc as [(-> & _ & Hpool)|(_ & Hn & _)]; [|by destruct Hn].
  pose proof (OnRecvTx_mutex _ _ _ _ E) as Hmx.
  assert (Et : (OnTxReply [tx] v1).1 = Ok v2) by (cbn [OnTxReply fst foldM]; by rewrite E).
  eexists. split.
  - cbn [System.steps step]. unfold Listen at 1. cbn [listen]. unfold newRequests at 1. cbn [server validator].
    rewrite Hq, Hm. cbn -[OnTxReply]. unfold Event_turn, EventProcess. cbn -[OnTxReply run_task].
    rewrite decide_True by done. cbn -[OnTxReply]. unfold run_TxTask, newRequests. cbn -[OnTxReply].
    rewrite Hq. cbn [getTransactions]. rewrite getTransactions_spec. cbn [app]. rewrite Hq. fold v1. rewrite Et.
    cbn -[OnTxReply]. reflexivity.
  - cbn. rewrite Hmx. cbn. split_and!; try done. rewrite Hpool. change (memory_pool_ v1) with (memory_pool_ v). by rewrite Hp.
Qed.

(** * The block *)

(** A pool of one transaction that may be spent gives the block with this transaction. *)
Lemma single_block v tx : memory_pool_ v = [tx] ->
  checkSpendingConditions tx (utxos (senderID_ tx) v) (wallets_ids_ v) = true ->
  exists v' b, CreateBlk true (Block_empty block_memory) v = Ok (v', b, 1) /\ txs_ b = [tx] /\
    memory_pool_ v' = [] /\ (forall id, utxos id v' = utxos id v) /\ mutex_of_grpc v' = mutex_of_grpc v.
Proof.
  intros Hp Hc. unfold CreateBlk. rewrite Hp. cbn [negb rev app foldM]. unfold create_step at 1.
  set (v1 := touch (senderID_ tx) (set_memory_pool [] v)).
  destruct (touch_same (senderID_ tx) (set_memory_pool [] v)) as (Hw & Hm & _). fold v1 in Hw, Hm.
  assert (Hu : forall id, utxos id v1 = utxos id v) by (intros id; unfold v1; by rewrite utxos_touch).
  rewrite Hw, Hu. change (wallets_ids_ (set_memory_pool [] v)) with (wallets_ids_ v). rewrite Hc. cbn [negb].
  cbn [verifyTxConsist txs_ Block_empty forallb negb]. unfold addTransaction. cbn [mutable_ Block_empty].
  cbn [mbind outcome_bind]. unfold finalize, calculateMerkleRoot. cbn [mutable_ negb txs_ app Block_empty].
  destruct (merkle_root_total [tx]) as [r ->]. cbn [mbind outcome_bind]. eexists _, _. split; [reflexivity|].
  split_and!; [done|done|done|]. unfold v1, touch. by destruct (utxo_sets_ _ !! _).
Qed.

Lemma single_verifies b tx l w : txs_ b = [tx] -> (length (inputs_ tx) <= 1)%nat ->
  checkSpendingConditions tx l w = true -> Block_verify b l w = true.
Proof.
  intros Hb Hi Hc. unfold all_inputs in *. apply Block_verify_iff; unfold all_inputs; rewrite Hb; cbn; rewrite app_nil_r.
  { lia. }
  split; [by constructor|]. destruct (inputs_ tx) as [|i [|]]; cbn in Hi; [constructor|apply NoDup_singleton|lia].
Qed.

(** * The agreed block is worked through *)

(** A process that has delivered [b] and has not looked at it yet. *)
Definition must_store (x : string) (b : Block) (w : process) : Prop :=
  accepted_blocks_ (node w) = [x] /\ should_broadcast_ (node w) = false /\ blocks_ (node w) !! x = Some b /\
  storing w = Looking /\ publist (handler w) = [] /\ subsMap_ (handler w) Event_DBSTORE = [] /\
  held (mutex_of_grpc (validator w)) = false.

(** The coins that [txs] spend are gone, from the validator and from what its server shows. *)
Definition settled (txs : list Transaction) (w w' : process) : Prop :=
  (forall id, utxos id (validator w') = foldl spend (utxos id (validator w)) (spent_by id txs)) /\
  utxolists_ (server w') = utxo_sets_ (validator w') /\ memory_pool_ (validator w') = memory_pool_ (validator w).

Lemma run_DBTask_one (w : process) b v : blist_ (validator w) = [b] ->
  foldM agree_tx (validator w) (txs_ b) = Ok v ->
  run_DBTask w = Ok (set_server (OnSyncReply v (server w)).1 (set_validator (set_blist [] v) w)).
Proof. intros Hb E. unfold run_DBTask. rewrite Hb. cbn [foldM]. unfold OnAgreeBlk. by rewrite E. Qed.

Lemma stores_block x b w : must_store x b w -> Forall simple (txs_ b) ->
  exists w', steps [DB_act; DB_act; DB_act; Event_act] w = Some (Ok w') /\ settled (txs_ b) w w'.
Proof.
  intros (Ha & Hs & Hb & Hst & Hp & Hsub & Hm) Hsi. destruct w as [v sv nd [pub subs] lo li pr st].
  cbn [validator server node handler storing publist subsMap_] in *. subst st pub.
  destruct (agree_loop_simple (txs_ b) (set_blist [b] v) Hsi) as (v2 & E & Hpool & _ & Hu).
  eexists. split.
  - cbn [System.steps step]. unfold DBProcess at 1. cbn [storing node]. unfold isConsensus. rewrite Hs. cbn [negb].
    unfold getConsensusBlocks. rewrite Ha. cbn [foldl consensus_block]. rewrite Hb. cbn [app].
    cbn -[run_task]. unfold Event_turn, EventProcess. cbn -[run_task]. rewrite Hm, decide_True, Hsub by done.
    cbn [foldM map func app run_task]. erewrite run_DBTask_one by (reflexivity || exact E). reflexivity.
  - split_and!; [exact Hu|done|exact Hpool].
Qed.
End Steps.

(** * The network *)

Section Network.
Context `{Hash}.
Variables (dev : nat -> device) (order : nat -> gmap string Z -> list (string * Z))
  (stale : nat -> string -> outcome string) (block_memory memory : nat -> Z) (addresses : list string).
Abbreviation process := (World (C := ValidatorClientImpl)).
Abbreviation reachable_from := (net_reachable dev order stale block_memory memory addresses).

(** One process after the other. *)
Lemma all_store x txs js : Forall simple txs -> NoDup js -> forall net,
  (forall j, j ∈ js -> exists w b, processes net !! j = Some w /\ must_store x b w /\ txs_ b = txs) ->
  exists net', reachable_from net net' /\
    (forall j w, j ∈ js -> processes net !! j = Some w ->
       exists w', processes net' !! j = Some w' /\ settled txs w w') /\
    (forall k, k ∉ js -> processes net' !! k = processes net !! k).
Proof.
  intros Hsi. induction 1 as [|j js Hj Hn IH]; intros net Hall.
  { exists net. split; [apply net_here|]. split; [|done]. by intros ? ? ?%elem_of_nil. }
  destruct (Hall j) as (w & b & Ew & Hms & Hb); [left|].
  destruct (stores_block (dev j) (order j) (stale j) (block_memory j) (memory j) x b w Hms) as (w' & Es & Hse);
    [by rewrite Hb|]. rewrite Hb in Hse.
  assert (Hlen : (j < length (processes net))%nat) by (by eapply lookup_lt_Some).
  assert (Hother : forall k, k <> j -> processes (set_process j w' net) !! k = processes net !! k)
    by (intros k Hk; by apply list_lookup_insert_ne).
  destruct (IH (set_process j w' net)) as (net' & Hr & Hd & Hk).
  { intros k Hkin. destruct (Hall k) as (wk & bk & Ek & Hr); [by right|]. exists wk, bk.
    rewrite Hother; [done|]. by intros ->. }
  exists net'. split_and!.
  - eapply net_reachable_trans, Hr. eapply local_steps; [|exact Ew|exact Es]. by repeat constructor.
  - intros k wk [->|Hin]%elem_of_cons Ek.
    + rewrite Ek in Ew. injection Ew as ->. exists w'. split; [|done]. rewrite Hk by done.
      by apply list_lookup_insert_eq.
    + apply Hd; [done|]. rewrite Hother; [done|]. by intros ->.
  - intros k [Hne Hnin]%not_elem_of_cons. by rewrite Hk, Hother.
Qed.

(** What is known of a process after a quiet run. *)
Lemma must_store_frame x blk w0 (w : process) : frame w = frame w0 -> has_delivered blk w ->
  x = Header_getID (header_ blk) -> storing w0 = Looking -> publist (handler w0) = [] ->
  subsMap_ (handler w0) Event_DBSTORE = [] -> held (mutex_of_grpc (validator w0)) = false ->
  exists b, must_store x b w /\ txs_ b = txs_ blk.
Proof.
  intros Hf (Ha & Hs & b & Hb & _ & Htx & _) -> H1 H2 H3 H4. injection Hf as Ev Eh _ _ _ Est _ _.
  exists b. split; [|done]. unfold must_store. by rewrite Ev, Eh, Est.
Qed.

(** ** A payment *)

Variables (coins : UTXOlist) (wallets : list Z) (f : Z).
Let N : Z := Z.of_nat (length addresses).
Hypothesis Hdev : forall i, device_ok (dev i).
Hypothesis Horder : forall i, order_ok (order i).
Hypothesis Hstale : forall i y, stale i y = Ok y.
Hypothesis Hcount : N < 2 ^ 16.

(** The leader's first steps: the request, its event, and the block of its pool. *)
Lemma leader_ready net leader w tag p tx m : all_started coins wallets addresses f net ->
  processes net !! leader = Some w -> is_leader w = true -> idle w ->
  memory_pool_ (validator w) = [] -> txq_ (server w) = [] -> waits (server w) NewTx_call tag ->
  fromProtoTransaction (Transaction_default m.1.2) p = Ok tx -> accepts (validator w) tx ->
  exists net1 net2 w2 v' blk,
    net_step dev order stale block_memory memory addresses
      (Local leader (Rpc_act m tag (NewTransaction_request p))) net = Some (Ok net1) /\
    reachable_from net1 net2 /\ (forall k, k <> leader -> processes net2 !! k = processes net !! k) /\
    proposes block_memory blk coins wallets addresses f leader net2 w2 v' /\ txs_ blk = [tx] /\
    storing w2 = Looking /\ subsMap_ (handler w2) Event_DBSTORE = [] /\
    memory_pool_ v' = [] /\ (forall id, utxos id v' = utxos id (validator w)) /\
    held (mutex_of_grpc v') = false.
Proof.
  intros Hst Hw Hl Hid Hpool Hq Hwt Hp Ha.
  destruct (transaction_arrives w tag p tx m Hwt Hp) as (s & Er & Em & Eq & Eu & Et).
  set (w1 := set_server s w). rewrite Hq in Eq.
  destruct (pool_filled (dev leader) (order leader) (stale leader) (block_memory leader) (memory leader) w1 tx)
    as (w2 & E2 & En2 & Em2 & Ec2 & Eu2 & Hpub & Hsp & Hsd & Hpr & Hsto & Hp2 & Hw2 & Hut2 & Hm2); [done..|].
  destruct (single_block (block_memory leader) (validator w2) tx Hp2) as (v' & blk & Hc & Htx & Hp' & Hu' & Hmx);
    [rewrite Hut2, Hw2; apply Ha|].
  assert (Hlen : (leader < length (processes net))%nat) by (by eapply lookup_lt_Some).
  assert (Hin : forall net0 w0, length (processes net0) = length (processes net) ->
    processes (set_process leader w0 net0) !! leader = Some w0)
    by (intros net0 w0 E; apply list_lookup_insert_eq; lia).
  exists (set_process leader w1 net), (set_process leader w2 (set_process leader w1 net)), w2, v', blk. split_and!.
  - cbn [net_step]. rewrite Hw. cbn [mbind option_bind is_local]. unfold waits in Hwt. rewrite Hwt.
    cbn [step]. by rewrite Er.
  - eapply local_steps; [|by apply Hin|exact E2]. by repeat constructor.
  - intros k Hk. cbn. by rewrite !list_lookup_insert_ne.
  - unfold proposes. split_and!; [|apply Hin; cbn; by rewrite length_insert| |done..].
    + apply (stands_same_node blk coins wallets addresses f _ _ leader w1 w2); [|by apply Hin|exact En2|exact Em2|].
      * by apply (stands_same_node blk coins wallets addresses f _ net leader w w1); [apply stands_at_start|..].
      * intros t Ht. unfold waits in *. by rewrite Ec2.
    + unfold is_leader in *. by rewrite En2.
  - done.
  - done.
  - done.
  - done.
  - intros id. by rewrite Hu', Hut2.
  - by rewrite Hmx.
Qed.

Lemma spent_by_one id tx : spent_by id [tx] = if decide (id = senderID_ tx) then inputs_ tx else [].
Proof.
  unfold spent_by. rewrite filter_cons, filter_nil. destruct (decide (senderID_ tx = id)) as [<-|Hn].
  - rewrite decide_True by done. apply app_nil_r.
  - by rewrite decide_False by (by intros ->).
Qed.

(** From the leader's proposal to the coins. *)
Lemma proposal_settles leader live net w v' blk tx : proposes block_memory blk coins wallets addresses f leader net w v' ->
  txs_ blk = [tx] -> simple tx -> is_u16 (senderID_ tx) -> key_wf (public_key_ tx) ->
  checkSpendingConditions tx coins wallets = true ->
  NoDup live -> (forall j, j ∈ live -> (j < length addresses)%nat) -> leader ∈ live ->
  0 <= f -> 2 * f + 1 < Z.of_nat (length live) -> Z.quot (N + f + 1) 2 <= Z.of_nat (length live) ->
  storing w = Looking -> subsMap_ (handler w) Event_DBSTORE = [] -> held (mutex_of_grpc v') = false ->
  (forall j wj, j ∈ live -> j <> leader -> processes net !! j = Some wj -> idle wj) ->
  exists net', reachable_from net net' /\
    forall j wj, j ∈ live -> processes net !! j = Some wj ->
      exists wj', processes net' !! j = Some wj' /\
        settled [tx] (if decide (j = leader) then set_validator v' wj else wj) wj'.
Proof.
  intros Hp Htx Hsi H16 Hkey Hc Hn Hin Hl Hf H1 H2 Hsto Hsd Hm Hidle.
  assert (Hv : Block_verify blk coins wallets = true) by (eapply single_verifies; [done|apply Hsi|done]).
  assert (Hts : Forall (fun t => is_u16 (senderID_ t) /\ key_wf (public_key_ t)) (txs_ blk))
    by (rewrite Htx; by apply Forall_singleton).
  destruct (delivery_run dev order stale block_memory memory blk coins wallets addresses f Hdev Horder Hcount leader
    live Hv Hts (fun i => Hstale i _) Hn Hin Hl Hf H1 H2 net w v' Hp)
    as (nd' & net2 & Hr2 & Hlen & Hd & Hfr & _).
  pose proof Hp as (_ & Hw & _ & Hpub & _).
  set (base j wj := if decide (j = leader) then after_ProposeTask memory leader v' nd' w else wj : process).
  assert (Hbase : forall j wj w2, processes net !! j = Some wj -> processes net2 !! j = Some w2 -> frame w2 = frame (base j wj)).
  { intros j wj w2 Ej E2. apply (f_equal (fun l => l !! j)) in Hfr. change (map frame) with (fmap (M := list) frame) in Hfr.
    rewrite !list_lookup_fmap, E2 in Hfr. unfold base. destruct (decide (j = leader)) as [->|Hne].
    - rewrite list_lookup_insert_eq in Hfr by (by eapply lookup_lt_Some). exact (inj Some _ _ Hfr).
    - rewrite list_lookup_insert_ne, Ej in Hfr by done. exact (inj Some _ _ Hfr). }
  destruct (all_store (Header_getID (header_ blk)) [tx] live (proj2 (Forall_singleton simple tx) Hsi) Hn net2)
    as (net' & Hr' & Hset & _).
  { intros j Hj. destruct (Hd j Hj) as (w2 & E2 & Hhas).
    destruct (lookup_lt_is_Some_2 (processes net) j) as [wj Ej].
    { apply (f_equal length) in Hfr. rewrite !length_map, length_insert in Hfr. rewrite <- Hfr, Hlen. by apply Hin. }
    exists w2. rewrite <- Htx. pose proof (Hbase j wj w2 Ej E2) as Hb. unfold base in Hb.
    destruct (must_store_frame (Header_getID (header_ blk)) blk _ w2 Hb Hhas) as (b & Hms & Hbt); [done|..|by exists b].
    all: destruct (decide (j = leader)) as [->|Hne]; [done|].
    all: destruct (Hidle j wj Hj Hne Ej) as (Hh & _ & _ & _ & Hs & Hm'); rewrite ?Hh; done. }
  exists net'. split; [by eapply net_reachable_trans|]. intros j wj Hj Ej. destruct (Hd j Hj) as (w2 & E2 & _).
  destruct (Hset j w2 Hj E2) as (wj' & Ej' & Hs1 & Hs2 & Hs3). exists wj'. split; [done|].
  pose proof (Hbase j wj w2 Ej E2) as Hb. injection Hb as Ev _ _ _ _ _ _ _. unfold settled. rewrite Hs3, Ev.
  unfold base. destruct (decide (j = leader)) as [->|Hne]; (split_and!; [|done|done]); intros id; rewrite Hs1, Ev; unfold base.
  - by rewrite decide_True.
  - by rewrite decide_False.
Qed.

End Network.
