(* ===== verification/Demo.v ===== *)
(** The demonstration (src/src/demo.cc): four validators and the wallets in one program, as the settings say, and
    the two payments that it makes. *)
From S2P Require Import Prelude Sha256 Json JsonRoundTrip Signature Transaction Block Message Database Comms Node Validator System Network Bracha Delivery Wallet Programs Payment.
Local Open Scope Z_scope.

Section Demo.
Context `{Hash}.
(** What /dev/urandom yields to the wallets and to the nodes; what members without a value hold; the files. *)
Variables (wdev dev : nat -> device) (block_memory : nat -> Z) (memory : Z * Z) (fs : files).
Abbreviation process := (World (C := ValidatorClientImpl)).
Abbreviation process_node := (Node (C := ValidatorClientImpl)).

(** [new LeaderNode(...)] and [new Node(...)], with the client that the settings give. *)
Definition demo_node (args : Settings.Settings) (e : nat * string) : outcome process_node :=
  client ← ValidatorClientImpl_new args;
  Node_new (dev e.1) e.2 (Z.of_nat e.1) (e.1 =? 0)%nat false args client 0.

(** One turn of the loop that makes the validators; the nodes are passed by their pointers. *)
Definition demo_validator (args : Settings.Settings) (servers : list ChatServiceImpl) (nodes : list process_node)
    (i : nat) : outcome (Validator * ChatServiceImpl * process_node) :=
  v ← read (Settings.getValidators args) i;
  server ← read servers i;
  node ← read nodes i;
  val ← Validator_new (block_memory i) memory (Settings.id v) args (Settings.wallets_ args) fs;
  Ok (Validator_move val, server, node).

(** The first two stages of [main]: the wallets and the running validators.  A thread serves each server at the
    port of a validator. *)
Definition demo : outcome (list Wallet * list process) :=
  args ← Settings.Settings_from_file "../../settings_demo.json" fs;
  wallets ← outcome_mapM (fun e => Wallet_new (wdev e.1) args e.2 0) (imap pair (Settings.wallets_ args));
  _ ← outcome_mapM (read (Settings.getValidators args)) (seq 0 4);
  let servers := repeat (HandleRpcs_start ChatServiceImpl_new) 4 in
  nodes ← outcome_mapM (demo_node args) (imap pair ["server_node0"; "server_node1"; "server_node2"; "server_node3"]);
  leader ← read nodes 0;
  _ ← (if is_lead_ (config_ leader) then Ok tt else Throw assertion_failed);
  validators ← outcome_mapM (demo_validator args servers nodes)
    (seq 0 (Z.to_nat (Settings.getTotalNumberOfValidators args)));
  Ok (wallets, map (fun t => System.start 100 t.1.1 t.1.2 t.2) validators).

(** The third stage: what the first two wallets send.  [replies]: what the leader answers when they synchronise. *)
Definition demo_transactions (replies : chat.UTXOlistMsg * chat.UTXOlistMsg) (jmemory : Z * Z) (wallets : list Wallet)
    : outcome (list chat.TransactionMsg) :=
  w0 ← read wallets 0;
  '(_, tx_id, p0, _) ← SendTx (wdev 0) "tx1.json" fs replies.1 jmemory.1 tx_id_start w0;
  w1 ← read wallets 1;
  '(_, _, p1, _) ← SendTx (wdev 1) "tx2.json" fs replies.2 jmemory.2 tx_id w1;
  Ok [p0; p1].

Lemma demo_transactions_ok replies jmemory wallets w0 w1 w0' w1' k0 k1 p0 p1 :
  wallets !! 0%nat = Some w0 -> wallets !! 1%nat = Some w1 ->
  SendTx (wdev 0) "tx1.json" fs replies.1 jmemory.1 tx_id_start w0 = Ok (w0', k0, p0, 1) ->
  SendTx (wdev 1) "tx2.json" fs replies.2 jmemory.2 k0 w1 = Ok (w1', k1, p1, 1) ->
  demo_transactions replies jmemory wallets = Ok [p0; p1].
Proof.
  intros E0 E1 S0 S1. unfold demo_transactions. rewrite (read_ok _ _ _ E0). cbn [mbind outcome_bind].
  rewrite S0. cbn [mbind outcome_bind]. rewrite (read_ok _ _ _ E1). cbn [mbind outcome_bind]. by rewrite S1.
Qed.

(** * The network of the demonstration *)

Variable args : Settings.Settings.
Hypothesis read_settings : Settings.Settings_from_file "../../settings_demo.json" fs = Ok args.
Hypothesis four : length (Settings.validators_ args) = 4%nat.
Let addresses := Settings.getValidatorAdresses args.
Let wids := Settings.wallets_ args.
Let f := u16 (Settings.getNumberOfFaultyValidators args).
Hypothesis different : NoDup addresses.
Hypothesis counted : Z.of_nat (length wids) <= 2 ^ 32.
Hypothesis no_database : forall v, v ∈ Settings.getValidators args ->
  contents fs !! ("../../database" +:+ pretty (Settings.id v) +:+ ".json") = None.
Hypothesis wdev_ok : forall i, device_ok (wdev i).
Hypothesis dev_ok : forall i, device_ok (dev i).

Lemma four_validators : length (Settings.getValidators args) = 4%nat /\ length addresses = 4%nat /\
  Settings.getTotalNumberOfValidators args = 4.
Proof.
  unfold addresses, Settings.getValidators, Settings.getValidatorAdresses, Settings.getTotalNumberOfValidators.
  destruct (Settings.validators_ args) as [|? [|? [|? [|? [|]]]]]; try done.
Qed.

(** A node of the demonstration before it gets the coins. *)
Definition new_node (i : nat) (nd : process_node) : Prop :=
  fresh nd /\ lively (grpcClient_ nd) /\ servers_ (grpcClient_ nd) = addresses /\
  node_id_ (config_ nd) = Z.of_nat i /\ is_lead_ (config_ nd) = (i =? 0)%nat /\
  n_ (config_ nd) = 4 /\ f_ (config_ nd) = f /\
  should_broadcast_ nd = true /\ send_this_round_ nd = "" /\ val_sig_keys_ nd = ∅ /\ blocks_ nd = ∅ /\
  generated KEY_LEN_ (my_next_key_pair_ nd).

Lemma demo_client : exists c, ValidatorClientImpl_new args = Ok c /\ lively c /\ servers_ c = addresses /\
  forall a, client_outbox c a = [].
Proof.
  destruct four_validators as (_ & Hl & _). apply started_client; [exact different|rewrite Hl; lia].
Qed.

Lemma demo_node_ok i name : exists nd, demo_node args (i, name) = Ok nd /\ new_node i nd.
Proof.
  destruct demo_client as (c & Ec & Hl & Hs & Ho). destruct four_validators as (_ & _ & Hn).
  destruct (KeyGen_node_ok (dev i) 0 (mkSignature SigKey_empty SigKey_empty) (dev_ok i)) as [kp Ek].
  unfold demo_node. rewrite Ec. cbn [mbind outcome_bind fst snd]. unfold Node_new. rewrite Ek, Hn.
  cbn [mbind outcome_bind]. eexists. split; [reflexivity|].
  pose proof (KeyGen_node_inv _ _ _ _ Ek) as Hg.
  split_and!; cbn; try reflexivity; [|exact Hl|exact Hs|exact Hg].
  split_and!; cbn; try reflexivity; [apply Hl|]. intros a _. apply Ho.
Qed.

(** A validator of the demonstration before it has coins. *)
Definition new_validator (v : Validator) : Prop :=
  wallets_ids_ v = wids /\ utxo_sets_ v = ∅ /\ memory_pool_ v = [] /\ blist_ v = [] /\ mutex_of_grpc v = mutex_new.

Lemma demo_validator_ok nodes i nd : (i < 4)%nat -> nodes !! i = Some nd ->
  exists v, demo_validator args (repeat (HandleRpcs_start ChatServiceImpl_new) 4) nodes i
    = Ok (v, HandleRpcs_start ChatServiceImpl_new, nd) /\ new_validator v.
Proof.
  intros Hi Hn. destruct four_validators as (Hl & _).
  destruct (lookup_lt_is_Some_2 (Settings.getValidators args) i) as [info Ei]; [lia|].
  unfold demo_validator. rewrite (read_ok _ _ _ Ei), (read_ok _ _ _ Hn). cbn [mbind outcome_bind].
  rewrite (read_ok _ i (HandleRpcs_start ChatServiceImpl_new)).
  2: { destruct i as [|[|[|[|]]]]; (reflexivity || lia). }
  cbn [mbind outcome_bind]. unfold Validator_new, Database_new, load.
  rewrite no_database by (by eapply list_elem_of_lookup_2). cbn [mbind outcome_bind].
  eexists. split; [reflexivity|]. by split_and!.
Qed.

(** A process of the demonstration, started. *)
Definition ready (i : nat) (w : process) : Prop :=
  started (first_coins 100 0 wids) wids addresses f i w /\ idle w /\ is_leader w = (i =? 0)%nat /\
  memory_pool_ (validator w) = [] /\ txq_ (server w) = [] /\ waits (server w) NewTx_call 1 /\
  wallets_ids_ (validator w) = wids /\
  forall id, utxos id (validator w) = received id (first_coins 100 0 wids).

Lemma start_ready i v nd : new_validator v -> new_node i nd ->
  ready i (System.start 100 v (HandleRpcs_start ChatServiceImpl_new) nd).
Proof.
  intros (Hw & Hu & Hp & Hb & Hm) (H1 & H2 & H3 & H4 & H5 & H6 & H7 & H8 & H9 & H10 & H11 & H12).
  unfold System.start, InitializeCoins. rewrite Hw, Hu.
  destruct (initialize_loop 100 wids ∅ [] 0) as (m & k & E & Hr); [lia..|]. rewrite E. cbn [app].
  unfold ready, started, idle, is_leader, utxos, Run.
  cbn [validator server node handler locals listen proposing storing node_setUTXOlists set_wallet_ids set_utxolist
       config_ grpcClient_ utxolist_ wallet_ids_ should_broadcast_ send_this_round_ val_sig_keys_ blocks_
       my_next_key_pair_ mutex_of_grpc set_utxo_sets utxo_sets_ memory_pool_ wallets_ids_].
  rewrite Hm. split_and!; try done.
  - destruct four_validators as (_ & -> & _). done.
  - by exists 0%nat.
Qed.

Lemma demo_runs : exists wallets ps, demo = Ok (wallets, ps) /\
  length wallets = length wids /\ (forall i w id, wids !! i = Some id -> wallets !! i = Some w -> wallet_id w = id) /\
  length ps = 4%nat /\ forall i w, ps !! i = Some w -> ready i w.
Proof.
  destruct four_validators as (Hl & _ & Ht).
  destruct (outcome_mapM_total (fun e => Wallet_new (wdev e.1) args e.2 0) (fun _ e w => wallet_id w = e.2)
    (imap pair wids)) as (wallets & Ew & Lw & Hw).
  { intros i [j id] _. by apply Wallet_new_ok. }
  destruct (outcome_mapM_total (demo_node args) (fun _ e nd => new_node e.1 nd)
    (imap pair ["server_node0"; "server_node1"; "server_node2"; "server_node3"])) as (nodes & En & Ln & Hn).
  { intros i [j name] _. by apply demo_node_ok. }
  destruct (outcome_mapM_total (demo_validator args (repeat (HandleRpcs_start ChatServiceImpl_new) 4) nodes)
    (fun i _ t => ready i (System.start 100 t.1.1 t.1.2 t.2)) (seq 0 4)) as (vs & Ev & Lv & Hv).
  { intros i k Hk. apply lookup_seq in Hk as [-> Hk].
    destruct (lookup_lt_is_Some_2 nodes i) as [nd End]; [rewrite Ln; cbn; lia|].
    destruct (demo_validator_ok nodes i nd Hk End) as (v & E & Hnew). exists (v, HandleRpcs_start ChatServiceImpl_new, nd).
    split; [exact E|]. apply start_ready; [done|].
    destruct i as [|[|[|[|]]]]; [exact (Hn 0 (0, _) nd eq_refl End)%nat|exact (Hn 1 (1, _) nd eq_refl End)%nat
      |exact (Hn 2 (2, _) nd eq_refl End)%nat|exact (Hn 3 (3, _) nd eq_refl End)%nat|lia]. }
  eexists wallets, _. unfold demo. rewrite read_settings. cbn [mbind outcome_bind]. fold wids. rewrite Ew.
  cbn [mbind outcome_bind]. rewrite outcome_mapM_read by done. cbn [mbind outcome_bind]. rewrite En.
  cbn [mbind outcome_bind]. destruct (lookup_lt_is_Some_2 nodes 0) as [n0 E0]; [rewrite Ln; cbn; lia|].
  destruct (Hn 0 (0, _) n0 eq_refl E0)%nat as (_ & _ & _ & _ & Hlead & _). rewrite (read_ok _ _ _ E0).
  cbn [mbind outcome_bind]. rewrite Hlead. cbn [Nat.eqb fst mbind outcome_bind].
  rewrite Ht. change (Z.to_nat 4) with 4%nat. rewrite Ev. cbn [mbind outcome_bind].
  split; [reflexivity|]. split_and!.
  - by rewrite Lw, length_imap.
  - intros i w id Hid Hwi. apply (Hw i (i, id)); [|done]. by rewrite list_lookup_imap, Hid.
  - by rewrite length_map, Lv.
  - intros i w Hi. change (map ?g vs) with (fmap (M := list) g vs) in Hi. rewrite list_lookup_fmap in Hi.
    destruct (vs !! i) as [[[v s] nd]|] eqn:Evi; [|done]. injection Hi as <-.
    apply lookup_lt_Some in Evi as Hlt. rewrite Lv in Hlt. cbn in Hlt.
    refine (Hv i i _ _ Evi). by apply lookup_seq.
Qed.
End Demo.

(** * The files of the repository *)

(** settings_demo.json, with the letter at its end. *)
Definition settings_demo : string := requote "{   
    'leaderID': 0,
    'myValidatorID': 2,
    'myWalletID': -1,
    'validators': [
        {
            'id': 0,
            'address': '127.0.0.1',
            'port': 50000,
            'faulty': false
        },
        {
            'id': 1,
            'address': '127.0.0.1',
            'port': 50001,
            'faulty': true
        },
        {
            'id': 2,
            'address': '127.0.0.1',
            'port': 50002,
            'faulty': false
        },
        {
            'id': 3,
            'address': '127.0.0.1',
            'port': 50003,
            'faulty': false
        }
    ],
    'wallets': [0, 1, 2, 3]
}s".

(** tx/tx1.json and tx/tx2.json. *)
Definition tx1 : string := requote "{
    'walletID': 0,
    'ins': [
        {
            'txID': 0,
            'outIDX': 0
        }
    ],
    'outs': [
        {
            'value': 10,
            'outwalletID': 2
        },
        {
            'value': 20,
            'outwalletID': 1
        },
        {
            'value': 70,
            'outwalletID': 0
        }
    ]
}".
Definition tx2 : string := requote "{
    'walletID': 1,
    'ins': [
        {
            'txID': 1,
            'outIDX': 1
        }
    ],
    'outs': [
        {
            'value': 25,
            'outwalletID': 3
        },
        {
            'value': 5,
            'outwalletID': 2
        },
        {
            'value': 70,
            'outwalletID': 0
        }
    ]
}".

Definition demo_files : files :=
  mkFiles (<["../../settings_demo.json" := settings_demo]> (<["../../tx/tx1.json" := tx1]> {[ "../../tx/tx2.json" := tx2 ]}))
    (fun _ => true).

Definition demo_args : Settings.Settings :=
  let local i p faulty := (i, Settings.mkAddressInfo i "127.0.0.1" p faulty) in
  Settings.mkSettings 0 [local 0 50000 false; local 1 50001 true; local 2 50002 false; local 3 50003 false]
    [0; 1; 2; 3] 2 (u32 (-1)).

Lemma demo_settings_read : Settings.Settings_from_file "../../settings_demo.json" demo_files = Ok demo_args.
Proof. vm_compute. reflexivity. Qed.

#[local] Existing Instance test_hash.

Abbreviation devices := (fun _ : nat => example_device).
Definition demo_addresses : list string := Settings.getValidatorAdresses demo_args.
Definition demo_coins : UTXOlist := [coin 100 0 0; coin 100 1 1; coin 100 2 2; coin 100 3 3].

Lemma demo_network : exists wallets ps, demo devices devices (fun _ => 0) (0, 0) demo_files = Ok (wallets, ps) /\
  (forall i w id, [0; 1; 2; 3] !! i = Some id -> wallets !! i = Some w -> wallet_id w = id) /\
  length wallets = 4%nat /\ length ps = 4%nat /\
  forall i w, ps !! i = Some w -> ready demo_args i w.
Proof.
  destruct (demo_runs devices devices (fun _ => 0) (0, 0) demo_files demo_args demo_settings_read eq_refl)
    as (wallets & ps & E & Lw & Hw & Lp & Hp).
  - by apply (bool_decide_unpack _).
  - discriminate.
  - intros v Hv. unfold demo_args in Hv. cbn in Hv.
    repeat (apply elem_of_cons in Hv as [->|Hv]; [vm_compute; reflexivity|]). by apply elem_of_nil in Hv.
  - intros _. exact example_device_ok.
  - intros _. exact example_device_ok.
  - exists wallets, ps. split; [exact E|]. split; [exact Hw|]. split; [exact Lw|]. split; [exact Lp|exact Hp].
Qed.

Definition tx1_json : json := match jread tx1 with Ok j => j | _ => JNull end.
Definition tx1_info : TransInfo := mkTransInfo 0 [10; 20; 70] [2; 1; 0] [0] [0].
Lemma tx1_read : Parser_new "tx1.json" demo_files = Ok tx1_json.
Proof. vm_compute. reflexivity. Qed.
Lemma tx1_described : TransInfo_from_json tx1_json (TransInfo_new 99) = Ok tx1_info.
Proof. vm_compute. reflexivity. Qed.

(** The first payment of the demonstration, as wallet 0 makes it. *)
Lemma first_payment w : wallet_id w = 0 ->
  exists w' tx, create_from example_device tx1_json 99 tx_id_start w = Ok (w', 101, tx) /\ senderID_ tx = 0 /\
    inputs_ tx = [mkInput 0 0] /\ outputs_ tx = [mkOutput 10 2; mkOutput 20 1; mkOutput 70 0].
Proof.
  intros Hid. destruct (Wallet_UpdateKeys_ok example_device w example_device_ok) as [w' Hw].
  destruct (create_from_ok example_device tx1_json 99 tx_id_start w tx1_info w' tx1_described Hw) as (sig & E & _).
  rewrite Hid in E. eexists w', _. split; [exact E|]. by split_and!.
Qed.

Lemma first_payment_allowed tx l : senderID_ tx = 0 -> inputs_ tx = [mkInput 0 0] ->
  outputs_ tx = [mkOutput 10 2; mkOutput 20 1; mkOutput 70 0] -> l = demo_coins \/ l = [coin 100 0 0] ->
  simple tx /\ checkSpendingConditions tx l [0; 1; 2; 3] = true.
Proof.
  intros _ Hi Ho Hl. destruct tx as [ins outs sg s id k]. cbn in Hi, Ho. subst ins outs.
  split; [split; [cbn; lia|discriminate]|]. by destruct Hl as [-> | ->].
Qed.

(** Where the coins of a wallet are, in a process that is ready. *)
Lemma ready_coins i w id : ready demo_args i w -> 0 <= id < 4 -> utxos id (validator w) = [coin 100 id id].
Proof.
  intros (_ & _ & _ & _ & _ & _ & _ & Hu) Hid. rewrite Hu.
  assert (id = 0 \/ id = 1 \/ id = 2 \/ id = 3) as [-> | [-> | [-> | ->]]] by lia; vm_compute; reflexivity.
Qed.


(** The second payment of the demonstration refers to an output that no coin has, and every validator refuses it. *)
Lemma second_payment_refused i w tx : ready demo_args i w -> senderID_ tx = 1 -> inputs_ tx = [mkInput 1 1] ->
  exists v', OnRecvTx tx (validator w) = Ok (v', 0) /\ memory_pool_ v' = [].
Proof.
  intros Hr Hid Hin. pose proof (ready_coins i w 1 Hr ltac:(lia)) as Hu.
  destruct Hr as (_ & _ & _ & Hpool & _). destruct (OnRecvTx_cases tx (validator w)) as (v' & r & E & Hc & _).
  exists v'. destruct Hc as [(_ & [_ Hs] & _)|(-> & _ & Hp)].
  - rewrite Hid, Hu in Hs. apply checkSpendingConditions_iff in Hs as (us & H2 & _); [|by rewrite Hin].
    rewrite Hin in H2. inversion H2 as [|? u ? ? Hf]. discriminate Hf.
  - split; [exact E|by rewrite Hp].
Qed.

(** What [SendTx] sends for a file that can be read. *)
Lemma SendTx_described filename jf jmemory t reply tx_id w :
  Parser_new filename demo_files = Ok jf -> TransInfo_from_json jf (TransInfo_new jmemory) = Ok t ->
  exists w' p tx, SendTx example_device filename demo_files reply jmemory tx_id w = Ok (w', u32 (tx_id + 1), p, 1) /\
    (forall m, fromProtoTransaction (Transaction_default m) p = Ok tx) /\
    senderID_ tx = u16 (wallet_id w) /\ txID_ tx = tx_id /\
    inputs_ tx = described_inputs t /\ outputs_ tx = described_outputs t.
Proof.
  intros Hf Ht. set (w1 := (Sync reply w).1).
  destruct (Wallet_UpdateKeys_ok example_device w1 example_device_ok) as [w' Hw].
  destruct (create_from_ok example_device jf jmemory tx_id w1 t w' Ht Hw) as (sig & E & _).
  destruct (created_sendable _ _ _ _ _ _ _ _ E) as (_ & _ & _ & p & Ep & Er).
  eexists w', p, _. unfold SendTx. rewrite (surjective_pairing (Sync reply w)). fold w1.
  unfold CreateTx. rewrite Hf. cbn [mbind outcome_bind]. rewrite E. cbn [mbind outcome_bind]. rewrite Ep.
  split; [reflexivity|]. split; [exact Er|]. split; [reflexivity|]. split; [reflexivity|]. split; reflexivity.
Qed.

Definition tx2_json : json := match jread tx2 with Ok j => j | _ => JNull end.
Definition tx2_info : TransInfo := mkTransInfo 1 [25; 5; 70] [3; 2; 0] [1] [1].
Lemma tx2_read : Parser_new "tx2.json" demo_files = Ok tx2_json.
Proof. vm_compute. reflexivity. Qed.
Lemma tx2_described : TransInfo_from_json tx2_json (TransInfo_new 99) = Ok tx2_info.
Proof. vm_compute. reflexivity. Qed.

(** The two requests of the demonstration: the validators refuse the second. *)
Lemma demo_requests wallets w0 w1 replies : wallets !! 0%nat = Some w0 -> wallets !! 1%nat = Some w1 ->
  wallet_id w0 = 0 -> wallet_id w1 = 1 ->
  exists p0 p1 t0 t1, demo_transactions devices demo_files replies (99, 99) wallets = Ok [p0; p1] /\
    (forall m, fromProtoTransaction (Transaction_default m) p0 = Ok t0) /\
    (forall m, fromProtoTransaction (Transaction_default m) p1 = Ok t1) /\
    senderID_ t0 = 0 /\ txID_ t0 = 100 /\ inputs_ t0 = [mkInput 0 0] /\
    senderID_ t1 = 1 /\ txID_ t1 = 101 /\ inputs_ t1 = [mkInput 1 1] /\
    forall i w, ready demo_args i w ->
      exists v', OnRecvTx t1 (validator w) = Ok (v', 0) /\ memory_pool_ v' = [].
Proof.
  intros E0 E1 H0 H1.
  destruct (SendTx_described "tx1.json" tx1_json 99 tx1_info replies.1 tx_id_start w0 tx1_read tx1_described)
    as (w0' & p0 & t0 & S0 & R0 & Hs0 & Hid0 & Hi0 & _).
  destruct (SendTx_described "tx2.json" tx2_json 99 tx2_info replies.2 101 w1 tx2_read tx2_described)
    as (w1' & p1 & t1 & S1 & R1 & Hs1 & Hid1 & Hi1 & _).
  exists p0, p1, t0, t1. rewrite H0 in Hs0. rewrite H1 in Hs1.
  split; [exact (demo_transactions_ok devices demo_files replies (99, 99) _ _ _ _ _ _ _ _ _ E0 E1 S0 S1)|].
  split; [exact R0|]. split; [exact R1|]. split; [exact Hs0|]. split; [exact Hid0|]. split; [exact Hi0|].
  split; [exact Hs1|]. split; [exact Hid1|]. split; [exact Hi1|].
  intros i w Hr. exact (second_payment_refused i w t1 Hr Hs1 Hi1).
Qed.
