(* ===== verification/Wrapper.v ===== *)
(** The driver of the SHA-256 circuit (src/include/interf/wrapper.h, src/lib/interf/wrapper.cc, wrapper.c,
    interface.c): the padding, the words for the circuit, its registers, and the text of the result; and the test of
    the circuit by hand (src/verilog_code/main.c).  The circuit itself is a parameter. *)
From S2P Require Import Prelude Sha256.
Local Open Scope Z_scope.

Definition ARRAY_SIZE : nat := 32.
Definition ARRAY_SIZE2 : nat := 8.

(** * Padding *)

(** [std::bitset<8>(c).to_string()]. *)
Definition byte_bits (b : Z) : string :=
  String.string_of_list_ascii (map (fun i => if Z.testbit b i then "1"%char else "0"%char) [7; 6; 5; 4; 3; 2; 1; 0]).

Definition charToBinaryString (input : string) : string :=
  foldl (fun result c => result +:+ byte_bits c) "" (bytes_of input).

(** [n] times [bin_string += "0"]; the loop does not run when [n] is negative. *)
Fixpoint zeros (n : nat) : string := match n with O => "" | S n => String "0" (zeros n) end.

Definition padding (input_string : string) : string :=
  let bin_string := charToBinaryString input_string in
  let len := i32 (Z.of_nat (String.length bin_string)) in
  let str_len := charToBinaryString (pretty len) in
  let len_str_len := i32 (Z.of_nat (String.length str_len)) in
  if len <? 448
  then bin_string +:+ "1" +:+ zeros (Z.to_nat (512 - len - len_str_len - 1)) +:+ str_len
  else bin_string +:+ "1" +:+ zeros (Z.to_nat (512 + 512 - len - len_str_len - 1)) +:+ str_len.

Definition number_blocks (input_hash : string) : Z :=
  let size := u32 (Z.of_nat (String.length input_hash) * 8) in if size <? 448 then 0 else 1.

(** * Words *)

(** [strtoul(substring, &ptr, 10)] on a text of at most eight characters. *)
Definition is_space (c : ascii) : bool :=
  let n := Z.of_N (N_of_ascii c) in (n =? 32) || ((9 <=? n) && (n <=? 13)).
Fixpoint skip_spaces (s : list ascii) : list ascii :=
  match s with c :: s' => if is_space c then skip_spaces s' else s | [] => [] end.
Fixpoint decimal (acc : Z) (s : list ascii) : Z :=
  match s with
  | c :: s' =>
      let n := Z.of_N (N_of_ascii c) in
      if (48 <=? n) && (n <=? 57) then decimal (10 * acc + (n - 48)) s' else acc
  | [] => acc
  end.
Definition strtoul (s : list ascii) : Z :=
  match skip_spaces s with
  | "-"%char :: s' => u64 (- decimal 0 s')
  | "+"%char :: s' => decimal 0 s'
  | s' => decimal 0 s'
  end.

(** The bytes of a text up to its first zero: the text as a C string. *)
Fixpoint c_string (s : list ascii) : list ascii :=
  match s with
  | [] => []
  | c :: s' => if bool_decide (c = "000"%char) then [] else c :: c_string s'
  end.

(** One turn of the loop, which stops at the end of the text. *)
Fixpoint words_loop (n i : nat) (inputString : list ascii) (outputArray : list Z) : list Z :=
  match n with
  | O => outputArray
  | S n' =>
      let start := (i * 8)%nat in
      if (length inputString <=? start)%nat then outputArray
      else
        let substring := take 8 (drop start inputString) in
        words_loop n' (S i) inputString
          (<[(ARRAY_SIZE - 1 - i)%nat := u32 (strtoul substring)]> outputArray)
  end.
Definition stringToUint32Array (inputString : string) : list Z :=
  words_loop ARRAY_SIZE 0 (c_string (String.list_ascii_of_string inputString)) (repeat 0 ARRAY_SIZE).

(** The four bytes of a word, the lowest first; the bytes of the array, its last word first; the text
    ends with a zero. *)
Fixpoint le_bytes (k : nat) (element : Z) : list Z :=
  match k with O => [] | S k' => Z.land element 255 :: le_bytes k' (Z.shiftr element 8) end.
Definition uint32ArrayToString (inputArray : list Z) : list Z :=
  mjoin (map (fun i => le_bytes 4 (nth (ARRAY_SIZE2 - 1 - i) inputArray 0)) (seq 0 ARRAY_SIZE2)) ++ [0].

(** [std::string(outputString)]. *)
Definition string_of_c (outputString : list Z) : string :=
  String.string_of_list_ascii (c_string (String.list_ascii_of_string (string_of_bytes outputString))).

(** * The registers of the circuit *)

(** The circuit behind the mapped registers: every write and every read may change its state. *)
Class Circuit (S : Type) := {
  write_reg : nat -> Z -> S -> S;
  read_reg : nat -> S -> S * Z
}.

Section Circuit.
Context {S : Type} `{!Circuit S}.

Definition writes (l : list (nat * Z)) (s : S) : S := foldl (fun s w => write_reg w.1 w.2 s) s l.

(** [hw_base[1 + k] = block[from + k]] for the registers of one part. *)
Definition part (block : list Z) (from n : nat) : list (nat * Z) :=
  map (fun k => ((1 + k)%nat, nth (from + k) block 0)) (seq 0 n).

(** The writes up to the loop that waits for the result. *)
Definition load_writes (block : list Z) (blocks : Z) : list (nat * Z) :=
  let two := negb (blocks =? 0) in
  let start := if two then 0x3 else 0x1 in
  let first_read := if two then 0x7 else 0x5 in
  let second_read := if two then 0xb else 0x9 in
  let third_read := if two then 0x13 else 0x11 in
  let fourth_read := 0x23 in
  let fifth_read := 0x43 in
  part block 16 7 ++ [(0%nat, 0); (0%nat, start); (0%nat, first_read)] ++
  part block 23 7 ++ [(0%nat, second_read)] ++
  part block 30 2 ++ [(3%nat, nth 0 block 0); (4%nat, nth 1 block 0); (5%nat, nth 2 block 0);
                      (6%nat, nth 3 block 0); (7%nat, nth 4 block 0); (0%nat, third_read)] ++
  (if two then part block 5 7 ++ [(0%nat, fourth_read)] ++ part block 12 4 ++ [(0%nat, fifth_read)] else []).

(** The loop that waits: [None] when the fuel runs out. *)
Fixpoint wait (fuel : nat) (s : S) : option S :=
  match fuel with
  | O => None
  | Datatypes.S fuel' => let '(s, v) := read_reg 0 s in if v =? 0 then wait fuel' s else Some s
  end.

Fixpoint read_regs (regs : list nat) (s : S) : S * list Z :=
  match regs with
  | [] => (s, [])
  | r :: regs' => let '(s, v) := read_reg r s in let '(s, vs) := read_regs regs' s in (s, v :: vs)
  end.

(** Reading the result: [out1 .. out7], then [out8]; [output[0]] is [out8]. *)
Definition read_result (blocks : Z) (s : S) : S * list Z :=
  let two := negb (blocks =? 0) in
  let s := write_reg 0 (if two then 0x83 else 0x81) s in
  let '(s, outs) := read_regs [1; 2; 3; 4; 5; 6; 7]%nat s in
  let s := write_reg 0 (if two then 0x103 else 0x101) s in
  let '(s, out8) := read_reg 1 s in
  let s := write_reg 0 (if two then 0x203 else 0x201) s in
  (write_reg 0 0 s, out8 :: rev outs).

(** [mapped]: the registers could be mapped; the code goes on when they could not. *)
Definition interface_c (mapped : bool) (fuel : nat) (block : list Z) (blocks : Z) (s : S)
    : option (outcome (S * list Z)) :=
  if negb mapped then Some (Undef null_deref)
  else
    match wait fuel (writes (load_writes block blocks) s) with
    | None => None
    | Some s => Some (Ok (read_result blocks s))
    end.

(** A pointer to a [double]: one that may be written through, or one that was never given a value. *)
Inductive pointer := To_double | Without_value.

Definition calculate_hash_c (mapped : bool) (fuel : nat) (inputString : string) (blocks : Z)
    (elapsed_time : pointer) (s : S) : option (outcome (S * list Z)) :=
  match interface_c mapped fuel (stringToUint32Array inputString) blocks s with
  | None => None
  | Some r =>
      Some ('(s, resultArray) ← r;
            _ ← match elapsed_time with To_double => Ok tt | Without_value => Undef uninitialised_read end;
            Ok (s, uint32ArrayToString resultArray))
  end.

Definition calculate_hash (mapped : bool) (fuel : nat) (input_hash : string) (s : S)
    : option (outcome (S * string)) :=
  match calculate_hash_c mapped fuel (padding input_hash) (number_blocks input_hash) Without_value s with
  | None => None
  | Some r => Some ('(s, outputString) ← r; Ok (s, string_of_c outputString))
  end.

(** [time_hw_hash] returns the pointer. *)
Definition time_hw_hash (mapped : bool) (fuel : nat) (input_hash : string) (s : S)
    : option (outcome (S * pointer)) :=
  match calculate_hash_c mapped fuel (padding input_hash) (number_blocks input_hash) Without_value s with
  | None => None
  | Some r => Some ('(s, _) ← r; Ok (s, Without_value))
  end.
End Circuit.

(** * The test by hand *)

Module HandTest.

(** [block]: what is sent, its last word first. *)
Definition block : list Z :=
  [0x000001c0; 0x00000000; 0x00000000; 0x00000000; 0x00000000; 0x00000000; 0x00000000; 0x00000000;
   0x00000000; 0x00000000; 0x00000000; 0x00000000; 0x00000000; 0x00000000; 0x00000000; 0x00000000;
   0x00000000; 0x80000000; 0x6e6f7071; 0x6d6e6f70; 0x6c6d6e6f; 0x6b6c6d6e; 0x6a6b6c6d; 0x696a6b6c;
   0x68696a6b; 0x6768696a; 0x66676869; 0x65666768; 0x64656667; 0x63646566; 0x62636465; 0x61626364].

(** The commands for [number_blocks]. *)
Record commands := mkCommands {
  start : Z; first_read : Z; second_read : Z; third_read : Z; fourth_read : Z; fifth_read : Z;
  first_output_read : Z; second_output_read : Z; finish : Z
}.
Definition commands_for (number_blocks : Z) : commands :=
  if number_blocks =? 0 then mkCommands 0x1 0x5 0x9 0x11 0x0 0x0 0x81 0x101 0x201
  else mkCommands 0x3 0x7 0xb 0x13 0x23 0x43 0x83 0x103 0x203.

(** [hw_base[r] = block[i]] and [hw_base[0] = c]. *)
Inductive assignment := word_to (r i : nat) | command (c : Z).
Definition assigned (a : assignment) : nat * Z :=
  match a with word_to r i => (r, nth i block 0) | command c => (0%nat, c) end.

(** The assignments before the loop that waits. *)
Definition loads (number_blocks : Z) : list assignment :=
  let k := commands_for number_blocks in
  [word_to 1 16; word_to 2 17; word_to 3 18; word_to 4 19; word_to 5 20; word_to 6 21; word_to 7 22;
   command 0x00; command (start k); command (first_read k);
   word_to 1 23; word_to 2 24; word_to 3 25; word_to 4 26; word_to 5 27; word_to 6 28; word_to 7 29;
   command (second_read k);
   word_to 1 30; word_to 2 31; word_to 3 0; word_to 4 1; word_to 5 2; word_to 6 3; word_to 7 4;
   command (third_read k)] ++
  (if negb (number_blocks =? 0) then
   [word_to 1 5; word_to 2 6; word_to 3 7; word_to 4 8; word_to 5 9; word_to 6 10; word_to 7 11;
    command (fourth_read k);
    word_to 1 12; word_to 2 13; word_to 3 14; word_to 4 15;
    command (fifth_read k)]
   else []).

(** [main]: the value it returns and the words it prints, [out1 .. out8].  [opened] and [mapped]: /dev/mem could
    be opened, and the registers could be mapped. *)
Definition main {S : Type} `{!Circuit S} (opened mapped : bool) (fuel : nat) (s : S) : option (S * (Z * list Z)) :=
  if negb opened then Some (s, (1, []))
  else if negb mapped then Some (s, (1, []))
  else
    let number_blocks := 0x1 in
    let k := commands_for number_blocks in
    match wait fuel (writes (map assigned (loads number_blocks)) s) with
    | None => None
    | Some s =>
        let s := write_reg 0 (first_output_read k) s in
        let '(s, outs) := read_regs [1; 2; 3; 4; 5; 6; 7]%nat s in
        let s := write_reg 0 (second_output_read k) s in
        let '(s, out8) := read_reg 1 s in
        let s := write_reg 0 (finish k) s in
        Some (write_reg 0 0x00 s, (0, outs ++ [out8]))
    end.
End HandTest.

(** * Padding: lengths *)

Lemma foldl_bits l : forall acc,
  foldl (fun result c => result +:+ byte_bits c) acc l =
  acc +:+ foldl (fun result c => result +:+ byte_bits c) "" l.
Proof.
  induction l as [|b l IH]; intros acc; cbn [foldl]; [by rewrite string_app_nil_r|].
  rewrite (IH (acc +:+ _)), (IH ("" +:+ _)), string_app_nil. by rewrite string_app_assoc.
Qed.

Definition bits (b : Z) : list ascii := String.list_ascii_of_string (byte_bits b).

Lemma string_length_list s : String.length s = length (String.list_ascii_of_string s).
Proof. induction s as [|c s IH]; [done|]. cbn. by rewrite IH. Qed.

Lemma charToBinaryString_bytes s :
  String.list_ascii_of_string (charToBinaryString s) = flat_map bits (bytes_of s).
Proof.
  unfold charToBinaryString. induction (bytes_of s) as [|b l IH]; [done|]. cbn [foldl flat_map].
  by rewrite foldl_bits, string_app_nil, list_ascii_app, IH.
Qed.

Lemma flat_map_bits_length l : length (flat_map bits l) = (8 * length l)%nat.
Proof. induction l as [|b l IH]; [done|]. cbn [flat_map]. rewrite length_app, IH. cbn. lia. Qed.

Lemma charToBinaryString_length s : String.length (charToBinaryString s) = (8 * String.length s)%nat.
Proof.
  rewrite !string_length_list, charToBinaryString_bytes, flat_map_bits_length. unfold bytes_of. by rewrite length_map.
Qed.

Lemma zeros_length n : String.length (zeros n) = n.
Proof. induction n as [|n IH]; cbn; [done|by rewrite IH]. Qed.

Lemma padding_text s : 64 * Z.of_nat (String.length s) < 2 ^ 31 ->
  let len := 8 * Z.of_nat (String.length s) in
  let str_len := charToBinaryString (pretty len) in
  let total := if len <? 448 then 512 else 1024 in
  padding s = charToBinaryString s +:+ "1" +:+
    zeros (Z.to_nat (total - len - i32 (Z.of_nat (String.length str_len)) - 1)) +:+ str_len.
Proof.
  intros Hs len str_len total. unfold padding. rewrite charToBinaryString_length.
  assert (E : i32 (Z.of_nat (8 * String.length s)) = len).
  { unfold i32, len. rewrite Z.mod_small; lia. }
  rewrite E. fold str_len. unfold total. destruct (len <? 448); [done|]. by change (512 + 512) with 1024.
Qed.

(** Whether the lengths come out right for a message of [n] bytes. *)
Definition padded_to (n total : nat) : bool :=
  let len := 8 * Z.of_nat n in
  let digits := String.length (pretty len) in
  let filled := Z.to_nat ((if len <? 448 then 512 else 1024) - len - i32 (Z.of_nat (8 * digits)) - 1) in
  (8 * n + (1 + (filled + 8 * digits)) =? total)%nat.

Lemma padding_size s total : 64 * Z.of_nat (String.length s) < 2 ^ 31 -> padded_to (String.length s) total = true ->
  String.length (padding s) = total.
Proof.
  intros Hs Ht%Nat.eqb_eq. rewrite padding_text by done.
  rewrite !string_length_app, !charToBinaryString_length, zeros_length. exact Ht.
Qed.

(** C38: the length of the padded text: 512 bits up to 55 bytes, 1024 bits from 56 to 124 bytes, and from 125
    bytes on more than the 1024 bits that the circuit can take. *)
Theorem padding_length (s : string) :
  64 * Z.of_nat (String.length s) < 2 ^ 31 ->
  ((String.length s <= 55)%nat -> String.length (padding s) = 512%nat) /\
  ((56 <= String.length s <= 124)%nat -> String.length (padding s) = 1024%nat) /\
  ((125 <= String.length s)%nat -> (1024 < String.length (padding s))%nat).
Proof.
  intros Hs. split_and!; intros Hn.
  - apply padding_size; [done|].
    apply (forallb_seq (fun n => padded_to n 512) 56); [by vm_compute|lia].
  - apply padding_size; [done|].
    replace (String.length s) with (String.length s - 56 + 56)%nat by lia.
    apply (forallb_seq (fun n => padded_to (n + 56) 1024) 69); [by vm_compute|lia].
  - destruct (decide (String.length s < 128)%nat) as [Hlt|Hge].
    + enough (String.length (padding s) = String.length s * 8 + 33)%nat by lia.
      apply padding_size; [done|].
      replace (String.length s) with (String.length s - 125 + 125)%nat by lia.
      apply (forallb_seq (fun n => padded_to (n + 125) ((n + 125) * 8 + 33)) 3); [by vm_compute|lia].
    + rewrite padding_text by done. rewrite !string_length_app, charToBinaryString_length. cbn [String.length]. lia.
Qed.

Lemma padding_length_witness :
  let s := "7854210022186565" in
  ((16 <= 55)%nat -> String.length (padding s) = 512%nat) /\
  ((56 <= 16 <= 124)%nat -> String.length (padding s) = 1024%nat) /\
  ((125 <= 16)%nat -> (1024 < String.length (padding s))%nat).
Proof. intros s. apply (padding_length s). reflexivity. Defined.

(** * What reaches the circuit *)

Lemma c_string_bits l : Forall (fun c => c <> "000"%char) l -> c_string l = l.
Proof. induction 1 as [|c l Hc _ IH]; [done|]. cbn. by rewrite bool_decide_false, IH. Qed.

Lemma bits_no_zero l : Forall (fun c => c <> "000"%char) (flat_map bits l).
Proof.
  induction l as [|b l IH]; [constructor|]. cbn [flat_map]. apply Forall_app. split; [|done].
  unfold bits, byte_bits. repeat constructor; by destruct (Z.testbit _ _).
Qed.

Lemma padding_no_zero s : 64 * Z.of_nat (String.length s) < 2 ^ 31 ->
  exists rest, c_string (String.list_ascii_of_string (padding s)) = flat_map bits (bytes_of s) ++ rest.
Proof.
  intros Hs. rewrite padding_text, !list_ascii_app by done. rewrite !charToBinaryString_bytes.
  eexists. rewrite c_string_bits; [reflexivity|].
  apply Forall_app. split; [apply bits_no_zero|]. apply Forall_app. split; [by repeat constructor|].
  apply Forall_app. split; [|apply bits_no_zero]. by induction (Z.to_nat _); [|constructor].
Qed.

(** The words come from the first [8 * n] characters. *)
Lemma words_loop_prefix n : forall i pre rest arr, length pre = (8 * (i + n))%nat ->
  words_loop n i (pre ++ rest) arr = words_loop n i pre arr.
Proof.
  induction n as [|n IH]; intros i pre rest arr Hl; [done|]. cbn [words_loop].
  rewrite (proj2 (Nat.leb_gt (length (pre ++ rest)) _)) by (rewrite length_app; lia).
  rewrite (proj2 (Nat.leb_gt (length pre) _)) by lia.
  rewrite drop_app_le, take_app_le by (rewrite ?length_drop; lia). apply IH. lia.
Qed.

Lemma words_of_prefix (s : string) : 64 * Z.of_nat (String.length s) < 2 ^ 31 -> (32 <= String.length s)%nat ->
  stringToUint32Array (padding s) =
    words_loop ARRAY_SIZE 0 (flat_map bits (take 32 (bytes_of s))) (repeat 0 ARRAY_SIZE).
Proof.
  intros Hs Hn. unfold stringToUint32Array. destruct (padding_no_zero s Hs) as [rest ->].
  rewrite <- (take_drop 32 (bytes_of s)) at 1. rewrite flat_map_app, <- app_assoc.
  apply words_loop_prefix. rewrite flat_map_bits_length, length_take. unfold bytes_of.
  rewrite length_map, <- string_length_list. unfold ARRAY_SIZE. lia.
Qed.

(** The circuit sees the first 32 bytes of a message only: two messages that agree on them, and need the
    same number of blocks, get the same result from every circuit in every state. *)
Theorem hardware_ignores_tail {S : Type} `{!Circuit S} (m1 m2 : string) (mapped : bool) (fuel : nat)
    (p : pointer) (s : S) :
  64 * Z.of_nat (String.length m1) < 2 ^ 31 -> 64 * Z.of_nat (String.length m2) < 2 ^ 31 ->
  (32 <= String.length m1)%nat -> (32 <= String.length m2)%nat ->
  take 32 (bytes_of m1) = take 32 (bytes_of m2) -> number_blocks m1 = number_blocks m2 ->
  calculate_hash_c mapped fuel (padding m1) (number_blocks m1) p s =
  calculate_hash_c mapped fuel (padding m2) (number_blocks m2) p s.
Proof.
  intros H1 H2 L1 L2 E ->. unfold calculate_hash_c. by rewrite !words_of_prefix, E by done.
Qed.

(** A circuit that records what is written, and answers with the number of writes. *)
#[local] Instance recorder : Circuit (list (nat * Z)) := {
  write_reg r v s := s ++ [(r, v)];
  read_reg r s := (s, Z.of_nat (length s))
}.

Lemma hardware_ignores_tail_witness :
  let m1 := "0123456789abcdef0123456789abcdef" in let m2 := m1 +:+ "x" in
  calculate_hash_c true 5 (padding m1) (number_blocks m1) To_double [] =
  calculate_hash_c true 5 (padding m2) (number_blocks m2) To_double [].
Proof.
  intros m1 m2. apply (hardware_ignores_tail m1 m2); [by vm_compute|by vm_compute|..];
    (reflexivity || (vm_compute; lia)).
Defined.

(** The hash of the circuit is never delivered: if the wait for the circuit ends at all, the time is written
    through a pointer that has no value, whatever the circuit, the message and the result. *)
Theorem calculate_hash_undefined {S : Type} `{!Circuit S} (mapped : bool) (fuel : nat) (input_hash : string) (s : S) :
  calculate_hash mapped fuel input_hash s = None \/
  exists u, calculate_hash mapped fuel input_hash s = Some (Undef u) /\
    u = (if mapped then uninitialised_read else null_deref).
Proof.
  unfold calculate_hash, calculate_hash_c, interface_c. destruct mapped; cbn [negb]; [|right; by eexists].
  destruct (wait _ _) as [s'|]; [|by left]. right. destruct (read_result _ s') as [s2 l]. by eexists.
Qed.

(** * The driver and the test by hand *)

(** The words of a message that FIPS 180-4 pads, the first word last. *)
Definition fips_block (m : string) : list Z :=
  let p := Fips.pad (bytes_of m) in
  rev (map (Fips.be_word p) (seq 0 (length p / 4))).

(** The test sends the padded message of the second example of FIPS 180-2. *)
Lemma hand_block_padded :
  HandTest.block = fips_block "abcdbcdecdefdefgefghfghighijhijkijkljklmklmnlmnomnopnopq".
Proof. vm_compute. reflexivity. Qed.

(** The test does to the circuit what the driver does with this block, and prints the words of the result in the
    order of the registers, where the driver has them the other way round. *)
Theorem hand_test_drives {S : Type} `{!Circuit S} (fuel : nat) (s : S) :
  HandTest.main true true fuel s =
  match interface_c true fuel HandTest.block 1 s with
  | Some (Ok (s', output)) => Some (s', (0, rev output))
  | _ => None
  end.
Proof.
  unfold HandTest.main, interface_c. cbn [negb].
  change (map HandTest.assigned (HandTest.loads 1)) with (load_writes HandTest.block 1).
  destruct (wait fuel _) as [s1|]; [|done]. unfold read_result.
  change (HandTest.commands_for 1) with (HandTest.mkCommands 0x3 0x7 0xb 0x13 0x23 0x43 0x83 0x103 0x203).
  cbn [HandTest.first_output_read HandTest.second_output_read HandTest.finish negb Z.eqb].
  destruct (read_regs _ _) as [s2 outs]. destruct (read_reg 1 _) as [s3 out8].
  cbn [rev]. by rewrite rev_involutive.
Qed.

(** ** What the driver sends instead *)

Definition binary (c : ascii) : Prop := c = "0"%char \/ c = "1"%char.

Lemma decimal_binary l : Forall binary l -> forall acc,
  9 * decimal acc l <= (9 * acc + 1) * 10 ^ Z.of_nat (length l) - 1.
Proof.
  induction 1 as [|c l Hc _ IH]; intros acc; [cbn; lia|]. cbn [length].
  rewrite Nat2Z.inj_succ, Z.pow_succ_r by lia.
  assert (HP : 0 < 10 ^ Z.of_nat (length l)) by (apply Z.pow_pos_nonneg; lia).
  destruct Hc as [-> | ->]; [change (decimal acc _) with (decimal (10 * acc + 0) l); pose proof (IH (10 * acc + 0))
    |change (decimal acc _) with (decimal (10 * acc + 1) l); pose proof (IH (10 * acc + 1))]; lia.
Qed.

Lemma decimal_nonneg l : forall acc, 0 <= acc -> 0 <= decimal acc l.
Proof.
  induction l as [|c l IH]; intros acc Ha; [done|]. cbn [decimal].
  destruct (_ && _) eqn:E; [|done]. apply andb_true_iff in E as [?%Z.leb_le _]. apply IH. lia.
Qed.

(** Eight binary digits, read as a decimal number. *)
Lemma strtoul_binary l : Forall binary l -> (length l <= 8)%nat -> 0 <= strtoul l <= 11111111.
Proof.
  intros Hb Hl. assert (E : strtoul l = decimal 0 l).
  { unfold strtoul. destruct Hb as [|c l' [-> | ->] _]; done. }
  rewrite E. split; [by apply decimal_nonneg|]. pose proof (decimal_binary l Hb 0) as Hd.
  assert (10 ^ Z.of_nat (length l) <= 10 ^ 8) by (apply Z.pow_le_mono_r; lia). lia.
Qed.

Lemma bits_binary l : Forall binary (flat_map bits l).
Proof.
  induction l as [|b l IH]; [constructor|]. cbn [flat_map]. apply Forall_app. split; [|done].
  cbn -[Z.testbit]. repeat (apply Forall_cons; split; [destruct (Z.testbit _ _); [by right|by left]|]). constructor.
Qed.

Lemma padding_binary s : 64 * Z.of_nat (String.length s) < 2 ^ 31 ->
  Forall binary (String.list_ascii_of_string (padding s)).
Proof.
  intros Hs. rewrite padding_text, !list_ascii_app, !charToBinaryString_bytes by done.
  apply Forall_app. split; [apply bits_binary|]. apply Forall_app. split; [constructor; [by right|constructor]|].
  apply Forall_app. split; [|apply bits_binary]. induction (Z.to_nat _); constructor; [by left|done].
Qed.

Lemma words_loop_small n : forall i l arr, Forall binary l -> Forall (fun w => 0 <= w <= 11111111) arr ->
  Forall (fun w => 0 <= w <= 11111111) (words_loop n i l arr).
Proof.
  induction n as [|n IH]; intros i l arr Hb Ha; [done|]. cbn [words_loop]. case_match; [done|].
  apply IH; [done|]. apply Forall_insert; [done|].
  assert (Hs : 0 <= strtoul (take 8 (drop (i * 8) l)) <= 11111111).
  { apply strtoul_binary; [by apply Forall_take, Forall_drop|rewrite length_take; lia]. }
  unfold u32. rewrite Z.mod_small by lia. done.
Qed.

(** No word that the driver sends exceeds 11111111. *)
Lemma driver_words_small s : 64 * Z.of_nat (String.length s) < 2 ^ 31 ->
  Forall (fun w => 0 <= w <= 11111111) (stringToUint32Array (padding s)).
Proof.
  intros Hs. unfold stringToUint32Array. pose proof (padding_binary s Hs) as Hb. rewrite c_string_bits.
  - apply words_loop_small; [done|]. by apply Forall_forall; intros x ->%list_elem_of_In%repeat_spec.
  - eapply Forall_impl; [exact Hb|]. by intros c [-> | ->].
Qed.

Lemma be_word_large b l : 0 < b -> Forall is_u8 l -> 2 ^ 24 <= Fips.be_word (b :: l) 0.
Proof.
  intros Hb Hl. unfold Fips.be_word. cbn [Nat.mul Nat.add nth].
  assert (Hn : forall k, 0 <= nth k l 0).
  { intros k. destruct (nth_in_or_default k l 0) as [Hin| ->]; [|done].
    rewrite Forall_forall in Hl. refine (proj1 (Hl _ _)). by apply list_elem_of_In. }
  pose proof (Hn 0%nat). pose proof (Hn 1%nat). pose proof (Hn 2%nat). destruct l as [|b1 [|b2 [|b3 l]]]; cbn in *; lia.
Qed.

(** C39: what the driver sends is never the padded message: for every message that does not begin with a zero
    byte, the first word of the padded message is not among the words that reach the circuit. *)
Theorem driver_misses_first_word (m : string) : 64 * Z.of_nat (String.length m) < 2 ^ 31 ->
  head (bytes_of m) <> Some 0 ->
  Fips.be_word (Fips.pad (bytes_of m)) 0 ∉ stringToUint32Array (padding m).
Proof.
  intros Hm Hh Hin. pose proof (driver_words_small m Hm) as Hs. rewrite Forall_forall in Hs. apply Hs in Hin.
  assert (H24 : 2 ^ 24 <= Fips.be_word (Fips.pad (bytes_of m)) 0).
  { unfold Fips.pad. pose proof (bytes_of_u8 m) as Hu. destruct (bytes_of m) as [|b l].
    - cbn [app]. apply be_word_large; [done|]. by vm_compute; repeat constructor.
    - cbn [app]. apply Forall_cons in Hu as [Hb Hl]. apply be_word_large; [unfold is_u8 in Hb; destruct (decide (b = 0)) as [->|]; [by destruct Hh|lia]|].
      apply Forall_app. split; [done|]. apply Forall_cons. split; [by unfold is_u8|].
      apply Forall_app. split; [apply Forall_forall; by intros x ->%list_elem_of_In%repeat_spec|]. apply length_bytes_u8. }
  lia.
Qed.

Lemma driver_misses_first_word_witness :
  head (bytes_of "abc") <> Some 0 /\
  Fips.be_word (Fips.pad (bytes_of "abc")) 0 ∉ stringToUint32Array (padding "abc").
Proof.
  assert (Hh : head (bytes_of "abc") <> Some 0) by (vm_compute; discriminate). split; [exact Hh|].
  apply (driver_misses_first_word "abc"); [reflexivity|exact Hh].
Defined.
